(* ===== verification/_CoqProject ===== *)
-Q . S2P
Prelude.v
Bytes.v
Encoding.v
GoStrings.v
GoIO.v
Zlib.v
Pktline.v
Multibase.v
Crypto.v
Platform.v
Database.v
Integrity.v
World.v
RedisStore.v
Session.v
Users.v
Totp.v
Sso.v
Orgs.v
Regexp.v
Filepath.v
Disk.v
Repos.v
Http.v
HttpAuth.v
HttpForge.v
HttpGit.v
Config.v
Mux.v
RateLimit.v
RateBound.v
Limits.v
Tls.v
Seed.v
Preserves.v
Logger.v
Server.v
Dispatch.v
Answers.v
Threads.v
LogLock.v
Calls.v
Races.v
UserRaces.v
OneTime.v
Concurrent.v
Credentials.v
Tokens.v
Authority.v
Liveness.v
Main.v
