(* ===== verification/Prelude.v ===== *)
(** * gitfed: a verification library for the federated git forge

    gitfed is an HTTP server in Go that keeps users, sessions, organizations and git
    repositories in PostgreSQL, tokens and other short-lived secrets in Redis, and the
    repositories themselves on disk, and that serves git's smart protocol through
    go-git.  This library translates the program, function by function, into executable
    definitions, and proves what makes it correct, or where it is not.

    ** The program and the files

    A request goes through the logger, the rate limit per address, the routes, and, for
    the routes that need a user, authentication; a handler decodes it, calls services,
    and answers; a service calls stores; a store runs SQL or Redis commands.  The files
    follow that structure from the bottom up.

    - Foundations.  [Prelude]: errors, results, the monad of calls on a state.  [Bytes],
      [Encoding], [GoStrings], [GoIO], [Regexp], [Filepath]: what the program uses of
      Go's standard library, with its laws.
    - Packages without state.  [Zlib] ([pkg/zlib]), [Pktline] ([pkg/pktline]),
      [Multibase] ([pkg/multibase]), [Crypto] ([pkg/crypto]).
    - The world.  [Platform]: identifiers, Redis, PostgreSQL, randomness, time and
      failures, as classes of operations apart from classes of their documented laws, and
      a concrete instance of each.  [Database]: the tables of [migrations/schema] and
      every query of [internal/database/sqlc].  [Integrity]: what the schema promises.
      [World]: the state of a run.  [RedisStore]: [internal/store/redis.go].  [Disk]: the
      calls to the operating system and to go-git.
    - Services and their stores, [internal/modules]: [Session], [Totp] (both
      [session/]), [Users] ([user/]), [Sso] ([sso/]), [Orgs] ([organization/]),
      [Repos] ([git/]).
    - HTTP, [internal/api/http]: [Http] (requests, responses, [middleware.go]),
      [HttpAuth] (the handlers of users, sessions, TOTP and Google sign-in), [HttpForge]
      (organizations and repositories), [HttpGit] (the git routes of [http.go], and
      [git_presenter.go]), [Mux] (the routing of [http.ServeMux]), [RateLimit],
      [RateBound] and [Limits] ([internal/ratelimit], with its Lua script; the last, the
      middlewares over a Redis that runs the script).
    - The programs: [Config] ([internal/config], [pkg/env]), [Logger] and [LogLock]
      ([pkg/logger], and the mutex of its handler), [Tls] ([pkg/tls]), [Seed]
      ([internal/admin/seed]), [Server] (the routes, the chain of [NewServer], and how
      [cmd/http-api] wires them), [Main] (the two programs of [cmd], from the
      configuration to the exit status).
    - Properties of the whole server: [Preserves] (rules for invariants of the database
      through the monad), [Server], [Dispatch], [Answers].
    - Requests at the same time.  [Threads]: a request as the calls it makes, and pools of
      requests whose calls interleave.  [Calls]: the calls that HTTP requests make.
      [Concurrent], [Credentials], [Tokens], [Authority], [Liveness]: the whole server.
      [Races] (logins, checks, refreshes, logouts), [UserRaces] (registrations) and
      [OneTime] (TOTP codes and OAuth states): the services alone.

    ** State and operations

    A Go function that calls something outside the program is a computation [M S A]: a
    state in, a result or an error and a state out; [attempt] is a call whose error the
    code inspects.  The services are written over interfaces, the Go interfaces as
    classes over any [S]; the stores are their instances on [World R D], which holds the
    tables, a Redis [R], a disk [D], the clock, and the number of calls made so far.  The
    class [Oracle] says what the [n]-th call meets: how long it takes, whether the
    connection fails and whether it took effect all the same, and the random bytes.  So a
    theorem about a world holds for every sequence of failures and delays within one
    request.  [FaultFree] is the hypothesis that no connection fails, where a theorem
    needs it.

    Requests that run at the same time are threads.  The same definitions, run on the
    state [Alone] of what one request has seen so far, stop at the next call that the
    request waits for; a pool of such requests takes steps, each the next call of one of
    them, on a world they share.  In [Concurrent] the calls are single SQL statements,
    Redis commands, operations on the disk, and looks at the clock, so that nothing the
    services and stores do between two of them is atomic.

    Tables are lists of rows, Redis is specified by the laws of SET, GET and DEL with an
    expiry, to the millisecond.  A reader of [Pktline] is a script of pieces; the buffer
    that [Next] returns slices of is part of its state.  Bytes are characters, integers
    are unbounded where the code cannot overflow them; numerals parsed from text are
    bounded as in Go.

    ** What is proved

    - The server under concurrent requests.  In every interleaving, with any failures,
      what changes an organization, a membership or a repository is a request whose token
      named a user before, as that user, and some request has shown the account of that
      very user ([racing_changes_are_earned]): by a login whose lookup met the account
      that the password opens, or by a callback for whose code Google named the email of
      the account, which the lookup after that met or which the request then added
      ([shows] of [Credentials]).  So it is with every token that Redis ever holds
      ([racing_tokens_are_earned]) and every row that is added to the sessions
      ([racing_sessions_are_earned]).  Memberships change by request of a member or of the
      founder ([racing_members_are_admitted]), and rows of repositories by request of the
      owner ([racing_repositories_are_the_owners]), whatever comes between the check and
      the change; and every request is answered within 26 calls
      ([racing_requests_are_answered]).  What these rest on are lemmas: the calls keep the
      schema ([racing_requests_keep_schema]), and a request that nobody disturbs does
      what its definition says ([undisturbed_http_request]).
    - One request.  Its answer has a form its status determines
      ([every_request_answered]); routing is a scan of the routes in order
      ([mux_scans_routes]).
    - Sessions and accounts: which tokens validate, for whom and how long; logins,
      registrations, logouts, TOTP codes, Google sign-in; what is not revoked.
    - Races of the services: no interleaving makes a token name a user nobody logged in
      as ([racing_tokens_name_users]) or lets two registrations have one name
      ([racing_registrations]); one interleaving undoes a logout
      ([logout_undone_by_refresh]).  A TOTP code and an OAuth state are refused to what
      begins after they were accepted ([racing_codes_die], [racing_states_die]), but not
      to what began before.
    - The programs: which configurations are refused, and how [admin seed] ends
      ([admin_exit_status]).
    - Organizations and repositories: who may change them, what a failure leaves behind,
      where a repository is on disk.
    - The git routes: which paths reach the backend ([git_requests_confined]), and that
      the database plays no part ([git_routes_ignore_the_database]).
    - The database: every reachable one satisfies the schema, and a deletion is final.
    - Packages: the pkt-line iterator refines the slice decoder and ends on every stream;
      round trips of frames, base58 and keys; which inputs are refused; which lines the
      log gets, and that concurrent records are not mixed, since the handlers made from
      one share its mutex ([records_are_whole]); whom a TLS server trusts; how many
      requests a rate limit lets through ([bucket_bounds_traffic]), that the middleware
      is one token bucket per client ([limiter_is_a_bucket_per_client]), and that a rate
      of zero, at which the script fails, is no limit at all ([zero_rate_is_no_limit]).

    Properties are marked by their number, C1 to C40, in the doc comment before them.
    Witnesses, in the [Demo] modules, apply them to concrete runs.

    ** Fuel and bounds

    Loops that take fuel: the digits of a numeral ([digits_fuel], one more than the base
    2 logarithm, which [digits_fuel_enough] shows to bound the digits in any base); the
    runes of a string, trimming it, and replacing in it (the length of the input, of
    which each step consumes at least a byte); and a client that reads frames
    ([read_all], for which [reading_ends] shows a bound).  A thread takes no fuel: it is
    asked for its next call only.  The 26 calls of a request are those of the longest
    handler and of the middleware before it.

    ** What is not modelled

    Third-party code is a parameter: go-git's storage, pack transport and HTTP backend,
    bcrypt, TOTP validation, OAuth, autocert, [compress/zlib], the JSON handler of
    [log/slog], and parsing JSON and X.509; so are the connections, the listener and the
    signals of the two [main].  A handshake and the bytes of a TLS connection are I/O: the
    configurations that [Dial] and [Listen] use are modelled, what [crypto/tls] does
    with them is not.  The lines that handlers write to the log are left out but in
    [Logger].  The program opens no transactions ([WithTx] has no callers), so that every
    statement is its own and isolation levels play no part.  The calls in [Races] and
    [UserRaces] are methods of a repository or a store, coarser than in [Concurrent]; in
    all of them one call takes effect after the other.  [pkg/logger/otel] and
    [pkg/logger/prometheus] hold no code. *)

From stdpp Require Export base decidable list gmap sets strings.
From Stdlib Require Export ZArith NArith Ascii Lia.

#[global] Set Default Goal Selector "!".
#[global] Open Scope Z_scope.

(** ** Go values *)

(** Go's [byte] and [[]byte]; a Go [string] is [String.string], a sequence of
    bytes as well. *)
Abbreviation byte := ascii (only parsing).
Abbreviation bytes := (list ascii) (only parsing).

Definition str (bs : bytes) : string := String.string_of_list_ascii bs.
Definition unstr (s : string) : bytes := String.list_ascii_of_string s.

(** ** Errors

    A package-level [errors.New] is a pointer: it is identified by its package
    and text.  [fmt.Errorf] with [%w] wraps an error, and without it makes a
    fresh error that no sentinel equals. *)
Inductive error :=
  | errors_New (pkg text : string)
  | fmt_Errorf_w (before : string) (inner : error) (after : string)
  | fmt_Errorf (text : string).

#[export] Instance error_eq_dec : EqDecision error.
Proof. solve_decision. Defined.

(** [errors.Is]: walk the chain of wrapped errors. *)
Fixpoint errors_Is (e target : error) : bool :=
  bool_decide (e = target) ||
  match e with
  | fmt_Errorf_w _ inner _ => errors_Is inner target
  | _ => false
  end.

(** [err.Error()]. *)
Fixpoint error_text (e : error) : string :=
  match e with
  | errors_New _ text => text
  | fmt_Errorf_w before inner after => before +:+ error_text inner +:+ after
  | fmt_Errorf text => text
  end.

(** A Go function with results [(A, error)]: the code under [src/] always
    returns the zero value beside a non-nil error. *)
Inductive result (A : Type) :=
  | Ok (a : A)
  | Err (e : error).
Arguments Ok {A} a.
Arguments Err {A} e.

#[export] Instance result_eq_dec {A} `{EqDecision A} : EqDecision (result A).
Proof. solve_decision. Defined.

#[export] Instance result_ret : MRet result := λ A a, Ok a.
#[export] Instance result_bind : MBind result := λ A B f r,
  match r with Ok a => f a | Err e => Err e end.
#[export] Instance result_fmap : FMap result := λ A B f r,
  match r with Ok a => Ok (f a) | Err e => Err e end.

Definition is_Ok {A} (r : result A) : bool :=
  match r with Ok _ => true | Err _ => false end.

(** [if err != nil { return ..., fmt.Errorf("...: %w", err) }] *)
Definition wrap_err {A} (before : string) (r : result A) : result A :=
  match r with Ok a => Ok a | Err e => Err (fmt_Errorf_w before e EmptyString) end.

(** What a call does when it may panic. *)
Inductive outcome (A : Type) :=
  | Returns (a : A)
  | Panics.
Arguments Returns {A} a.
Arguments Panics {A}.

(** ** Calls that act on a state *)

Definition M (S A : Type) : Type := S → result A * S.

#[export] Instance M_ret S : MRet (M S) := λ A a s, (Ok a, s).
#[export] Instance M_bind S : MBind (M S) := λ A B f m s,
  match m s with
  | (Ok a, s') => f a s'
  | (Err e, s') => (Err e, s')
  end.

Definition fail {S A} (e : error) : M S A := λ s, (Err e, s).

(** Bind a call together with its error, for code that inspects [err]. *)
Definition attempt {S A} (m : M S A) : M S (result A) := λ s,
  let '(r, s') := m s in (Ok r, s').

(** Return [(r, err)] as the call itself did. *)
Definition lift {S A} (r : result A) : M S A := λ s, (r, s).

Definition mwrap {S A} (before : string) (m : M S A) : M S A := λ s,
  let '(r, s') := m s in (wrap_err before r, s').

Lemma run_eq {S A} (m : M S A) s r : (m s).1 = r → m s = (r, (m s).2).
Proof. destruct (m s). by intros <-. Qed.

(** Inversions: what the calls of a run were. *)
Lemma M_bind_inv {S A B} (m : M S A) (f : A → M S B) s r s' :
  (m ≫= f) s = (r, s') →
  (∃ a s1, m s = (Ok a, s1) ∧ f a s1 = (r, s')) ∨ (∃ e, m s = (Err e, s') ∧ r = Err e).
Proof.
  unfold mbind, M_bind. destruct (m s) as [[a|e] s1]; [by eauto|].
  intros [= <- <-]. eauto.
Qed.

Lemma M_attempt_inv {S A} (m : M S A) s r s' :
  attempt m s = (r, s') → ∃ r0, m s = (r0, s') ∧ r = Ok r0.
Proof. unfold attempt. destruct (m s) as [r0 s0]. intros [= <- <-]. eauto. Qed.

Lemma M_bind_attempt_inv {S A B} (m : M S A) (f : result A → M S B) s r s' :
  (attempt m ≫= f) s = (r, s') → ∃ a s1, m s = (a, s1) ∧ f a s1 = (r, s').
Proof. unfold attempt, mbind, M_bind. destruct (m s) as [a s1]. eauto. Qed.

(** Runs, in the other direction. *)
Lemma M_bind_run {S A B} (m : M S A) (f : A → M S B) s a s' :
  m s = (Ok a, s') → (m ≫= f) s = f a s'.
Proof. intros Hm. unfold mbind, M_bind. by rewrite Hm. Qed.

Lemma M_bind_attempt_run {S A B} (m : M S A) (f : result A → M S B) s r s' :
  m s = (r, s') → (attempt m ≫= f) s = f r s'.
Proof. intros Hm. unfold attempt, mbind, M_bind. by rewrite Hm. Qed.

Lemma M_mwrap_inv {S A} before (m : M S A) s r s' :
  mwrap before m s = (r, s') → ∃ r0, m s = (r0, s') ∧ r = wrap_err before r0.
Proof. unfold mwrap. destruct (m s) as [r0 s0]. intros [= <- <-]. eauto. Qed.

Lemma wrap_err_Ok {A} before (r : result A) a : wrap_err before r = Ok a ↔ r = Ok a.
Proof. destruct r; cbn; naive_solver. Qed.

Lemma wrap_err_Err {A} before (r : result A) e :
  Err e = wrap_err before r → ∃ e', r = Err e' ∧ e = fmt_Errorf_w before e' EmptyString.
Proof. destruct r; cbn; naive_solver. Qed.

Lemma bind_Ok {A B} (r : result A) (f : A → result B) b :
  (r ≫= f) = Ok b ↔ ∃ a, r = Ok a ∧ f a = Ok b.
Proof. destruct r; cbn; naive_solver. Qed.

Lemma bind_Err {A B} (r : result A) (f : A → result B) e :
  (r ≫= f) = Err e ↔ r = Err e ∨ ∃ a, r = Ok a ∧ f a = Err e.
Proof. destruct r; cbn; naive_solver. Qed.

(** ** Strings as byte lists *)

Lemma unstr_str bs : unstr (str bs) = bs.
Proof. apply String.list_ascii_of_string_of_list_ascii. Qed.

Lemma str_unstr s : str (unstr s) = s.
Proof. apply String.string_of_list_ascii_of_string. Qed.

Lemma unstr_app s1 s2 : unstr (s1 +:+ s2) = unstr s1 ++ unstr s2.
Proof. induction s1 as [|c s1 IH]; [done|]. exact (f_equal (cons c) IH). Qed.

Lemma str_app b1 b2 : str (b1 ++ b2) = str b1 +:+ str b2.
Proof. induction b1 as [|c b1 IH]; [done|]. exact (f_equal (String c) IH). Qed.

#[export] Instance unstr_inj : Inj (=) (=) unstr.
Proof. intros s1 s2 H. by rewrite <- (str_unstr s1), H, str_unstr. Qed.

#[export] Instance str_inj : Inj (=) (=) str.
Proof. intros s1 s2 H. by rewrite <- (unstr_str s1), H, unstr_str. Qed.

Lemma unstr_length s : length (unstr s) = String.length s.
Proof. induction s as [|c s IH]; [done|]. exact (f_equal S IH). Qed.

Lemma unstr_nil_inv s : unstr s = [] → s = EmptyString.
Proof. by destruct s. Qed.

(** ** Lists *)

Lemma filter_all {A} (P : A → Prop) `{∀ a, Decision (P a)} (l : list A) :
  Forall P l → filter P l = l.
Proof. induction 1 as [|a l Ha _ IH]; [done|]. by rewrite filter_cons_True, IH. Qed.

(** ** Automation *)

Create HintDb gitfed discriminated.
Create Rewrite HintDb gitfed_str.
#[export] Hint Rewrite unstr_str str_unstr unstr_app str_app : gitfed_str.

Ltac invert_pair :=
  repeat match goal with
  | H : (_, _) = (_, _) |- _ => injection H as H; subst
  | H : Ok _ = Ok _ |- _ => injection H as H; subst
  | H : Err _ = Err _ |- _ => injection H as H; subst
  | H : Ok _ = Err _ |- _ => discriminate H
  | H : Err _ = Ok _ |- _ => discriminate H
  end.

(** Case on the scrutinee of a [match] of the goal or of a hypothesis. *)
Ltac case_goal :=
  match goal with
  | |- context [match ?x with _ => _ end] => destruct x eqn:?
  end.
Ltac case_hyp H :=
  match type of H with
  | context [match ?x with _ => _ end] => destruct x eqn:?
  end.

(** Decide the integer tests of the goal or of a hypothesis, one at a time. *)
Ltac z_test :=
  match goal with
  | |- context [(?a =? ?b)%Z] => destruct (Z.eqb_spec a b) as [?Heq|?Hne]
  | |- context [(?a <? ?b)%Z] => destruct (Z.ltb_spec a b) as [?Hlt|?Hge]
  | |- context [(?a <=? ?b)%Z] => destruct (Z.leb_spec a b) as [?Hle|?Hgt]
  | |- context [(?a =? ?b)%nat] => destruct (Nat.eqb_spec a b) as [?Heq|?Hne]
  | |- context [(?a <? ?b)%nat] => destruct (Nat.ltb_spec a b) as [?Hlt|?Hge]
  | |- context [(?a <=? ?b)%nat] => destruct (Nat.leb_spec a b) as [?Hle|?Hgt]
  end.

(** Split [H : m s = (r, s')] into the calls [m] makes, with a case for each
    way it may end.  Calls it does not know stay as hypotheses. *)
Ltac m_inv H :=
  lazymatch type of H with
  | mbind _ (attempt _) _ = _ =>
      let a := fresh "a" in let s1 := fresh "s" in let Hm := fresh "Hcall" in
      apply M_bind_attempt_inv in H as (a & s1 & Hm & H); m_inv Hm; try m_inv H
  | mbind ?f (lift (Ok ?a)) ?s = ?y => change (f a s = y) in H; cbv beta in H; m_inv H
  | mbind ?f (lift (Err ?e)) ?s = ?y => change ((Err e, s) = y) in H; simplify_eq
  | mbind _ _ _ = _ =>
      let a := fresh "a" in let s1 := fresh "s" in
      let e := fresh "e" in let Hm := fresh "Hcall" in let He := fresh in
      apply M_bind_inv in H as [(a & s1 & Hm & H)|(e & Hm & He)];
      [|simplify_eq]; m_inv Hm; try m_inv H
  | attempt _ _ = _ =>
      let r0 := fresh "r" in let Hr := fresh in
      apply M_attempt_inv in H as (r0 & H & Hr); simplify_eq; try m_inv H
  | mwrap _ _ _ = _ =>
      let r0 := fresh "r" in let Hr := fresh in
      apply M_mwrap_inv in H as (r0 & H & Hr);
      destruct r0; cbn [wrap_err] in Hr; simplify_eq; try m_inv H
  | mret _ _ = _ => unfold mret, M_ret in H; simplify_eq
  | fail _ _ = _ => unfold fail in H; simplify_eq
  | lift _ _ = _ => unfold lift in H; simplify_eq
  | _ => idtac
  end.
