(* ===== verification/Bytes.v ===== *)
(** Bytes as integers, positional numerals in any base, and the parts of Go's
    [strconv], [fmt] and [encoding/hex] that gitfed calls. *)

From stdpp Require Import list_numbers.
From S2P Require Import Prelude.

(** ** Bytes as integers *)

Definition byte_val (b : byte) : Z := Z.of_N (N_of_ascii b).

(** The conversion [byte(z)]: it keeps the low eight bits. *)
Definition byte_of (z : Z) : byte := ascii_of_N (Z.to_N (z mod 256)).

Lemma byte_val_range b : 0 ≤ byte_val b < 256.
Proof. unfold byte_val. pose proof (N_ascii_bounded b). lia. Qed.

Lemma byte_of_val b : byte_of (byte_val b) = b.
Proof.
  unfold byte_of. rewrite Z.mod_small by apply byte_val_range.
  unfold byte_val. rewrite N2Z.id. apply ascii_N_embedding.
Qed.

Lemma byte_val_of z : byte_val (byte_of z) = z mod 256.
Proof.
  unfold byte_val, byte_of. pose proof (Z.mod_pos_bound z 256 ltac:(lia)).
  rewrite N_ascii_embedding by lia. lia.
Qed.

Lemma byte_val_of_small z : 0 ≤ z < 256 → byte_val (byte_of z) = z.
Proof. intros. rewrite byte_val_of. by apply Z.mod_small. Qed.

#[export] Instance byte_val_inj : Inj (=) (=) byte_val.
Proof. intros b1 b2 H. by rewrite <- (byte_of_val b1), H, byte_of_val. Qed.

#[export] Hint Resolve byte_val_range : gitfed.

(** A fact about every byte is checked on the 256 of them. *)
Lemma byte_forall (P : byte → Prop) `{∀ b, Decision (P b)} :
  forallb (λ n, bool_decide (P (byte_of (Z.of_nat n)))) (seq 0 256) = true →
  ∀ b, P b.
Proof.
  intros Hall b. pose proof (byte_val_range b) as Hb.
  rewrite forallb_forall in Hall.
  assert (P (byte_of (Z.of_nat (Z.to_nat (byte_val b))))) as HP.
  { eapply bool_decide_eq_true_1, Hall. apply in_seq. lia. }
  by rewrite Z2Nat.id, byte_of_val in HP by lia.
Qed.

(** ** Positional numerals *)

Section numerals.
Context (base : Z) (base_ge_2 : 2 ≤ base).

(** Horner's rule on big-endian digits, as the accumulation loops do. *)
Definition of_digits (ds : list Z) : Z := foldl (λ acc d, acc * base + d) 0 ds.

(** Repeated division; [fuel] bounds the number of digits. *)
Fixpoint digits_le (fuel : nat) (n : Z) : list Z :=
  match fuel with
  | O => []
  | S fuel' => if n <=? 0 then [] else n mod base :: digits_le fuel' (n / base)
  end.

(** A number below [2 ^ k] has at most [k] digits in any base from two on. *)
Definition digits_fuel (n : Z) : nat := S (Z.to_nat (Z.log2 n)).

Definition digits (n : Z) : list Z := reverse (digits_le (digits_fuel n) n).
#[global] Arguments digits : simpl never.

Definition digit (d : Z) : Prop := 0 ≤ d < base.

Lemma of_digits_acc ds acc :
  foldl (λ acc d, acc * base + d) acc ds = acc * base ^ Z.of_nat (length ds) + of_digits ds.
Proof.
  unfold of_digits. revert acc. induction ds as [|d ds IH]; intros acc; cbn [foldl length].
  { lia. }
  rewrite IH, (IH (0 * base + d)).
  rewrite Nat2Z.inj_succ, Z.pow_succ_r by lia. lia.
Qed.

Lemma of_digits_cons d ds :
  of_digits (d :: ds) = d * base ^ Z.of_nat (length ds) + of_digits ds.
Proof. unfold of_digits at 1. cbn. rewrite of_digits_acc. lia. Qed.

Lemma of_digits_snoc ds d : of_digits (ds ++ [d]) = of_digits ds * base + d.
Proof. unfold of_digits. by rewrite foldl_app. Qed.

Lemma of_digits_nil : of_digits [] = 0.
Proof. done. Qed.

Lemma of_digits_bound ds :
  Forall digit ds → 0 ≤ of_digits ds < base ^ Z.of_nat (length ds).
Proof.
  induction ds as [|d ds IH] using rev_ind; intros Hds.
  { cbn. lia. }
  apply Forall_app in Hds as [Hds [Hd _]%Forall_cons].
  rewrite of_digits_snoc, length_app, Nat.add_1_r, Nat2Z.inj_succ, Z.pow_succ_r by lia.
  specialize (IH Hds). unfold digit in Hd. nia.
Qed.

Lemma of_digits_zeros k ds : of_digits (replicate k 0 ++ ds) = of_digits ds.
Proof. induction k as [|k IH]; [done|]. cbn [replicate app]. rewrite of_digits_cons. lia. Qed.

Lemma digits_le_enough f1 f2 n :
  n < 2 ^ Z.of_nat f1 → n < 2 ^ Z.of_nat f2 → digits_le f1 n = digits_le f2 n.
Proof.
  revert f2 n. induction f1 as [|f1 IH]; intros f2 n H1 H2; destruct f2 as [|f2];
    cbn [digits_le]; destruct (Z.leb_spec n 0); try done.
  - cbn in H1. lia.
  - cbn in H2. lia.
  - f_equal. rewrite Nat2Z.inj_succ, Z.pow_succ_r in H1, H2 by lia.
    apply IH; apply Z.div_lt_upper_bound; nia.
Qed.

Lemma digits_fuel_enough n : n < 2 ^ Z.of_nat (digits_fuel n).
Proof.
  unfold digits_fuel. destruct (Z.leb_spec n 0).
  { pose proof (Z.pow_pos_nonneg 2 (Z.of_nat (S (Z.to_nat (Z.log2 n))))). lia. }
  rewrite Nat2Z.inj_succ, Z2Nat.id by apply Z.log2_nonneg.
  by apply Z.log2_spec.
Qed.

Lemma digits_unfold n : 0 < n → digits n = digits (n / base) ++ [n mod base].
Proof.
  intros Hn. unfold digits. rewrite <- reverse_cons. f_equal.
  unfold digits_fuel at 1. cbn [digits_le].
  destruct (Z.leb_spec n 0); [lia|]. f_equal.
  apply digits_le_enough; [|apply digits_fuel_enough].
  rewrite Z2Nat.id by apply Z.log2_nonneg.
  pose proof (Z.log2_spec n Hn) as [_ Hlog].
  rewrite Z.pow_succ_r in Hlog by apply Z.log2_nonneg.
  apply Z.div_lt_upper_bound; nia.
Qed.

Lemma digits_nonpos n : n ≤ 0 → digits n = [].
Proof. intros. unfold digits, digits_fuel. cbn. by destruct (Z.leb_spec n 0); [|lia]. Qed.

(** Induction along repeated division. *)
Lemma div_ind (P : Z → Prop) :
  P 0 → (∀ n, 0 < n → P (n / base) → P n) → ∀ n, 0 ≤ n → P n.
Proof.
  intros H0 Hstep. apply Zlt_0_ind. intros n IH Hn.
  destruct (decide (n = 0)) as [->|]; [done|].
  apply Hstep; [lia|]. apply IH.
  split; [apply Z.div_pos; lia|apply Z.div_lt; lia].
Qed.

Lemma of_digits_digits n : 0 ≤ n → of_digits (digits n) = n.
Proof.
  revert n. apply div_ind; [done|]. intros n Hn IH.
  rewrite digits_unfold, of_digits_snoc, IH by done.
  pose proof (Z.div_mod n base). lia.
Qed.

Lemma digits_digit n : Forall digit (digits n).
Proof.
  destruct (decide (0 ≤ n)) as [Hn|]; [|by rewrite digits_nonpos by lia].
  revert n Hn. apply div_ind; [done|]. intros n Hn IH.
  rewrite digits_unfold by done. apply Forall_app; split; [done|].
  constructor; [|done]. by apply Z.mod_pos_bound; lia.
Qed.

(** The numeral has no leading zero, and is the only such one. *)
Lemma digits_head n : 0 < n → ∃ d ds, digits n = d :: ds ∧ 0 < d.
Proof.
  intros Hn. cut (n = 0 ∨ ∃ d ds, digits n = d :: ds ∧ 0 < d); [intros [?|?]; [lia|done]|].
  assert (0 ≤ n) as Hn' by lia. clear Hn. revert n Hn'. apply div_ind; [by left|].
  intros n Hn IH. right. rewrite digits_unfold by done. destruct IH as [IH|(d&ds&->&Hd)].
  - rewrite IH, digits_nonpos by lia. eexists _, []. split; [done|].
    pose proof (Z.div_mod n base). lia.
  - by exists d, (ds ++ [n mod base]).
Qed.

Lemma digits_of_digits d ds :
  0 < d → Forall digit (d :: ds) → digits (of_digits (d :: ds)) = d :: ds.
Proof.
  intros Hd. induction ds as [|e ds IH] using rev_ind; intros Hds.
  - apply Forall_cons in Hds as [Hd' _]. unfold digit in Hd'.
    change (of_digits [d]) with d.
    rewrite digits_unfold, Z.div_small, Z.mod_small by lia.
    by rewrite digits_nonpos.
  - rewrite app_comm_cons in Hds |- *.
    apply Forall_app in Hds as [Hds [He _]%Forall_cons].
    specialize (IH Hds). unfold digit in He.
    rewrite of_digits_snoc. set (v := of_digits (d :: ds)) in *.
    assert (0 < v) as Hv.
    { unfold v. rewrite of_digits_cons.
      pose proof (of_digits_bound ds (Forall_inv_tail Hds)).
      assert (0 < base ^ Z.of_nat (length ds)) by (apply Z.pow_pos_nonneg; lia). nia. }
    rewrite digits_unfold by nia.
    rewrite Z.div_add_l, (Z.div_small e), Z.add_0_r by lia.
    rewrite (Z.add_comm (v * base)), Z.mod_add, (Z.mod_small e) by lia.
    by rewrite IH.
Qed.

Lemma digits_of_digits_zeros k ds :
  Forall digit ds →
  (match ds with d :: _ => 0 < d | [] => True end) →
  digits (of_digits (replicate k 0 ++ ds)) = ds.
Proof.
  intros Hds Hhd. rewrite of_digits_zeros.
  destruct ds as [|d ds]; [by rewrite digits_nonpos|by apply digits_of_digits].
Qed.

(** Numerals of one length are determined by their value. *)
Lemma same_length_of_digits ds1 ds2 :
  length ds1 = length ds2 → Forall digit ds1 → Forall digit ds2 →
  of_digits ds1 = of_digits ds2 → ds1 = ds2.
Proof.
  revert ds2. induction ds1 as [|d1 ds1 IH]; intros [|d2 ds2] Hlen H1 H2 Heq; try done.
  apply Forall_cons in H1 as [Hd1 H1], H2 as [Hd2 H2]. injection Hlen as Hlen.
  rewrite !of_digits_cons, Hlen in Heq.
  pose proof (of_digits_bound ds1 H1) as B1. pose proof (of_digits_bound ds2 H2) as B2.
  rewrite Hlen in B1.
  assert (d1 = d2) as -> by nia. f_equal. apply IH; [done..|lia].
Qed.

Lemma length_digits_bound k n : 0 ≤ n < base ^ Z.of_nat k → (length (digits n) ≤ k)%nat.
Proof.
  revert n. induction k as [|k IH]; intros n Hn.
  { cbn in Hn. by rewrite digits_nonpos by lia. }
  destruct (decide (n = 0)) as [->|]; [rewrite digits_nonpos by done; cbn; lia|].
  rewrite digits_unfold, length_app by lia. cbn.
  rewrite Nat2Z.inj_succ, Z.pow_succ_r in Hn by lia.
  assert (length (digits (n / base)) ≤ k)%nat; [|lia].
  apply IH. split; [apply Z.div_pos; lia|apply Z.div_lt_upper_bound; lia].
Qed.
End numerals.
