(* ===== verification/Encoding.v ===== *)
(** The text encodings of Go's standard library that gitfed calls:
    [encoding/hex], [encoding/base64], [strconv.ParseUint] and the [%04x] verb
    of [fmt]. *)

From S2P Require Import Prelude.
From S2P Require Import Bytes.

(** ** Alphabets *)

(** The position of a byte in an alphabet. *)
Fixpoint alpha_val (alphabet : bytes) (c : byte) : option Z :=
  match alphabet with
  | [] => None
  | a :: rest =>
      if bool_decide (a = c) then Some 0 else (λ i, i + 1) <$> alpha_val rest c
  end.

Definition alpha_char (alphabet : bytes) (i : Z) : byte :=
  default zero (alphabet !! Z.to_nat i).

Lemma alpha_val_range alphabet c i :
  alpha_val alphabet c = Some i → 0 ≤ i < Z.of_nat (length alphabet).
Proof.
  revert i. induction alphabet as [|a rest IH]; intros i; cbn [alpha_val length]; [done|].
  case_bool_decide; [intros [= <-]; lia|].
  destruct (alpha_val rest c) as [j|]; [|done]. intros [= <-].
  specialize (IH j eq_refl). lia.
Qed.

Lemma alpha_char_val alphabet c i :
  alpha_val alphabet c = Some i → alpha_char alphabet i = c.
Proof.
  unfold alpha_char. revert i.
  induction alphabet as [|a rest IH]; intros i; cbn [alpha_val]; [done|].
  case_bool_decide; [by intros [= <-]; subst|].
  destruct (alpha_val rest c) as [j|] eqn:Hj; [|done]. intros [= <-].
  pose proof (alpha_val_range _ _ _ Hj).
  replace (Z.to_nat (j + 1)) with (S (Z.to_nat j)) by lia. cbn. by apply IH.
Qed.

Lemma alpha_val_char alphabet i :
  NoDup alphabet → 0 ≤ i < Z.of_nat (length alphabet) →
  alpha_val alphabet (alpha_char alphabet i) = Some i.
Proof.
  unfold alpha_char. revert i.
  induction alphabet as [|a rest IH]; intros i Hnd Hi; cbn [length] in Hi; [lia|].
  apply NoDup_cons in Hnd as [Hnotin Hnd]. cbn [alpha_val].
  destruct (decide (i = 0)) as [->|Hi0]; [by rewrite bool_decide_eq_true_2|].
  replace (Z.to_nat i) with (S (Z.to_nat (i - 1))) by lia. rewrite lookup_cons_ne_0, Nat.pred_succ by done.
  assert (is_Some (rest !! Z.to_nat (i - 1))) as [c Hc] by (apply lookup_lt_is_Some; lia).
  rewrite bool_decide_eq_false_2.
  - rewrite IH by (done || lia). cbn. f_equal. lia.
  - rewrite Hc. cbn. intros ->. by apply Hnotin, list_elem_of_lookup_2 with (Z.to_nat (i - 1)).
Qed.

(** ** [encoding/hex] *)

Definition hex_digit (d : Z) : byte := byte_of (if d <? 10 then 48 + d else 87 + d).

(** The value of a hexadecimal digit, in either case. *)
Definition hex_val (c : byte) : option Z :=
  let v := byte_val c in
  if (48 <=? v) && (v <=? 57) then Some (v - 48)
  else if (97 <=? v) && (v <=? 102) then Some (v - 87)
  else if (65 <=? v) && (v <=? 70) then Some (v - 55)
  else None.

(** ASCII lower case, as [c | 0x20] on a letter. *)
Definition to_lower (c : byte) : byte :=
  let v := byte_val c in if (65 <=? v) && (v <=? 90) then byte_of (v + 32) else c.

Lemma hex_val_range c d : hex_val c = Some d → 0 ≤ d < 16.
Proof. unfold hex_val. intros. repeat (case_match; simplify_eq; try lia). Qed.

Lemma hex_val_digit d : 0 ≤ d < 16 → hex_val (hex_digit d) = Some d.
Proof.
  intros Hd. unfold hex_val, hex_digit.
  destruct (Z.ltb_spec d 10); rewrite byte_val_of_small by lia;
    repeat (case_match; try (f_equal; lia)); lia.
Qed.

Lemma hex_digit_val c d : hex_val c = Some d → hex_digit d = to_lower c.
Proof.
  unfold hex_val, hex_digit, to_lower. pose proof (byte_val_range c) as Hc.
  intros Hd. apply (inj byte_val).
  repeat case_match; simplify_eq; rewrite ?byte_val_of_small by lia; lia.
Qed.

(** [hex.EncodeToString]. *)
Definition hex_EncodeToString (bs : bytes) : bytes :=
  flat_map (λ b, [hex_digit (byte_val b / 16); hex_digit (byte_val b mod 16)]) bs.

(** [hex.DecodeString]: [None] for an error (an invalid byte or an odd length). *)
Fixpoint hex_DecodeString (s : bytes) : option bytes :=
  match s with
  | [] => Some []
  | hi :: lo :: rest =>
      h ← hex_val hi; l ← hex_val lo; bs ← hex_DecodeString rest;
      Some (byte_of (h * 16 + l) :: bs)
  | [_] => None
  end.

Lemma length_hex_EncodeToString bs :
  length (hex_EncodeToString bs) = (2 * length bs)%nat.
Proof.
  induction bs as [|b bs IH]; [done|].
  change (S (S (length (hex_EncodeToString bs))) = (2 * S (length bs))%nat). lia.
Qed.

Lemma byte_nibbles b : 0 ≤ byte_val b / 16 < 16 ∧ 0 ≤ byte_val b mod 16 < 16.
Proof.
  pose proof (byte_val_range b). split; [|by apply Z.mod_pos_bound].
  split; [apply Z.div_pos|apply Z.div_lt_upper_bound]; lia.
Qed.

Lemma hex_decode_encode bs : hex_DecodeString (hex_EncodeToString bs) = Some bs.
Proof.
  induction bs as [|b bs IH]; [done|].
  cbn [hex_EncodeToString flat_map app hex_DecodeString].
  rewrite !hex_val_digit by apply byte_nibbles.
  fold (hex_EncodeToString bs). cbn. rewrite IH. cbn.
  rewrite (Z.mul_comm (_ / 16)), <- Z.div_mod, byte_of_val by lia. done.
Qed.

(** Induction two bytes at a time. *)
Lemma pair_ind {A} (P : list A → Prop) :
  P [] → (∀ a, P [a]) → (∀ a b l, P l → P (a :: b :: l)) → ∀ l, P l.
Proof.
  intros H0 H1 H2. fix IH 1. intros [|a [|b l]]; [done|done|]. apply H2, IH.
Qed.

Lemma hex_encode_decode s bs :
  hex_DecodeString s = Some bs → hex_EncodeToString bs = to_lower <$> s.
Proof.
  revert bs. induction s as [|a|a b s IH] using pair_ind; intros bs; [by intros [= <-]|done|].
  cbn. destruct (hex_val a) as [h|] eqn:Ha; [|done].
  destruct (hex_val b) as [l|] eqn:Hb; [|done]. cbn.
  destruct (hex_DecodeString s) as [bs'|]; [|done]. intros [= <-]. cbn.
  pose proof (hex_val_range _ _ Ha). pose proof (hex_val_range _ _ Hb).
  rewrite byte_val_of_small, Z.div_add_l, (Z.div_small l), Z.add_0_r by lia.
  rewrite (Z.add_comm (h * 16)), Z.mod_add, (Z.mod_small l) by lia.
  rewrite (hex_digit_val _ _ Ha), (hex_digit_val _ _ Hb). do 2 f_equal. by apply IH.
Qed.

Lemma hex_DecodeString_length s bs :
  hex_DecodeString s = Some bs → length s = (2 * length bs)%nat.
Proof.
  intros H. apply hex_encode_decode in H as H'. apply (f_equal length) in H'.
  rewrite length_hex_EncodeToString, length_fmap in H'. lia.
Qed.

(** ASCII upper case. *)
Definition to_upper (c : byte) : byte :=
  let v := byte_val c in if (97 <=? v) && (v <=? 122) then byte_of (v - 32) else c.

Lemma hex_val_upper c : hex_val (to_upper c) = hex_val c.
Proof. revert c. refine (byte_forall (λ c, hex_val (to_upper c) = hex_val c) _). by vm_compute. Qed.

(** The decoder does not look at the case of the digits. *)
Lemma hex_DecodeString_upper s : hex_DecodeString (to_upper <$> s) = hex_DecodeString s.
Proof.
  induction s as [|a|a b s IH] using pair_ind; [done..|].
  change (to_upper <$> (a :: b :: s)) with (to_upper a :: to_upper b :: (to_upper <$> s)).
  cbn [hex_DecodeString]. by rewrite !hex_val_upper, IH.
Qed.

(** ** [strconv.ParseUint] in base 16 and the [%04x] verb *)

Fixpoint parse_hex_loop (maxVal n : Z) (s : bytes) : option Z :=
  match s with
  | [] => Some n
  | c :: rest =>
      d ← hex_val c;
      let n1 := n * 16 + d in
      if maxVal <? n1 then None else parse_hex_loop maxVal n1 rest
  end.

(** [strconv.ParseUint(s, 16, bitSize)]: [None] for a syntax or range error. *)
Definition ParseUint_16 (bitSize : Z) (s : bytes) : option Z :=
  match s with [] => None | _ => parse_hex_loop (2 ^ bitSize - 1) 0 s end.

(** [fmt.Sprintf("%04x", n)] for a non-negative [n]. *)
Definition fmt_04x (n : Z) : bytes :=
  let ds := hex_digit <$> digits 16 n in
  replicate (4 - length ds) (hex_digit 0) ++ ds.

Lemma parse_hex_loop_digits maxVal n ds :
  Forall (digit 16) ds → 0 ≤ n →
  foldl (λ acc d, acc * 16 + d) n ds ≤ maxVal →
  parse_hex_loop maxVal n (hex_digit <$> ds) = Some (foldl (λ acc d, acc * 16 + d) n ds).
Proof.
  revert n. induction ds as [|d ds IH]; intros n Hds Hn Hmax; [done|].
  apply Forall_cons in Hds as [Hd Hds]. unfold digit in Hd. cbn in *.
  rewrite hex_val_digit by done. cbn.
  assert (n * 16 + d ≤ maxVal).
  { rewrite of_digits_acc in Hmax by lia.
    pose proof (of_digits_bound 16 ltac:(lia) ds Hds).
    assert (0 < 16 ^ Z.of_nat (length ds)) by (apply Z.pow_pos_nonneg; lia). nia. }
  destruct (Z.ltb_spec maxVal (n * 16 + d)); [lia|]. apply IH; [done|lia|done].
Qed.

Lemma parse_hex_loop_inv maxVal n s r :
  parse_hex_loop maxVal n s = Some r →
  ∃ ds, Forall (digit 16) ds ∧ hex_digit <$> ds = to_lower <$> s ∧
        mapM hex_val s = Some ds ∧ r = foldl (λ acc d, acc * 16 + d) n ds.
Proof.
  revert n. induction s as [|c s IH]; intros n; cbn; [intros [= <-]; by exists []|].
  destruct (hex_val c) as [d|] eqn:Hd; cbn; [|done]. case_match; [done|].
  intros (ds&Hds&Hmap&HM&->)%IH. exists (d :: ds). rewrite HM. cbn.
  rewrite Hmap, (hex_digit_val _ _ Hd). repeat split.
  constructor; [by apply (hex_val_range c)|done].
Qed.

(** The [k]-digit numeral of [n], with leading zeros. *)
Lemma padded_digits n :
  0 ≤ n < 65536 →
  fmt_04x n = hex_digit <$> (replicate (4 - length (digits 16 n)) 0 ++ digits 16 n)
  ∧ (length (digits 16 n) ≤ 4)%nat.
Proof.
  intros Hn. split; [|by apply (length_digits_bound 16 ltac:(lia) 4)].
  unfold fmt_04x. rewrite length_fmap, fmap_app, fmap_replicate. done.
Qed.

Lemma length_fmt_04x n : 0 ≤ n < 65536 → length (fmt_04x n) = 4%nat.
Proof.
  intros Hn. destruct (padded_digits n Hn) as [-> Hlen].
  rewrite length_fmap, length_app, length_replicate. lia.
Qed.

Lemma ParseUint_fmt_04x n : 0 ≤ n < 65536 → ParseUint_16 16 (fmt_04x n) = Some n.
Proof.
  intros Hn. pose proof (length_fmt_04x n Hn) as Hlen.
  unfold ParseUint_16. destruct (fmt_04x n) as [|c s] eqn:Hf; [done|]. rewrite <- Hf.
  destruct (padded_digits n Hn) as [-> _].
  assert (Forall (digit 16) (replicate (4 - length (digits 16 n)) 0 ++ digits 16 n)).
  { apply Forall_app; split; [apply Forall_replicate; unfold digit; lia|].
    apply digits_digit. lia. }
  assert (foldl (λ acc d, acc * 16 + d) 0
            (replicate (4 - length (digits 16 n)) 0 ++ digits 16 n) = n) as Hval.
  { change (of_digits 16 (replicate (4 - length (digits 16 n)) 0 ++ digits 16 n) = n).
    rewrite of_digits_zeros, of_digits_digits by lia. done. }
  rewrite parse_hex_loop_digits; rewrite ?Hval; [done|done|lia|lia].
Qed.

Lemma ParseUint_4_inv s n :
  length s = 4%nat → ParseUint_16 16 s = Some n →
  0 ≤ n < 65536 ∧ fmt_04x n = to_lower <$> s.
Proof.
  intros Hlen HP. assert (parse_hex_loop (2 ^ 16 - 1) 0 s = Some n) as H by by destruct s.
  apply parse_hex_loop_inv in H as (ds&Hds&Hmap&_&Hn).
  assert (length ds = 4%nat) as Hl.
  { apply (f_equal length) in Hmap. rewrite !length_fmap in Hmap. lia. }
  change (n = of_digits 16 ds) in Hn.
  pose proof (of_digits_bound 16 ltac:(lia) ds Hds) as Hb. rewrite Hl in Hb.
  assert (0 ≤ n < 65536) as Hrange by (rewrite Hn; exact Hb). split; [done|].
  destruct (padded_digits n Hrange) as [-> Hle]. rewrite <- Hmap. f_equal.
  (* two 4-digit numerals of the same value *)
  apply (same_length_of_digits 16); [lia| | |done|].
  - rewrite length_app, length_replicate. lia.
  - apply Forall_app; split; [apply Forall_replicate; unfold digit; lia|apply digits_digit; lia].
  - by rewrite of_digits_zeros, of_digits_digits by lia.
Qed.

(** ** [encoding/base64] *)

(** An encoding is an alphabet of 64 bytes and its padding byte, if any. *)
Record base64_encoding := {
  b64_alphabet : bytes;
  b64_pad : option byte;
}.

Definition base64_std_alphabet : bytes :=
  unstr "ABCDEFGHIJKLMNOPQRSTUVWXYZabcdefghijklmnopqrstuvwxyz0123456789+/".
Definition base64_url_alphabet : bytes :=
  unstr "ABCDEFGHIJKLMNOPQRSTUVWXYZabcdefghijklmnopqrstuvwxyz0123456789-_".

Definition base64_StdEncoding : base64_encoding :=
  {| b64_alphabet := base64_std_alphabet; b64_pad := Some "="%char |}.
Definition base64_RawStdEncoding : base64_encoding :=
  {| b64_alphabet := base64_std_alphabet; b64_pad := None |}.
Definition base64_RawURLEncoding : base64_encoding :=
  {| b64_alphabet := base64_url_alphabet; b64_pad := None |}.

Lemma byte_of_eq b z : z = byte_val b → byte_of z = b.
Proof. intros ->. apply byte_of_val. Qed.

(** Arithmetic on six-bit and eight-bit groups. *)
Ltac sextet := Z.to_euclidean_division_equations; lia.

Section base64.
Context (enc : base64_encoding).

Definition b64_val (c : byte) : option Z := alpha_val (b64_alphabet enc) c.
Definition b64_chr (i : Z) : byte := alpha_char (b64_alphabet enc) i.
Definition b64_pads (n : nat) : bytes :=
  match b64_pad enc with Some p => replicate n p | None => [] end.

(** [EncodeToString]: groups of three bytes, six bits a character. *)
Fixpoint base64_EncodeToString (bs : bytes) : bytes :=
  match bs with
  | [] => []
  | [a] =>
      let v := byte_val a in
      [b64_chr (v / 4); b64_chr (v mod 4 * 16)] ++ b64_pads 2
  | [a; b] =>
      let v := byte_val a * 256 + byte_val b in
      [b64_chr (v / 1024); b64_chr (v / 16 mod 64); b64_chr (v mod 16 * 4)] ++ b64_pads 1
  | a :: b :: c :: rest =>
      let v := (byte_val a * 256 + byte_val b) * 256 + byte_val c in
      b64_chr (v / 262144) :: b64_chr (v / 4096 mod 64) :: b64_chr (v / 64 mod 64) ::
      b64_chr (v mod 64) :: base64_EncodeToString rest
  end.

(** The bytes of a quantum of two, three or four characters.  The unused low
    bits of the last character are not examined. *)
Definition quantum2 (v0 v1 : Z) : bytes := [byte_of (v0 * 4 + v1 / 16)].
Definition quantum3 (v0 v1 v2 : Z) : bytes :=
  [byte_of (v0 * 4 + v1 / 16); byte_of (v1 mod 16 * 16 + v2 / 4)].
Definition quantum4 (v0 v1 v2 v3 : Z) : bytes :=
  [byte_of (v0 * 4 + v1 / 16); byte_of (v1 mod 16 * 16 + v2 / 4);
   byte_of (v2 mod 4 * 64 + v3)].

(** The decoding loop on the input without line breaks.  Padding ends the
    input, and an input without its padding is an error where there is some. *)
Fixpoint base64_quanta (s : bytes) : option bytes :=
  match s with
  | [] => Some []
  | [_] => None
  | [c0; c1] =>
      match b64_pad enc with
      | Some _ => None
      | None => v0 ← b64_val c0; v1 ← b64_val c1; Some (quantum2 v0 v1)
      end
  | [c0; c1; c2] =>
      match b64_pad enc with
      | Some _ => None
      | None => v0 ← b64_val c0; v1 ← b64_val c1; v2 ← b64_val c2; Some (quantum3 v0 v1 v2)
      end
  | c0 :: c1 :: c2 :: c3 :: rest =>
      v0 ← b64_val c0; v1 ← b64_val c1;
      match b64_val c2, b64_val c3 with
      | Some v2, Some v3 =>
          bs ← base64_quanta rest; Some (quantum4 v0 v1 v2 v3 ++ bs)
      | Some v2, None =>
          if bool_decide (Some c3 = b64_pad enc ∧ rest = [])
          then Some (quantum3 v0 v1 v2) else None
      | None, _ =>
          if bool_decide (Some c2 = b64_pad enc ∧ Some c3 = b64_pad enc ∧ rest = [])
          then Some (quantum2 v0 v1) else None
      end
  end.

(** [DecodeString] skips the line breaks of its input. *)
Definition line_break (c : byte) : Prop := c = "010"%char ∨ c = "013"%char.
Definition base64_DecodeString (s : bytes) : option bytes :=
  base64_quanta (filter (λ c, ¬ line_break c) s).

(** What holds of each of the three encodings. *)
Definition base64_ok : Prop :=
  NoDup (b64_alphabet enc) ∧ length (b64_alphabet enc) = 64%nat ∧
  Forall (λ c, ¬ line_break c) (b64_alphabet enc) ∧
  match b64_pad enc with
  | Some p => (p ∉ b64_alphabet enc) ∧ ¬ line_break p
  | None => True
  end.

#[export] Instance base64_ok_dec : Decision base64_ok.
Proof using. unfold base64_ok, line_break. destruct (b64_pad enc); apply _. Defined.

Context (Hok : base64_ok).

Local Lemma val_chr i : 0 ≤ i < 64 → b64_val (b64_chr i) = Some i.
Proof using Hok.
  intros Hi. destruct Hok as (Hnd&Hlen&_). apply alpha_val_char; [done|].
  rewrite Hlen. lia.
Qed.

Local Lemma val_pad p : b64_pad enc = Some p → b64_val p = None.
Proof using Hok.
  intros Hp. destruct Hok as (_&_&_&Hpad). rewrite Hp in Hpad. destruct Hpad as [Hpad _].
  destruct (b64_val p) as [i|] eqn:Hi; [|done]. exfalso. apply Hpad.
  pose proof (alpha_val_range _ _ _ Hi).
  rewrite <- (alpha_char_val _ _ _ Hi). unfold alpha_char.
  assert (is_Some (b64_alphabet enc !! Z.to_nat i)) as [c Hc]
    by (apply lookup_lt_is_Some_2; lia).
  rewrite Hc. by apply list_elem_of_lookup_2 in Hc.
Qed.

Local Lemma chr_not_break i : 0 ≤ i < 64 → ¬ line_break (b64_chr i).
Proof using Hok.
  intros Hi. destruct Hok as (_&Hlen&Hnb&_). unfold b64_chr, alpha_char.
  assert (is_Some (b64_alphabet enc !! Z.to_nat i)) as [c Hc]
    by (apply lookup_lt_is_Some_2; lia).
  rewrite Hc. exact (Forall_lookup_1 _ _ _ _ Hnb Hc).
Qed.

Local Lemma pads_not_break n : Forall (λ c, ¬ line_break c) (b64_pads n).
Proof using Hok.
  destruct Hok as (_&_&_&Hpad). unfold b64_pads. destruct (b64_pad enc); [|done].
  destruct Hpad. by apply Forall_replicate.
Qed.

Lemma triple_ind {A} (P : list A → Prop) :
  P [] → (∀ a, P [a]) → (∀ a b, P [a; b]) →
  (∀ a b c l, P l → P (a :: b :: c :: l)) → ∀ l, P l.
Proof using.
  intros H0 H1 H2 H3. fix IH 1. intros [|a [|b [|c l]]]; [done..|]. apply H3, IH.
Qed.

Ltac quantum_eq :=
  cbn; unfold quantum2, quantum3, quantum4; cbn; apply f_equal;
  repeat (apply (f_equal2 cons); [apply byte_of_eq; sextet|]); done.

Lemma base64_quanta_encode bs : base64_quanta (base64_EncodeToString bs) = Some bs.
Proof using Hok.
  induction bs as [|a|a b|a b c bs IH] using triple_ind; [done| | |].
  - pose proof (byte_val_range a) as Ha. cbn [base64_EncodeToString app].
    unfold b64_pads. destruct (b64_pad enc) as [p|] eqn:Hp; cbn [replicate app base64_quanta].
    + rewrite (val_pad p Hp), !val_chr, bool_decide_eq_true_2 by (done || sextet).
      quantum_eq.
    + rewrite Hp, !val_chr by sextet. quantum_eq.
  - pose proof (byte_val_range a) as Ha. pose proof (byte_val_range b) as Hb.
    cbn [base64_EncodeToString app].
    unfold b64_pads. destruct (b64_pad enc) as [p|] eqn:Hp; cbn [replicate app base64_quanta].
    + rewrite (val_pad p Hp), !val_chr, bool_decide_eq_true_2 by (done || sextet).
      quantum_eq.
    + rewrite Hp, !val_chr by sextet. quantum_eq.
  - pose proof (byte_val_range a) as Ha. pose proof (byte_val_range b) as Hb.
    pose proof (byte_val_range c) as Hc.
    cbn [base64_EncodeToString base64_quanta].
    rewrite !val_chr by sextet. cbn. rewrite IH. quantum_eq.
Qed.

Lemma base64_EncodeToString_no_break bs :
  Forall (λ c, ¬ line_break c) (base64_EncodeToString bs).
Proof using Hok.
  induction bs as [|a|a b|a b c bs IH] using triple_ind; [done| | |];
    cbn [base64_EncodeToString app]; try pose proof (byte_val_range a);
    try pose proof (byte_val_range b); try pose proof (byte_val_range c);
    repeat (apply Forall_cons; split; [apply chr_not_break; sextet|]);
    first [exact IH|apply pads_not_break].
Qed.

Theorem base64_decode_encode bs :
  base64_DecodeString (base64_EncodeToString bs) = Some bs.
Proof using Hok.
  unfold base64_DecodeString.
  rewrite filter_all by apply base64_EncodeToString_no_break.
  apply base64_quanta_encode.
Qed.
End base64.

Lemma base64_encodings_ok :
  base64_ok base64_StdEncoding ∧ base64_ok base64_RawStdEncoding
  ∧ base64_ok base64_RawURLEncoding.
Proof. repeat split; apply (bool_decide_unpack _); by vm_compute. Qed.
