(* ===== verification/GoStrings.v ===== *)
(** The parts of Go's [strings] and [unicode/utf8] that gitfed calls, on the
    byte lists behind Go strings. *)

From S2P Require Import Prelude.
From S2P Require Import Bytes.

(** ** Prefixes and suffixes *)

Fixpoint strip_prefix (p s : bytes) : option bytes :=
  match p, s with
  | [], _ => Some s
  | a :: p', b :: s' => if bool_decide (a = b) then strip_prefix p' s' else None
  | _ :: _, [] => None
  end.

Definition strip_suffix (p s : bytes) : option bytes :=
  reverse <$> strip_prefix (reverse p) (reverse s).

Definition HasPrefix (s p : string) : bool :=
  bool_decide (is_Some (strip_prefix (unstr p) (unstr s))).
Definition HasSuffix (s p : string) : bool :=
  bool_decide (is_Some (strip_suffix (unstr p) (unstr s))).
Definition CutPrefix (s p : string) : string * bool :=
  match strip_prefix (unstr p) (unstr s) with
  | Some rest => (str rest, true)
  | None => (s, false)
  end.
Definition CutSuffix (s p : string) : string * bool :=
  match strip_suffix (unstr p) (unstr s) with
  | Some rest => (str rest, true)
  | None => (s, false)
  end.

Lemma strip_prefix_Some p s rest : strip_prefix p s = Some rest ↔ s = p ++ rest.
Proof.
  revert s. induction p as [|a p IH]; intros s; cbn; [naive_solver|].
  destruct s as [|b s]; [naive_solver|]. case_bool_decide; [|naive_solver].
  subst. rewrite IH. naive_solver.
Qed.

Lemma strip_suffix_Some p s rest : strip_suffix p s = Some rest ↔ s = rest ++ p.
Proof.
  unfold strip_suffix. rewrite fmap_Some. split.
  - intros (r&Hr%strip_prefix_Some&->).
    by rewrite <- (reverse_involutive s), Hr, reverse_app, reverse_involutive.
  - intros ->. exists (reverse rest). by rewrite reverse_involutive, strip_prefix_Some, reverse_app.
Qed.

Lemma HasPrefix_spec s p : HasPrefix s p = true ↔ ∃ rest, s = p +:+ rest.
Proof.
  unfold HasPrefix. rewrite bool_decide_eq_true. split.
  - intros [r Hr%strip_prefix_Some]. exists (str r). apply (inj unstr).
    by rewrite unstr_app, unstr_str.
  - intros [r ->]. exists (unstr r). by rewrite strip_prefix_Some, unstr_app.
Qed.

Lemma CutSuffix_true s p rest : CutSuffix s p = (rest, true) ↔ s = rest +:+ p.
Proof.
  unfold CutSuffix. destruct (strip_suffix (unstr p) (unstr s)) as [r|] eqn:Hr.
  - apply strip_suffix_Some in Hr. split.
    + intros [= <-]. apply (inj unstr). by rewrite unstr_app, unstr_str.
    + intros ->. rewrite unstr_app in Hr. apply app_inv_tail in Hr. by rewrite <- Hr, str_unstr.
  - split; [done|]. intros ->. exfalso.
    assert (strip_suffix (unstr p) (unstr (rest +:+ p)) = Some (unstr rest)); [|congruence].
    by rewrite strip_suffix_Some, unstr_app.
Qed.

(** ** Runes *)

Definition RuneError : Z := 65533.

Definition continuation (lo hi b : Z) : bool := (lo <=? b) && (b <=? hi).

(** [utf8.DecodeRune]: the rune and its width; an invalid encoding is
    [RuneError] of width one. *)
Definition decode_rune (s : bytes) : Z * nat :=
  match byte_val <$> s with
  | [] => (RuneError, 0%nat)
  | b0 :: rest =>
      if b0 <? 128 then (b0, 1%nat)
      else if (194 <=? b0) && (b0 <=? 223) then
        match rest with
        | b1 :: _ =>
            if continuation 128 191 b1 then ((b0 - 192) * 64 + (b1 - 128), 2%nat)
            else (RuneError, 1%nat)
        | _ => (RuneError, 1%nat)
        end
      else if (224 <=? b0) && (b0 <=? 239) then
        match rest with
        | b1 :: b2 :: _ =>
            let lo := if b0 =? 224 then 160 else 128 in
            let hi := if b0 =? 237 then 159 else 191 in
            if continuation lo hi b1 && continuation 128 191 b2
            then (((b0 - 224) * 64 + (b1 - 128)) * 64 + (b2 - 128), 3%nat)
            else (RuneError, 1%nat)
        | _ => (RuneError, 1%nat)
        end
      else if (240 <=? b0) && (b0 <=? 244) then
        match rest with
        | b1 :: b2 :: b3 :: _ =>
            let lo := if b0 =? 240 then 144 else 128 in
            let hi := if b0 =? 244 then 143 else 191 in
            if continuation lo hi b1 && continuation 128 191 b2 && continuation 128 191 b3
            then ((((b0 - 240) * 64 + (b1 - 128)) * 64 + (b2 - 128)) * 64 + (b3 - 128), 4%nat)
            else (RuneError, 1%nat)
        | _ => (RuneError, 1%nat)
        end
      else (RuneError, 1%nat)
  end.

(** [for _, c := range s]: every step consumes a byte at least. *)
Fixpoint runes_loop (fuel : nat) (s : bytes) : list Z :=
  match fuel, s with
  | S fuel', _ :: _ => let '(r, n) := decode_rune s in r :: runes_loop fuel' (drop n s)
  | _, _ => []
  end.
Definition runes (s : bytes) : list Z := runes_loop (length s) s.

Lemma runes_ascii s : Forall (λ b, byte_val b < 128) s → runes s = byte_val <$> s.
Proof.
  unfold runes. induction 1 as [|b s Hb _ IH]; [done|]. cbn [length runes_loop].
  assert (decode_rune (b :: s) = (byte_val b, 1%nat)) as ->.
  { unfold decode_rune. cbn. by destruct (Z.ltb_spec (byte_val b) 128); [|lia]. }
  change (drop 1 (b :: s)) with s. by rewrite IH.
Qed.

(** ** Trimming *)

(** [strings.TrimPrefix] *)
Definition TrimPrefix (s p : bytes) : bytes :=
  match strip_prefix p s with Some rest => rest | None => s end.

Fixpoint trim_left (P : byte → bool) (s : bytes) : bytes :=
  match s with
  | [] => []
  | c :: s' => if P c then trim_left P s' else s
  end.
Definition trim_right (P : byte → bool) (s : bytes) : bytes :=
  reverse (trim_left P (reverse s)).

(** [strings.Trim(s, c)] for a cutset of one ASCII byte. *)
Definition Trim_byte (c : byte) (s : bytes) : bytes :=
  trim_right (λ b, bool_decide (b = c)) (trim_left (λ b, bool_decide (b = c)) s).

Lemma trim_left_spec P s :
  ∃ l, s = l ++ trim_left P s ∧ ∀ c, head (trim_left P s) = Some c → P c = false.
Proof.
  induction s as [|c s (l & Hs & Hh)]; [by exists []|]. cbn. destruct (P c) eqn:Hc.
  - exists (c :: l). split; [cbn; by f_equal|done].
  - exists []. split; [done|]. by intros c' [= <-].
Qed.

Lemma trim_left_same P s : (∀ c, head s = Some c → P c = false) → trim_left P s = s.
Proof. destruct s as [|c s]; [done|]. cbn. intros H. by rewrite H. Qed.

Lemma trim_right_spec P s :
  ∃ l, s = trim_right P s ++ l ∧ ∀ c, last (trim_right P s) = Some c → P c = false.
Proof.
  unfold trim_right. destruct (trim_left_spec P (reverse s)) as (l & Hs & Hh).
  exists (reverse l). split.
  - rewrite <- reverse_app, <- Hs. by rewrite reverse_involutive.
  - intros c. rewrite last_reverse. apply Hh.
Qed.

Lemma trim_right_same P s : (∀ c, last s = Some c → P c = false) → trim_right P s = s.
Proof.
  unfold trim_right. intros H. rewrite trim_left_same; [apply reverse_involutive|].
  intros c. rewrite head_reverse. apply H.
Qed.

(** What is trimmed on the right keeps its front, unless nothing is left. *)
Lemma Trim_byte_spec c s :
  ∃ l r, s = l ++ Trim_byte c s ++ r ∧
  head (Trim_byte c s) ≠ Some c ∧ last (Trim_byte c s) ≠ Some c.
Proof.
  unfold Trim_byte. set (P := λ b, bool_decide (b = c)).
  destruct (trim_left_spec P s) as (l & Hs & Hh).
  destruct (trim_right_spec P (trim_left P s)) as (r & Ht & Hl).
  exists l, r. split_and!.
  - by rewrite <- Ht.
  - intros Hc. assert (P c = false) as Hf; [|subst P; cbn in Hf; by rewrite bool_decide_true in Hf].
    apply Hh. rewrite Ht. destruct (trim_right P (trim_left P s)); [done|exact Hc].
  - intros Hc. apply Hl in Hc. subst P. cbn in Hc. by rewrite bool_decide_true in Hc.
Qed.

Lemma Trim_byte_same c s : head s ≠ Some c → last s ≠ Some c → Trim_byte c s = s.
Proof.
  intros Hh Hl. unfold Trim_byte. rewrite (trim_left_same _ s).
  - apply trim_right_same. intros b Hb. apply bool_decide_eq_false. by intros ->.
  - intros b Hb. apply bool_decide_eq_false. by intros ->.
Qed.

(** The UTF-8 encodings of the runes of [unicode.IsSpace]. *)
Definition space_encodings : list bytes :=
  map (map byte_of)
  [[9]; [10]; [11]; [12]; [13]; [32]; [194; 133]; [194; 160]; [225; 154; 128];
   [226; 128; 128]; [226; 128; 129]; [226; 128; 130]; [226; 128; 131]; [226; 128; 132];
   [226; 128; 133]; [226; 128; 134]; [226; 128; 135]; [226; 128; 136]; [226; 128; 137];
   [226; 128; 138]; [226; 128; 168]; [226; 128; 169]; [226; 128; 175]; [226; 129; 159];
   [227; 128; 128]].

Fixpoint strip_one (ps : list bytes) (s : bytes) : option bytes :=
  match ps with
  | [] => None
  | p :: ps' => match strip_prefix p s with Some r => Some r | None => strip_one ps' s end
  end.

Fixpoint strip_many (ps : list bytes) (fuel : nat) (s : bytes) : bytes :=
  match fuel with
  | O => s
  | S fuel' => match strip_one ps s with Some r => strip_many ps fuel' r | None => s end
  end.

Definition TrimSpace (s : string) : string :=
  let l := strip_many space_encodings (String.length s) (unstr s) in
  str (reverse (strip_many (reverse <$> space_encodings) (length l) (reverse l))).

(** ** Replacing, splitting and joining *)

(** [strings.ReplaceAll(s, old, new)] for a non-empty [old]. *)
Fixpoint replace_loop (old new : bytes) (fuel : nat) (s : bytes) : bytes :=
  match fuel, s with
  | S fuel', c :: s' =>
      match strip_prefix old s with
      | Some rest => new ++ replace_loop old new fuel' rest
      | None => c :: replace_loop old new fuel' s'
      end
  | _, _ => s
  end.
Definition ReplaceAll (old new s : bytes) : bytes := replace_loop old new (length s) s.

(** [strings.Split(s, sep)] for a separator of one byte: never empty. *)
Fixpoint split_byte (sep : byte) (s : bytes) : list bytes :=
  match s with
  | [] => [[]]
  | c :: s' =>
      if bool_decide (c = sep) then [] :: split_byte sep s'
      else match split_byte sep s' with
           | p :: ps => (c :: p) :: ps
           | [] => [[c]]
           end
  end.

Fixpoint join (sep : bytes) (ps : list bytes) : bytes :=
  match ps with
  | [] => []
  | [p] => p
  | p :: ps' => p ++ sep ++ join sep ps'
  end.
