(* ===== verification/GoIO.v ===== *)
(** The part of Go's [io] that gitfed calls: [Writer], [Reader] and
    [ReadFull]. *)

From S2P Require Import Prelude.

Definition io_EOF : error := errors_New "io" "EOF".
Definition io_ErrUnexpectedEOF : error := errors_New "io" "unexpected EOF".

(** [io.Writer]: a write consumes the whole slice or returns an error. *)
Class io_Writer (W : Type) := io_Write : bytes → W → option error * W.

(** A [bytes.Buffer] never fails. *)
Definition buffer := (bytes).
#[export] Instance buffer_Writer : io_Writer buffer := λ p b, (None, b ++ p).

(** A reader that delivers its data in pieces of any size, empty ones included,
    and then returns [rd_end] for ever. *)
Record io_Reader := { rd_chunks : list bytes; rd_end : error }.

Definition rd_content (r : io_Reader) : bytes := concat (rd_chunks r).

(** The loop of [io.ReadAtLeast]: [Read] until [n] bytes are there.  The result
    is the data, the pieces left, and whether the reader ended first. *)
Fixpoint read_loop (n : nat) (cs : list bytes) : bytes * list bytes * bool :=
  match n, cs with
  | O, _ => ([], cs, false)
  | _, [] => ([], [], true)
  | _, c :: cs' =>
      if (length c <=? n)%nat then
        let '(d, rest, ended) := read_loop (n - length c) cs' in (c ++ d, rest, ended)
      else (take n c, drop n c :: cs', false)
  end.

Definition io_ReadFull (n : nat) (r : io_Reader) : bytes * option error * io_Reader :=
  let '(d, rest, ended) := read_loop n (rd_chunks r) in
  let r' := {| rd_chunks := rest; rd_end := rd_end r |} in
  if ended then
    let err := if bool_decide (d ≠ [] ∧ rd_end r = io_EOF)
               then io_ErrUnexpectedEOF else rd_end r in
    (d, Some err, r')
  else (d, None, r').

(** The loop delivers a prefix of the content, whatever the pieces are. *)
Lemma read_loop_spec n cs d rest ended :
  read_loop n cs = (d, rest, ended) →
  d = take n (concat cs) ∧ concat rest = drop n (concat cs) ∧
  ended = bool_decide (length (concat cs) < n)%nat.
Proof.
  revert n d rest ended. induction cs as [|c cs IH]; intros n d rest ended Hr.
  { destruct n; injection Hr as <- <- <-; cbn; by rewrite ?drop_nil. }
  destruct n as [|n]; [injection Hr as <- <- <-; by rewrite bool_decide_eq_false_2 by lia|].
  cbn [read_loop] in Hr. cbn [concat]. destruct (Nat.leb_spec (length c) (S n)) as [Hle|Hgt].
  - destruct (read_loop (S n - length c) cs) as [[d' rest'] ended'] eqn:Hr'.
    injection Hr as <- <- <-. apply IH in Hr' as (->&->&->).
    rewrite take_app_ge, drop_app_ge by lia. repeat split.
    apply bool_decide_ext. rewrite length_app. lia.
  - injection Hr as <- <- <-. cbn [concat].
    rewrite take_app_le, drop_app_le by lia. repeat split.
    symmetry. apply bool_decide_eq_false_2. rewrite length_app. lia.
Qed.

(** [io.ReadFull] by the content of the reader alone. *)
Lemma io_ReadFull_enough n r :
  (n ≤ length (rd_content r))%nat →
  ∃ r', io_ReadFull n r = (take n (rd_content r), None, r') ∧
        rd_content r' = drop n (rd_content r) ∧ rd_end r' = rd_end r.
Proof.
  intros Hn. unfold io_ReadFull. destruct (read_loop n (rd_chunks r)) as [[d rest] ended] eqn:Hr.
  apply read_loop_spec in Hr as (->&Hrest&->).
  rewrite bool_decide_eq_false_2 by (unfold rd_content in *; lia). eauto.
Qed.

Lemma io_ReadFull_short n r :
  (length (rd_content r) < n)%nat → rd_end r = io_EOF →
  ∃ r', io_ReadFull n r =
          (rd_content r,
           Some (if bool_decide (rd_content r = []) then io_EOF else io_ErrUnexpectedEOF), r') ∧
        rd_content r' = [] ∧ rd_end r' = io_EOF.
Proof.
  intros Hn Hend. unfold io_ReadFull.
  destruct (read_loop n (rd_chunks r)) as [[d rest] ended] eqn:Hr.
  apply read_loop_spec in Hr as (->&Hrest&->).
  rewrite bool_decide_eq_true_2, take_ge by (unfold rd_content in *; lia). rewrite Hend.
  eexists. split; [|split].
  - fold (rd_content r). destruct (decide (rd_content r = [])) as [Hnil|Hnil].
    + by rewrite Hnil.
    + by rewrite (bool_decide_eq_false_2 (rd_content r = [])), bool_decide_eq_true_2 by done.
  - unfold rd_content at 1. cbn. rewrite Hrest. apply drop_ge. unfold rd_content in *. lia.
  - done.
Qed.
