(* ===== verification/Zlib.v ===== *)
(** [pkg/zlib]: compressing and decompressing whole texts.  [compress/zlib] is a
    parameter: a writer over a buffer, and a reader over a reader, whose output
    is again a reader ([io_Reader]): pieces, and the error they end in. *)

From S2P Require Import Prelude.
From S2P Require Import GoIO.

(** [zlib.Writer] and [zlib.NewReader]. *)
Class CompressZlib := {
  zlib_Writer : Type;
  zlib_NewWriter : buffer → zlib_Writer;
  zlib_Write : bytes → zlib_Writer → option error * zlib_Writer;
  zlib_Close : zlib_Writer → option error * zlib_Writer;
  zlib_buffer : zlib_Writer → buffer;
  zlib_NewReader : io_Reader → result io_Reader;
}.

(** "ReadAll reads from r until an error or EOF and returns the data it read. A
    successful call returns err == nil, not err == EOF." *)
Definition io_ReadAll (r : io_Reader) : bytes * option error :=
  (rd_content r, if bool_decide (rd_end r = io_EOF) then None else Some (rd_end r)).

(** [bytes.NewReader] *)
Definition bytes_NewReader (b : bytes) : io_Reader := {| rd_chunks := [b]; rd_end := io_EOF |}.

Module zlib.

Section zlib.
Context `{CompressZlib}.

(** The data read so far come with an error. *)
Definition DecompressStream (r : io_Reader) : bytes * option error :=
  match zlib_NewReader r with
  | Err err => ([], Some err)
  | Ok zr => io_ReadAll zr
  end.

Definition Decompress (compressed : bytes) : bytes * option error :=
  match zlib_NewReader (bytes_NewReader compressed) with
  | Err err => ([], Some err)
  | Ok r => io_ReadAll r
  end.

Definition Compress (data : bytes) : bytes * option error :=
  let w := zlib_NewWriter [] in
  match zlib_Write data w with
  | (Some err, _) => ([], Some err)
  | (None, w) =>
      match zlib_Close w with
      | (Some err, _) => ([], Some err)
      | (None, w) => (zlib_buffer w, None)
      end
  end.

(** RFC 1950: a stream written to a buffer and closed is read back from any reader
    that delivers it, whatever the pieces; the writer fails only if its own does. *)
Class ZlibLaws := {
  stream : bytes → bytes;
  law_write d b : ∃ w, zlib_Write d (zlib_NewWriter b) = (None, w) ∧
    ∃ w', zlib_Close w = (None, w') ∧ zlib_buffer w' = b ++ stream d;
  law_read r d : rd_content r = stream d → rd_end r = io_EOF →
    ∃ zr, zlib_NewReader r = Ok zr ∧ rd_content zr = d ∧ rd_end zr = io_EOF;
}.

(** What Compress writes is read back, at once or as a stream in any pieces. *)
Theorem Decompress_Compress `{!ZlibLaws} data :
  ∃ c, Compress data = (c, None) ∧ Decompress c = (data, None) ∧
  ∀ r, rd_content r = c → rd_end r = io_EOF → DecompressStream r = (data, None).
Proof.
  destruct (law_write data []) as (w & Hw & w' & Hc & Hb). exists (stream data).
  assert (Hread : ∀ r, rd_content r = stream data → rd_end r = io_EOF → DecompressStream r = (data, None)).
  { intros r Hr He. destruct (law_read r data Hr He) as (zr & Hz & Hd & Hend).
    unfold DecompressStream. rewrite Hz. unfold io_ReadAll. by rewrite Hd, Hend, bool_decide_true. }
  split; [|split; [|exact Hread]].
  - unfold Compress. rewrite Hw, Hc, Hb. done.
  - apply (Hread (bytes_NewReader (stream data))); [|done]. unfold rd_content. cbn. by rewrite app_nil_r.
Qed.

(** Decompress is the stream of its bytes. *)
Lemma Decompress_stream c : Decompress c = DecompressStream (bytes_NewReader c).
Proof. done. Qed.
End zlib.
End zlib.
