(* ===== verification/Pktline.v ===== *)
(** Git pkt-line framing: [pkg/pktline/pktline.go].

    [Encode], [EncodeLine], [EncodeFlush] and [Decode] work on byte slices, and
    [Next] is the streaming iterator: it owns one buffer, and the payload it
    returns is a slice of that buffer. *)

From S2P Require Import Prelude.
From S2P Require Import Bytes.
From S2P Require Import Encoding.
From S2P Require Import GoIO.

Module Pktline.

(** ** Constants, packets and errors *)

Definition FlushPkt : bytes := unstr "0000".
Definition DelimPkt : bytes := unstr "0001".
Definition ResponseEndPkt : bytes := unstr "0002".
Definition MaxPktLen : Z := 65520.

Inductive PacketType := Data | Flush | Delimiter | ResponseEnd.

#[export] Instance PacketType_eq_dec : EqDecision PacketType.
Proof. solve_decision. Defined.

Record Packet := {
  PType : PacketType;
  Payload : bytes;
  Consumed : Z;
}.

Definition ErrPacketTooLarge : error := errors_New "pktline" "packet too large".
Definition ErrIncomplete : error := errors_New "pktline" "incomplete packet".
Definition ErrInvalidLength : error := errors_New "pktline" "invalid length".
Definition ErrInvalidCharacter : error := errors_New "pktline" "invalid character".
Definition ErrEmptyPacket : error := errors_New "pktline" "empty packet".

(** ** Encoding *)

Definition Encode (data : bytes) : result bytes :=
  if (length data =? 0)%nat then Err ErrEmptyPacket
  else
    let total := Z.of_nat (length data) + 4 in
    if MaxPktLen <? total then Err ErrPacketTooLarge
    else Ok (fmt_04x total ++ data).

Definition EncodeLine {W} `{io_Writer W} (data : bytes) (w : W) : option error * W :=
  let total := Z.of_nat (length data) + 4 in
  if MaxPktLen <? total then (Some ErrPacketTooLarge, w)
  else if total =? 0 then (Some ErrEmptyPacket, w)
  else
    let prefix := fmt_04x total in
    match io_Write prefix w with
    | (Some err, w) => (Some err, w)
    | (None, w) => io_Write data w
    end.

Definition EncodeFlush {W} `{io_Writer W} (w : W) : option error * W :=
  io_Write FlushPkt w.

(** ** Decoding a slice *)

Definition Decode (data : bytes) : result Packet :=
  if (length data <? 4)%nat then Err ErrIncomplete
  else
    match ParseUint_16 16 (take 4 data) with
    | None => Err ErrInvalidCharacter
    | Some rawLen =>
        if rawLen =? 0 then Ok {| PType := Flush; Payload := []; Consumed := 4 |}
        else if rawLen =? 1 then Ok {| PType := Delimiter; Payload := []; Consumed := 4 |}
        else if rawLen =? 2 then Ok {| PType := ResponseEnd; Payload := []; Consumed := 4 |}
        else if rawLen =? 3 then Err ErrInvalidLength
        else if rawLen =? 4 then Err ErrEmptyPacket
        else if Z.of_nat (length data) <? rawLen then Err ErrIncomplete
        else Ok {| PType := Data;
                   Payload := drop 4 (take (Z.to_nat rawLen) data);
                   Consumed := rawLen |}
    end.

(** ** The streaming iterator *)

Record PktLineStream := {
  reader : io_Reader;
  buf : bytes;
}.

Definition NewPacketIterator (r : io_Reader) : PktLineStream :=
  {| reader := r; buf := replicate (Z.to_nat MaxPktLen) zero |}.

(** [copy(buf[off:], data)] for data that fits. *)
Definition buf_write (off : nat) (data b : bytes) : bytes :=
  take off b ++ data ++ drop (off + length data) b.

(** A slice of the iterator's buffer, and what it reads at a given moment. *)
Record slice := { lo : nat; hi : nat }.
Definition slice_read (s : slice) (b : bytes) : bytes := drop (lo s) (take (hi s) b).

(** The packet [Next] returns: its payload aliases the buffer. *)
Record SPacket := {
  sp_Type : PacketType;
  sp_Payload : slice;
  sp_Consumed : Z;
}.

Definition nil_slice : slice := {| lo := 0; hi := 0 |}.

(** The data branch of [Next]: the rest of the frame, into [it.buf[4:]].  The
    slice expression is out of range of the array for a length past its end. *)
Definition Next_data (pktDataLen : Z) (rawPktLen : nat) (it : PktLineStream) :
    outcome (result (option SPacket)) * PktLineStream :=
  if MaxPktLen <? pktDataLen then (Panics, it)
  else
    let '(body, err, rd) := io_ReadFull (Z.to_nat pktDataLen - 4) (reader it) in
    let it := {| reader := rd; buf := buf_write 4 body (buf it) |} in
    match err with
    | Some e => (Returns (Err e), it)
    | None =>
        (Returns (Ok (Some
           {| sp_Type := Data;
              sp_Payload := {| lo := 4; hi := Z.to_nat pktDataLen |};
              sp_Consumed := Z.of_nat rawPktLen |})), it)
    end.

(** [Next] returns [(nil, nil)] at a clean end of the stream: [Ok None]. *)
Definition Next (it : PktLineStream) : outcome (result (option SPacket)) * PktLineStream :=
  let '(hdr, err, rd) := io_ReadFull 4 (reader it) in
  let it := {| reader := rd; buf := buf_write 0 hdr (buf it) |} in
  let rawPktLen := length hdr in
  match err with
  | Some e =>
      if bool_decide (e = io_EOF ∧ rawPktLen = 0%nat) then (Returns (Ok None), it)
      else (Returns (Err e), it)
  | None =>
      match ParseUint_16 16 (take 4 (buf it)) with
      | None => (Returns (Err ErrInvalidLength), it)
      | Some pktDataLen =>
          let control t := (Returns (Ok (Some
            {| sp_Type := t; sp_Payload := nil_slice; sp_Consumed := 4 |})), it) in
          if pktDataLen =? 0 then control Flush
          else if pktDataLen =? 1 then control Delimiter
          else if pktDataLen =? 2 then control ResponseEnd
          else if pktDataLen =? 3 then (Returns (Err ErrInvalidLength), it)
          else if pktDataLen =? 4 then (Returns (Err ErrEmptyPacket), it)
          else Next_data pktDataLen rawPktLen it
      end
  end.

(** ** Encoding facts *)

Lemma Encode_spec data w :
  Encode data = Ok w ↔
  1 ≤ Z.of_nat (length data) ≤ MaxPktLen - 4 ∧
  w = fmt_04x (Z.of_nat (length data) + 4) ++ data.
Proof.
  unfold Encode, MaxPktLen.
  destruct (Nat.eqb_spec (length data) 0); [split; [done|lia]|].
  destruct (Z.ltb_spec 65520 (Z.of_nat (length data) + 4)); [split; [done|lia]|].
  split; [intros [= <-]; split; [lia|done]|by intros [_ ->]].
Qed.

Lemma Encode_wire data w :
  Encode data = Ok w →
  5 ≤ Z.of_nat (length w) ≤ MaxPktLen ∧
  length w = (4 + length data)%nat ∧
  take 4 w = fmt_04x (Z.of_nat (length w)) ∧ drop 4 w = data ∧
  ParseUint_16 16 (take 4 w) = Some (Z.of_nat (length w)).
Proof.
  intros [Hlen ->]%Encode_spec. unfold MaxPktLen in *.
  pose proof (length_fmt_04x (Z.of_nat (length data) + 4) ltac:(lia)) as Hpre.
  rewrite length_app, take_app_length', drop_app_length', Hpre by done.
  replace (Z.of_nat (4 + length data)) with (Z.of_nat (length data) + 4) by lia.
  rewrite ParseUint_fmt_04x by lia. split_and!; (done || lia).
Qed.

(** Encode fails exactly on an empty payload (ErrEmptyPacket) and on one of more than
    65516 bytes (ErrPacketTooLarge); otherwise the frame is 5 to 65520 bytes long, its
    first four bytes are its own length in hexadecimal, and the rest is the payload. *)
Theorem Encode_total data :
  (Encode data = Err ErrEmptyPacket ↔ data = []) ∧
  (Encode data = Err ErrPacketTooLarge ↔ MaxPktLen - 4 < Z.of_nat (length data)) ∧
  (∀ w, Encode data = Ok w →
     5 ≤ Z.of_nat (length w) ≤ MaxPktLen ∧
     take 4 w = fmt_04x (Z.of_nat (length w)) ∧ drop 4 w = data).
Proof.
  split_and!.
  - unfold Encode, MaxPktLen. destruct data as [|b data]; [done|]. cbn [length].
    rewrite (proj2 (Nat.eqb_neq _ _)) by done. by case_match.
  - unfold Encode, MaxPktLen. destruct (Nat.eqb_spec (length data) 0); [split; [done|lia]|].
    destruct (Z.ltb_spec 65520 (Z.of_nat (length data) + 4)); split; (done || lia).
  - intros w HE. by apply Encode_wire in HE as (?&_&?&?&_).
Qed.

Lemma Decode_frame data w rest :
  Encode data = Ok w →
  Decode (w ++ rest) =
    Ok {| PType := Data; Payload := data; Consumed := Z.of_nat (length w) |}.
Proof.
  intros [Hlen ->]%Encode_spec. unfold MaxPktLen in *. unfold Decode.
  set (n := Z.of_nat (length data) + 4) in *.
  pose proof (length_fmt_04x n ltac:(lia)) as Hpre.
  rewrite <- app_assoc. rewrite (take_app_le (fmt_04x n)), (take_ge (fmt_04x n)) by lia.
  rewrite ParseUint_fmt_04x by lia.
  destruct (Nat.ltb_spec (length (fmt_04x n ++ data ++ rest)) 4) as [Hl|_];
    [rewrite length_app in Hl; lia|].
  repeat (match goal with |- context [?a =? ?b] => destruct (Z.eqb_spec a b); [lia|] end).
  destruct (Z.ltb_spec (Z.of_nat (length (fmt_04x n ++ data ++ rest))) n) as [Hl|_];
    [rewrite !length_app in Hl; lia|].
  rewrite app_assoc, (take_app_length' (fmt_04x n ++ data)) by (rewrite length_app; lia).
  rewrite (drop_app_length' (fmt_04x n)) by done.
  rewrite length_app, Hpre. do 2 f_equal. lia.
Qed.

(** Decode of an encoded payload followed by anything is a data packet with that
    payload, consuming exactly the encoded frame. *)
Theorem Decode_Encode data w rest :
  Encode data = Ok w →
  Decode (w ++ rest) =
    Ok {| PType := Data; Payload := data; Consumed := Z.of_nat (length w) |}.
Proof. apply Decode_frame. Qed.

Lemma Decode_Encode_witness :
  Decode (unstr "0007abc" ++ unstr "0000") =
    Ok {| PType := Data; Payload := unstr "abc"; Consumed := 7 |}.
Proof. apply (Decode_Encode (unstr "abc") (unstr "0007abc") (unstr "0000")). reflexivity. Defined.

(** A successful decode, read backwards: the frame is the prefix of the input
    that [Consumed] says, its header is its length in hexadecimal of either
    case, and a data frame within the limit is what [Encode] makes of its
    payload, up to the case of the header. *)
Lemma Decode_Ok_inv data p :
  Decode data = Ok p →
  ∃ n, ParseUint_16 16 (take 4 data) = Some n ∧ (4 ≤ length data)%nat ∧
    ((PType p ≠ Data ∧ 0 ≤ n ≤ 2 ∧ Payload p = [] ∧ Consumed p = 4) ∨
     (PType p = Data ∧ 5 ≤ n < 65536 ∧ Consumed p = n ∧
      n ≤ Z.of_nat (length data) ∧ Payload p = drop 4 (take (Z.to_nat n) data))).
Proof.
  unfold Decode. destruct (Nat.ltb_spec (length data) 4) as [|Hlen]; [done|].
  destruct (ParseUint_16 16 (take 4 data)) as [n|] eqn:Hn; [|done].
  apply ParseUint_4_inv in Hn as [Hr _]; [|rewrite length_take; lia].
  intros HD. exists n. split_and!; [done..|].
  repeat (match type of HD with context [?a =? ?b] =>
    destruct (Z.eqb_spec a b); [simplify_eq/=; left; split_and!; (done || lia)|] end).
  destruct (Z.eqb_spec n 3); [done|]. destruct (Z.eqb_spec n 4); [done|].
  destruct (Z.ltb_spec (Z.of_nat (length data)) n); [done|]. simplify_eq/=.
  right. split_and!; (done || lia).
Qed.

(** A packet that Decode returns lies within its input; a data packet consumes the four
    header bytes and its payload, and, within the size limit, Encode gives the frame
    back up to the case of its header; a control packet consumes four bytes and has no
    payload. *)
Theorem Decode_sound data p :
  Decode data = Ok p →
  4 ≤ Consumed p ≤ Z.of_nat (length data) ∧
  match PType p with
  | Data =>
      Z.of_nat (length (Payload p)) = Consumed p - 4 ∧
      take (Z.to_nat (Consumed p)) data = take 4 data ++ Payload p ∧
      (Consumed p ≤ MaxPktLen →
       Encode (Payload p) = Ok ((to_lower <$> take 4 data) ++ Payload p))
  | _ => Payload p = [] ∧ Consumed p = 4
  end.
Proof.
  intros (n&Hn&Hlen&[(HT&Hr&HP&HC)|(HT&Hr&HC&Hle&HP)])%Decode_Ok_inv.
  - split; [lia|]. by destruct (PType p).
  - rewrite HT, HC, HP.
    apply ParseUint_4_inv in Hn as [_ Hfmt]; [|rewrite length_take; lia].
    assert (take 4 data ++ drop 4 (take (Z.to_nat n) data) = take (Z.to_nat n) data) as Hcut.
    { rewrite <- (take_drop 4 (take (Z.to_nat n) data)) at 2.
      by rewrite take_take, Nat.min_l by lia. }
    assert (Z.of_nat (length (drop 4 (take (Z.to_nat n) data))) = n - 4) as Hpl.
    { rewrite length_drop, length_take. lia. }
    split_and!; [lia|lia|done|done|].
    intros Hmax. apply Encode_spec. unfold MaxPktLen in *. split; [lia|].
    rewrite Hpl, <- Hfmt. do 2 f_equal. lia.
Qed.

(** An upper-case header: re-encoding gives the lower-case one. *)
Lemma Decode_sound_witness :
  let data := unstr "000Aabcdef0000" in
  Encode (unstr "abcdef") = Ok ((to_lower <$> take 4 data) ++ unstr "abcdef").
Proof.
  intros data.
  destruct (Decode_sound data {| PType := Data; Payload := unstr "abcdef"; Consumed := 10 |})
    as (_&_&_&H); [reflexivity|].
  apply H. cbn. unfold MaxPktLen. lia.
Defined.

(** ** The iterator refines the slice decoder *)

Definition stream_content (it : PktLineStream) : bytes := rd_content (reader it).

(** What the caller of [Next] sees when it reads the payload at once. *)
Definition view (b : bytes) (o : outcome (result (option SPacket))) :
    outcome (result (option (PacketType * bytes))) :=
  match o with
  | Returns (Ok (Some sp)) =>
      Returns (Ok (Some (sp_Type sp, slice_read (sp_Payload sp) b)))
  | Returns (Ok None) => Returns (Ok None)
  | Returns (Err e) => Returns (Err e)
  | Panics => Panics
  end.

(** The contract of [Next] on the bytes that the stream still holds. *)
Definition next_spec (s : bytes) :
    outcome (result (option (PacketType * bytes))) * bytes :=
  match Decode s with
  | Ok p =>
      if MaxPktLen <? Consumed p then (Panics, drop 4 s)
      else (Returns (Ok (Some (PType p, Payload p))), drop (Z.to_nat (Consumed p)) s)
  | Err e =>
      if (length s =? 0)%nat then (Returns (Ok None), [])
      else if (length s <? 4)%nat then (Returns (Err io_ErrUnexpectedEOF), [])
      else if bool_decide (e = ErrIncomplete) then
        if MaxPktLen <? default 0 (ParseUint_16 16 (take 4 s)) then (Panics, drop 4 s)
        else (Returns (Err (if (length s =? 4)%nat then io_EOF else io_ErrUnexpectedEOF)), [])
      else (Returns (Err (if bool_decide (e = ErrInvalidCharacter)
                          then ErrInvalidLength else e)), drop 4 s)
  end.

Definition stream_ok (it : PktLineStream) : Prop :=
  length (buf it) = Z.to_nat MaxPktLen ∧ rd_end (reader it) = io_EOF.

Lemma buf_write_length off data b :
  (off + length data ≤ length b)%nat → length (buf_write off data b) = length b.
Proof.
  intros. unfold buf_write. rewrite !length_app, length_take, length_drop. lia.
Qed.

Lemma buf_write_read off data b :
  (off + length data ≤ length b)%nat →
  slice_read {| lo := off; hi := off + length data |} (buf_write off data b) = data.
Proof.
  intros. unfold slice_read, buf_write. cbn.
  rewrite app_assoc, take_app_length' by (rewrite length_app, length_take; lia).
  by rewrite drop_app_length' by (rewrite length_take; lia).
Qed.

Lemma buf_write_0_take data b :
  take (length data) (buf_write 0 data b) = data.
Proof. unfold buf_write. by rewrite take_0, app_nil_l, take_app_length. Qed.

(** The control packets and the two bad lengths, shared by both decoders. *)
Lemma Decode_header s n :
  (4 ≤ length s)%nat → ParseUint_16 16 (take 4 s) = Some n →
  Decode s =
    if n =? 0 then Ok {| PType := Flush; Payload := []; Consumed := 4 |}
    else if n =? 1 then Ok {| PType := Delimiter; Payload := []; Consumed := 4 |}
    else if n =? 2 then Ok {| PType := ResponseEnd; Payload := []; Consumed := 4 |}
    else if n =? 3 then Err ErrInvalidLength
    else if n =? 4 then Err ErrEmptyPacket
    else if Z.of_nat (length s) <? n then Err ErrIncomplete
    else Ok {| PType := Data; Payload := drop 4 (take (Z.to_nat n) s); Consumed := n |}.
Proof.
  intros Hlen Hn. unfold Decode. rewrite Hn.
  by destruct (Nat.ltb_spec (length s) 4); [lia|].
Qed.

(** Reading the header of a stream that holds one. *)
Lemma Next_header it :
  stream_ok it → (4 ≤ length (stream_content it))%nat →
  ∃ rd, io_ReadFull 4 (reader it) = (take 4 (stream_content it), None, rd) ∧
    rd_content rd = drop 4 (stream_content it) ∧ rd_end rd = io_EOF ∧
    take 4 (buf_write 0 (take 4 (stream_content it)) (buf it)) = take 4 (stream_content it) ∧
    length (buf_write 0 (take 4 (stream_content it)) (buf it)) = Z.to_nat MaxPktLen.
Proof.
  intros [Hbuf Hend] Hlen.
  destruct (io_ReadFull_enough 4 (reader it) Hlen) as (rd&Hrd&Hcont&Hend').
  exists rd. split_and!; [done|done|congruence| |].
  - rewrite <- (buf_write_0_take (take 4 (stream_content it)) (buf it)) at 2.
    by rewrite length_take, Nat.min_l by lia.
  - rewrite buf_write_length; [done|]. rewrite length_take, Hbuf. unfold MaxPktLen. lia.
Qed.

(** Reading the payload into a buffer of full size. *)
Lemma Next_payload rd b n :
  length b = Z.to_nat MaxPktLen → rd_end rd = io_EOF → 5 ≤ n ≤ MaxPktLen →
  ∃ body rd', io_ReadFull (Z.to_nat n - 4) rd =
     (body,
      if Z.of_nat (length (rd_content rd)) + 4 <? n
      then Some (if bool_decide (rd_content rd = []) then io_EOF else io_ErrUnexpectedEOF)
      else None, rd') ∧
    rd_content rd' = drop (Z.to_nat n - 4) (rd_content rd) ∧ rd_end rd' = io_EOF ∧
    length (buf_write 4 body b) = Z.to_nat MaxPktLen ∧
    (n ≤ Z.of_nat (length (rd_content rd)) + 4 →
     slice_read {| lo := 4; hi := Z.to_nat n |} (buf_write 4 body b) =
     take (Z.to_nat n - 4) (rd_content rd)).
Proof.
  intros Hb Hend Hn. unfold MaxPktLen in *.
  destruct (Z.ltb_spec (Z.of_nat (length (rd_content rd)) + 4) n) as [Hs|Hf].
  - destruct (io_ReadFull_short (Z.to_nat n - 4) rd) as (rd'&->&Hc&He); [lia|done|].
    exists (rd_content rd), rd'. split_and!; [done| |done| |lia].
    + by rewrite Hc, drop_ge by lia.
    + rewrite buf_write_length; lia.
  - destruct (io_ReadFull_enough (Z.to_nat n - 4) rd) as (rd'&->&Hc&He); [lia|].
    eexists _, rd'. split_and!; [done|done|congruence| |].
    + rewrite buf_write_length; [lia|]. rewrite length_take. lia.
    + intros _. set (body := take (Z.to_nat n - 4) (rd_content rd)).
      assert (length body = (Z.to_nat n - 4)%nat) by (unfold body; rewrite length_take; lia).
      replace (Z.to_nat n) with (4 + length body)%nat by lia.
      apply buf_write_read. lia.
Qed.

(** [Next] on fewer than four bytes: a clean end of the stream, or a truncated
    header. *)
Lemma Next_short it :
  stream_ok it → (length (stream_content it) < 4)%nat →
  ∃ it', Next it =
      (Returns (if (length (stream_content it) =? 0)%nat then Ok None
                else Err io_ErrUnexpectedEOF), it') ∧
    stream_content it' = [] ∧ stream_ok it'.
Proof.
  intros [Hbuf Hend] Hlt.
  destruct (io_ReadFull_short 4 (reader it) Hlt Hend) as (rd&Hrd&Hc&He).
  exists {| reader := rd; buf := buf_write 0 (stream_content it) (buf it) |}.
  split_and!; [|done|split; [|done]].
  - unfold Next. rewrite Hrd. fold (stream_content it).
    destruct (stream_content it) as [|c s]; [done|].
    by rewrite bool_decide_eq_false_2 by (by intros [_ ?]).
  - cbn. rewrite buf_write_length; [done|]. rewrite Hbuf. unfold MaxPktLen. lia.
Qed.

(** [Next] once the header is there. *)
Lemma Next_long it :
  stream_ok it → (4 ≤ length (stream_content it))%nat →
  ∃ it1, stream_ok it1 ∧ stream_content it1 = drop 4 (stream_content it) ∧
    Next it =
      match ParseUint_16 16 (take 4 (stream_content it)) with
      | None => (Returns (Err ErrInvalidLength), it1)
      | Some n =>
          match Decode (stream_content it) with
          | Ok p =>
              if bool_decide (PType p = Data) then Next_data n 4 it1
              else (Returns (Ok (Some {| sp_Type := PType p; sp_Payload := nil_slice;
                                         sp_Consumed := 4 |})), it1)
          | Err e => if bool_decide (e = ErrIncomplete) then Next_data n 4 it1
                     else (Returns (Err e), it1)
          end
      end.
Proof.
  intros Hok Hge. destruct (Next_header it Hok Hge) as (rd&Hrd&Hc&He&Htake&Hlb).
  exists {| reader := rd; buf := buf_write 0 (take 4 (stream_content it)) (buf it) |}.
  split_and!; [done|done|]. unfold Next. rewrite Hrd. cbn [buf reader]. rewrite Htake.
  assert (length (take 4 (stream_content it)) = 4%nat) as Hl4 by (rewrite length_take; lia).
  destruct (ParseUint_16 16 (take 4 (stream_content it))) as [n|] eqn:Hn; [|done].
  rewrite (Decode_header _ n) by done. rewrite Hl4.
  by repeat (z_test; [done|]).
Qed.

(** The payload read of [Next] against the data frame of the slice decoder. *)
Lemma Next_data_spec it1 s n :
  stream_ok it1 → stream_content it1 = drop 4 s → (4 ≤ length s)%nat → 5 ≤ n →
  ∃ it', (MaxPktLen < n → Next_data n 4 it1 = (Panics, it1)) ∧
    (n ≤ MaxPktLen → Z.of_nat (length s) < n →
     Next_data n 4 it1 =
       (Returns (Err (if (length s =? 4)%nat then io_EOF else io_ErrUnexpectedEOF)), it') ∧
     stream_content it' = [] ∧ stream_ok it') ∧
    (n ≤ MaxPktLen → n ≤ Z.of_nat (length s) → ∃ sl,
     Next_data n 4 it1 =
       (Returns (Ok (Some {| sp_Type := Data; sp_Payload := sl; sp_Consumed := 4 |})), it') ∧
     slice_read sl (buf it') = drop 4 (take (Z.to_nat n) s) ∧
     stream_content it' = drop (Z.to_nat n) s ∧ stream_ok it').
Proof.
  intros [Hlb He] Hc Hlen Hn. unfold Next_data.
  destruct (Z.ltb_spec MaxPktLen n) as [Hbig|Hfit].
  { exists it1. split_and!; [done|lia|lia]. }
  destruct (Next_payload (reader it1) (buf it1) n Hlb He ltac:(lia))
    as (body&rd'&->&Hc'&He'&Hlb'&Hread).
  fold (stream_content it1) in *. rewrite Hc, length_drop in *.
  replace (Z.of_nat (length s - 4) + 4) with (Z.of_nat (length s)) in * by lia.
  exists {| reader := rd'; buf := buf_write 4 body (buf it1) |}. split_and!; [lia| |].
  - intros _ Hshort. z_test; [|lia]. split_and!; [|unfold stream_content; cbn|done].
    + do 4 f_equal. destruct (Nat.eqb_spec (length s) 4) as [H4|H4].
      * rewrite bool_decide_eq_true_2; [done|]. apply drop_ge. lia.
      * rewrite bool_decide_eq_false_2; [done|].
        intros Hnil%(f_equal length). rewrite length_drop in Hnil. cbn in Hnil. lia.
    + by rewrite Hc', drop_drop, drop_ge by lia.
  - intros _ Hlong. z_test; [lia|]. eexists. split_and!; [done| | |done].
    + cbn [buf]. rewrite Hread by lia. by rewrite skipn_firstn_comm.
    + unfold stream_content. cbn. rewrite Hc', drop_drop. f_equal. lia.
Qed.

Lemma Next_simulates it o it' :
  stream_ok it → Next it = (o, it') →
  (view (buf it') o, stream_content it') = next_spec (stream_content it) ∧ stream_ok it'.
Proof.
  intros Hok HN. unfold next_spec.
  destruct (Nat.ltb_spec (length (stream_content it)) 4) as [Hlt|Hge].
  { destruct (Next_short it Hok Hlt) as (it''&HN'&Hc&Hok'). rewrite HN' in HN.
    injection HN as <- <-. rewrite Hc. unfold Decode. split; [|done].
    rewrite (proj2 (Nat.ltb_lt _ _) Hlt). by z_test. }
  destruct (Next_long it Hok Hge) as (it1&Hok1&Hc1&HN'). rewrite HN' in HN. clear HN'.
  rewrite (proj2 (Nat.eqb_neq (length (stream_content it)) 0)) by lia.
  destruct (ParseUint_16 16 (take 4 (stream_content it))) as [n|] eqn:Hn.
  2:{ injection HN as <- <-. unfold Decode.
      by rewrite (proj2 (Nat.ltb_ge _ _) Hge), Hn, Hc1. }
  rewrite (Decode_header _ n) in HN |- * by done. revert HN.
  do 3 (z_test; [subst n; intros [= <- <-]; by rewrite Hc1|]).
  do 2 (z_test; [subst n; intros [= <- <-]; by rewrite Hc1|]).
  assert (5 ≤ n) as Hn5.
  { apply ParseUint_4_inv in Hn as [? _]; [|rewrite length_take]; lia. }
  destruct (Next_data_spec it1 (stream_content it) n Hok1 Hc1 Hge Hn5)
    as (it2&Hbig&Hshort&Hlong).
  destruct (Z.ltb_spec (Z.of_nat (length (stream_content it))) n) as [Hs|Hs];
    cbn [default Consumed PType Payload]; unfold id; rewrite !bool_decide_eq_true_2 by done;
    destruct (Z.ltb_spec MaxPktLen n) as [Hm|Hm].
  - rewrite Hbig by done. intros [= <- <-]. by rewrite Hc1.
  - destruct Hshort as (->&Hc2&Hok2); [done..|]. intros [= <- <-]. by rewrite Hc2.
  - rewrite Hbig by done. intros [= <- <-]. by rewrite Hc1.
  - destruct Hlong as (sl&->&Hsl&Hc2&Hok2); [done..|]. intros [= <- <-].
    cbn [view sp_Type sp_Payload]. by rewrite Hsl, Hc2.
Qed.

(** C13: Whatever the pieces its reader delivers, Next does what the slice decoder does
    on the bytes still on the stream (next_spec): the same frame and payload, the stream
    advanced by the frame, a clean end only between frames, an error for a truncated
    frame, and a panic for a length past its buffer. *)
Theorem Next_refines_Decode it o it' :
  stream_ok it → Next it = (o, it') →
  (view (buf it') o, stream_content it') = next_spec (stream_content it) ∧ stream_ok it'.
Proof. apply Next_simulates. Qed.

(** A frame delivered in four pieces, one of them empty. *)
Definition chunked_stream : PktLineStream :=
  NewPacketIterator
    {| rd_chunks := [unstr "00"; []; unstr "06h"; unstr "i0000"]; rd_end := io_EOF |}.

Lemma Next_refines_Decode_witness :
  (view (buf (snd (Next chunked_stream))) (fst (Next chunked_stream)),
   stream_content (snd (Next chunked_stream))) =
  (Returns (Ok (Some (Data, unstr "hi"))), unstr "0000").
Proof.
  destruct (Next_refines_Decode chunked_stream (fst (Next chunked_stream))
              (snd (Next chunked_stream))) as [H _].
  - split; [|reflexivity]. apply length_replicate.
  - apply surjective_pairing.
  - rewrite H. reflexivity.
Defined.

(** Next panics exactly when the next four bytes are a length above 65520: the slice
    expression on its buffer is then out of range, so a peer can crash the reader with a
    header such as fff1. *)
Theorem Next_panics_iff it o it' :
  stream_ok it → Next it = (o, it') →
  (o = Panics ↔
   (4 ≤ length (stream_content it))%nat ∧
   ∃ n, ParseUint_16 16 (take 4 (stream_content it)) = Some n ∧ MaxPktLen < n).
Proof.
  intros Hok HN. destruct (Next_simulates it o it' Hok HN) as [Href _].
  apply (f_equal fst) in Href. cbn [fst] in Href.
  assert (o = Panics ↔ view (buf it') o = Panics) as ->.
  { destruct o as [[[sp|]|e]|]; naive_solver. }
  rewrite Href. clear. unfold next_spec. set (s := stream_content it). split.
  - destruct (Decode s) as [p|e] eqn:HD.
    + apply Decode_Ok_inv in HD as (n&Hn&Hlen&[(_&_&_&HC)|(_&_&HC&_)]);
        rewrite HC; unfold MaxPktLen in *; [done|]. z_test; [|done].
      intros _. split; [done|by exists n].
    + destruct (Nat.eqb_spec (length s) 0); [done|]. destruct (Nat.ltb_spec (length s) 4); [done|].
      case_bool_decide; [|done]. z_test; [|done]. intros _. split; [done|].
      destruct (ParseUint_16 16 (take 4 s)) as [n'|]; [by exists n'|done].
  - intros (Hlen&n&Hn&Hbig). rewrite (Decode_header s n) by done. unfold MaxPktLen in *.
    do 5 (z_test; [lia|]). z_test.
    + rewrite (proj2 (Nat.eqb_neq _ _)), (proj2 (Nat.ltb_ge _ _)) by lia.
      rewrite bool_decide_eq_true_2, Hn by done. cbn. by z_test; [|lia].
    + cbn [Consumed]. by z_test; [|lia].
Qed.

Definition oversized_stream : PktLineStream :=
  NewPacketIterator {| rd_chunks := [unstr "fff1"]; rd_end := io_EOF |}.

Lemma Next_panics_iff_witness : fst (Next oversized_stream) = Panics.
Proof.
  apply (proj2 (Next_panics_iff oversized_stream (fst (Next oversized_stream))
                  (snd (Next oversized_stream))
                  (conj (length_replicate _ _) eq_refl) (surjective_pairing _))).
  split; [cbn; lia|]. exists 65521. split; [reflexivity|]. unfold MaxPktLen. lia.
Defined.

(** ** Streams of frames *)

Inductive frame :=
  | FData (payload : bytes)
  | FFlush
  | FDelim
  | FResponseEnd.

Definition frame_bytes (f : frame) : result bytes :=
  match f with
  | FData payload => Encode payload
  | FFlush => Ok FlushPkt
  | FDelim => Ok DelimPkt
  | FResponseEnd => Ok ResponseEndPkt
  end.

Definition frame_view (f : frame) : PacketType * bytes :=
  match f with
  | FData payload => (Data, payload)
  | FFlush => (Flush, [])
  | FDelim => (Delimiter, [])
  | FResponseEnd => (ResponseEnd, [])
  end.

Fixpoint frames_bytes (fs : list frame) : result bytes :=
  match fs with
  | [] => Ok []
  | f :: fs' => w ← frame_bytes f; ws ← frames_bytes fs'; Ok (w ++ ws)
  end.

(** A client that calls [Next] until it stops, copying each payload out. *)
Fixpoint read_all (fuel : nat) (it : PktLineStream) :
    list (PacketType * bytes) * option (outcome (result (option SPacket))) :=
  match fuel with
  | O => ([], None)
  | S fuel' =>
      match Next it with
      | (Returns (Ok (Some sp)), it') =>
          let '(ps, stop) := read_all fuel' it' in
          ((sp_Type sp, slice_read (sp_Payload sp) (buf it')) :: ps, stop)
      | (o, _) => ([], Some o)
      end
  end.

Lemma read_all_S fuel it :
  read_all (S fuel) it =
    match Next it with
    | (Returns (Ok (Some sp)), it') =>
        let '(ps, stop) := read_all fuel it' in
        ((sp_Type sp, slice_read (sp_Payload sp) (buf it')) :: ps, stop)
    | (o, _) => ([], Some o)
    end.
Proof. done. Qed.

Lemma frame_Decode f w rest :
  frame_bytes f = Ok w →
  ∃ p, Decode (w ++ rest) = Ok p ∧ (PType p, Payload p) = frame_view f ∧
       Consumed p = Z.of_nat (length w) ∧ Consumed p ≤ MaxPktLen.
Proof.
  destruct f as [d| | |]; cbn [frame_bytes].
  { intros HE. eexists. rewrite (Decode_frame _ _ _ HE). split_and!; [done..|]. cbn.
    by apply Encode_wire in HE as [? _]; lia. }
  all: intros [= <-]; eexists; split_and!; [reflexivity|done|done|done].
Qed.

Lemma read_all_frames fs w it :
  stream_ok it → frames_bytes fs = Ok w → stream_content it = w →
  read_all (S (length fs)) it = (frame_view <$> fs, Some (Returns (Ok None))).
Proof.
  revert w it. induction fs as [|f fs IH]; intros w it Hok Hw Hc.
  - injection Hw as <-. cbn. destruct (Next it) as [o it'] eqn:HN.
    destruct (Next_simulates it o it' Hok HN) as [Href _]. rewrite Hc in Href.
    injection Href as Hview _. by destruct o as [[[sp|]|e]|].
  - cbn in Hw. destruct (frame_bytes f) as [wf|] eqn:Hf; [|done].
    destruct (frames_bytes fs) as [ws|] eqn:Hfs; [|done]. injection Hw as <-.
    destruct (frame_Decode f wf ws Hf) as (p&HD&Hp&HC&Hmax).
    cbn [length]. rewrite read_all_S. destruct (Next it) as [o it'] eqn:HN.
    destruct (Next_simulates it o it' Hok HN) as [Href Hok'].
    rewrite Hc in Href. unfold next_spec in Href. rewrite HD in Href.
    rewrite (proj2 (Z.ltb_ge _ _) Hmax), HC, Nat2Z.id, drop_app_length in Href.
    injection Href as Hview Hc'. destruct o as [[[sp|]|e]|]; try done. injection Hview as HT HP.
    rewrite (IH ws it' Hok' eq_refl Hc'). cbn. by rewrite HT, HP, Hp.
Qed.

Lemma NewPacketIterator_ok r : rd_end r = io_EOF → stream_ok (NewPacketIterator r).
Proof. intros. split; [|done]. cbn. apply length_replicate. Qed.

(** C37: A sequence of data, flush, delimiter and response-end frames, encoded,
    concatenated and delivered in any pieces, is read back by Next frame by frame,
    followed by a clean end of stream. *)
Theorem stream_roundtrip fs w r :
  frames_bytes fs = Ok w → concat (rd_chunks r) = w → rd_end r = io_EOF →
  read_all (S (length fs)) (NewPacketIterator r) =
    (frame_view <$> fs, Some (Returns (Ok None))).
Proof. intros Hw Hc Hend. by apply (read_all_frames fs w); [apply NewPacketIterator_ok| |]. Qed.

Lemma stream_roundtrip_witness :
  read_all 4 (NewPacketIterator
    {| rd_chunks := [unstr "00"; []; unstr "07ab"; unstr "c00000006xy"]; rd_end := io_EOF |}) =
  ([(Data, unstr "abc"); (Flush, []); (Data, unstr "xy")], Some (Returns (Ok None))).
Proof.
  apply (stream_roundtrip [FData (unstr "abc"); FFlush; FData (unstr "xy")]
           (unstr "0007abc00000006xy")); reflexivity.
Defined.

(** A packet takes its header and its payload off the stream. *)
Lemma Next_consumes it sp it' :
  stream_ok it → Next it = (Returns (Ok (Some sp)), it') →
  stream_ok it' ∧
  length (stream_content it) =
    (4 + length (slice_read (sp_Payload sp) (buf it')) + length (stream_content it'))%nat.
Proof.
  intros Hok HN. destruct (Next_simulates it _ it' Hok HN) as [Href Hok']. split; [done|].
  unfold next_spec in Href. cbn [view] in Href. set (s := stream_content it) in *.
  destruct (Decode s) as [p|e] eqn:HD.
  2:{ destruct (length s =? 0)%nat; [done|]. destruct (length s <? 4)%nat; [done|].
      case_bool_decide; [|done]. by destruct (MaxPktLen <? _). }
  destruct (MaxPktLen <? Consumed p); [done|]. injection Href as _ -> ->.
  apply Decode_Ok_inv in HD as (n&Hn&Hlen&[(_&_&HP&HC)|(_&?&HC&Hle&HP)]);
    rewrite HP, HC, ?length_drop, ?length_take; change (length (@nil byte)) with 0%nat; lia.
Qed.

(** C38: A client that calls Next until it stops does stop, after at most a quarter of
    the bytes on the stream in calls, at the end, an error or a panic; the packets it
    got and their four-byte headers are no more than was on the stream. *)
Theorem reading_ends it fuel :
  stream_ok it → (length (stream_content it) / 4 < fuel)%nat →
  ∃ ps o, read_all fuel it = (ps, Some o) ∧ (∀ sp, o ≠ Returns (Ok (Some sp))) ∧
    (4 * length ps + sum_list_with (λ p, length p.2) ps ≤ length (stream_content it))%nat.
Proof.
  revert it. induction fuel as [|fuel IH]; intros it Hok Hfuel; [lia|]. rewrite read_all_S.
  destruct (Next it) as [o it'] eqn:HN.
  assert (Hstop : (∀ sp, o ≠ Returns (Ok (Some sp))) → ∃ ps o', ([], Some o) = (ps, Some o') ∧
    (∀ sp, o' ≠ Returns (Ok (Some sp))) ∧
    (4 * length ps + sum_list_with (λ p : PacketType * bytes, length p.2) ps ≤ length (stream_content it))%nat).
  { intros Ho. exists [], o. split; [done|]. split; [done|]. cbn. lia. }
  destruct o as [[[sp|]|e]|]; try by apply Hstop. clear Hstop.
  destruct (Next_consumes it sp it' Hok HN) as [Hok' Hlen].
  destruct (IH it' Hok') as (ps & o & Hall & Ho & Hsum).
  { rewrite Hlen in Hfuel. replace (4 + length (slice_read (sp_Payload sp) (buf it')) + length (stream_content it'))%nat
      with (length (slice_read (sp_Payload sp) (buf it')) + length (stream_content it') + 1 * 4)%nat in Hfuel by lia.
    rewrite Nat.div_add in Hfuel by lia.
    pose proof (Nat.Div0.div_le_mono (length (stream_content it'))
      (length (slice_read (sp_Payload sp) (buf it')) + length (stream_content it')) 4 ltac:(lia)). lia. }
  rewrite Hall. eexists _, o. split; [done|]. split; [done|]. cbn. lia.
Qed.

(** A frame, a truncated one, and what stops the client. *)
Lemma reading_ends_witness :
  ∃ ps o, read_all 5 (NewPacketIterator {| rd_chunks := [unstr "0006hi00"; unstr "00000axy"]; rd_end := io_EOF |}) =
      (ps, Some o) ∧ (4 * length ps + sum_list_with (λ p, length p.2) ps ≤ 16)%nat.
Proof.
  destruct (reading_ends (NewPacketIterator {| rd_chunks := [unstr "0006hi00"; unstr "00000axy"]; rd_end := io_EOF |}) 5)
    as (ps & o & Hr & _ & Hlen).
  - split; [apply length_replicate|reflexivity].
  - apply Nat.ltb_lt. reflexivity.
  - exists ps, o. split; [exact Hr|exact Hlen].
Defined.

(** EncodeLine on a buffer appends the frame of Encode or fails with its error and
    writes nothing, except on an empty payload, where Encode fails and EncodeLine writes
    the frame 0004 that both decoders reject. *)
Theorem EncodeLine_buffer data (w : buffer) :
  EncodeLine data w =
    if (length data =? 0)%nat then (None, w ++ unstr "0004")
    else match Encode data with
         | Ok frame => (None, w ++ frame)
         | Err e => (Some e, w)
         end.
Proof.
  destruct data as [|b data].
  { change (EncodeLine [] w) with (@None error, (w ++ unstr "0004") ++ []).
    by rewrite app_nil_r. }
  unfold EncodeLine, Encode.
  cbn [length Nat.eqb]. z_test; [lia|]. z_test; [done|]. cbn. by rewrite app_assoc.
Qed.

(** A data frame on the stream, with the writes to the shared buffer. *)
Lemma Next_frame it d w rest :
  stream_ok it → Encode d = Ok w → stream_content it = w ++ rest →
  ∃ it', Next it =
      (Returns (Ok (Some {| sp_Type := Data; sp_Payload := {| lo := 4; hi := length w |};
                            sp_Consumed := 4 |})), it') ∧
    stream_content it' = rest ∧ stream_ok it' ∧
    buf it' = buf_write 4 d (buf_write 0 (take 4 w) (buf it)).
Proof.
  intros Hok HE Hc. destruct (Encode_wire d w HE) as (Hr&Hlw&_&Hd&HP).
  destruct (Next_header it Hok) as (rd&Hrd&Hcr&He&Htake&Hlb).
  { rewrite Hc, length_app. lia. }
  rewrite Hc, take_app_le in * by lia.
  destruct (io_ReadFull_enough (Z.to_nat (Z.of_nat (length w)) - 4) rd) as (rd'&Hrd'&Hcr'&He').
  { rewrite Hcr, length_drop, length_app. lia. }
  unfold Next. rewrite Hrd. cbn [buf reader]. rewrite Htake.
  rewrite HP.
  do 5 (z_test; [lia|]). unfold Next_data, MaxPktLen in *. z_test; [lia|].
  cbn [reader]. rewrite Hrd', Nat2Z.id, length_take, Nat.min_l by lia.
  eexists. split_and!; [done| | |].
  - unfold stream_content. cbn. rewrite Hcr', Hcr, drop_drop, Nat2Z.id.
    replace (4 + (length w - 4))%nat with (length w) by lia. apply drop_app_length.
  - split; [|cbn; congruence]. cbn [buf]. rewrite buf_write_length; [done|].
    rewrite length_take, Hcr, length_drop, length_app, Hlb. unfold MaxPktLen. lia.
  - cbn. by rewrite Hcr, drop_app_le, Hd, take_app_length' by lia.
Qed.

(** What a payload slice reads once the next frame is in the buffer. *)
Lemma slice_read_overwritten b h d2 k :
  (4 ≤ length b)%nat → length h = 4%nat →
  slice_read {| lo := 4; hi := 4 + k |} (buf_write 4 d2 (buf_write 0 h b)) =
    take k (d2 ++ drop (length d2) (slice_read {| lo := 4; hi := 4 + k |} b)).
Proof.
  intros Hb Hh. unfold slice_read. cbn [lo hi]. rewrite !skipn_firstn_comm.
  replace (4 + k - 4)%nat with k by lia.
  assert (drop 4 (buf_write 0 h b) = drop 4 b) as Hh'.
  { unfold buf_write. by rewrite take_0, Hh, app_nil_l, drop_app_length'. }
  unfold buf_write at 1. rewrite drop_app_length'.
  2:{ rewrite length_take, buf_write_length by (rewrite Hh; lia). lia. }
  rewrite <- (drop_drop (buf_write 0 h b) _ 4), Hh', !firstn_app. f_equal.
  by rewrite take_take, Nat.min_id.
Qed.

(** C39: The payload slice returned for one data frame reads that frame until the next
    call of Next, which overwrites its front with the next payload: afterwards it reads
    the next payload followed by what is left of the old one, cut to the old length. *)
Theorem Next_payload_overwritten it d1 w1 d2 w2 rest :
  stream_ok it → Encode d1 = Ok w1 → Encode d2 = Ok w2 →
  stream_content it = w1 ++ w2 ++ rest →
  ∃ sp1 it1 sp2 it2,
    Next it = (Returns (Ok (Some sp1)), it1) ∧
    Next it1 = (Returns (Ok (Some sp2)), it2) ∧
    slice_read (sp_Payload sp1) (buf it1) = d1 ∧
    slice_read (sp_Payload sp2) (buf it2) = d2 ∧
    slice_read (sp_Payload sp1) (buf it2) = take (length d1) (d2 ++ drop (length d2) d1).
Proof.
  intros Hok HE1 HE2 Hc.
  destruct (Next_frame it d1 w1 (w2 ++ rest) Hok HE1 Hc) as (it1&HN1&Hc1&Hok1&Hb1).
  destruct (Next_frame it1 d2 w2 rest Hok1 HE2 Hc1) as (it2&HN2&_&_&Hb2).
  destruct (Encode_wire d1 w1 HE1) as (Hr1&Hl1&_), (Encode_wire d2 w2 HE2) as (Hr2&Hl2&_).
  destruct Hok as [Hbl _], Hok1 as [Hbl1 _]. unfold MaxPktLen in *.
  eexists _, it1, _, it2. split_and!; [done|done| | |]; cbn [sp_Payload]; rewrite ?Hl1, ?Hl2.
  - rewrite Hb1. apply buf_write_read. rewrite buf_write_length; rewrite ?length_take; lia.
  - rewrite Hb2. apply buf_write_read. rewrite buf_write_length; rewrite ?length_take; lia.
  - rewrite Hb2, slice_read_overwritten by (rewrite ?length_take; lia).
    do 3 f_equal. rewrite Hb1. apply buf_write_read.
    rewrite buf_write_length; rewrite ?length_take; lia.
Qed.

(** The first payload reads [abcd], and then [xycd]. *)
Lemma Next_payload_overwritten_witness :
  ∃ sp1 it1 sp2 it2,
    Next (NewPacketIterator
            {| rd_chunks := [unstr "0008abcd0006xy"]; rd_end := io_EOF |}) =
      (Returns (Ok (Some sp1)), it1) ∧
    Next it1 = (Returns (Ok (Some sp2)), it2) ∧
    slice_read (sp_Payload sp1) (buf it1) = unstr "abcd" ∧
    slice_read (sp_Payload sp2) (buf it2) = unstr "xy" ∧
    slice_read (sp_Payload sp1) (buf it2) = unstr "xycd".
Proof.
  apply (Next_payload_overwritten _ (unstr "abcd") (unstr "0008abcd") (unstr "xy")
           (unstr "0006xy") []); [|reflexivity..].
  split; [apply length_replicate|reflexivity].
Defined.

End Pktline.
