(* ===== verification/Multibase.v ===== *)
(** Multibase decoding and multicodec keys: [pkg/multibase/multibase.go]. *)

From S2P Require Import Prelude.
From S2P Require Import Bytes.
From S2P Require Import Encoding.
From S2P Require Import GoStrings.

Module Multibase.

(** ** Data *)

(** The type [Encoding] of the source. *)
Inductive Encoding_ := Base58btc | HexLower | HexUpper | Base64URL | Base64Std | Base64StdNoPad.

Inductive KeyType := Ed25519Pub | Ed25519Priv | Secp256k1Pub | P256Pub | Unknown.

Record DecodeResult := {
  Data : bytes;
  Encoding : Encoding_;
}.

Definition ErrInvalidInput : error := errors_New "multibase" "invalid input".
Definition ErrUnsupportedEncoding : error := errors_New "multibase" "unsupported encoding".
Definition ErrInvalidBase58Char : error := errors_New "multibase" "invalid base58 character".
Definition ErrUnsupportedKeyType : error := errors_New "multibase" "unsupported key type".
Definition ErrInvalidKeyLength : error := errors_New "multibase" "invalid key length".

Definition base58Alphabet : bytes :=
  unstr "123456789ABCDEFGHJKLMNPQRSTUVWXYZabcdefghijkmnopqrstuvwxyz".

(** ** Base 58 *)

(** The loop of [indexOf] from position [i]. *)
Fixpoint indexOf_from (i : Z) (alphabet : bytes) (c : byte) : Z :=
  match alphabet with
  | [] => -1
  | a :: rest => if bool_decide (a = c) then i else indexOf_from (i + 1) rest c
  end.
Definition indexOf (alphabet : bytes) (c : byte) : Z := indexOf_from 0 alphabet c.

(** The length of the run of [z]s at the front. *)
Fixpoint count_leading (z : Z) (l : list Z) : nat :=
  match l with
  | c :: l' => if c =? z then S (count_leading z l') else 0
  | [] => 0
  end.

(** The accumulation loop of [Base58Decode] over the runes of its input:
    [byte(c)] keeps the low byte of the rune. *)
Fixpoint Base58Decode_loop (result : Z) (cs : list Z) : Prelude.result Z :=
  match cs with
  | [] => Ok result
  | c :: cs' =>
      let idx := indexOf base58Alphabet (byte_of c) in
      if idx <? 0 then Err ErrInvalidBase58Char
      else Base58Decode_loop (result * 58 + idx) cs'
  end.

Definition Base58Decode (encoded : string) : result bytes :=
  if (String.length encoded =? 0)%nat then Ok []
  else
    let cs := runes (unstr encoded) in
    let leadingZeros := count_leading (byte_val "1"%char) cs in
    result ← Base58Decode_loop 0 cs;
    (* result.Bytes(): big-endian, without leading zeros *)
    let decoded := byte_of <$> digits 256 result in
    Ok (replicate leadingZeros zero ++ decoded).

(** The division loop of [Base58Encode]; a number of [digits_fuel] bits or
    fewer has at most that many digits. *)
Fixpoint Base58Encode_loop (fuel : nat) (num : Z) (encoded : bytes) : bytes :=
  match fuel with
  | O => encoded
  | S fuel' =>
      if num <=? 0 then encoded
      else Base58Encode_loop fuel' (num / 58)
             (encoded ++ [alpha_char base58Alphabet (num mod 58)])
  end.

Definition Base58Encode (data : bytes) : string :=
  if (length data =? 0)%nat then EmptyString
  else
    let leadingZeros := count_leading 0 (byte_val <$> data) in
    let num := of_digits 256 (byte_val <$> data) in
    let encoded := Base58Encode_loop (digits_fuel num) num [] in
    let encoded := encoded ++ replicate leadingZeros "1"%char in
    str (reverse encoded).

(** ** Multibase *)

Definition of_option (e : error) (enc : Encoding_) (o : option bytes) : result DecodeResult :=
  match o with
  | Some data => Ok {| Data := data; Encoding := enc |}
  | None => Err e
  end.

Definition Decode (encoded : string) : result DecodeResult :=
  match encoded with
  | EmptyString => Err ErrInvalidInput
  | String prefix payload =>
      if bool_decide (prefix = "z"%char) then
        data ← Base58Decode payload;
        Ok {| Data := data; Encoding := Base58btc |}
      else if bool_decide (prefix = "f"%char) then
        of_option ErrInvalidInput HexLower (hex_DecodeString (unstr payload))
      else if bool_decide (prefix = "F"%char) then
        of_option ErrInvalidInput HexUpper (hex_DecodeString (unstr payload))
      else if bool_decide (prefix = "u"%char) then
        of_option ErrInvalidInput Base64URL
          (base64_DecodeString base64_RawURLEncoding (unstr payload))
      else if bool_decide (prefix = "m"%char) then
        of_option ErrInvalidInput Base64Std
          (base64_DecodeString base64_StdEncoding (unstr payload))
      else if bool_decide (prefix = "M"%char) then
        of_option ErrInvalidInput Base64StdNoPad
          (base64_DecodeString base64_RawStdEncoding (unstr payload))
      else Err ErrUnsupportedEncoding
  end.

(** ** Keys *)

(** A [[32]byte] result is the list of its 32 bytes. *)
Definition ExtractEd25519PubKey (multicodecBytes : bytes) : result bytes :=
  match multicodecBytes with
  | b0 :: b1 :: payload =>
      if negb (byte_val b0 =? 237) || negb (byte_val b1 =? 1) then Err ErrUnsupportedKeyType
      else if negb (length payload =? 32)%nat then Err ErrInvalidKeyLength
      else Ok payload
  | _ => Err ErrUnsupportedKeyType
  end.

(** [ExtractKeyType] returns [Unknown] beside its error. *)
Definition ExtractKeyType (data : bytes) : result KeyType :=
  match byte_val <$> data with
  | b0 :: b1 :: _ =>
      if (b0 =? 237) && (b1 =? 1) then Ok Ed25519Pub
      else if (b0 =? 128) && (b1 =? 38) then Ok Ed25519Priv
      else if (b0 =? 231) && (b1 =? 1) then Ok Secp256k1Pub
      else if (b0 =? 128) && (b1 =? 36) then Ok P256Pub
      else Ok Unknown
  | _ => Err ErrInvalidInput
  end.

Definition DecodeEd25519PubKey (multibaseStr : string) : result bytes :=
  result ← Decode multibaseStr;
  keyBytes ← ExtractEd25519PubKey (Data result);
  Ok keyBytes.

(** ** The alphabet *)

Lemma base58_NoDup : NoDup base58Alphabet.
Proof. apply (bool_decide_unpack _). by vm_compute. Qed.

Lemma base58_length : length base58Alphabet = 58%nat.
Proof. done. Qed.

Lemma base58_ascii : Forall (λ c, byte_val c < 128) base58Alphabet.
Proof. apply (bool_decide_unpack _). by vm_compute. Qed.

Lemma indexOf_val alphabet c :
  indexOf alphabet c = default (-1) (alpha_val alphabet c).
Proof.
  unfold indexOf.
  assert (∀ i, 0 ≤ i →
    indexOf_from i alphabet c = default (-1) ((λ j, i + j) <$> alpha_val alphabet c)) as H.
  { induction alphabet as [|a rest IH]; intros i Hi; cbn; [done|].
    case_bool_decide; [cbn; lia|]. rewrite IH by lia.
    destruct (alpha_val rest c); cbn; lia. }
  rewrite (H 0) by done. by destruct (alpha_val alphabet c).
Qed.

Definition base58_char (d : Z) : byte := alpha_char base58Alphabet d.
#[global] Arguments indexOf : simpl never.
#[global] Arguments base58_char : simpl never.

Lemma base58_char_val d : digit 58 d → indexOf base58Alphabet (base58_char d) = d.
Proof.
  intros Hd. rewrite indexOf_val. unfold base58_char.
  by rewrite alpha_val_char by (apply base58_NoDup || exact Hd).
Qed.

Lemma base58_char_ascii d : digit 58 d → byte_val (base58_char d) < 128.
Proof.
  intros Hd. unfold base58_char, alpha_char, digit in *.
  assert (is_Some (base58Alphabet !! Z.to_nat d)) as [c Hc]
    by (apply lookup_lt_is_Some_2; rewrite base58_length; lia).
  rewrite Hc. exact (Forall_lookup_1 _ _ _ _ base58_ascii Hc).
Qed.

Lemma base58_char_1 d : digit 58 d → (byte_val (base58_char d) =? byte_val "1"%char) = (d =? 0).
Proof.
  intros Hd. destruct (Z.eqb_spec d 0) as [->|Hd0]; [done|].
  apply Z.eqb_neq. intros Heq%(inj byte_val).
  apply Hd0. rewrite <- (base58_char_val d Hd), Heq. done.
Qed.

(** ** Encoding as numerals *)

Lemma Base58Encode_loop_digits fuel num acc :
  Base58Encode_loop fuel num acc = acc ++ (base58_char <$> digits_le 58 fuel num).
Proof.
  revert num acc. induction fuel as [|fuel IH]; intros num acc; cbn; [by rewrite app_nil_r|].
  destruct (num <=? 0); cbn; [by rewrite app_nil_r|]. by rewrite IH, <- app_assoc.
Qed.

Definition leading_zeros (data : bytes) : nat := count_leading 0 (byte_val <$> data).

(** [Base58Encode] writes the numeral of the data in base 58, after a ['1'] for
    each leading zero byte. *)
Lemma Base58Encode_digits data :
  Base58Encode data =
    str (base58_char <$> (replicate (leading_zeros data) 0 ++
                          digits 58 (of_digits 256 (byte_val <$> data)))).
Proof.
  unfold Base58Encode. destruct data as [|b data]; [done|]. cbn [length Nat.eqb].
  f_equal. rewrite Base58Encode_loop_digits, reverse_app, app_nil_l, fmap_app, fmap_replicate.
  unfold digits. by rewrite fmap_reverse, reverse_replicate.
Qed.

Lemma count_leading_split z l :
  ∃ rest, l = replicate (count_leading z l) z ++ rest ∧
          match rest with c :: _ => c ≠ z | [] => True end.
Proof.
  induction l as [|c l (rest&Hl&Hhd)]; [by exists []|]. cbn.
  destruct (Z.eqb_spec c z) as [->|Hne]; [|by exists (c :: l)].
  exists rest. split; [|done]. cbn. by rewrite <- Hl.
Qed.

Lemma count_leading_replicate z k rest :
  match rest with c :: _ => c ≠ z | [] => True end →
  count_leading z (replicate k z ++ rest) = k.
Proof.
  intros Hhd. induction k as [|k IH]; cbn.
  - destruct rest as [|c rest]; [done|]. cbn. by rewrite (proj2 (Z.eqb_neq _ _) Hhd).
  - by rewrite Z.eqb_refl, IH.
Qed.

(** A text of alphabet characters is read back as its numeral. *)
Lemma Base58Decode_loop_digits ds acc :
  Forall (digit 58) ds →
  Base58Decode_loop acc (byte_val <$> (base58_char <$> ds)) =
    Ok (foldl (λ acc d, acc * 58 + d) acc ds).
Proof.
  intros Hds. revert acc. induction Hds as [|d ds Hd _ IH]; intros acc; [done|]. cbn.
  rewrite byte_of_val, base58_char_val by done. unfold digit in Hd.
  by destruct (Z.ltb_spec d 0); [lia|].
Qed.

Lemma count_leading_chars ds :
  Forall (digit 58) ds →
  count_leading (byte_val "1"%char) (byte_val <$> (base58_char <$> ds)) = count_leading 0 ds.
Proof.
  induction 1 as [|d ds Hd _ IH]; [done|]. cbn [fmap list_fmap count_leading].
  by rewrite base58_char_1, <- IH by done.
Qed.

Lemma Base58Decode_digits ds :
  Forall (digit 58) ds →
  Base58Decode (str (base58_char <$> ds)) =
    Ok (replicate (count_leading 0 ds) zero ++ (byte_of <$> digits 256 (of_digits 58 ds))).
Proof.
  intros Hds. unfold Base58Decode. rewrite <- unstr_length, unstr_str, length_fmap.
  destruct ds as [|d ds]; [done|]. cbn [length Nat.eqb].
  rewrite runes_ascii.
  2:{ apply Forall_fmap, (Forall_impl _ _ _ Hds). apply base58_char_ascii. }
  by rewrite count_leading_chars, Base58Decode_loop_digits by done.
Qed.

Lemma byte_digits data : Forall (digit 256) (byte_val <$> data).
Proof. apply Forall_fmap, Forall_true. intros b. apply byte_val_range. Qed.

Lemma fmap_byte_of_val (data : bytes) : byte_of <$> (byte_val <$> data) = data.
Proof.
  rewrite <- list_fmap_compose. rewrite <- (list_fmap_id data) at 2.
  apply list_fmap_ext. intros _ b _. apply byte_of_val.
Qed.

(** The head of a numeral without leading zeros. *)
Lemma digits_no_zero base n :
  2 ≤ base → 0 ≤ n → match digits base n with c :: _ => c ≠ 0 | [] => True end.
Proof.
  intros Hb Hn. destruct (decide (n = 0)) as [->|]; [by rewrite digits_nonpos by lia|].
  destruct (digits_head base Hb n) as (d&ds&->&Hd); lia.
Qed.

Lemma digits_of_leading base l :
  2 ≤ base → Forall (digit base) l →
  l = replicate (count_leading 0 l) 0 ++ digits base (of_digits base l).
Proof.
  intros Hb Hl. destruct (count_leading_split 0 l) as (rest&Hsplit&Hhd).
  assert (Forall (digit base) rest) as Hrest.
  { rewrite Hsplit in Hl. by apply Forall_app in Hl as [_ Hl]. }
  assert (digits base (of_digits base l) = rest) as ->; [|exact Hsplit].
  rewrite Hsplit. apply digits_of_digits_zeros; [done..|].
  destruct rest as [|c rest]; [done|]. apply Forall_cons in Hrest as [Hc _].
  unfold digit in Hc. lia.
Qed.

Lemma of_digits_byte_nonneg data : 0 ≤ of_digits 256 (byte_val <$> data).
Proof. exact (proj1 (of_digits_bound 256 ltac:(lia) _ (byte_digits data))). Qed.

Lemma Base58_inverse data : Base58Decode (Base58Encode data) = Ok data.
Proof.
  rewrite Base58Encode_digits, Base58Decode_digits.
  2:{ apply Forall_app; split; [apply Forall_replicate; unfold digit; lia|].
      apply digits_digit. lia. }
  pose proof (of_digits_byte_nonneg data) as Hn.
  rewrite count_leading_replicate by by apply digits_no_zero.
  rewrite of_digits_zeros, of_digits_digits by lia.
  f_equal. rewrite <- (fmap_byte_of_val data) at 3.
  rewrite (digits_of_leading 256 (byte_val <$> data)) at 2 by (lia || apply byte_digits).
  by rewrite fmap_app, fmap_replicate.
Qed.

(** C40: Base58Decode reads back every byte string that Base58Encode writes, leading
    zero bytes included. *)
Theorem Base58_decode_encode data : Base58Decode (Base58Encode data) = Ok data.
Proof. apply Base58_inverse. Qed.

(** Alphabet text, as the characters of its digits. *)
Lemma alphabet_digits s :
  Forall (λ c, is_Some (alpha_val base58Alphabet c)) s →
  ∃ ds, s = base58_char <$> ds ∧ Forall (digit 58) ds.
Proof.
  induction 1 as [|c s [d Hd] _ (ds&->&Hds)]; [by exists []|].
  exists (d :: ds). split; [|constructor; [|done]].
  - cbn. by rewrite (alpha_char_val _ _ _ Hd : base58_char d = c).
  - exact (alpha_val_range _ _ _ Hd).
Qed.

(** A text of base58 characters decodes, and encoding the result gives the same text:
    the encoding is canonical. *)
Theorem Base58_encode_decode s :
  Forall (λ c, is_Some (alpha_val base58Alphabet c)) (unstr s) →
  ∃ data, Base58Decode s = Ok data ∧ Base58Encode data = s.
Proof.
  intros (ds&Hs&Hds)%alphabet_digits.
  assert (s = str (base58_char <$> ds)) as -> by by rewrite <- Hs, str_unstr.
  rewrite Base58Decode_digits by done. eexists. split; [done|].
  pose proof (proj1 (of_digits_bound 58 ltac:(lia) ds Hds)) as Hn.
  pose proof (digits_digit 256 ltac:(lia) (of_digits 58 ds)) as Hd256.
  rewrite Base58Encode_digits. unfold leading_zeros.
  assert (byte_val <$> (replicate (count_leading 0 ds) zero ++
            (byte_of <$> digits 256 (of_digits 58 ds))) =
          replicate (count_leading 0 ds) 0 ++ digits 256 (of_digits 58 ds)) as ->.
  { rewrite fmap_app, fmap_replicate. f_equal. rewrite <- list_fmap_compose.
    rewrite <- (list_fmap_id (digits _ _)) at 2. apply Forall_fmap_ext_1.
    apply (Forall_impl _ _ _ Hd256). intros d Hd. by apply byte_val_of_small. }
  rewrite count_leading_replicate by by apply digits_no_zero.
  rewrite of_digits_zeros, of_digits_digits by lia.
  by rewrite <- (digits_of_leading 58 ds) by (done || lia).
Qed.

Lemma Base58_encode_decode_witness :
  ∃ data, Base58Decode "11StV1DL6CwTryKyV" = Ok data ∧
          Base58Encode data = "11StV1DL6CwTryKyV".
Proof.
  apply (Base58_encode_decode "11StV1DL6CwTryKyV").
  apply (bool_decide_unpack _). vm_compute. exact I.
Defined.

(** What each error of [Base58Decode] means: every rune must have the low byte
    of an alphabet character, and nothing else is asked of it. *)
Lemma Base58Decode_loop_Ok cs acc :
  is_Ok (Base58Decode_loop acc cs) = true ↔
  Forall (λ c, is_Some (alpha_val base58Alphabet (byte_of c))) cs.
Proof.
  revert acc. induction cs as [|c cs IH]; intros acc; [done|]. cbn [Base58Decode_loop].
  rewrite indexOf_val, Forall_cons. destruct (alpha_val base58Alphabet (byte_of c)) as [i|] eqn:Hi.
  - pose proof (alpha_val_range _ _ _ Hi). cbn [default]. unfold id.
    destruct (Z.ltb_spec i 0); [lia|]. rewrite IH. split; [by split|by intros [_ ?]].
  - cbn. split; [done|]. by intros [[? ?] _].
Qed.

(** Base58Decode succeeds exactly when the low byte of every rune of its input is a
    base58 character, so it also accepts non-ASCII runes such as U+0131, read as the
    digit 1. *)
Theorem Base58Decode_accepts s :
  (∃ data, Base58Decode s = Ok data) ↔
  Forall (λ c, is_Some (alpha_val base58Alphabet (byte_of c))) (runes (unstr s)).
Proof.
  unfold Base58Decode. destruct (Nat.eqb_spec (String.length s) 0) as [Hnil|Hne].
  { destruct s; [|done]. split; [constructor|by exists []]. }
  rewrite <- (Base58Decode_loop_Ok _ 0).
  destruct (Base58Decode_loop 0 (runes (unstr s))) as [r|e]; cbn; [by split; eauto|].
  split; [by intros [? ?]|done].
Qed.

(** The letter U+0131 (bytes [c4 b1]) is no base58 character, and is read as
    the digit ['1'], whose byte is [31]. *)
Example Base58Decode_wide_rune :
  Base58Decode (str [byte_of 196; byte_of 177]) = Ok [] ∧
  Base58Decode (str [byte_of 196; byte_of 177] +:+ "z") = Ok [byte_of 57].
Proof. by vm_compute. Qed.

Lemma Decode_z data :
  Decode (String "z" (Base58Encode data)) = Ok {| Data := data; Encoding := Base58btc |}.
Proof.
  unfold Decode. change (bool_decide ("z"%char = "z"%char)) with true. cbn.
  by rewrite Base58_inverse.
Qed.

(** For each of the six prefixes, Decode reads back what the matching encoder wrote and
    names the encoding. *)
Theorem Decode_roundtrip data :
  Decode (String "z" (Base58Encode data)) = Ok {| Data := data; Encoding := Base58btc |} ∧
  Decode (String "f" (str (hex_EncodeToString data))) =
    Ok {| Data := data; Encoding := HexLower |} ∧
  Decode (String "F" (str (to_upper <$> hex_EncodeToString data))) =
    Ok {| Data := data; Encoding := HexUpper |} ∧
  Decode (String "u" (str (base64_EncodeToString base64_RawURLEncoding data))) =
    Ok {| Data := data; Encoding := Base64URL |} ∧
  Decode (String "m" (str (base64_EncodeToString base64_StdEncoding data))) =
    Ok {| Data := data; Encoding := Base64Std |} ∧
  Decode (String "M" (str (base64_EncodeToString base64_RawStdEncoding data))) =
    Ok {| Data := data; Encoding := Base64StdNoPad |}.
Proof.
  destruct base64_encodings_ok as (Hstd&Hraw&Hurl).
  split; [apply Decode_z|]. split_and!; unfold Decode; cbn [bool_decide decide decide_rel Ascii.eq_dec ascii_dec];
    rewrite ?unstr_str.
  - by rewrite hex_decode_encode.
  - by rewrite hex_DecodeString_upper, hex_decode_encode.
  - by rewrite base64_decode_encode.
  - by rewrite base64_decode_encode.
  - by rewrite base64_decode_encode.
Qed.

(** ** Keys *)

(** The two-byte varint of the Ed25519 public key codec. *)
Definition ed25519_pub_prefix : bytes := [byte_of 237; byte_of 1].

Lemma ExtractEd25519PubKey_Ok b key :
  ExtractEd25519PubKey b = Ok key ↔ b = ed25519_pub_prefix ++ key ∧ length key = 32%nat.
Proof.
  unfold ExtractEd25519PubKey. split.
  - destruct b as [|b0 [|b1 payload]]; [done..|].
    destruct (Z.eqb_spec (byte_val b0) 237) as [H0|]; [|done].
    destruct (Z.eqb_spec (byte_val b1) 1) as [H1|]; [|done]. cbn.
    destruct (Nat.eqb_spec (length payload) 32) as [Hl|]; [|done]. intros [= <-].
    split; [|done]. unfold ed25519_pub_prefix. by rewrite <- H0, <- H1, !byte_of_val.
  - intros [-> Hl]. cbn. by rewrite Hl.
Qed.

(** DecodeEd25519PubKey returns a key exactly when its text decodes, in any encoding, to
    the bytes ed 01 followed by that key of 32 bytes; in particular it reads back the
    z-base58 text of every key. *)
Theorem DecodeEd25519PubKey_spec s key :
  (DecodeEd25519PubKey s = Ok key ↔
   length key = 32%nat ∧
   ∃ enc, Decode s = Ok {| Data := ed25519_pub_prefix ++ key; Encoding := enc |}) ∧
  (length key = 32%nat →
   DecodeEd25519PubKey (String "z" (Base58Encode (ed25519_pub_prefix ++ key))) = Ok key).
Proof.
  assert (∀ s r, Decode s = Ok r → DecodeEd25519PubKey s = ExtractEd25519PubKey (Data r)) as Hdec.
  { intros s' r Hr. unfold DecodeEd25519PubKey. rewrite Hr. cbn.
    by destruct (ExtractEd25519PubKey (Data r)). }
  split; [split|].
  - intros H. destruct (Decode s) as [r|e] eqn:Hr.
    2:{ unfold DecodeEd25519PubKey in H. by rewrite Hr in H. }
    rewrite (Hdec s r Hr) in H. apply ExtractEd25519PubKey_Ok in H as [HD Hl].
    split; [done|]. exists (Encoding r). rewrite <- HD. by destruct r.
  - intros (Hl&enc&Hr). rewrite (Hdec s _ Hr). by apply ExtractEd25519PubKey_Ok.
  - intros Hl. destruct (Decode_roundtrip (ed25519_pub_prefix ++ key)) as (Hz&_).
    rewrite (Hdec _ _ Hz). by apply ExtractEd25519PubKey_Ok.
Qed.

Local Ltac close :=
  split_and!; split; intros;
  first [done|lia|discriminate|split; (done || lia)
        |match goal with
         | H : _ ∧ _ |- _ => destruct H; (done || lia)
         | H : _ ≠ _ |- _ => by destruct H
         end].

(** The errors of ExtractEd25519PubKey agree with ExtractKeyType: an unsupported key
    type exactly when the type is not Ed25519Pub, an invalid length exactly when it is
    and the buffer is not 34 bytes long; ExtractKeyType itself fails exactly below two
    bytes. *)
Theorem ExtractEd25519PubKey_errors b :
  (ExtractEd25519PubKey b = Err ErrUnsupportedKeyType ↔ ExtractKeyType b ≠ Ok Ed25519Pub) ∧
  (ExtractEd25519PubKey b = Err ErrInvalidKeyLength ↔
   ExtractKeyType b = Ok Ed25519Pub ∧ length b ≠ 34%nat) ∧
  (ExtractKeyType b = Err ErrInvalidInput ↔ (length b < 2)%nat).
Proof.
  unfold ExtractEd25519PubKey, ExtractKeyType.
  destruct b as [|b0 [|b1 payload]]; cbn [fmap list_fmap length]; [close..|].
  destruct (Z.eqb_spec (byte_val b0) 237) as [H0|H0], (Z.eqb_spec (byte_val b1) 1) as [H1|H1];
    cbn [andb negb orb].
  1: destruct (Nat.eqb_spec (length payload) 32); cbn; close.
  all: repeat (case_match; try done); close.
Qed.

End Multibase.
