(* ===== verification/Crypto.v ===== *)
(** Ed25519 keys and signatures as texts: [pkg/crypto/ed25519.go].

    The signature scheme itself, [crypto/ed25519], is a parameter of the
    section; the codecs around it are modelled in full. *)

From S2P Require Import Prelude.
From S2P Require Import Bytes.
From S2P Require Import Encoding.

Module Crypto.

Definition SignatureSize : nat := 64.
Definition PublicKeySize : nat := 32.
Definition SeedSize : nat := 32.
Definition SecretKeySize : nat := 64.

Definition ErrInvalidHexLength : error := errors_New "crypto" "invalid hex length".
Definition ErrInvalidHexChar : error := errors_New "crypto" "invalid hex character".
Definition ErrInvalidBase64 : error := errors_New "crypto" "invalid base64".

(** [var out [n]byte; copy(out[:], b)]. *)
Definition copy_array (n : nat) (b : bytes) : bytes :=
  take n b ++ replicate (n - length b) zero.

Lemma copy_array_exact n b : length b = n → copy_array n b = b.
Proof.
  intros <-. unfold copy_array. rewrite take_ge, Nat.sub_diag by lia. apply app_nil_r.
Qed.

Lemma length_copy_array n b : length (copy_array n b) = n.
Proof. unfold copy_array. rewrite length_app, length_take, length_replicate. lia. Qed.

(** ** Key pairs and signatures *)

Record KeyPair := {
  PublicKey : bytes;
  SecretKey : bytes;
}.

Section ed25519.
(** [crypto/ed25519]: a generated pair, the key of a seed, its public part,
    signing and verification. *)
Context (ed25519_GenerateKey : result (bytes * bytes))
        (ed25519_NewKeyFromSeed : bytes → bytes)
        (ed25519_Public : bytes → bytes)
        (ed25519_Sign : bytes → bytes → bytes)
        (ed25519_Verify : bytes → bytes → bytes → bool).

Definition GenerateKeyPair : result KeyPair :=
  '(pub, priv) ← ed25519_GenerateKey;
  Ok {| PublicKey := copy_array PublicKeySize pub;
        SecretKey := copy_array SecretKeySize priv |}.

Definition KeyPairFromSeed (seed : bytes) : KeyPair :=
  let priv := ed25519_NewKeyFromSeed seed in
  let pub := ed25519_Public priv in
  {| PublicKey := copy_array PublicKeySize pub;
     SecretKey := copy_array SecretKeySize priv |}.

Definition Sign (message secretKey : bytes) : bytes :=
  copy_array SignatureSize (ed25519_Sign secretKey message).

Definition Verify (message signature publicKey : bytes) : bool :=
  ed25519_Verify publicKey message signature.
End ed25519.

(** ** Texts *)

Definition SignatureToHex (sig : bytes) : string := str (hex_EncodeToString sig).

Definition SignatureFromHex (h : string) : result bytes :=
  if negb (String.length h =? 128)%nat then Err ErrInvalidHexLength
  else
    match hex_DecodeString (unstr h) with
    | None => Err ErrInvalidHexChar
    | Some b => Ok (copy_array SignatureSize b)
    end.

Definition SignatureToBase64 (sig : bytes) : string :=
  str (base64_EncodeToString base64_StdEncoding sig).

Definition SignatureFromBase64 (encoded : string) : result bytes :=
  match base64_DecodeString base64_StdEncoding (unstr encoded) with
  | None => Err ErrInvalidBase64
  | Some b =>
      if negb (length b =? SignatureSize)%nat then Err ErrInvalidBase64
      else Ok (copy_array SignatureSize b)
  end.

Definition PublicKeyToHex (key : bytes) : string := str (hex_EncodeToString key).

Definition PublicKeyFromHex (h : string) : result bytes :=
  if negb (String.length h =? 64)%nat then Err ErrInvalidHexLength
  else
    match hex_DecodeString (unstr h) with
    | None => Err ErrInvalidHexChar
    | Some b => Ok (copy_array PublicKeySize b)
    end.

(** The two hexadecimal readers are one reader at two sizes. *)
Definition FromHex (n : nat) (h : string) : result bytes :=
  if negb (String.length h =? 2 * n)%nat then Err ErrInvalidHexLength
  else
    match hex_DecodeString (unstr h) with
    | None => Err ErrInvalidHexChar
    | Some b => Ok (copy_array n b)
    end.

Lemma FromHex_Ok n h b :
  FromHex n h = Ok b ↔ length b = n ∧ hex_DecodeString (unstr h) = Some b.
Proof.
  unfold FromHex. rewrite <- unstr_length. split.
  - destruct (Nat.eqb_spec (length (unstr h)) (2 * n)) as [Hl|]; [|done]. cbn [negb].
    destruct (hex_DecodeString (unstr h)) as [b'|] eqn:Hb; [|done].
    apply hex_DecodeString_length in Hb as Hl'. rewrite copy_array_exact by lia.
    intros [= <-]. split; [lia|done].
  - intros [Hl Hb]. pose proof (hex_DecodeString_length _ _ Hb) as Hl'.
    rewrite (proj2 (Nat.eqb_eq _ _)) by lia. cbn [negb]. by rewrite Hb, copy_array_exact.
Qed.

(** SignatureFromHex succeeds exactly on 128 hexadecimal digits of either case whose
    lower case is SignatureToHex of the result; it reports a length other than 128 as
    ErrInvalidHexLength and a bad digit as ErrInvalidHexChar. *)
Theorem SignatureFromHex_spec h sig :
  (SignatureFromHex h = Ok sig ↔
   length sig = SignatureSize ∧ str (to_lower <$> unstr h) = SignatureToHex sig ∧
   is_Some (hex_DecodeString (unstr h))) ∧
  (SignatureFromHex h = Err ErrInvalidHexLength ↔ String.length h ≠ 128%nat) ∧
  (SignatureFromHex h = Err ErrInvalidHexChar ↔
   String.length h = 128%nat ∧ hex_DecodeString (unstr h) = None).
Proof.
  change (SignatureFromHex h) with (FromHex SignatureSize h). split_and!.
  - rewrite FromHex_Ok. unfold SignatureToHex. split.
    + intros [Hl Hb]. split_and!; [done| |by rewrite Hb].
      by rewrite (hex_encode_decode _ _ Hb).
    + intros (Hl&Heq%(inj str)&b&Hb). split; [done|]. rewrite Hb. f_equal.
      rewrite <- (hex_encode_decode _ _ Hb) in Heq.
      apply (inj Some). by rewrite <- !hex_decode_encode, Heq.
  - unfold FromHex. destruct (Nat.eqb_spec (String.length h) (2 * SignatureSize)); cbn [negb].
    + destruct (hex_DecodeString (unstr h)); split; (done || by intros []).
    + by split.
  - unfold FromHex. destruct (Nat.eqb_spec (String.length h) (2 * SignatureSize)); cbn [negb].
    + destruct (hex_DecodeString (unstr h)); split; (done || by intros [_ ?]).
    + split; [done|]. by intros [? _].
Qed.

(** Signatures and public keys of the right size survive the round trip through
    hexadecimal and base64, and their hexadecimal texts are 128 and 64 characters long. *)
Theorem key_texts_roundtrip sig key :
  length sig = SignatureSize → length key = PublicKeySize →
  SignatureFromHex (SignatureToHex sig) = Ok sig ∧
  SignatureFromBase64 (SignatureToBase64 sig) = Ok sig ∧
  PublicKeyFromHex (PublicKeyToHex key) = Ok key ∧
  String.length (SignatureToHex sig) = 128%nat ∧
  String.length (PublicKeyToHex key) = 64%nat.
Proof.
  intros Hs Hk. split_and!.
  - change (FromHex SignatureSize (SignatureToHex sig) = Ok sig).
    apply FromHex_Ok. unfold SignatureToHex. by rewrite unstr_str, hex_decode_encode.
  - unfold SignatureFromBase64, SignatureToBase64.
    destruct base64_encodings_ok as [Hstd _].
    rewrite unstr_str, base64_decode_encode, Hs, copy_array_exact by done. done.
  - change (FromHex PublicKeySize (PublicKeyToHex key) = Ok key).
    apply FromHex_Ok. unfold PublicKeyToHex. by rewrite unstr_str, hex_decode_encode.
  - unfold SignatureToHex. by rewrite <- unstr_length, unstr_str, length_hex_EncodeToString, Hs.
  - unfold PublicKeyToHex. by rewrite <- unstr_length, unstr_str, length_hex_EncodeToString, Hk.
Qed.

Lemma key_texts_roundtrip_witness :
  let sig := replicate 64 (byte_of 171) in
  let key := replicate 32 (byte_of 7) in
  SignatureFromHex (SignatureToHex sig) = Ok sig ∧
  SignatureFromBase64 (SignatureToBase64 sig) = Ok sig ∧
  PublicKeyFromHex (PublicKeyToHex key) = Ok key ∧
  String.length (SignatureToHex sig) = 128%nat ∧
  String.length (PublicKeyToHex key) = 64%nat.
Proof. intros sig key. apply (key_texts_roundtrip sig key); reflexivity. Defined.

End Crypto.
