(* ===== verification/Platform.v ===== *)
(** What the program takes from outside the repository, as interfaces: the
    identifiers of [github.com/google/uuid], the key-value service Redis, what
    PostgreSQL decides that the SQL text does not, and the randomness, the
    clock and the failures of one run.

    Each interface is a class of operations and, apart from it, a class of the
    documented laws the proofs use.  [Module Sim] at the end has a concrete
    instance of each, on which the witnesses evaluate. *)

From stdpp Require Export vector.
From S2P Require Import Prelude.
From S2P Require Import Bytes.
From S2P Require Import Encoding.
#[global] Open Scope Z_scope.

(** ** Identifiers: [uuid.UUID] is [[16]byte] *)

Abbreviation UUID := (vec ascii 16) (only parsing).

(** [uuid.Nil] *)
Definition uuid_Nil : UUID := Vector.const Ascii.zero 16.

Class Uuid := {
  uuid_String : UUID → string;
  uuid_Parse : string → result UUID;
}.

Class UuidLaws `{Uuid} : Prop := {
  uuid_Parse_String u : uuid_Parse (uuid_String u) = Ok u;
  uuid_String_ne u : uuid_String u ≠ EmptyString;
}.

Lemma uuid_String_inj `{UuidLaws} u v : uuid_String u = uuid_String v → u = v.
Proof.
  intros Huv. pose proof (uuid_Parse_String u) as Hu. rewrite Huv, uuid_Parse_String in Hu.
  congruence.
Qed.

(** ** Time, in nanoseconds *)

Definition Nanosecond : Z := 1.
Definition Millisecond : Z := 1000000.
Definition Second : Z := 1000 * Millisecond.
Definition Minute : Z := 60 * Second.
Definition Hour : Z := 60 * Minute.

(** [time.Time{}], the first of January of year 1, from the Unix epoch. *)
Definition zero_Time : Z := -62135596800 * Second.

(** ** Redis: [SET] with an expiry, [GET], [DEL]

    The laws hold at a time [τ] at least a millisecond away from the expiry,
    the accuracy Redis documents. *)

Class Redis (R : Type) := {
  redis_empty : R;
  redis_Set : Z → string → string → Z → R → R;
  redis_Get : Z → string → R → option string;
  redis_Del : string → R → R;
}.

Class RedisLaws (R : Type) `{Redis R} : Prop := {
  redis_Get_empty τ k : redis_Get τ k redis_empty = None;
  redis_Get_Set_live now k v ttl r τ :
    now ≤ τ → τ + Millisecond ≤ now + ttl →
    redis_Get τ k (redis_Set now k v ttl r) = Some v;
  redis_Get_Set_expired now k v ttl r τ :
    0 < ttl → now + ttl + Millisecond ≤ τ →
    redis_Get τ k (redis_Set now k v ttl r) = None;
  redis_Get_Set_eq now k v ttl r τ v' :
    redis_Get τ k (redis_Set now k v ttl r) = Some v' → v' = v;
  redis_Get_Set_ne now k k' v ttl r τ :
    k ≠ k' → redis_Get τ k' (redis_Set now k v ttl r) = redis_Get τ k' r;
  redis_Get_Del_eq τ k r : redis_Get τ k (redis_Del k r) = None;
  redis_Get_Del_ne τ k k' r :
    k ≠ k' → redis_Get τ k' (redis_Del k r) = redis_Get τ k' r;
}.

(** [redis.Nil], the error of a [GET] that finds nothing. *)
Definition redis_Nil : error := errors_New "redis" "redis: nil".

(** ** PostgreSQL: what the SQL text leaves to the server

    Which strings are text in the database's encoding, the coercion to
    [VARCHAR(n)], and the order in which a scan returns rows. *)

Class Postgres := {
  pg_text : string → bool;
  pg_varchar : Z → string → option string;
  pg_order : nat → ∀ A : Type, list A → list A;
}.

Class PostgresLaws `{Postgres} : Prop := {
  pg_order_perm n A (l : list A) : pg_order n A l ≡ₚ l;
  pg_text_ascii s : Forall (λ c, 0 < byte_val c < 128) (unstr s) → pg_text s = true;
  pg_varchar_fits n s :
    pg_text s = true → Z.of_nat (String.length s) ≤ n → pg_varchar n s = Some s;
  pg_varchar_text n s s' : pg_varchar n s = Some s' → pg_text s = true;
}.

(** An error that equals no sentinel: of a connection, of a server. *)
Definition is_fault (e : error) : Prop := ∃ text, e = fmt_Errorf text.

(** ** One run: the [n]-th call outside the program

    [elapsed n] is the time that passes before it takes effect.  [fault n] is
    the failure of its connection, if any, with the text of the error and
    whether the call took effect all the same.  [rand_Read], [uuid_NewV7] and
    [uuid_New] are the randomness the program draws.  Nothing is assumed about
    them but that [rand.Read] fills its buffer and that their errors are not
    the program's. *)

Class Oracle := {
  elapsed : nat → N;
  fault : nat → option (string * bool);
  rand_Read : nat → nat → result bytes;
  new_v7 : nat → result UUID;
  new_v4 : nat → UUID;
}.

Class OracleLaws `{Oracle} : Prop := {
  rand_Read_length t n b : rand_Read t n = Ok b → length b = n;
  rand_Read_Err t n e : rand_Read t n = Err e → is_fault e;
  new_v7_Err t e : new_v7 t = Err e → is_fault e;
}.

(** A run in which no connection fails and randomness is available. *)
Class FaultFree `{Oracle} : Prop := {
  no_fault t : fault t = None;
  rand_Read_ok t n : is_Ok (rand_Read t n) = true;
  new_v7_ok t : is_Ok (new_v7 t) = true;
}.

(** ** Concrete instances *)

Module Sim.

(** The canonical text of an identifier: hexadecimal with dashes at 8, 13, 18
    and 23.  [Parse] here reads that form only. *)
Definition dashed (h : bytes) : bytes :=
  take 8 h ++ "-"%char :: take 4 (drop 8 h) ++ "-"%char :: take 4 (drop 12 h) ++
  "-"%char :: take 4 (drop 16 h) ++ "-"%char :: drop 20 h.

Definition undashed (s : bytes) : bytes :=
  take 8 s ++ take 4 (drop 9 s) ++ take 4 (drop 14 s) ++ take 4 (drop 19 s) ++ drop 24 s.

Definition uuid_of_bytes (bs : bytes) : result UUID :=
  match decide (length bs = 16)%nat with
  | left H => Ok (eq_rect _ (vec ascii) (list_to_vec bs) _ H)
  | right _ => Err (fmt_Errorf "invalid UUID")
  end.

#[export] Instance sim_uuid : Uuid := {|
  uuid_String u := str (dashed (hex_EncodeToString (vec_to_list u)));
  uuid_Parse s :=
    match hex_DecodeString (undashed (unstr s)) with
    | Some bs => uuid_of_bytes bs
    | None => Err (fmt_Errorf "invalid UUID")
    end;
|}.

Lemma undashed_dashed h : length h = 32%nat → undashed (dashed h) = h.
Proof. intros Hl. by do 33 (destruct h as [|? h]; try discriminate Hl). Qed.

Lemma vec_to_list_eq_rect {A} n m (v : vec A n) (H : n = m) :
  vec_to_list (eq_rect n (vec A) v m H) = vec_to_list v.
Proof. by destruct H. Qed.

Lemma uuid_of_bytes_vec (u : UUID) : uuid_of_bytes (vec_to_list u) = Ok u.
Proof.
  unfold uuid_of_bytes. destruct (decide _) as [H|H]; [|by rewrite length_vec_to_list in H].
  f_equal. apply vec_to_list_inj2. rewrite vec_to_list_eq_rect. apply vec_to_list_to_vec.
Qed.

#[export] Instance sim_uuid_laws : UuidLaws.
Proof.
  split.
  - intros u. cbn -[dashed undashed hex_DecodeString hex_EncodeToString].
    rewrite unstr_str, undashed_dashed.
    + by rewrite hex_decode_encode, uuid_of_bytes_vec.
    + by rewrite length_hex_EncodeToString, length_vec_to_list.
  - intros u. cbn -[dashed hex_EncodeToString]. intros H%(f_equal unstr).
    rewrite unstr_str in H. unfold dashed in H. by destruct (take 8 _).
Qed.

(** A value with the time it expires. *)
#[export] Instance sim_redis : Redis (gmap string (string * Z)) := {|
  redis_empty := ∅;
  redis_Set now k v ttl r := <[k := (v, now + ttl)]> r;
  redis_Get τ k r :=
    match r !! k with
    | Some (v, expiry) => if τ <? expiry then Some v else None
    | None => None
    end;
  redis_Del k r := delete k r;
|}.

#[export] Instance sim_redis_laws : RedisLaws (gmap string (string * Z)).
Proof.
  split; cbn; intros.
  - done.
  - rewrite lookup_insert_eq. z_test; [done|]. unfold Millisecond in *. lia.
  - rewrite lookup_insert_eq. z_test; [|done]. unfold Millisecond in *. lia.
  - rewrite lookup_insert_eq in *. by case_match; simplify_eq.
  - by rewrite lookup_insert_ne.
  - by rewrite lookup_delete_eq.
  - by rewrite lookup_delete_ne.
Qed.

(** ASCII text, strict [VARCHAR]s, rows in the order of the table. *)
#[export] Instance sim_postgres : Postgres := {|
  pg_text s := forallb (λ c, (0 <? byte_val c) && (byte_val c <? 128)) (unstr s);
  pg_varchar n s :=
    if forallb (λ c, (0 <? byte_val c) && (byte_val c <? 128)) (unstr s) &&
       (Z.of_nat (String.length s) <=? n)
    then Some s else None;
  pg_order _ _ l := l;
|}.

#[export] Instance sim_postgres_laws : PostgresLaws.
Proof.
  split; cbn.
  - done.
  - intros s Hs. apply forallb_forall. intros c Hc%list_elem_of_In.
    rewrite Forall_forall in Hs. apply Hs in Hc. apply andb_true_intro. by rewrite !Z.ltb_lt.
  - intros n s -> Hl. by rewrite (proj2 (Z.leb_le _ _) Hl).
  - intros n s s'. by destruct (forallb _ _).
Qed.

(** A call a millisecond, no failures, and the number of the call for
    randomness. *)
#[export] Instance sim_oracle : Oracle := {|
  elapsed _ := 1000000%N;
  fault _ := None;
  rand_Read t n := Ok (replicate n (byte_of (Z.of_nat t)));
  new_v7 t := Ok (Vector.const (byte_of (Z.of_nat t)) 16);
  new_v4 t := Vector.const (byte_of (Z.of_nat t)) 16;
|}.

#[export] Instance sim_oracle_laws : OracleLaws.
Proof. split; cbn; [|done..]. intros t n b [= <-]. apply length_replicate. Qed.

#[export] Instance sim_fault_free : FaultFree.
Proof. by split. Qed.

End Sim.
