(* ===== verification/Database.v ===== *)
(** The PostgreSQL database: the schema of [migrations/schema/] and the
    statements of [internal/database/sqlc/].

    A table is the list of its rows.  Each query is the meaning of its SQL text
    on the tables, with the checks of the schema (NOT NULL, VARCHAR(n), CHECK,
    PRIMARY KEY, UNIQUE, REFERENCES and its ON DELETE CASCADE), run through
    the interface [DBTX].  [Integrity] is what the schema promises; every
    statement keeps it, so it holds of every database that any interleaving of
    statements reaches. *)

From S2P Require Import Prelude.
From S2P Require Import Platform.

(** ** Nullable values: [pgtype] *)

Record pgUUID := { Bytes : UUID; Valid : bool }.
Record pgText := { Text_String : string; Text_Valid : bool }.
Record pgTimestamptz := { Time : Z; Timestamptz_Valid : bool }.

#[export] Instance pgUUID_eq_dec : EqDecision pgUUID.
Proof. solve_decision. Defined.
#[export] Instance pgText_eq_dec : EqDecision pgText.
Proof. solve_decision. Defined.
#[export] Instance pgTimestamptz_eq_dec : EqDecision pgTimestamptz.
Proof. solve_decision. Defined.

Definition null_Text : pgText := {| Text_String := EmptyString; Text_Valid := false |}.
Definition null_Timestamptz : pgTimestamptz :=
  {| Time := zero_Time; Timestamptz_Valid := false |}.

(** ** Rows: [models.go] and the tables of the schema *)

Module sqlc.

Record User := {
  User_UserID : pgUUID;
  User_Name : string;
  User_Username : string;
  User_Password : string;
  User_Email : string;
  User_CreatedAt : pgTimestamptz;
  User_UpdatedAt : pgTimestamptz;
  User_DeletedAt : pgTimestamptz;
  User_IsDeleted : bool;
  User_IsVerified : bool;
}.

Record Organization := {
  Org_OrganizationID : pgUUID;
  Org_OrganizationName : string;
  Org_OrganizationDescription : pgText;
}.

Record OrganizationUser := {
  OU_OrganizationID : pgUUID;
  OU_UserID : pgUUID;
}.

Record Session := {
  Session_SessionID : pgUUID;
  Session_UserID : pgUUID;
  Session_RefreshToken : string;
  Session_CreatedAt : pgTimestamptz;
}.

Record SsoProvider := {
  Sso_SsoID : pgUUID;
  Sso_UserID : pgUUID;
  Sso_Name : string;
  Sso_Provider : string;
  Sso_Username : pgText;
  Sso_ActivatedAt : pgTimestamptz;
  Sso_CreatedAt : pgTimestamptz;
}.

Record GitRepository := {
  Repo_ID : pgUUID;
  Repo_Name : string;
  Repo_Description : pgText;
  Repo_IsPrivate : bool;
  Repo_IsDeleted : bool;
  Repo_CreatedAt : pgTimestamptz;
  Repo_UpdatedAt : pgTimestamptz;
  Repo_OwnerID : pgUUID;
  Repo_DefaultRef : string;
  Repo_Head : string;
}.

#[export] Instance User_eq_dec : EqDecision User.
Proof. solve_decision. Defined.
#[export] Instance Organization_eq_dec : EqDecision Organization.
Proof. solve_decision. Defined.
#[export] Instance OrganizationUser_eq_dec : EqDecision OrganizationUser.
Proof. solve_decision. Defined.
#[export] Instance Session_eq_dec : EqDecision Session.
Proof. solve_decision. Defined.
#[export] Instance SsoProvider_eq_dec : EqDecision SsoProvider.
Proof. solve_decision. Defined.
#[export] Instance GitRepository_eq_dec : EqDecision GitRepository.
Proof. solve_decision. Defined.

End sqlc.
Import sqlc.

Record Database := {
  users : list User;
  organizations : list Organization;
  organization_users : list OrganizationUser;
  sessions : list Session;
  sso_providers : list SsoProvider;
  git_repository : list GitRepository;
}.

Definition empty_Database : Database :=
  {| users := []; organizations := []; organization_users := [];
     sessions := []; sso_providers := []; git_repository := [] |}.

Definition set_users f (d : Database) : Database :=
  {| users := f (users d); organizations := organizations d;
     organization_users := organization_users d; sessions := sessions d;
     sso_providers := sso_providers d; git_repository := git_repository d |}.
Definition set_organizations f (d : Database) : Database :=
  {| users := users d; organizations := f (organizations d);
     organization_users := organization_users d; sessions := sessions d;
     sso_providers := sso_providers d; git_repository := git_repository d |}.
Definition set_organization_users f (d : Database) : Database :=
  {| users := users d; organizations := organizations d;
     organization_users := f (organization_users d); sessions := sessions d;
     sso_providers := sso_providers d; git_repository := git_repository d |}.
Definition set_sessions f (d : Database) : Database :=
  {| users := users d; organizations := organizations d;
     organization_users := organization_users d; sessions := f (sessions d);
     sso_providers := sso_providers d; git_repository := git_repository d |}.
Definition set_sso_providers f (d : Database) : Database :=
  {| users := users d; organizations := organizations d;
     organization_users := organization_users d; sessions := sessions d;
     sso_providers := f (sso_providers d); git_repository := git_repository d |}.
Definition set_git_repository f (d : Database) : Database :=
  {| users := users d; organizations := organizations d;
     organization_users := organization_users d; sessions := sessions d;
     sso_providers := sso_providers d; git_repository := f (git_repository d) |}.

(** ** SQL *)

(** The server's errors carry their SQLSTATE; no sentinel equals one. *)
Definition pg_error (code : string) : error := fmt_Errorf ("SQLSTATE " +:+ code).
Definition not_null_violation : error := pg_error "23502".
Definition foreign_key_violation : error := pg_error "23503".
Definition unique_violation : error := pg_error "23505".
Definition check_violation : error := pg_error "23514".
Definition string_data_right_truncation : error := pg_error "22001".
Definition character_not_in_repertoire : error := pg_error "22021".

(** [pgx.ErrNoRows]: a [:one] query that returns no row. *)
Definition pgx_ErrNoRows : error := errors_New "pgx" "no rows in result set".

(** A statement runs at a time, [now()], on a connection (the number [n] of the
    call) and on the tables; it changes nothing when it fails. *)
Definition statement (A : Type) : Type := Z → nat → Database → result (A * Database).

Class DBTX (S : Type) := run_sql : ∀ A : Type, statement A → M S A.
#[global] Arguments run_sql {S _ A} _ _ : assert.

(** [now()], stored in microseconds. *)
Definition sql_now (now : Z) : pgTimestamptz :=
  {| Time := now / 1000 * 1000; Timestamptz_Valid := true |}.

(** [a = b] in a [WHERE]: never true of a NULL. *)
Definition uuid_eq (a b : pgUUID) : bool :=
  Valid a && Valid b && bool_decide (Bytes a = Bytes b).
Definition text_eq (a b : pgText) : bool :=
  Text_Valid a && Text_Valid b && bool_decide (Text_String a = Text_String b).

Section sql.
Context `{Postgres}.

Definition not_null (a : pgUUID) : result unit :=
  if Valid a then Ok tt else Err not_null_violation.

(** A text parameter, and its coercion to [VARCHAR(n)]. *)
Definition text_param (s : string) : result unit :=
  if pg_text s then Ok tt else Err character_not_in_repertoire.

Definition varchar (n : Z) (s : string) : result string :=
  text_param s;;
  match pg_varchar n s with
  | Some s' => Ok s'
  | None => Err string_data_right_truncation
  end.

Definition varchar_null (n : Z) (t : pgText) : result pgText :=
  if Text_Valid t then
    s ← varchar n (Text_String t);
    Ok {| Text_String := s; Text_Valid := true |}
  else Ok null_Text.

(** PRIMARY KEY and UNIQUE, REFERENCES. *)
Definition unique {A K} `{EqDecision K} (key : A → K) (table : list A) (k : K) : result unit :=
  if decide (k ∈ (key <$> table)) then Err unique_violation else Ok tt.

Definition references {A} (key : A → pgUUID) (table : list A) (k : pgUUID) : result unit :=
  if decide (k ∈ (key <$> table)) then Ok tt else Err foreign_key_violation.

Definition check (b : bool) : result unit := if b then Ok tt else Err check_violation.

(** The rows a query returns, and the first of them for [:one]. *)
Definition select {A} (n : nat) (p : A → bool) (table : list A) : list A :=
  pg_order n A (filter p table).

Definition one {A} (rows : list A) : result A :=
  match rows with
  | [] => Err pgx_ErrNoRows
  | row :: _ => Ok row
  end.

Definition update {A} (p : A → bool) (f : A → A) (table : list A) : list A :=
  (λ r, if p r then f r else r) <$> table.

Definition delete_from {A} (p : A → bool) (table : list A) : list A :=
  filter (λ r, negb (p r)) table.
End sql.

(** ** Queries

    [sql_X] is the statement of the constant [x], [X] the method of [Queries]
    that runs it. *)

Module Queries.
Section queries.
Context `{Postgres}.

(** *** users.sql *)

Record CreateUserParams := {
  CreateUser_UserID : pgUUID;
  CreateUser_Name : string;
  CreateUser_Username : string;
  CreateUser_Password : string;
  CreateUser_Email : string;
}.

Definition sql_CreateUser (arg : CreateUserParams) : statement User := λ now _ d,
  name ← varchar 255 (CreateUser_Name arg);
  username ← varchar 255 (CreateUser_Username arg);
  password ← varchar 255 (CreateUser_Password arg);
  email ← varchar 255 (CreateUser_Email arg);
  not_null (CreateUser_UserID arg);;
  unique User_UserID (users d) (CreateUser_UserID arg);;
  unique User_Username (users d) username;;
  unique User_Email (users d) email;;
  let row := {|
    User_UserID := CreateUser_UserID arg; User_Name := name; User_Username := username;
    User_Password := password; User_Email := email;
    User_CreatedAt := sql_now now; User_UpdatedAt := sql_now now;
    User_DeletedAt := null_Timestamptz; User_IsDeleted := false; User_IsVerified := false |} in
  Ok (row, set_users (λ t, t ++ [row]) d).

Definition sql_GetUserByEmail (email : string) : statement User := λ _ n d,
  text_param email;;
  row ← one (select n (λ u, bool_decide (User_Email u = email) && negb (User_IsDeleted u))
               (users d));
  Ok (row, d).

Definition sql_GetUserByID (userID : pgUUID) : statement User := λ _ n d,
  row ← one (select n (λ u, uuid_eq (User_UserID u) userID && negb (User_IsDeleted u))
               (users d));
  Ok (row, d).

Definition sql_GetUserByUsername (username : string) : statement User := λ _ n d,
  text_param username;;
  row ← one (select n (λ u, bool_decide (User_Username u = username) && negb (User_IsDeleted u))
               (users d));
  Ok (row, d).

Definition sql_SoftDeleteUser (userID : pgUUID) : statement unit := λ now _ d,
  Ok (tt, set_users (update (λ u, uuid_eq (User_UserID u) userID) (λ u, {|
    User_UserID := User_UserID u; User_Name := User_Name u; User_Username := User_Username u;
    User_Password := User_Password u; User_Email := User_Email u;
    User_CreatedAt := User_CreatedAt u; User_UpdatedAt := sql_now now;
    User_DeletedAt := sql_now now; User_IsDeleted := true;
    User_IsVerified := User_IsVerified u |})) d).

Record UpdateUserPasswordParams := {
  UpdateUserPassword_UserID : pgUUID;
  UpdateUserPassword_Password : string;
}.

Definition sql_UpdateUserPassword (arg : UpdateUserPasswordParams) : statement unit := λ now _ d,
  password ← varchar 255 (UpdateUserPassword_Password arg);
  Ok (tt, set_users (update (λ u, uuid_eq (User_UserID u) (UpdateUserPassword_UserID arg)) (λ u, {|
    User_UserID := User_UserID u; User_Name := User_Name u; User_Username := User_Username u;
    User_Password := password; User_Email := User_Email u;
    User_CreatedAt := User_CreatedAt u; User_UpdatedAt := sql_now now;
    User_DeletedAt := User_DeletedAt u; User_IsDeleted := User_IsDeleted u;
    User_IsVerified := User_IsVerified u |})) d).

Definition sql_VerifyUser (userID : pgUUID) : statement unit := λ now _ d,
  Ok (tt, set_users (update (λ u, uuid_eq (User_UserID u) userID) (λ u, {|
    User_UserID := User_UserID u; User_Name := User_Name u; User_Username := User_Username u;
    User_Password := User_Password u; User_Email := User_Email u;
    User_CreatedAt := User_CreatedAt u; User_UpdatedAt := sql_now now;
    User_DeletedAt := User_DeletedAt u; User_IsDeleted := User_IsDeleted u;
    User_IsVerified := true |})) d).

(** *** organizations.sql *)

Record AddUserToOrganizationParams := {
  AddUser_OrganizationID : pgUUID;
  AddUser_UserID : pgUUID;
}.

Definition sql_AddUserToOrganization (arg : AddUserToOrganizationParams) : statement unit :=
  λ _ _ d,
  not_null (AddUser_OrganizationID arg);;
  not_null (AddUser_UserID arg);;
  let row := {| OU_OrganizationID := AddUser_OrganizationID arg;
                OU_UserID := AddUser_UserID arg |} in
  unique id (organization_users d) row;;
  references Org_OrganizationID (organizations d) (AddUser_OrganizationID arg);;
  references User_UserID (users d) (AddUser_UserID arg);;
  Ok (tt, set_organization_users (λ t, t ++ [row]) d).

Record CreateOrganizationParams := {
  CreateOrganization_OrganizationID : pgUUID;
  CreateOrganization_OrganizationName : string;
  CreateOrganization_OrganizationDescription : pgText;
}.

Definition sql_CreateOrganization (arg : CreateOrganizationParams) : statement Organization :=
  λ _ _ d,
  name ← varchar 255 (CreateOrganization_OrganizationName arg);
  description ← varchar_null 4000 (CreateOrganization_OrganizationDescription arg);
  not_null (CreateOrganization_OrganizationID arg);;
  unique Org_OrganizationID (organizations d) (CreateOrganization_OrganizationID arg);;
  let row := {| Org_OrganizationID := CreateOrganization_OrganizationID arg;
                Org_OrganizationName := name;
                Org_OrganizationDescription := description |} in
  Ok (row, set_organizations (λ t, t ++ [row]) d).

(** ON DELETE CASCADE: the members go with the organization. *)
Definition sql_DeleteOrganizationByID (organizationID : pgUUID) : statement unit := λ _ _ d,
  Ok (tt, set_organizations
            (delete_from (λ o, uuid_eq (Org_OrganizationID o) organizationID))
            (set_organization_users
               (delete_from (λ ou, uuid_eq (OU_OrganizationID ou) organizationID)) d)).

Definition sql_GetOrganizationByID (organizationID : pgUUID) : statement Organization := λ _ n d,
  row ← one (select n (λ o, uuid_eq (Org_OrganizationID o) organizationID) (organizations d));
  Ok (row, d).

(** [organizations o JOIN organization_users ou ON ...]: the pairs that agree. *)
Definition sql_GetOrganizationsByUserID (userID : pgUUID) : statement (list Organization) :=
  λ _ n d,
  Ok (fst <$> select n
        (λ '(o, ou), uuid_eq (Org_OrganizationID o) (OU_OrganizationID ou) &&
                     uuid_eq (OU_UserID ou) userID)
        (o ← organizations d; (λ ou, (o, ou)) <$> organization_users d), d).

Definition sql_GetUsersByOrganizationID (organizationID : pgUUID) : statement (list User) :=
  λ _ n d,
  Ok (fst <$> select n
        (λ '(u, ou), uuid_eq (User_UserID u) (OU_UserID ou) &&
                     uuid_eq (OU_OrganizationID ou) organizationID &&
                     negb (User_IsDeleted u))
        (u ← users d; (λ ou, (u, ou)) <$> organization_users d), d).

Record RemoveUserFromOrganizationParams := {
  RemoveUser_OrganizationID : pgUUID;
  RemoveUser_UserID : pgUUID;
}.

Definition sql_RemoveUserFromOrganization (arg : RemoveUserFromOrganizationParams) :
    statement unit := λ _ _ d,
  Ok (tt, set_organization_users
            (delete_from (λ ou, uuid_eq (OU_OrganizationID ou) (RemoveUser_OrganizationID arg) &&
                                uuid_eq (OU_UserID ou) (RemoveUser_UserID arg))) d).

(** *** sessions.sql *)

Record CreateSessionParams := {
  CreateSession_SessionID : pgUUID;
  CreateSession_UserID : pgUUID;
  CreateSession_RefreshToken : string;
}.

Definition sql_CreateSession (arg : CreateSessionParams) : statement Session := λ now _ d,
  refresh_token ← varchar 255 (CreateSession_RefreshToken arg);
  not_null (CreateSession_SessionID arg);;
  not_null (CreateSession_UserID arg);;
  unique Session_SessionID (sessions d) (CreateSession_SessionID arg);;
  unique Session_RefreshToken (sessions d) refresh_token;;
  references User_UserID (users d) (CreateSession_UserID arg);;
  let row := {| Session_SessionID := CreateSession_SessionID arg;
                Session_UserID := CreateSession_UserID arg;
                Session_RefreshToken := refresh_token;
                Session_CreatedAt := sql_now now |} in
  Ok (row, set_sessions (λ t, t ++ [row]) d).

Definition sql_DeleteSession (sessionID : pgUUID) : statement unit := λ _ _ d,
  Ok (tt, set_sessions (delete_from (λ s, uuid_eq (Session_SessionID s) sessionID)) d).

Definition sql_DeleteSessionsByUserID (userID : pgUUID) : statement unit := λ _ _ d,
  Ok (tt, set_sessions (delete_from (λ s, uuid_eq (Session_UserID s) userID)) d).

Definition sql_GetSessionByID (sessionID : pgUUID) : statement Session := λ _ n d,
  row ← one (select n (λ s, uuid_eq (Session_SessionID s) sessionID) (sessions d));
  Ok (row, d).

Definition sql_GetSessionByRefreshToken (refreshToken : string) : statement Session := λ _ n d,
  text_param refreshToken;;
  row ← one (select n (λ s, bool_decide (Session_RefreshToken s = refreshToken)) (sessions d));
  Ok (row, d).

(** *** sso.sql *)

Record CreateSSOParams := {
  CreateSSO_SsoID : pgUUID;
  CreateSSO_UserID : pgUUID;
  CreateSSO_Name : string;
  CreateSSO_Provider : string;
  CreateSSO_Username : pgText;
}.

(** CHECK (provider IN ('google', 'local', 'qoppatech')) *)
Definition sso_provider_names : list string := ["google"; "local"; "qoppatech"]%string.

Definition sql_CreateSSO (arg : CreateSSOParams) : statement SsoProvider := λ now _ d,
  name ← varchar 255 (CreateSSO_Name arg);
  provider ← varchar 50 (CreateSSO_Provider arg);
  username ← varchar_null 255 (CreateSSO_Username arg);
  not_null (CreateSSO_SsoID arg);;
  not_null (CreateSSO_UserID arg);;
  check (bool_decide (provider ∈ sso_provider_names));;
  unique Sso_SsoID (sso_providers d) (CreateSSO_SsoID arg);;
  references User_UserID (users d) (CreateSSO_UserID arg);;
  let row := {| Sso_SsoID := CreateSSO_SsoID arg; Sso_UserID := CreateSSO_UserID arg;
                Sso_Name := name; Sso_Provider := provider; Sso_Username := username;
                Sso_ActivatedAt := sql_now now; Sso_CreatedAt := sql_now now |} in
  Ok (row, set_sso_providers (λ t, t ++ [row]) d).

Definition sql_DeleteSSO (ssoID : pgUUID) : statement unit := λ _ _ d,
  Ok (tt, set_sso_providers (delete_from (λ s, uuid_eq (Sso_SsoID s) ssoID)) d).

Record GetSSOByProviderAndUsernameParams := {
  GetSSO_Provider : string;
  GetSSO_Username : pgText;
}.

Definition sql_GetSSOByProviderAndUsername (arg : GetSSOByProviderAndUsernameParams) :
    statement SsoProvider := λ _ n d,
  text_param (GetSSO_Provider arg);;
  (if Text_Valid (GetSSO_Username arg)
   then text_param (Text_String (GetSSO_Username arg)) else Ok tt);;
  row ← one (select n (λ s, bool_decide (Sso_Provider s = GetSSO_Provider arg) &&
                            text_eq (Sso_Username s) (GetSSO_Username arg)) (sso_providers d));
  Ok (row, d).

Definition sql_GetSSOByUserID (userID : pgUUID) : statement (list SsoProvider) := λ _ n d,
  Ok (select n (λ s, uuid_eq (Sso_UserID s) userID) (sso_providers d), d).

(** *** repository.sql *)

Record CreateRepositoryParams := {
  CreateRepository_ID : pgUUID;
  CreateRepository_Name : string;
  CreateRepository_Description : pgText;
  CreateRepository_IsPrivate : bool;
  CreateRepository_OwnerID : pgUUID;
  CreateRepository_DefaultRef : string;
}.

Definition sql_CreateRepository (arg : CreateRepositoryParams) : statement GitRepository :=
  λ now _ d,
  name ← varchar 100 (CreateRepository_Name arg);
  description ← varchar_null 4000 (CreateRepository_Description arg);
  default_ref ← varchar 255 (CreateRepository_DefaultRef arg);
  not_null (CreateRepository_ID arg);;
  not_null (CreateRepository_OwnerID arg);;
  unique Repo_ID (git_repository d) (CreateRepository_ID arg);;
  references User_UserID (users d) (CreateRepository_OwnerID arg);;
  let row := {| Repo_ID := CreateRepository_ID arg; Repo_Name := name;
                Repo_Description := description;
                Repo_IsPrivate := CreateRepository_IsPrivate arg; Repo_IsDeleted := false;
                Repo_CreatedAt := sql_now now; Repo_UpdatedAt := sql_now now;
                Repo_OwnerID := CreateRepository_OwnerID arg; Repo_DefaultRef := default_ref;
                Repo_Head := EmptyString |} in
  Ok (row, set_git_repository (λ t, t ++ [row]) d).

Definition sql_GetRepositoryByID (id : pgUUID) : statement GitRepository := λ _ n d,
  row ← one (select n (λ r, uuid_eq (Repo_ID r) id) (git_repository d));
  Ok (row, d).

Definition sql_GetRepositoryByOwnerId (ownerID : pgUUID) : statement (list GitRepository) :=
  λ _ n d,
  Ok (select n (λ r, uuid_eq (Repo_OwnerID r) ownerID) (git_repository d), d).

Definition sql_GetRepositoryByRepositoryName (name : string) : statement (list GitRepository) :=
  λ _ n d,
  text_param name;;
  Ok (select n (λ r, bool_decide (Repo_Name r = name)) (git_repository d), d).

(** The rows with the new values, returned by RETURNING. *)
Definition soft_deleted (now : Z) (r : GitRepository) : GitRepository := {|
  Repo_ID := Repo_ID r; Repo_Name := Repo_Name r; Repo_Description := Repo_Description r;
  Repo_IsPrivate := Repo_IsPrivate r; Repo_IsDeleted := true;
  Repo_CreatedAt := Repo_CreatedAt r; Repo_UpdatedAt := sql_now now;
  Repo_OwnerID := Repo_OwnerID r; Repo_DefaultRef := Repo_DefaultRef r;
  Repo_Head := Repo_Head r |}.

Definition sql_SoftDeleteRepository (id : pgUUID) : statement GitRepository := λ now n d,
  row ← one (soft_deleted now <$> select n (λ r, uuid_eq (Repo_ID r) id) (git_repository d));
  Ok (row, set_git_repository (update (λ r, uuid_eq (Repo_ID r) id) (soft_deleted now)) d).

Record UpdateRepositoryParams := {
  UpdateRepository_ID : pgUUID;
  UpdateRepository_Name : string;
  UpdateRepository_Description : pgText;
  UpdateRepository_IsPrivate : bool;
  UpdateRepository_OwnerID : pgUUID;
  UpdateRepository_DefaultRef : string;
}.

(** The coercions are those of the assignment; the other checks are made on
    the rows it changes. *)
Definition sql_UpdateRepository (arg : UpdateRepositoryParams) : statement unit := λ now n d,
  name ← varchar 100 (UpdateRepository_Name arg);
  description ← varchar_null 4000 (UpdateRepository_Description arg);
  default_ref ← varchar 255 (UpdateRepository_DefaultRef arg);
  match select n (λ r, uuid_eq (Repo_ID r) (UpdateRepository_ID arg)) (git_repository d) with
  | [] => Ok (tt, d)
  | _ =>
      not_null (UpdateRepository_OwnerID arg);;
      references User_UserID (users d) (UpdateRepository_OwnerID arg);;
      Ok (tt, set_git_repository
                (update (λ r, uuid_eq (Repo_ID r) (UpdateRepository_ID arg)) (λ r, {|
        Repo_ID := Repo_ID r; Repo_Name := name; Repo_Description := description;
        Repo_IsPrivate := UpdateRepository_IsPrivate arg; Repo_IsDeleted := Repo_IsDeleted r;
        Repo_CreatedAt := Repo_CreatedAt r; Repo_UpdatedAt := sql_now now;
        Repo_OwnerID := UpdateRepository_OwnerID arg; Repo_DefaultRef := default_ref;
        Repo_Head := Repo_Head r |})) d)
  end.

(** *** The methods *)

Context {S : Type} `{DBTX S}.

Definition CreateUser arg : M S User := run_sql (sql_CreateUser arg).
Definition GetUserByEmail email : M S User := run_sql (sql_GetUserByEmail email).
Definition GetUserByID userID : M S User := run_sql (sql_GetUserByID userID).
Definition GetUserByUsername username : M S User := run_sql (sql_GetUserByUsername username).
Definition SoftDeleteUser userID : M S unit := run_sql (sql_SoftDeleteUser userID).
Definition UpdateUserPassword arg : M S unit := run_sql (sql_UpdateUserPassword arg).
Definition VerifyUser userID : M S unit := run_sql (sql_VerifyUser userID).

Definition AddUserToOrganization arg : M S unit := run_sql (sql_AddUserToOrganization arg).
Definition CreateOrganization arg : M S Organization := run_sql (sql_CreateOrganization arg).
Definition DeleteOrganizationByID organizationID : M S unit :=
  run_sql (sql_DeleteOrganizationByID organizationID).
Definition GetOrganizationByID organizationID : M S Organization :=
  run_sql (sql_GetOrganizationByID organizationID).
Definition GetOrganizationsByUserID userID : M S (list Organization) :=
  run_sql (sql_GetOrganizationsByUserID userID).
Definition GetUsersByOrganizationID organizationID : M S (list User) :=
  run_sql (sql_GetUsersByOrganizationID organizationID).
Definition RemoveUserFromOrganization arg : M S unit :=
  run_sql (sql_RemoveUserFromOrganization arg).

Definition CreateSession arg : M S Session := run_sql (sql_CreateSession arg).
Definition DeleteSession sessionID : M S unit := run_sql (sql_DeleteSession sessionID).
Definition DeleteSessionsByUserID userID : M S unit := run_sql (sql_DeleteSessionsByUserID userID).
Definition GetSessionByID sessionID : M S Session := run_sql (sql_GetSessionByID sessionID).
Definition GetSessionByRefreshToken refreshToken : M S Session :=
  run_sql (sql_GetSessionByRefreshToken refreshToken).

Definition CreateSSO arg : M S SsoProvider := run_sql (sql_CreateSSO arg).
Definition DeleteSSO ssoID : M S unit := run_sql (sql_DeleteSSO ssoID).
Definition GetSSOByProviderAndUsername arg : M S SsoProvider :=
  run_sql (sql_GetSSOByProviderAndUsername arg).
Definition GetSSOByUserID userID : M S (list SsoProvider) := run_sql (sql_GetSSOByUserID userID).

Definition CreateRepository arg : M S GitRepository := run_sql (sql_CreateRepository arg).
Definition GetRepositoryByID id : M S GitRepository := run_sql (sql_GetRepositoryByID id).
Definition GetRepositoryByOwnerId ownerID : M S (list GitRepository) :=
  run_sql (sql_GetRepositoryByOwnerId ownerID).
Definition GetRepositoryByRepositoryName name : M S (list GitRepository) :=
  run_sql (sql_GetRepositoryByRepositoryName name).
Definition SoftDeleteRepository id : M S GitRepository := run_sql (sql_SoftDeleteRepository id).
Definition UpdateRepository arg : M S unit := run_sql (sql_UpdateRepository arg).

End queries.
End Queries.

(** ** What every store has: conversions, and no row as an error of its own *)

Definition toPgUUID (id : UUID) : pgUUID := {| Bytes := id; Valid := true |}.
#[export] Instance toPgUUID_inj : Inj (=) (=) toPgUUID.
Proof. intros u v H. exact (f_equal Bytes H). Qed.

Definition fromPgUUID (u : pgUUID) : UUID := if Valid u then Bytes u else uuid_Nil.

(** [pgtype.Text{String: s, Valid: s != <empty>}]: the empty string is NULL. *)
Definition optional_Text (s : string) : pgText :=
  {| Text_String := s; Text_Valid := negb (bool_decide (s = EmptyString)) |}.

(** [if errors.Is(err, pgx.ErrNoRows) { return ..., sentinel }] *)
Definition no_rows {A} (sentinel : error) (r : result A) : result A :=
  match r with
  | Err e => if errors_Is e pgx_ErrNoRows then Err sentinel else Err e
  | Ok a => Ok a
  end.
