(* ===== verification/Integrity.v ===== *)
(** What the schema promises ([Integrity]) and that every statement of
    [Database.v] keeps it; that users are never removed from their table; and
    the exact results of the lookups by a unique key. *)

From S2P Require Import Prelude.
From S2P Require Import Bytes.
From S2P Require Import Platform.
From S2P Require Import Database.
Import sqlc.

(** ** What the statements' building blocks do *)

Lemma not_null_Ok a : not_null a = Ok tt ↔ Valid a = true.
Proof. unfold not_null. by destruct (Valid a). Qed.

Lemma unique_Ok {A K} `{EqDecision K} (key : A → K) t k :
  unique key t k = Ok tt ↔ k ∉ key <$> t.
Proof. unfold unique. by case_decide. Qed.

Lemma references_Ok {A} (key : A → pgUUID) t k :
  references key t k = Ok tt ↔ k ∈ key <$> t.
Proof. unfold references. by case_decide. Qed.

Lemma one_Ok {A} (rows : list A) r : one rows = Ok r ↔ head rows = Some r.
Proof. destruct rows; cbn; naive_solver. Qed.

Lemma uuid_eq_true a b : uuid_eq a b = true ↔ Valid a = true ∧ a = b.
Proof.
  unfold uuid_eq. destruct a as [x []], b as [y []]; cbn; try naive_solver.
  rewrite bool_decide_eq_true. naive_solver.
Qed.

Lemma uuid_eq_refl a : Valid a = true → uuid_eq a a = true.
Proof. intros. by apply uuid_eq_true. Qed.

Section table.
Context {A : Type}.
Implicit Types (p : A → bool) (t : list A) (r : A).

Lemma elem_of_select `{PostgresLaws} n p t r : r ∈ select n p t ↔ p r = true ∧ r ∈ t.
Proof.
  unfold select. rewrite pg_order_perm, list_elem_of_filter. destruct (p r); cbn; naive_solver.
Qed.

Lemma elem_of_delete_from p t r : r ∈ delete_from p t ↔ p r = false ∧ r ∈ t.
Proof. unfold delete_from. rewrite list_elem_of_filter. destruct (p r); cbn; naive_solver. Qed.

Lemma elem_of_update p f t r :
  r ∈ update p f t ↔ ∃ r0, r = (if p r0 then f r0 else r0) ∧ r0 ∈ t.
Proof. apply list_elem_of_fmap. Qed.

Lemma Forall_update (P : A → Prop) p f t :
  Forall P t → (∀ r, P r → P (f r)) → Forall P (update p f t).
Proof.
  intros Ht Hf. apply Forall_fmap. eapply Forall_impl; [exact Ht|]. cbn. intros r Hr.
  destruct (p r); auto.
Qed.

Lemma Forall_delete_from (P : A → Prop) p t : Forall P t → Forall P (delete_from p t).
Proof. rewrite !Forall_forall. intros Ht r [_ Hr]%elem_of_delete_from. auto. Qed.

Lemma key_update {K} (key : A → K) p f t :
  (∀ r, key (f r) = key r) → key <$> update p f t = key <$> t.
Proof.
  intros Hf. unfold update. rewrite <- list_fmap_compose. apply list_fmap_ext.
  intros i r _. cbn. by destruct (p r).
Qed.

Lemma NoDup_delete_from {K} (key : A → K) p t :
  NoDup (key <$> t) → NoDup (key <$> delete_from p t).
Proof. intros Ht. eapply sublist_NoDup; [exact Ht|]. apply fmap_sublist, sublist_filter. Qed.

Lemma NoDup_snoc {K} (key : A → K) t r :
  NoDup (key <$> t) → key r ∉ key <$> t → NoDup (key <$> t ++ [r]).
Proof.
  intros Ht Hr. rewrite fmap_app. apply NoDup_app. repeat split; [done| |apply NoDup_singleton].
  intros k Hk ->%list_elem_of_singleton. done.
Qed.

(** Two rows with one key are one row. *)
Lemma NoDup_key {K} (key : A → K) t r1 r2 :
  NoDup (key <$> t) → r1 ∈ t → r2 ∈ t → key r1 = key r2 → r1 = r2.
Proof.
  intros Ht [i Hi]%list_elem_of_lookup [j Hj]%list_elem_of_lookup Hk.
  assert (i = j) as ->.
  { eapply (NoDup_lookup _ i j (key r1) Ht); rewrite list_lookup_fmap.
    - by rewrite Hi.
    - rewrite Hj. by rewrite Hk. }
  congruence.
Qed.

(** A [:one] query on a unique key does not depend on the order of the scan. *)
Lemma one_select `{PostgresLaws} {K} (key : A → K) n p t r :
  NoDup (key <$> t) →
  (∀ r1 r2, p r1 = true → p r2 = true → key r1 = key r2) →
  one (select n p t) = Ok r ↔ r ∈ t ∧ p r = true.
Proof.
  intros Ht Hp. rewrite one_Ok. split.
  - intros Hr. assert (r ∈ select n p t) as [? ?]%elem_of_select; [|done].
    destruct (select n p t) as [|r' l]; [done|]. injection Hr as ->. apply list_elem_of_here.
  - intros [Hr Hpr].
    assert (Hs : r ∈ select n p t) by (by apply elem_of_select).
    assert (Hall : ∀ r', r' ∈ select n p t → r' = r).
    { intros r' [? ?]%elem_of_select. eapply NoDup_key; eauto. }
    destruct (select n p t) as [|r' l]; [by apply not_elem_of_nil in Hs|].
    cbn. f_equal. apply Hall, list_elem_of_here.
Qed.

Lemma one_select_Err `{PostgresLaws} n p t e :
  one (select n p t) = Err e ↔ e = pgx_ErrNoRows ∧ ∀ r, r ∈ t → p r = false.
Proof.
  split.
  - intros Hr. destruct (select n p t) eqn:Hs; [|done]. injection Hr as <-. split; [done|].
    intros r Hr. destruct (p r) eqn:Hp; [|done].
    assert (Hin : r ∈ select n p t) by (by apply elem_of_select).
    rewrite Hs in Hin. by apply not_elem_of_nil in Hin.
  - intros [-> Hp]. destruct (select n p t) as [|r l] eqn:Hs; [done|].
    assert (r ∈ select n p t) as [Hr Hin]%elem_of_select by (rewrite Hs; apply list_elem_of_here).
    rewrite (Hp r Hin) in Hr. done.
Qed.
End table.

(** ** Integrity *)

Record Integrity (d : Database) : Prop := {
  users_pkey : NoDup (User_UserID <$> users d);
  users_valid : Forall (λ u, Valid (User_UserID u) = true) (users d);
  users_username_key : NoDup (User_Username <$> users d);
  users_email_key : NoDup (User_Email <$> users d);
  users_deleted : Forall (λ u, Timestamptz_Valid (User_DeletedAt u) = User_IsDeleted u) (users d);
  organizations_pkey : NoDup (Org_OrganizationID <$> organizations d);
  organizations_valid : Forall (λ o, Valid (Org_OrganizationID o) = true) (organizations d);
  organization_users_pkey : NoDup (id <$> organization_users d);
  organization_users_fkeys : Forall (λ ou,
    OU_OrganizationID ou ∈ Org_OrganizationID <$> organizations d ∧
    OU_UserID ou ∈ User_UserID <$> users d) (organization_users d);
  sessions_pkey : NoDup (Session_SessionID <$> sessions d);
  sessions_refresh_token_key : NoDup (Session_RefreshToken <$> sessions d);
  sessions_fkey : Forall (λ s, Valid (Session_SessionID s) = true ∧
    Session_UserID s ∈ User_UserID <$> users d) (sessions d);
  sso_providers_pkey : NoDup (Sso_SsoID <$> sso_providers d);
  sso_providers_checks : Forall (λ s, Valid (Sso_SsoID s) = true ∧
    Sso_Provider s ∈ Queries.sso_provider_names ∧
    Sso_UserID s ∈ User_UserID <$> users d) (sso_providers d);
  git_repository_pkey : NoDup (Repo_ID <$> git_repository d);
  git_repository_fkey : Forall (λ r, Valid (Repo_ID r) = true ∧
    Repo_OwnerID r ∈ User_UserID <$> users d) (git_repository d);
}.

Lemma Integrity_empty : Integrity empty_Database.
Proof. constructor; cbn; constructor. Qed.

(** Changing one table. *)
Lemma Integrity_set_users f d :
  Integrity d →
  NoDup (User_UserID <$> f (users d)) →
  Forall (λ u, Valid (User_UserID u) = true) (f (users d)) →
  NoDup (User_Username <$> f (users d)) →
  NoDup (User_Email <$> f (users d)) →
  Forall (λ u, Timestamptz_Valid (User_DeletedAt u) = User_IsDeleted u) (f (users d)) →
  User_UserID <$> users d ⊆ User_UserID <$> f (users d) →
  Integrity (set_users f d).
Proof.
  intros [] ????? Hsub. constructor; cbn; try done;
    (eapply Forall_impl; [eassumption|]); cbn; naive_solver.
Qed.

Lemma Integrity_set_organization_users f d :
  Integrity d →
  NoDup (id <$> f (organization_users d)) →
  Forall (λ ou, OU_OrganizationID ou ∈ Org_OrganizationID <$> organizations d ∧
                OU_UserID ou ∈ User_UserID <$> users d) (f (organization_users d)) →
  Integrity (set_organization_users f d).
Proof. by intros [] ??; constructor. Qed.

Lemma Integrity_set_organizations f d :
  Integrity d →
  NoDup (Org_OrganizationID <$> f (organizations d)) →
  Forall (λ o, Valid (Org_OrganizationID o) = true) (f (organizations d)) →
  Forall (λ ou, OU_OrganizationID ou ∈ Org_OrganizationID <$> f (organizations d))
    (organization_users d) →
  Integrity (set_organizations f d).
Proof.
  intros [] ?? Hf. constructor; cbn; try done.
  rewrite Forall_forall in Hf |- *. rewrite Forall_forall in organization_users_fkeys0.
  naive_solver.
Qed.

Lemma Integrity_set_sessions f d :
  Integrity d →
  NoDup (Session_SessionID <$> f (sessions d)) →
  NoDup (Session_RefreshToken <$> f (sessions d)) →
  Forall (λ s, Valid (Session_SessionID s) = true ∧
    Session_UserID s ∈ User_UserID <$> users d) (f (sessions d)) →
  Integrity (set_sessions f d).
Proof. by intros [] ???; constructor. Qed.

Lemma Integrity_set_sso_providers f d :
  Integrity d →
  NoDup (Sso_SsoID <$> f (sso_providers d)) →
  Forall (λ s, Valid (Sso_SsoID s) = true ∧
    Sso_Provider s ∈ Queries.sso_provider_names ∧
    Sso_UserID s ∈ User_UserID <$> users d) (f (sso_providers d)) →
  Integrity (set_sso_providers f d).
Proof. by intros [] ??; constructor. Qed.

Lemma Integrity_set_git_repository f d :
  Integrity d →
  NoDup (Repo_ID <$> f (git_repository d)) →
  Forall (λ r, Valid (Repo_ID r) = true ∧
    Repo_OwnerID r ∈ User_UserID <$> users d) (f (git_repository d)) →
  Integrity (set_git_repository f d).
Proof. by intros [] ??; constructor. Qed.

(** A statement keeps the schema's promises. *)
Definition keeps {A} (s : statement A) : Prop :=
  ∀ now n d a d', Integrity d → s now n d = Ok (a, d') → Integrity d'.

(** A query that only reads. *)
Definition reads {A} (s : statement A) : Prop :=
  ∀ now n d a d', s now n d = Ok (a, d') → d' = d.

Lemma reads_keeps {A} (s : statement A) : reads s → keeps s.
Proof. intros Hs now n d a d' Hd H%Hs. by subst. Qed.

(** Undo the binds of a statement that succeeded. *)
Ltac statement_inv H :=
  repeat match type of H with
  | (_ ≫= _) = Ok _ => apply bind_Ok in H as (?x & ?Hx & H)
  | (match ?r with [] => _ | _ => _ end) = Ok _ => destruct r eqn:?
  | Ok _ = Ok _ => injection H as <- <-
  | Err _ = Ok _ => discriminate H
  end;
  repeat match goal with
  | H : unique _ _ _ = Ok ?x |- _ => destruct x; apply unique_Ok in H
  | H : references _ _ _ = Ok ?x |- _ => destruct x; apply references_Ok in H
  | H : not_null _ = Ok ?x |- _ => destruct x; apply not_null_Ok in H
  end.

Ltac head_of t := match t with ?f _ => head_of f | _ => t end.
Ltac unfold_statement H :=
  match type of H with ?s = _ => let h := head_of s in unfold h in H; cbv beta zeta in H end.
Ltac reads :=
  let H := fresh in intros ?now ?n ?d ?a ?d' H; unfold_statement H; statement_inv H; reflexivity.
Ltac keeps :=
  let H := fresh in intros now n d a d' Hd H; unfold_statement H; statement_inv H.

Section integrity.
Context `{PostgresLaws}.
Import Queries.

Lemma reads_GetUserByEmail email : reads (sql_GetUserByEmail email).
Proof. reads. Qed.
Lemma reads_GetUserByID id : reads (sql_GetUserByID id).
Proof. reads. Qed.
Lemma reads_GetUserByUsername username : reads (sql_GetUserByUsername username).
Proof. reads. Qed.
Lemma reads_GetOrganizationByID id : reads (sql_GetOrganizationByID id).
Proof. reads. Qed.
Lemma reads_GetOrganizationsByUserID id : reads (sql_GetOrganizationsByUserID id).
Proof. reads. Qed.
Lemma reads_GetUsersByOrganizationID id : reads (sql_GetUsersByOrganizationID id).
Proof. reads. Qed.
Lemma reads_GetSessionByID id : reads (sql_GetSessionByID id).
Proof. reads. Qed.
Lemma reads_GetSessionByRefreshToken token : reads (sql_GetSessionByRefreshToken token).
Proof. reads. Qed.
Lemma reads_GetSSOByProviderAndUsername arg : reads (sql_GetSSOByProviderAndUsername arg).
Proof. reads. Qed.
Lemma reads_GetSSOByUserID id : reads (sql_GetSSOByUserID id).
Proof. reads. Qed.
Lemma reads_GetRepositoryByID id : reads (sql_GetRepositoryByID id).
Proof. reads. Qed.
Lemma reads_GetRepositoryByOwnerId id : reads (sql_GetRepositoryByOwnerId id).
Proof. reads. Qed.
Lemma reads_GetRepositoryByRepositoryName name : reads (sql_GetRepositoryByRepositoryName name).
Proof. reads. Qed.

Lemma keeps_CreateUser arg : keeps (sql_CreateUser arg).
Proof.
  keeps. apply Integrity_set_users; [done|..]; cbn.
  - apply NoDup_snoc; [apply Hd|done].
  - apply Forall_app. split; [apply Hd|by repeat constructor].
  - apply NoDup_snoc; [apply Hd|done].
  - apply NoDup_snoc; [apply Hd|done].
  - apply Forall_app. split; [apply Hd|by repeat constructor].
  - rewrite fmap_app. apply list_subseteq_app_l. done.
Qed.

(** An update of users that leaves the keys alone. *)
Lemma keeps_update_users p f d :
  Integrity d →
  (∀ u, User_UserID (f u) = User_UserID u) → (∀ u, User_Username (f u) = User_Username u) →
  (∀ u, User_Email (f u) = User_Email u) →
  (∀ u, Timestamptz_Valid (User_DeletedAt u) = User_IsDeleted u →
        Timestamptz_Valid (User_DeletedAt (f u)) = User_IsDeleted (f u)) →
  Integrity (set_users (update p f) d).
Proof.
  intros Hd Hid Hname Hemail Hdel. apply Integrity_set_users; [done|..].
  - rewrite key_update by done. apply Hd.
  - apply Forall_update; [apply Hd|]. intros u. by rewrite Hid.
  - rewrite key_update by done. apply Hd.
  - rewrite key_update by done. apply Hd.
  - apply Forall_update; [apply Hd|]. apply Hdel.
  - by rewrite key_update.
Qed.

Lemma keeps_SoftDeleteUser id : keeps (sql_SoftDeleteUser id).
Proof. keeps. by apply keeps_update_users. Qed.
Lemma keeps_UpdateUserPassword arg : keeps (sql_UpdateUserPassword arg).
Proof. keeps. by apply keeps_update_users. Qed.
Lemma keeps_VerifyUser id : keeps (sql_VerifyUser id).
Proof. keeps. by apply keeps_update_users. Qed.

Lemma keeps_AddUserToOrganization arg : keeps (sql_AddUserToOrganization arg).
Proof.
  keeps. apply Integrity_set_organization_users; [done|..].
  - apply NoDup_snoc; [apply Hd|done].
  - apply Forall_app. split; [apply Hd|by repeat constructor].
Qed.

Lemma keeps_RemoveUserFromOrganization arg : keeps (sql_RemoveUserFromOrganization arg).
Proof.
  keeps. apply Integrity_set_organization_users; [done|..].
  - apply NoDup_delete_from, Hd.
  - apply Forall_delete_from, Hd.
Qed.

Lemma keeps_CreateOrganization arg : keeps (sql_CreateOrganization arg).
Proof.
  keeps. apply Integrity_set_organizations; [done|..].
  - apply NoDup_snoc; [apply Hd|done].
  - apply Forall_app. split; [apply Hd|by repeat constructor].
  - eapply Forall_impl; [apply Hd|]. cbn. intros ou [? _]. rewrite fmap_app, elem_of_app. auto.
Qed.

(** The cascade is what keeps the members' organizations in the table. *)
Lemma keeps_DeleteOrganizationByID id : keeps (sql_DeleteOrganizationByID id).
Proof.
  keeps. apply Integrity_set_organizations; [apply Integrity_set_organization_users; [done|..]|..].
  - apply NoDup_delete_from, Hd.
  - apply Forall_delete_from, Hd.
  - apply NoDup_delete_from, Hd.
  - apply Forall_delete_from, Hd.
  - apply Forall_forall. intros ou [Hou Hin]%elem_of_delete_from.
    pose proof (organization_users_fkeys _ Hd) as Hfk. rewrite Forall_forall in Hfk.
    apply Hfk in Hin as [(o & Ho & Hin)%list_elem_of_fmap _].
    apply list_elem_of_fmap. exists o. split; [done|].
    apply elem_of_delete_from. by rewrite <- Ho.
Qed.

Lemma keeps_CreateSession arg : keeps (sql_CreateSession arg).
Proof.
  keeps. apply Integrity_set_sessions; [done|..].
  - apply NoDup_snoc; [apply Hd|done].
  - apply NoDup_snoc; [apply Hd|done].
  - apply Forall_app. split; [apply Hd|by repeat constructor].
Qed.

Lemma keeps_delete_sessions p d :
  Integrity d → Integrity (set_sessions (delete_from p) d).
Proof.
  intros Hd. apply Integrity_set_sessions; [done|..].
  - apply NoDup_delete_from, Hd.
  - apply NoDup_delete_from, Hd.
  - apply Forall_delete_from, Hd.
Qed.

Lemma keeps_DeleteSession id : keeps (sql_DeleteSession id).
Proof. keeps. by apply keeps_delete_sessions. Qed.
Lemma keeps_DeleteSessionsByUserID id : keeps (sql_DeleteSessionsByUserID id).
Proof. keeps. by apply keeps_delete_sessions. Qed.

Lemma keeps_CreateSSO arg : keeps (sql_CreateSSO arg).
Proof.
  keeps. apply Integrity_set_sso_providers; [done|..].
  - apply NoDup_snoc; [apply Hd|done].
  - apply Forall_app. split; [apply Hd|]. apply Forall_singleton. cbn. repeat split; [done| |done].
    match goal with H : check _ = Ok _ |- _ => unfold check in H; revert H end.
    by case_bool_decide.
Qed.

Lemma keeps_DeleteSSO id : keeps (sql_DeleteSSO id).
Proof.
  keeps. apply Integrity_set_sso_providers; [done|..].
  - apply NoDup_delete_from, Hd.
  - apply Forall_delete_from, Hd.
Qed.

Lemma keeps_CreateRepository arg : keeps (sql_CreateRepository arg).
Proof.
  keeps. apply Integrity_set_git_repository; [done|..].
  - apply NoDup_snoc; [apply Hd|done].
  - apply Forall_app. split; [apply Hd|by repeat constructor].
Qed.

Lemma keeps_SoftDeleteRepository id : keeps (sql_SoftDeleteRepository id).
Proof.
  keeps. apply Integrity_set_git_repository; [done|..].
  - rewrite key_update by done. apply Hd.
  - apply Forall_update; [apply Hd|done].
Qed.

Lemma keeps_UpdateRepository arg : keeps (sql_UpdateRepository arg).
Proof.
  keeps; [done|]. apply Integrity_set_git_repository; [done|..].
  - rewrite key_update by done. apply Hd.
  - apply Forall_update; [apply Hd|]. naive_solver.
Qed.
End integrity.

(** ** Every reachable database *)

Section reachable.
Context `{Postgres}.
Import Queries.

(** The statements the program has. *)
Inductive sql_statement : ∀ A : Type, statement A → Prop :=
  | st_CreateUser arg : sql_statement _ (sql_CreateUser arg)
  | st_GetUserByEmail email : sql_statement _ (sql_GetUserByEmail email)
  | st_GetUserByID id : sql_statement _ (sql_GetUserByID id)
  | st_GetUserByUsername username : sql_statement _ (sql_GetUserByUsername username)
  | st_SoftDeleteUser id : sql_statement _ (sql_SoftDeleteUser id)
  | st_UpdateUserPassword arg : sql_statement _ (sql_UpdateUserPassword arg)
  | st_VerifyUser id : sql_statement _ (sql_VerifyUser id)
  | st_AddUserToOrganization arg : sql_statement _ (sql_AddUserToOrganization arg)
  | st_CreateOrganization arg : sql_statement _ (sql_CreateOrganization arg)
  | st_DeleteOrganizationByID id : sql_statement _ (sql_DeleteOrganizationByID id)
  | st_GetOrganizationByID id : sql_statement _ (sql_GetOrganizationByID id)
  | st_GetOrganizationsByUserID id : sql_statement _ (sql_GetOrganizationsByUserID id)
  | st_GetUsersByOrganizationID id : sql_statement _ (sql_GetUsersByOrganizationID id)
  | st_RemoveUserFromOrganization arg : sql_statement _ (sql_RemoveUserFromOrganization arg)
  | st_CreateSession arg : sql_statement _ (sql_CreateSession arg)
  | st_DeleteSession id : sql_statement _ (sql_DeleteSession id)
  | st_DeleteSessionsByUserID id : sql_statement _ (sql_DeleteSessionsByUserID id)
  | st_GetSessionByID id : sql_statement _ (sql_GetSessionByID id)
  | st_GetSessionByRefreshToken token : sql_statement _ (sql_GetSessionByRefreshToken token)
  | st_CreateSSO arg : sql_statement _ (sql_CreateSSO arg)
  | st_DeleteSSO id : sql_statement _ (sql_DeleteSSO id)
  | st_GetSSOByProviderAndUsername arg : sql_statement _ (sql_GetSSOByProviderAndUsername arg)
  | st_GetSSOByUserID id : sql_statement _ (sql_GetSSOByUserID id)
  | st_CreateRepository arg : sql_statement _ (sql_CreateRepository arg)
  | st_GetRepositoryByID id : sql_statement _ (sql_GetRepositoryByID id)
  | st_GetRepositoryByOwnerId id : sql_statement _ (sql_GetRepositoryByOwnerId id)
  | st_GetRepositoryByRepositoryName name :
      sql_statement _ (sql_GetRepositoryByRepositoryName name)
  | st_SoftDeleteRepository id : sql_statement _ (sql_SoftDeleteRepository id)
  | st_UpdateRepository arg : sql_statement _ (sql_UpdateRepository arg).

Lemma sql_statement_keeps {A} (s : statement A) : sql_statement A s → keeps s.
Proof.
  destruct 1; auto using keeps_CreateUser, keeps_SoftDeleteUser, keeps_UpdateUserPassword,
    keeps_VerifyUser, keeps_AddUserToOrganization, keeps_CreateOrganization,
    keeps_DeleteOrganizationByID, keeps_RemoveUserFromOrganization, keeps_CreateSession,
    keeps_DeleteSession, keeps_DeleteSessionsByUserID, keeps_CreateSSO, keeps_DeleteSSO,
    keeps_CreateRepository, keeps_SoftDeleteRepository, keeps_UpdateRepository.
  all: apply reads_keeps; reads.
Qed.

(** One statement of one connection; a run of the system is any sequence of
    them, so every interleaving of concurrent requests is one. *)
Inductive sql_step (d d' : Database) : Prop :=
  | sql_step_statement A (s : statement A) now n a :
      sql_statement A s → s now n d = Ok (a, d') → sql_step d d'.

Lemma Integrity_steps d d' : rtc sql_step d d' → Integrity d → Integrity d'.
Proof.
  induction 1 as [|d1 d2 d3 [A s now n a Hs Hstep] _ IH]; [done|]. intros Hd. apply IH.
  by eapply (sql_statement_keeps s Hs).
Qed.

(** C14: Every database that the queries reach from the empty one, in any order and with
    any parameters, satisfies the schema: primary keys and the unique columns without
    duplicates, every reference resolved, providers among the three allowed, a deletion
    date exactly on deleted users. *)
Theorem Integrity_reachable d : rtc sql_step empty_Database d → Integrity d.
Proof. intros Hd. by eapply Integrity_steps, Integrity_empty. Qed.

(** A user stays in the table, under the same names; a deletion is final. *)
Definition persists (u u' : User) : Prop :=
  User_UserID u' = User_UserID u ∧ User_Username u' = User_Username u ∧
  User_Email u' = User_Email u ∧ User_CreatedAt u' = User_CreatedAt u ∧
  (User_IsDeleted u = true → User_IsDeleted u' = true).

#[export] Instance persists_preorder : PreOrder persists.
Proof. split; unfold persists; [intros ?|intros ???]; naive_solver congruence. Qed.

Definition users_persist (d d' : Database) : Prop :=
  ∀ u, u ∈ users d → ∃ u', u' ∈ users d' ∧ persists u u'.

Lemma users_persist_refl d : users_persist d d.
Proof. intros u Hu. by exists u. Qed.

Lemma users_persist_update p f d :
  (∀ u, persists u (f u)) → users_persist d (set_users (update p f) d).
Proof.
  intros Hf u Hu. exists (if p u then f u else u). split.
  - apply elem_of_update. eauto.
  - by destruct (p u).
Qed.

Lemma sql_statement_users_persist {A} (s : statement A) now n d a d' :
  sql_statement A s → s now n d = Ok (a, d') → users_persist d d'.
Proof.
  intros Hs H1. destruct Hs; unfold_statement H1; statement_inv H1;
    try (intros u Hu; by exists u);
    try (apply users_persist_update; intros u; by repeat split).
  intros u Hu. exists u. split; [|done]. apply elem_of_app. by left.
Qed.

Lemma users_persist_steps d d' : rtc sql_step d d' → users_persist d d'.
Proof.
  induction 1 as [d|d1 d2 d3 [A s now n a Hs Hstep] _ IH]; [apply users_persist_refl|].
  intros u Hu. eapply sql_statement_users_persist in Hu as (u' & Hu' & Hp); [|done..].
  apply IH in Hu' as (u'' & Hu'' & Hp'). exists u''. split; [done|]. by etrans.
Qed.

Lemma unique_Err {A K} `{EqDecision K} (key : A → K) t r :
  r ∈ t → unique key t (key r) = Err unique_violation.
Proof. intros Hr. unfold unique. rewrite decide_True; [done|]. by apply list_elem_of_fmap_2. Qed.
End reachable.

(** ** Lookups by a unique key: the scan order does not matter *)

Section lookups.
Context `{PostgresLaws}.
Import Queries.

Lemma GetUserByEmail_Ok email now n d u d' :
  Integrity d →
  sql_GetUserByEmail email now n d = Ok (u, d') ↔
  d' = d ∧ pg_text email = true ∧ u ∈ users d ∧ User_Email u = email ∧ User_IsDeleted u = false.
Proof.
  intros Hd. unfold sql_GetUserByEmail, text_param. destruct (pg_text email); [|by split; naive_solver].
  cbn [mbind result_bind]. rewrite bind_Ok. setoid_rewrite (one_select User_Email).
  - split.
    + intros (u' & [Hu [He Hdel]%andb_prop] & [= -> ->]).
      apply bool_decide_eq_true in He. by destruct (User_IsDeleted u).
    + intros (-> & _ & Hu & <- & Hdel). exists u. by rewrite bool_decide_true, Hdel.
  - apply Hd.
  - intros r1 r2 [->%bool_decide_eq_true _]%andb_prop [->%bool_decide_eq_true _]%andb_prop. done.
Qed.

Lemma GetUserByUsername_Ok username now n d u d' :
  Integrity d →
  sql_GetUserByUsername username now n d = Ok (u, d') ↔
  d' = d ∧ pg_text username = true ∧ u ∈ users d ∧ User_Username u = username ∧
  User_IsDeleted u = false.
Proof.
  intros Hd. unfold sql_GetUserByUsername, text_param.
  destruct (pg_text username); [|by split; naive_solver].
  cbn [mbind result_bind]. rewrite bind_Ok. setoid_rewrite (one_select User_Username).
  - split.
    + intros (u' & [Hu [He Hdel]%andb_prop] & [= -> ->]).
      apply bool_decide_eq_true in He. by destruct (User_IsDeleted u).
    + intros (-> & _ & Hu & <- & Hdel). exists u. by rewrite bool_decide_true, Hdel.
  - apply Hd.
  - intros r1 r2 [->%bool_decide_eq_true _]%andb_prop [->%bool_decide_eq_true _]%andb_prop. done.
Qed.

Lemma GetUserByID_Ok id now n d u d' :
  Integrity d →
  sql_GetUserByID id now n d = Ok (u, d') ↔
  d' = d ∧ u ∈ users d ∧ User_UserID u = id ∧ User_IsDeleted u = false.
Proof.
  intros Hd. unfold sql_GetUserByID. rewrite bind_Ok. setoid_rewrite (one_select User_UserID).
  - split.
    + intros (u' & [Hu [He Hdel]%andb_prop] & [= -> ->]).
      apply uuid_eq_true in He as [_ He]. by destruct (User_IsDeleted u).
    + intros (-> & Hu & <- & Hdel). exists u. rewrite uuid_eq_refl, Hdel; [done|].
      pose proof (users_valid _ Hd) as Hv. rewrite Forall_forall in Hv. auto.
  - apply Hd.
  - intros r1 r2 [[_ ->]%uuid_eq_true _]%andb_prop [[_ ->]%uuid_eq_true _]%andb_prop. done.
Qed.

Lemma GetSessionByRefreshToken_Ok token now n d s d' :
  Integrity d →
  sql_GetSessionByRefreshToken token now n d = Ok (s, d') ↔
  d' = d ∧ pg_text token = true ∧ s ∈ sessions d ∧ Session_RefreshToken s = token.
Proof.
  intros Hd. unfold sql_GetSessionByRefreshToken, text_param.
  destruct (pg_text token); [|by split; naive_solver].
  cbn [mbind result_bind]. rewrite bind_Ok. setoid_rewrite (one_select Session_RefreshToken).
  - split.
    + intros (s' & [Hs He%bool_decide_eq_true] & [= -> ->]). done.
    + intros (-> & _ & Hs & <-). exists s. by rewrite bool_decide_true.
  - apply Hd.
  - by intros r1 r2 ->%bool_decide_eq_true ->%bool_decide_eq_true.
Qed.

Lemma GetRepositoryByID_Ok id now n d r d' :
  Integrity d →
  sql_GetRepositoryByID id now n d = Ok (r, d') ↔
  d' = d ∧ r ∈ git_repository d ∧ Repo_ID r = id.
Proof.
  intros Hd. unfold sql_GetRepositoryByID. rewrite bind_Ok. setoid_rewrite (one_select Repo_ID).
  - split.
    + by intros (r' & [Hr [_ He]%uuid_eq_true] & [= -> ->]).
    + intros (-> & Hr & <-). exists r. rewrite uuid_eq_refl; [done|].
      pose proof (git_repository_fkey _ Hd) as Hv. rewrite Forall_forall in Hv. by apply Hv.
  - apply Hd.
  - by intros r1 r2 [_ ->]%uuid_eq_true [_ ->]%uuid_eq_true.
Qed.

(** After any further queries, no lookup returns a soft-deleted user and no user can be
    created with its id, email or username: a deletion is final and keeps the names
    reserved. *)
Theorem deleted_user_stays_deleted d d' u :
  Integrity d → u ∈ users d → User_IsDeleted u = true → rtc sql_step d d' →
  (∀ id email username now n row d'',
     sql_GetUserByID id now n d' = Ok (row, d'') ∨
     sql_GetUserByEmail email now n d' = Ok (row, d'') ∨
     sql_GetUserByUsername username now n d' = Ok (row, d'') →
     User_UserID row ≠ User_UserID u) ∧
  (∀ arg now n row d'',
     sql_CreateUser arg now n d' = Ok (row, d'') →
     User_UserID row ≠ User_UserID u ∧ User_Email row ≠ User_Email u ∧
     User_Username row ≠ User_Username u).
Proof.
  intros Hd Hu Hdel Hsteps.
  assert (Hd' : Integrity d') by (by eapply Integrity_steps).
  apply (users_persist_steps _ _ Hsteps) in Hu as (u' & Hu' & Hid & Hname & Hemail & _ & Hdel').
  rewrite <- Hid, <- Hname, <- Hemail. specialize (Hdel' Hdel). split.
  - intros id email username now n row d'' Hrow Hids.
    assert (row ∈ users d' ∧ User_IsDeleted row = false) as [Hin Hlive].
    { destruct Hrow as [Hr|[Hr|Hr]];
        [apply GetUserByID_Ok in Hr|apply GetUserByEmail_Ok in Hr|apply GetUserByUsername_Ok in Hr];
        naive_solver. }
    assert (row = u') as -> by (eapply NoDup_key; [apply Hd'|done..]). congruence.
  - intros arg now n row d'' H1. unfold_statement H1. statement_inv H1. cbn.
    repeat split; intros Heq;
      match goal with H : _ ∉ ?k <$> _ |- _ => apply H; rewrite Heq; by apply list_elem_of_fmap_2 end.
Qed.
End lookups.

(** ** Results of the checks; the server's errors are none of the program's *)

Section checks.
Context `{PostgresLaws}.

Lemma varchar_Ok n s s' : varchar n s = Ok s' → pg_varchar n s = Some s'.
Proof.
  unfold varchar. intros (? & _ & Hs)%bind_Ok. destruct (pg_varchar n s); congruence.
Qed.

Lemma varchar_Err n s e : varchar n s = Err e → is_fault e ∧ pg_varchar n s = None.
Proof.
  unfold varchar, text_param. destruct (pg_text s) eqn:Hs; cbn.
  - destruct (pg_varchar n s); [done|]. intros [= <-]. split; [by eexists|done].
  - intros [= <-]. split; [by eexists|]. destruct (pg_varchar n s) eqn:Hv; [|done].
    apply pg_varchar_text in Hv. congruence.
Qed.

Lemma unique_inv {A K} `{EqDecision K} (key : A → K) t k e :
  unique key t k = Err e → is_fault e ∧ k ∈ key <$> t.
Proof. unfold unique. case_decide; intros [= <-]. split; [by eexists|done]. Qed.

Lemma text_param_Err s e : text_param s = Err e → is_fault e.
Proof. unfold text_param. destruct (pg_text s); intros [= <-]. by eexists. Qed.

Lemma varchar_fault n s e : varchar n s = Err e → is_fault e.
Proof. by intros [? _]%varchar_Err. Qed.
End checks.

(** ** An example database: a user and a session *)

Module Example_.
Import Queries Sim.

Definition an_id (n : Z) : pgUUID :=
  {| Bytes := Vector.const (byte_of n) 16; Valid := true |}.

Definition ada : CreateUserParams := {|
  CreateUser_UserID := an_id 1; CreateUser_Name := "Ada"; CreateUser_Username := "ada";
  CreateUser_Password := "hash"; CreateUser_Email := "ada@example.org" |}.

Definition ada_session : CreateSessionParams := {|
  CreateSession_SessionID := an_id 2; CreateSession_UserID := an_id 1;
  CreateSession_RefreshToken := "token" |}.

Definition ada_deleted : User := {|
  User_UserID := an_id 1; User_Name := "Ada"; User_Username := "ada";
  User_Password := "hash"; User_Email := "ada@example.org";
  User_CreatedAt := sql_now 0; User_UpdatedAt := sql_now 0; User_DeletedAt := sql_now 0;
  User_IsDeleted := true; User_IsVerified := false |}.

(** The database after a statement, itself when it fails. *)
Definition after {A} (s : statement A) (d : Database) : Database :=
  match s 0 0%nat d with Ok (_, d') => d' | Err _ => d end.

Definition ada_db : Database := after (sql_CreateUser ada) empty_Database.
Definition session_db : Database := after (sql_CreateSession ada_session) ada_db.
Definition deleted_db : Database := after (sql_SoftDeleteUser (an_id 1)) session_db.

Lemma after_step {A} (s : statement A) d :
  sql_statement A s → is_Ok (s 0 0%nat d) = true → sql_step d (after s d).
Proof.
  intros Hs Hok. unfold after. destruct (s 0 0%nat d) as [[a d']|] eqn:Heq; [|done].
  by econstructor.
Qed.

Lemma ada_steps : rtc sql_step empty_Database ada_db.
Proof. eapply rtc_once, after_step; [constructor|reflexivity]. Qed.

Lemma session_steps : rtc sql_step empty_Database session_db.
Proof. eapply rtc_r; [apply ada_steps|]. eapply after_step; [constructor|reflexivity]. Qed.

Lemma deleted_steps : rtc sql_step empty_Database deleted_db.
Proof. eapply rtc_r; [apply session_steps|]. eapply after_step; [constructor|reflexivity]. Qed.

Lemma Integrity_reachable_witness :
  length (users session_db) = 1%nat ∧ length (sessions session_db) = 1%nat ∧
  Integrity session_db.
Proof.
  split; [reflexivity|]. split; [reflexivity|]. apply Integrity_reachable, session_steps.
Defined.

(** Registering the names of a deleted user fails, and so does looking it up. *)
Lemma deleted_user_stays_deleted_witness :
  (∀ row d'', sql_CreateUser ada 0 0%nat deleted_db ≠ Ok (row, d'')) ∧
  sql_GetUserByEmail "ada@example.org" 0 0%nat deleted_db = Err pgx_ErrNoRows.
Proof.
  split; [|reflexivity]. intros row d'' H.
  destruct (deleted_user_stays_deleted deleted_db deleted_db
    ada_deleted) as [_ Hnew].
  - apply (Integrity_steps empty_Database); [apply deleted_steps|apply Integrity_empty].
  - apply list_elem_of_singleton. reflexivity.
  - reflexivity.
  - apply rtc_refl.
  - destruct (Hnew _ _ _ _ _ H) as (_ & He & _). apply He.
    unfold_statement H. statement_inv H.
    repeat match goal with
    | Hx : varchar _ _ = Ok _ |- _ => vm_compute in Hx; injection Hx as <-
    end.
    reflexivity.
Defined.

End Example_.
