(* ===== verification/World.v ===== *)
(** The state the server acts on, and calls to what is outside the program.

    A [World] is the database, the Redis store, the disk, the clock and the
    number of calls made so far.  The three interfaces through which the code
    acts on it are classes over an abstract state: [DBTX] (from [Database.v]),
    [RedisClient] and [Entropy].  The instances here run them on a [World]:
    each call lets time pass and may fail, before or after it took effect. *)

From S2P Require Import Prelude.
From S2P Require Import Platform.
From S2P Require Import Database.
From S2P Require Import Integrity.

(** ** Interfaces *)

(** [*redis.Client]: [Set], [Get] and [Del]. *)
Class RedisClient (S : Type) := {
  client_Set : string → string → Z → M S unit;
  client_Get : string → M S string;
  client_Del : string → M S unit;
}.

(** [crypto/rand] and the generators of [github.com/google/uuid]. *)
Class Entropy (S : Type) := {
  rand_bytes : nat → M S bytes;
  uuid_NewV7 : M S UUID;
  uuid_New : M S UUID;
}.

(** [time.Now()] *)
Class Clock (S : Type) := time_Now : M S Z.

(** ** The world *)

Record World (R D : Type) := mkWorld {
  db : Database;
  redis : R;
  disk : D;
  clock : Z;
  calls : nat;
}.
Arguments mkWorld {R D}.
Arguments db {R D}.
Arguments redis {R D}.
Arguments disk {R D}.
Arguments clock {R D}.
Arguments calls {R D}.

Section world.
Context {R D : Type}.
Implicit Types (w : World R D).

Definition set_db (d : Database) w : World R D :=
  mkWorld d (redis w) (disk w) (clock w) (calls w).
Definition set_redis (r : R) w : World R D :=
  mkWorld (db w) r (disk w) (clock w) (calls w).
Definition set_disk (k : D) w : World R D :=
  mkWorld (db w) (redis w) k (clock w) (calls w).

Context `{Oracle}.

(** Time passes, and the call has a number. *)
Definition tick w : World R D :=
  mkWorld (db w) (redis w) (disk w) (clock w + Z.of_N (elapsed (calls w))) (Datatypes.S (calls w)).

Lemma tick_clock w : clock w ≤ clock (tick w).
Proof. cbn. lia. Qed.

(** A call over a connection. *)
Definition call {A} (act : M (World R D) A) : M (World R D) A := λ w,
  match fault (calls w) with
  | None => act (tick w)
  | Some (text, applied) =>
      (Err (fmt_Errorf text), if applied then (act (tick w)).2 else tick w)
  end.

#[export] Instance World_DBTX : DBTX (World R D) := λ A s,
  call (λ w,
    match s (clock w) (calls w) (db w) with
    | Ok (a, d) => (Ok a, set_db d w)
    | Err e => (Err e, w)
    end).

#[export] Instance World_RedisClient `{Redis R} : RedisClient (World R D) := {|
  client_Set k v ttl := call (λ w, (Ok tt, set_redis (redis_Set (clock w) k v ttl (redis w)) w));
  client_Get k := call (λ w,
    (match redis_Get (clock w) k (redis w) with Some v => Ok v | None => Err redis_Nil end, w));
  client_Del k := call (λ w, (Ok tt, set_redis (redis_Del k (redis w)) w));
|}.

#[export] Instance World_Entropy : Entropy (World R D) := {|
  rand_bytes n := λ w, (rand_Read (calls w) n, tick w);
  uuid_NewV7 := λ w, (new_v7 (calls w), tick w);
  uuid_New := λ w, (Ok (new_v4 (calls w)), tick w);
|}.

#[export] Instance World_Clock : Clock (World R D) := λ w, (Ok (clock w), w).

(** *** What a call does to the world *)

Lemma errors_Is_fault e pkg text : is_fault e → errors_Is e (errors_New pkg text) = false.
Proof. by intros [t ->]. Qed.

(** Every call either did what it does, at its time, or failed without. *)
Lemma call_inv {A} (act : M (World R D) A) w r w' :
  call act w = (r, w') →
  (act (tick w) = (r, w')) ∨
  (∃ e, is_fault e ∧ r = Err e ∧ (w' = tick w ∨ ∃ r', act (tick w) = (r', w'))).
Proof.
  unfold call. destruct (fault _) as [[text []]|]; [| |by left].
  - intros [= <- <-]. right. eexists. split; [by eexists|]. split; [done|].
    right. exists (act (tick w)).1. by destruct (act _).
  - intros [= <- <-]. right. eexists. split; [by eexists|]. auto.
Qed.

Lemma call_FaultFree `{!FaultFree} {A} (act : M (World R D) A) w :
  call act w = act (tick w).
Proof. unfold call. by rewrite no_fault. Qed.

(** A statement, through its connection. *)
Lemma run_sql_inv {A} (s : statement A) w r w' :
  run_sql s w = (r, w') →
  redis w' = redis w ∧ disk w' = disk w ∧ clock w' = clock (tick w) ∧
  ((∃ a, r = Ok a ∧ s (clock w') (calls w') (db w) = Ok (a, db w')) ∨
   (∃ e, r = Err e ∧ s (clock w') (calls w') (db w) = Err e ∧ db w' = db w) ∨
   (∃ e, r = Err e ∧ is_fault e ∧
     (db w' = db w ∨ ∃ a, s (clock w') (calls w') (db w) = Ok (a, db w')))).
Proof.
  unfold run_sql, World_DBTX. intros [H1|(e & He & -> & H1)]%call_inv; cbn in H1.
  - destruct (s _ _ _) as [[a d]|e] eqn:Hs; injection H1 as <- <-; cbn; naive_solver.
  - destruct H1 as [->|(r' & H1)]; cbn.
    + naive_solver.
    + destruct (s _ _ _) as [[a d]|e'] eqn:Hs; injection H1 as <- <-; cbn; naive_solver.
Qed.

(** A statement that leaves a table alone. *)
Lemma run_sql_keeps {A B} (s : statement A) (table : Database → B) w r w' :
  (∀ t n d a d', s t n d = Ok (a, d') → table d' = table d) →
  run_sql s w = (r, w') → table (db w') = table (db w).
Proof.
  intros Hs (_ & _ & _ & Hres)%run_sql_inv.
  destruct Hres as [(a & _ & Ha)|[(e & _ & _ & ->)|(e & _ & _ & [->|(a & Ha)])]]; [|done..|]; by eapply Hs.
Qed.

(** A query that only reads is a tick of the clock. *)
Lemma read_inv {A} (s : statement A) w r w' :
  reads s → run_sql s w = (r, w') →
  w' = tick w ∧
  (r = fst <$> s (clock w') (calls w') (db w) ∨ ∃ e, is_fault e ∧ r = Err e).
Proof.
  intros Hs. unfold run_sql, World_DBTX. intros [H1|(e & He & -> & H1)]%call_inv; cbn in H1.
  - destruct (s _ _ _) as [[a d]|e] eqn:Hst; injection H1 as <- <-; cbn.
    + apply Hs in Hst as Hd. subst d. unfold tick in *. cbn in *. rewrite Hst. auto.
    + cbn in Hst. rewrite Hst. auto.
  - destruct H1 as [->|(r' & H1)]; [by eauto|].
    destruct (s _ _ _) as [[a d]|e'] eqn:Hst; injection H1 as <- <-; [|by eauto].
    apply Hs in Hst as ->. eauto.
Qed.

(** A query that writes keeps the schema. *)
Lemma write_inv `{Postgres} {A} (s : statement A) w r w' :
  sql_statement A s → Integrity (db w) → run_sql s w = (r, w') →
  Integrity (db w') ∧ redis w' = redis w ∧ disk w' = disk w ∧ clock w' = clock (tick w) ∧
  ((∃ a, r = Ok a ∧ s (clock w') (calls w') (db w) = Ok (a, db w')) ∨
   (∃ e, r = Err e ∧ (s (clock w') (calls w') (db w) = Err e ∨ is_fault e) ∧
     (db w' = db w ∨ ∃ a, s (clock w') (calls w') (db w) = Ok (a, db w')))).
Proof.
  intros Hs Hi (Hr & Hk & Hc & Hres)%run_sql_inv.
  split; [|split; [done|split; [done|split; [done|]]]].
  - destruct Hres as [(a & _ & Ha)|[(e & _ & _ & ->)|(e & _ & _ & [->|(a & Ha)])]]; try done;
      by eapply sql_statement_keeps in Ha.
  - destruct Hres as [(a & Hr' & Ha)|[(e & Hr' & He & Hd)|(e & Hr' & Hf & Hd)]]; eauto 10.
Qed.

(** An error that is none of the program's: of a connection, of the server. *)
Lemma no_rows_inv {A} sentinel (r : result A) e :
  no_rows sentinel r = Err e → (r = Err e ∧ errors_Is e pgx_ErrNoRows = false) ∨
  (e = sentinel ∧ ∃ e', r = Err e' ∧ errors_Is e' pgx_ErrNoRows = true).
Proof. destruct r as [a|e']; cbn; [done|]. destruct (errors_Is e' _) eqn:He; intros [= <-]; eauto. Qed.

Lemma no_rows_Ok {A} sentinel (r : result A) a : no_rows sentinel r = Ok a ↔ r = Ok a.
Proof. destruct r as [|e]; cbn; [done|]. destruct (errors_Is e _); naive_solver. Qed.

Lemma run_sql_FaultFree `{!FaultFree} {A} (s : statement A) w :
  run_sql s w =
  match s (clock (tick w)) (calls (tick w)) (db w) with
  | Ok (a, d) => (Ok a, set_db d (tick w))
  | Err e => (Err e, tick w)
  end.
Proof. unfold run_sql, World_DBTX. by rewrite call_FaultFree. Qed.

(** With connections up, a statement succeeds or changes nothing. *)
Lemma run_sql_up `{!FaultFree} {A} (s : statement A) w r w' :
  run_sql s w = (r, w') →
  (∃ a, r = Ok a ∧ s (clock w') (calls w') (db w) = Ok (a, db w')) ∨
  (∃ e, r = Err e ∧ s (clock w') (calls w') (db w) = Err e ∧ w' = tick w).
Proof.
  rewrite run_sql_FaultFree. destruct (s _ _ _) as [[a d]|e] eqn:Hs; intros [= <- <-].
  - left. by exists a.
  - right. by exists e.
Qed.
End world.
