(* ===== verification/RedisStore.v ===== *)
(** The Redis store: [internal/store/redis.go].  Four kinds of keys, each with
    a prefix of its own, so that no operation on one kind touches another. *)

From S2P Require Import Prelude.
From S2P Require Import Platform.
From S2P Require Import Database.
From S2P Require Import World.

Module store.

Definition accessKey (token : string) : string := "access:" +:+ token.
Definition refreshKey (token : string) : string := "refresh:" +:+ token.
Definition totpKey (userID : string) : string := "totp:" +:+ userID.
Definition oauthStateKey (state : string) : string := "oauth_state:" +:+ state.

Section store.
Context {S : Type} `{RedisClient S}.

Definition SetAccessToken (token userID : string) (ttl : Z) : M S unit :=
  client_Set (accessKey token) userID ttl.
Definition GetAccessToken (token : string) : M S string := client_Get (accessKey token).
Definition DeleteAccessToken (token : string) : M S unit := client_Del (accessKey token).

Definition SetRefreshToken (token userID : string) (ttl : Z) : M S unit :=
  client_Set (refreshKey token) userID ttl.
Definition GetRefreshToken (token : string) : M S string := client_Get (refreshKey token).
Definition DeleteRefreshToken (token : string) : M S unit := client_Del (refreshKey token).

Definition SetTOTPSecret (userID secret : string) (ttl : Z) : M S unit :=
  client_Set (totpKey userID) secret ttl.
Definition GetTOTPSecret (userID : string) : M S string := client_Get (totpKey userID).
Definition DeleteTOTPSecret (userID : string) : M S unit := client_Del (totpKey userID).

Definition SetOAuthState (state : string) (ttl : Z) : M S unit :=
  client_Set (oauthStateKey state) "1" ttl.

(** [err == redis.Nil] is an answer, any other error is an error. *)
Definition GetOAuthState (state : string) : M S bool := λ s,
  let '(r, s') := client_Get (oauthStateKey state) s in
  (match r with
   | Err e => if bool_decide (e = redis_Nil) then Ok false else Err e
   | Ok _ => Ok true
   end, s').

Definition DeleteOAuthState (state : string) : M S unit := client_Del (oauthStateKey state).
End store.

(** ** The keys *)

Inductive key :=
  | Access (token : string)
  | Refresh (token : string)
  | Totp (userID : string)
  | OAuth (state : string).

Definition key_string (k : key) : string :=
  match k with
  | Access t => accessKey t
  | Refresh t => refreshKey t
  | Totp u => totpKey u
  | OAuth s => oauthStateKey s
  end.

#[export] Instance key_string_inj : Inj (=) (=) key_string.
Proof. intros [] [] H; cbv in H; congruence. Qed.

Lemma key_string_ne k k' : k ≠ k' → key_string k ≠ key_string k'.
Proof. intros Hk H%(inj key_string). done. Qed.

(** ** On a world *)

Section world.
Context {R D : Type} `{RedisLaws R} `{!Oracle}.
Implicit Types (w : World R D).

(** What the store holds under [k] at the time [τ]. *)
Definition holds w (τ : Z) (k : key) : option string := redis_Get τ (key_string k) (redis w).

(** Nothing but the calls and the clock changed. *)
Definition same_store w w' : Prop := redis w' = redis w.

Lemma Set_inv k v ttl w r w' :
  0 < ttl → client_Set (key_string k) v ttl w = (r, w') →
  db w' = db w ∧ disk w' = disk w ∧ clock w' = clock (tick w) ∧
  (∀ τ k', k' ≠ k → holds w' τ k' = holds w τ k') ∧
  ((is_Ok r = false ∧ redis w' = redis w) ∨
   ((∀ τ, clock w' ≤ τ → τ + Millisecond ≤ clock w' + ttl → holds w' τ k = Some v) ∧
    (∀ τ, clock w' + ttl + Millisecond ≤ τ → holds w' τ k = None) ∧
    (∀ τ v', holds w' τ k = Some v' → v' = v))).
Proof.
  intros Httl Hset. unfold client_Set, World_RedisClient in Hset.
  assert ((is_Ok r = false ∧ w' = tick w) ∨
    w' = set_redis (redis_Set (clock (tick w)) (key_string k) v ttl (redis w)) (tick w))
    as [[Hr ->]| ->].
  { apply call_inv in Hset as [Ha|(e & _ & -> & [->|(r' & Ha)])]; try injection Ha as <- <-; auto. }
  - do 3 (split; [done|]). split; [done|]. by left.
  - do 3 (split; [done|]). split.
    + intros τ k' Hk. unfold holds. cbn. apply redis_Get_Set_ne. by apply key_string_ne.
    + right. unfold holds. cbn. repeat split; intros.
      * by apply redis_Get_Set_live.
      * by apply redis_Get_Set_expired.
      * by eapply redis_Get_Set_eq.
Qed.

Lemma Get_inv k w r w' :
  client_Get (key_string k) w = (r, w') →
  w' = tick w ∧
  (r = match holds w (clock w') k with Some v => Ok v | None => Err redis_Nil end ∨
   ∃ e, is_fault e ∧ r = Err e).
Proof.
  unfold client_Get, World_RedisClient. intros [Ha|(e & He & -> & Hw)]%call_inv.
  - injection Ha as <- <-. split; [done|]. by left.
  - split; [|by right; eauto]. destruct Hw as [->|(r' & Ha)]; [done|]. by injection Ha.
Qed.

Lemma Del_inv k w r w' :
  client_Del (key_string k) w = (r, w') →
  db w' = db w ∧ disk w' = disk w ∧ clock w' = clock (tick w) ∧
  (∀ τ k', k' ≠ k → holds w' τ k' = holds w τ k') ∧
  ((is_Ok r = false ∧ redis w' = redis w) ∨ ∀ τ, holds w' τ k = None).
Proof.
  intros Hdel. unfold client_Del, World_RedisClient in Hdel.
  assert ((is_Ok r = false ∧ w' = tick w) ∨
    w' = set_redis (redis_Del (key_string k) (redis w)) (tick w)) as [[Hr ->]| ->].
  { apply call_inv in Hdel as [Ha|(e & _ & -> & [->|(r' & Ha)])]; try injection Ha as <- <-; auto. }
  - do 4 (split; [done|]). by left.
  - do 3 (split; [done|]). split.
    + intros τ k' Hk. unfold holds. cbn. apply redis_Get_Del_ne. by apply key_string_ne.
    + right. intros τ. unfold holds. cbn. apply redis_Get_Del_eq.
Qed.

Context `{!FaultFree}.

Lemma Get_FaultFree k w :
  client_Get (key_string k) w =
  (match holds w (clock (tick w)) k with Some v => Ok v | None => Err redis_Nil end, tick w).
Proof. unfold client_Get, World_RedisClient. by rewrite call_FaultFree. Qed.

Lemma Set_FaultFree k v ttl w : (client_Set (key_string k) v ttl w).1 = Ok tt.
Proof. unfold client_Set, World_RedisClient. by rewrite call_FaultFree. Qed.

Lemma Del_FaultFree k w : (client_Del (key_string k) w).1 = Ok tt.
Proof. unfold client_Del, World_RedisClient. by rewrite call_FaultFree. Qed.
End world.
End store.
