(* ===== verification/Session.v ===== *)
(** Sessions and their tokens: [internal/modules/session/] (all of it but the
    one-time passwords, which are in [Totp.v]).

    The service of [service.go] is written against two interfaces, the
    persistent [Repository] and the [TokenStore] cache; it is modelled, and its
    theorems proved, against them: [Backend] has what an implementation
    promises.  [PGStore] and [RedisTokenStore] of [store.go] follow, with the
    proof that on a [World] they keep these promises. *)

From S2P Require Import Prelude.
From S2P Require Import Bytes.
From S2P Require Import Encoding.
From S2P Require Import Platform.
From S2P Require Import Database.
From S2P Require Import Integrity.
From S2P Require Import World.
From S2P Require Import RedisStore.

Module session.

(** ** domain.go *)

Definition AccessTokenTTL : Z := 15 * Minute.
Definition RefreshTokenTTL : Z := 7 * 24 * Hour.

Definition ErrInvalidAccessToken : error :=
  errors_New "session" "invalid or expired access token".
Definition ErrInvalidRefreshToken : error :=
  errors_New "session" "invalid or expired refresh token".
Definition ErrSessionNotFound : error := errors_New "session" "session not found".

Record TokenPair := { AccessToken : string; RefreshToken : string }.

(** ** repository.go *)

Class Repository (S : Type) := {
  repo_Create : UUID → UUID → string → M S unit;
  repo_GetUserIDByRefreshToken : string → M S UUID;
  repo_DeleteByRefreshToken : string → M S unit;
  repo_DeleteByUserID : UUID → M S unit;
}.

Class TokenStore (S : Type) := {
  tokens_SetAccessToken : string → string → Z → M S unit;
  tokens_GetAccessToken : string → M S string;
  tokens_SetRefreshToken : string → string → Z → M S unit;
  tokens_GetRefreshToken : string → M S string;
  tokens_DeleteRefreshToken : string → M S unit;
}.

(** ** service.go *)

Section service.
Context {S : Type} `{Repository S} `{TokenStore S} `{Entropy S} `{Uuid}.

Definition generateToken (n : nat) : M S string :=
  b ← rand_bytes n;
  mret (str (hex_EncodeToString b)).

Definition Create (userID : UUID) : M S TokenPair :=
  accessToken ← mwrap "generate access token: " (generateToken 32);
  refreshToken ← mwrap "generate refresh token: " (generateToken 32);
  sessionID ← mwrap "generate uuid: " uuid_NewV7;
  mwrap "create session: " (repo_Create sessionID userID refreshToken);;
  let uidStr := uuid_String userID in
  mwrap "set access token: " (tokens_SetAccessToken accessToken uidStr AccessTokenTTL);;
  mwrap "set refresh token: " (tokens_SetRefreshToken refreshToken uidStr RefreshTokenTTL);;
  mret {| AccessToken := accessToken; RefreshToken := refreshToken |}.

Definition ValidateAccess (accessToken : string) : M S UUID :=
  r ← attempt (tokens_GetAccessToken accessToken);
  match r with
  | Ok uidStr =>
      if bool_decide (uidStr = EmptyString) then fail ErrInvalidAccessToken
      else lift (uuid_Parse uidStr)
  | Err _ => fail ErrInvalidAccessToken
  end.

Definition Validate (token : string) : M S UUID := ValidateAccess token.

(** The slow path: the session's user from the repository, cached again; a
    failure to cache is only logged. *)
Definition refresh_slow (refreshToken : string) : M S string :=
  r ← attempt (repo_GetUserIDByRefreshToken refreshToken);
  match r with
  | Err e =>
      if errors_Is e ErrSessionNotFound then fail ErrInvalidRefreshToken
      else fail (fmt_Errorf_w "query session: " e EmptyString)
  | Ok userID =>
      let uidStr := uuid_String userID in
      attempt (tokens_SetRefreshToken refreshToken uidStr RefreshTokenTTL);;
      mret uidStr
  end.

(** [uidStr], from the cache or by the slow path. *)
Definition refresh_uidStr (refreshToken : string) : M S string :=
  r ← attempt (tokens_GetRefreshToken refreshToken);
  match r with
  | Ok uidStr =>
      if bool_decide (uidStr = EmptyString) then refresh_slow refreshToken else mret uidStr
  | Err _ => refresh_slow refreshToken
  end.

Definition Refresh (refreshToken : string) : M S string :=
  uidStr ← refresh_uidStr refreshToken;
  accessToken ← mwrap "generate access token: " (generateToken 32);
  mwrap "set access token: " (tokens_SetAccessToken accessToken uidStr AccessTokenTTL);;
  mret accessToken.

Definition Revoke (refreshToken : string) : M S unit :=
  repo_DeleteByRefreshToken refreshToken;;
  attempt (tokens_DeleteRefreshToken refreshToken);;
  mret tt.

Definition RevokeAll (userID : UUID) : M S unit := repo_DeleteByUserID userID.
End service.

(** ** store.go *)

Module PGStore.
Section store.
Context {S : Type} `{Postgres} `{DBTX S}.

Definition Create (id userID : UUID) (refreshToken : string) : M S unit :=
  Queries.CreateSession {|
    Queries.CreateSession_SessionID := toPgUUID id;
    Queries.CreateSession_UserID := toPgUUID userID;
    Queries.CreateSession_RefreshToken := refreshToken |};;
  mret tt.

Definition GetUserIDByRefreshToken (refreshToken : string) : M S UUID :=
  r ← attempt (Queries.GetSessionByRefreshToken refreshToken);
  row ← lift (no_rows ErrSessionNotFound r);
  mret (fromPgUUID (sqlc.Session_UserID row)).

Definition DeleteByRefreshToken (refreshToken : string) : M S unit :=
  r ← attempt (Queries.GetSessionByRefreshToken refreshToken);
  row ← lift (no_rows ErrSessionNotFound r);
  Queries.DeleteSession (sqlc.Session_SessionID row).

Definition DeleteByUserID (userID : UUID) : M S unit :=
  Queries.DeleteSessionsByUserID (toPgUUID userID).

End store.
End PGStore.

#[export] Instance PGStore_Repository {S} `{Postgres} `{DBTX S} : Repository S := {|
  repo_Create := PGStore.Create;
  repo_GetUserIDByRefreshToken := PGStore.GetUserIDByRefreshToken;
  repo_DeleteByRefreshToken := PGStore.DeleteByRefreshToken;
  repo_DeleteByUserID := PGStore.DeleteByUserID;
|}.

(** [RedisTokenStore] hands every operation to [store.RedisStore]. *)
#[export] Instance RedisTokenStore {S} `{RedisClient S} : TokenStore S := {|
  tokens_SetAccessToken := store.SetAccessToken;
  tokens_GetAccessToken := store.GetAccessToken;
  tokens_SetRefreshToken := store.SetRefreshToken;
  tokens_GetRefreshToken := store.GetRefreshToken;
  tokens_DeleteRefreshToken := store.DeleteRefreshToken;
|}.

(** ** What the service is promised *)

(** A cache entry written at [t0] for [ttl]: there until then, gone after, and
    never another value. *)
Definition entry (m : Z → option string) (v : string) (t0 ttl : Z) : Prop :=
  (∀ τ, t0 ≤ τ → τ + Millisecond ≤ t0 + ttl → m τ = Some v) ∧
  (∀ τ, t0 + ttl + Millisecond ≤ τ → m τ = None) ∧
  (∀ τ v', m τ = Some v' → v' = v).

(** The abstract state: the time, the persisted refresh tokens with their
    users, and what the cache holds at a time for each kind of token; and the
    tokens that the persistent store keeps as they are. *)
Class View (S : Type) := {
  inv : S → Prop;
  now : S → Z;
  rows : S → gmap string UUID;
  access : S → Z → string → option string;
  refresh : S → Z → string → option string;
  text_ok : string → Prop;
}.

Section frames.
Context {S : Type} `{View S}.

Definition later (s s' : S) : Prop := inv s' ∧ now s ≤ now s'.
Definition same_rows (s s' : S) : Prop := rows s' = rows s.
Definition same_access (s s' : S) : Prop := ∀ τ t, access s' τ t = access s τ t.
Definition same_refresh (s s' : S) : Prop := ∀ τ t, refresh s' τ t = refresh s τ t.
Definition quiet (s s' : S) : Prop :=
  later s s' ∧ same_rows s s' ∧ same_access s s' ∧ same_refresh s s'.
End frames.

(** A failed call may still have been applied. *)
Class Backend (S : Type) `{Repository S} `{TokenStore S} `{Entropy S} `{View S} : Prop := {
  law_rand n s r s' :
    inv s → rand_bytes n s = (r, s') → quiet s s' ∧ ∀ b, r = Ok b → length b = n;
  law_text_ok b : length b = 32%nat → text_ok (str (hex_EncodeToString b));
  law_NewV7 s r s' : inv s → uuid_NewV7 s = (r, s') → quiet s s';
  law_Create id u t s r s' :
    inv s → text_ok t → repo_Create id u t s = (r, s') →
    later s s' ∧ same_access s s' ∧ same_refresh s s' ∧
    ((is_Ok r = false ∧ same_rows s s') ∨
     (rows s !! t = None ∧ rows s' = <[t := u]> (rows s)));
  law_GetUserID t s r s' :
    inv s → repo_GetUserIDByRefreshToken t s = (r, s') →
    quiet s s' ∧
    match r with
    | Ok u => rows s !! t = Some u
    | Err e => errors_Is e ErrSessionNotFound = true → rows s !! t = None
    end;
  law_DeleteByRefreshToken t s r s' :
    inv s → repo_DeleteByRefreshToken t s = (r, s') →
    later s s' ∧ same_access s s' ∧ same_refresh s s' ∧
    ((is_Ok r = false ∧ same_rows s s') ∨ rows s' = delete t (rows s)) ∧
    match r with
    | Ok _ => rows s !! t ≠ None
    | Err e => errors_Is e ErrSessionNotFound = true → rows s !! t = None
    end;
  law_DeleteByUserID u s r s' :
    inv s → repo_DeleteByUserID u s = (r, s') →
    later s s' ∧ same_access s s' ∧ same_refresh s s' ∧
    ((is_Ok r = false ∧ same_rows s s') ∨ rows s' = filter (λ p, p.2 ≠ u) (rows s));
  law_SetAccess t v ttl s r s' :
    inv s → 0 < ttl → tokens_SetAccessToken t v ttl s = (r, s') →
    later s s' ∧ same_rows s s' ∧ same_refresh s s' ∧
    (∀ τ t', t' ≠ t → access s' τ t' = access s τ t') ∧
    ((is_Ok r = false ∧ same_access s s') ∨ entry (λ τ, access s' τ t) v (now s') ttl);
  law_SetRefresh t v ttl s r s' :
    inv s → 0 < ttl → tokens_SetRefreshToken t v ttl s = (r, s') →
    later s s' ∧ same_rows s s' ∧ same_access s s' ∧
    (∀ τ t', t' ≠ t → refresh s' τ t' = refresh s τ t') ∧
    ((is_Ok r = false ∧ same_refresh s s') ∨ entry (λ τ, refresh s' τ t) v (now s') ttl);
  law_DeleteRefresh t s r s' :
    inv s → tokens_DeleteRefreshToken t s = (r, s') →
    later s s' ∧ same_rows s s' ∧ same_access s s' ∧
    (∀ τ t', t' ≠ t → refresh s' τ t' = refresh s τ t') ∧
    ((is_Ok r = false ∧ same_refresh s s') ∨ ∀ τ, refresh s' τ t = None);
  law_GetAccess t s r s' :
    inv s → tokens_GetAccessToken t s = (r, s') →
    quiet s s' ∧ (∀ v, r = Ok v → access s (now s') t = Some v);
  law_GetRefresh t s r s' :
    inv s → tokens_GetRefreshToken t s = (r, s') →
    quiet s s' ∧ (∀ v, r = Ok v → refresh s (now s') t = Some v);
}.

(** A backend that is up: no call fails. *)
Class BackendUp (S : Type) `{Repository S} `{TokenStore S} `{Entropy S} `{View S} : Prop := {
  up_rand n s r s' : rand_bytes n s = (r, s') → is_Ok r = true;
  up_SetAccess t v ttl s r s' : tokens_SetAccessToken t v ttl s = (r, s') → r = Ok tt;
  up_SetRefresh t v ttl s r s' : tokens_SetRefreshToken t v ttl s = (r, s') → r = Ok tt;
  up_DeleteRefresh t s r s' : tokens_DeleteRefreshToken t s = (r, s') → r = Ok tt;
  up_GetAccess t s r s' v :
    tokens_GetAccessToken t s = (r, s') → access s (now s') t = Some v → r = Ok v;
  up_GetRefresh t s r s' v :
    tokens_GetRefreshToken t s = (r, s') → refresh s (now s') t = Some v → r = Ok v;
  up_GetUserID t s r s' :
    inv s → text_ok t → repo_GetUserIDByRefreshToken t s = (r, s') →
    match rows s !! t with
    | Some u => r = Ok u
    | None => ∃ e, r = Err e ∧ errors_Is e ErrSessionNotFound = true
    end;
  up_DeleteByRefreshToken t s r s' :
    inv s → text_ok t → rows s !! t ≠ None → repo_DeleteByRefreshToken t s = (r, s') → r = Ok tt;
}.

(** ** The service against its backend *)

Section theorems.
Context {S : Type} `{Backend S} `{!Uuid}.
Implicit Types (s : S) (t : string) (u : UUID).

Lemma quiet_trans s1 s2 s3 : quiet s1 s2 → quiet s2 s3 → quiet s1 s3.
Proof.
  unfold quiet, later, same_rows, same_access, same_refresh.
  intros ([? ?] & Hr & Ha & Hf) ([? ?] & Hr' & Ha' & Hf'). repeat split; [done|lia|congruence|..].
  - intros. by rewrite Ha'.
  - intros. by rewrite Hf'.
Qed.

Lemma generateToken_quiet n s r s' :
  inv s → generateToken n s = (r, s') → quiet s s'.
Proof. intros Hs Hr. unfold generateToken in Hr. m_inv Hr; by eapply law_rand. Qed.

Lemma generateToken_ok s t s' : inv s → generateToken 32 s = (Ok t, s') → text_ok t.
Proof.
  intros Hs Hr. unfold generateToken in Hr. m_inv Hr. apply law_text_ok.
  eapply law_rand in Hcall as [_ Hl]; [by apply Hl|done].
Qed.

Lemma AccessTokenTTL_pos : 0 < AccessTokenTTL.
Proof. done. Qed.
Lemma RefreshTokenTTL_pos : 0 < RefreshTokenTTL.
Proof. done. Qed.

Lemma entry_ext m m' v wr ttl : (∀ τ, m' τ = m τ) → entry m v wr ttl → entry m' v wr ttl.
Proof.
  intros Hm (Hl & He & Ho). unfold entry. setoid_rewrite Hm. done.
Qed.

(** A login that succeeds. *)
Lemma Create_session_Ok u s p s' :
  inv s → Create u s = (Ok p, s') →
  later s s' ∧
  rows s !! RefreshToken p = None ∧ rows s' = <[RefreshToken p := u]> (rows s) ∧
  (∃ wr, now s ≤ wr ≤ now s' ∧
    entry (λ τ, access s' τ (AccessToken p)) (uuid_String u) wr AccessTokenTTL) ∧
  (∃ wr, now s ≤ wr ≤ now s' ∧
    entry (λ τ, refresh s' τ (RefreshToken p)) (uuid_String u) wr RefreshTokenTTL) ∧
  (∀ τ t, t ≠ AccessToken p → access s' τ t = access s τ t) ∧
  (∀ τ t, t ≠ RefreshToken p → refresh s' τ t = refresh s τ t).
Proof.
  intros Hs Hr. unfold Create in Hr. m_inv Hr; try done.
  apply generateToken_quiet in Hcall as ([Hs0 ?] & Hq & Ha & Hf); [|done].
  pose proof (generateToken_ok _ _ _ Hs0 Hcall0) as Htext.
  apply generateToken_quiet in Hcall0 as ([Hs1 ?] & Hq0 & Ha0 & Hf0); [|done].
  apply law_NewV7 in Hcall1 as ([Hs2 ?] & Hq1 & Ha1 & Hf1); [|done].
  apply law_Create in Hcall2 as ([Hs3 ?] & Ha2 & Hf2 & [[? _]|[Hfresh Hrows]]); [done|..|done|done].
  apply law_SetAccess in Hcall3 as ([Hs4 ?] & Hq3 & Hf3 & Ha3 & [[? _]|He3]); [done|..|done|done].
  apply law_SetRefresh in Hcall4 as ([Hs5 ?] & Hq4 & Ha4 & Hf4 & [[? _]|He4]); [done|..|done|done].
  unfold same_rows, same_access, same_refresh in *. cbn.
  split; [split; [done|lia]|].
  split; [congruence|]. split; [congruence|].
  split; [|split; [|split]].
  - eexists. split; [|eapply entry_ext; [|exact He3]; done]. lia.
  - eexists. split; [|exact He4]. lia.
  - intros τ t Ht. rewrite Ha4, Ha3 by done. by rewrite Ha2, Ha1, Ha0, Ha.
  - intros τ t Ht. rewrite Hf4 by done. by rewrite Hf3, Hf2, Hf1, Hf0, Hf.
Qed.

(** Checking an access token. *)
Lemma ValidateAccess_inv t s r s' :
  inv s → ValidateAccess t s = (r, s') →
  quiet s s' ∧
  ((∃ v, access s (now s') t = Some v ∧ v ≠ EmptyString ∧ r = uuid_Parse v) ∨
   r = Err ErrInvalidAccessToken).
Proof.
  intros Hs Hr. unfold ValidateAccess in Hr. m_inv Hr.
  apply law_GetAccess in Hcall as [Hq Hget]; [|done].
  destruct a as [v|e].
  - case_bool_decide; m_inv Hr; (split; [done|]); [by right|]. left. exists v. auto.
  - m_inv Hr. auto.
Qed.

(** The user a refresh token names, from the cache or else the repository. *)
Definition named_by s (τ : Z) t (v : string) : Prop :=
  (refresh s τ t = Some v ∧ v ≠ EmptyString) ∨
  (∃ u, rows s !! t = Some u ∧ v = uuid_String u).

Lemma refresh_slow_inv t s r s' :
  inv s → refresh_slow t s = (r, s') →
  later s s' ∧ same_rows s s' ∧ same_access s s' ∧
  (∀ τ t', t' ≠ t → refresh s' τ t' = refresh s τ t') ∧
  match r with
  | Ok v => (∃ u, rows s !! t = Some u ∧ v = uuid_String u) ∧
            (same_refresh s s' ∨ ∃ wr, now s ≤ wr ≤ now s' ∧
               entry (λ τ, refresh s' τ t) v wr RefreshTokenTTL)
  | Err e => same_refresh s s' ∧
             (e = ErrInvalidRefreshToken → rows s !! t = None)
  end.
Proof.
  intros Hs Hr. unfold refresh_slow in Hr. m_inv Hr.
  apply law_GetUserID in Hcall as [([Hs0 ?] & Hq & Ha & Hf) Hu]; [|done].
  destruct a as [u|e].
  - m_inv Hr. apply law_SetRefresh in Hcall as ([Hs1 ?] & Hq1 & Ha1 & Hf1 & He1); [|done|done].
    unfold same_rows, same_access, same_refresh in *.
    split; [split; [done|lia]|]. split; [congruence|].
    split; [intros; by rewrite Ha1|]. split; [intros; by rewrite Hf1|].
    split; [by eauto|]. destruct He1 as [[_ Hsame]|He1].
    + left. intros. by rewrite Hsame.
    + right. eexists. split; [|exact He1]. lia.
  - unfold same_rows, same_access, same_refresh in *.
    destruct (errors_Is e ErrSessionNotFound) eqn:He; m_inv Hr.
    + do 4 (split; [done|]). auto.
    + by do 5 (split; [done|]).
Qed.

Lemma refresh_uidStr_inv t s r s' :
  inv s → refresh_uidStr t s = (r, s') →
  later s s' ∧ same_rows s s' ∧ same_access s s' ∧
  (∀ τ t', t' ≠ t → refresh s' τ t' = refresh s τ t') ∧
  match r with
  | Ok v => (∃ τ, now s ≤ τ ≤ now s' ∧ named_by s τ t v) ∧
            (same_refresh s s' ∨ (∃ u, rows s !! t = Some u ∧ v = uuid_String u) ∧
             ∃ wr, now s ≤ wr ≤ now s' ∧ entry (λ τ, refresh s' τ t) v wr RefreshTokenTTL)
  | Err e => same_refresh s s' ∧ (e = ErrInvalidRefreshToken → rows s !! t = None)
  end.
Proof.
  intros Hs Hr. unfold refresh_uidStr in Hr.
  apply M_bind_attempt_inv in Hr as (r1 & s1 & Hget & Hr).
  apply law_GetRefresh in Hget as [([Hs1 ?] & Hq1 & Ha1 & Hf1) Hget]; [|done].
  unfold same_rows, same_access, same_refresh in *.
  assert (Hslow : refresh_slow t s1 = (r, s') → _) by exact (refresh_slow_inv t s1 r s' Hs1).
  assert (Hcases : (∃ v, r1 = Ok v ∧ v ≠ EmptyString ∧ (r, s') = (Ok v, s1)) ∨
                   refresh_slow t s1 = (r, s')).
  { destruct r1 as [v|]; [|by right]. case_bool_decide; [by right|]. left. by exists v. }
  destruct Hcases as [(v & -> & Hv & [= -> ->])|Hr'].
  - do 4 (split; [done|]). split; [|by left]. exists (now s1). split; [lia|]. left. auto.
  - apply Hslow in Hr' as ([? ?] & Hq2 & Ha2 & Hf2 & Hres).
    unfold same_rows, same_access, same_refresh in *.
    split; [split; [done|lia]|]. split; [congruence|]. split; [intros; by rewrite Ha2|].
    split; [intros; by rewrite Hf2|]. rewrite Hq1 in Hres. destruct r as [v|e].
    + destruct Hres as [Hu Hres]. split; [exists (now s1); split; [lia|by right]|].
      destruct Hres as [Hsame|(wr & ? & ?)]; [left; intros; by rewrite Hsame|].
      right. split; [done|]. exists wr. split; [lia|done].
    + destruct Hres as [Hsame He]. split; [intros; by rewrite Hsame|done].
Qed.

Lemma Refresh_inv t s r s' :
  inv s → Refresh t s = (r, s') →
  later s s' ∧ same_rows s s' ∧
  (∀ τ t', t' ≠ t → refresh s' τ t' = refresh s τ t') ∧
  match r with
  | Ok a => ∃ v τ wr, now s ≤ τ ≤ now s' ∧ named_by s τ t v ∧
      now s ≤ wr ≤ now s' ∧ entry (λ τ, access s' τ a) v wr AccessTokenTTL ∧
      (∀ τ t', t' ≠ a → access s' τ t' = access s τ t') ∧
      (same_refresh s s' ∨ ((∃ u, rows s !! t = Some u ∧ v = uuid_String u) ∧
        ∃ wr, now s ≤ wr ≤ now s' ∧ entry (λ τ, refresh s' τ t) v wr RefreshTokenTTL))
  | Err e => e = ErrInvalidRefreshToken → rows s !! t = None
  end.
Proof.
  intros Hs Hr. unfold Refresh in Hr. m_inv Hr.
  - apply refresh_uidStr_inv in Hcall as ([Hs1 ?] & Hq1 & Ha1 & Hf1 & (τ & ? & Hn) & Hres1); [|done].
    apply generateToken_quiet in Hcall0 as ([Hs2 ?] & Hq2 & Ha2 & Hf2); [|done].
    apply law_SetAccess in Hcall1 as ([Hs3 ?] & Hq3 & Hf3 & Ha3 & [[? _]|He]); [done|..|done|done].
    unfold same_rows, same_access, same_refresh in *.
    split; [split; [done|lia]|]. split; [congruence|]. split; [intros; by rewrite Hf3, Hf2, Hf1|].
    do 3 eexists. split; [|split; [exact Hn|split; [|split; [exact He|split]]]]; [lia|lia|..].
    + intros. rewrite Ha3 by done. by rewrite Ha2, Ha1.
    + destruct Hres1 as [Hsame|(Hu & wr & ? & Hent)]; [left; intros; by rewrite Hf3, Hf2|right].
      split; [done|]. exists wr. split; [lia|]. eapply entry_ext; [|exact Hent].
      intros. cbn. by rewrite Hf3, Hf2.
  - apply refresh_uidStr_inv in Hcall as ([Hs1 ?] & Hq1 & Ha1 & Hf1 & _); [|done].
    apply generateToken_quiet in Hcall0 as ([Hs2 ?] & Hq2 & Ha2 & Hf2); [|done].
    apply law_SetAccess in Hcall1 as ([Hs3 ?] & Hq3 & Hf3 & _); [|done|done].
    unfold same_rows, same_access, same_refresh in *.
    split; [split; [done|lia]|]. split; [congruence|]. split; [intros; by rewrite Hf3, Hf2, Hf1|cbn; discriminate].
  - apply refresh_uidStr_inv in Hcall as ([Hs1 ?] & Hq1 & Ha1 & Hf1 & _); [|done].
    apply generateToken_quiet in Hcall0 as ([Hs2 ?] & Hq2 & Ha2 & Hf2); [|done].
    unfold same_rows, same_access, same_refresh in *.
    split; [split; [done|lia]|]. split; [congruence|]. split; [intros; by rewrite Hf2, Hf1|cbn; discriminate].
  - by apply refresh_uidStr_inv in Hcall as (? & ? & ? & ? & _ & ?).
Qed.

Lemma Revoke_inv t s r s' :
  inv s → Revoke t s = (r, s') →
  later s s' ∧ same_access s s' ∧
  (rows s' = rows s ∨ rows s' = delete t (rows s)) ∧
  (∀ τ t', t' ≠ t → refresh s' τ t' = refresh s τ t') ∧
  (∀ τ v, refresh s' τ t = Some v → refresh s τ t = Some v) ∧
  match r with
  | Ok _ => rows s !! t ≠ None ∧ rows s' = delete t (rows s)
  | Err e => errors_Is e ErrSessionNotFound = true → rows s !! t = None
  end.
Proof.
  intros Hs Hr. unfold Revoke in Hr. m_inv Hr.
  - apply law_DeleteByRefreshToken in Hcall
      as ([Hs1 ?] & Ha1 & Hf1 & [[? _]|Hrows] & Hin); [done|..|done].
    apply law_DeleteRefresh in Hcall0 as ([Hs2 ?] & Hq2 & Ha2 & Hf2 & Hdel); [|done].
    unfold same_rows, same_access, same_refresh in *.
    split; [split; [done|lia]|]. split; [intros; by rewrite Ha2|].
    split; [right; congruence|]. split; [intros; by rewrite Hf2|].
    split; [|split; [done|congruence]].
    intros τ v. destruct Hdel as [[_ Hsame]|Hnone]; [by rewrite Hsame, Hf1|by rewrite Hnone].
  - apply law_DeleteByRefreshToken in Hcall as ([Hs1 ?] & Ha1 & Hf1 & Hrows & Hin); [|done].
    unfold same_rows, same_access, same_refresh in *.
    split; [done|]. split; [done|]. split; [naive_solver|]. split; [done|]. split; [|done].
    intros. by rewrite <- Hf1.
Qed.
End theorems.

(** ** What logging in, refreshing and revoking mean *)

Section claims.
Context {S : Type} `{Backend S} `{!Uuid} `{!UuidLaws}.
Implicit Types (s : S) (t : string) (u : UUID).

Lemma ValidateAccess_up `{!BackendUp S} t s r s' v :
  inv s → ValidateAccess t s = (r, s') → access s (now s') t = Some v → v ≠ EmptyString →
  r = uuid_Parse v.
Proof.
  intros Hs Hr Hv Hne. unfold ValidateAccess in Hr.
  apply M_bind_attempt_inv in Hr as (r1 & s1 & Hget & Hr).
  assert (s' = s1) as ->.
  { destruct r1; [case_bool_decide|]; m_inv Hr; done. }
  pose proof (up_GetAccess _ _ _ _ _ Hget Hv) as ->.
  rewrite bool_decide_false in Hr by done. by m_inv Hr.
Qed.

(** C23: After Create for a user, its access token validates, as long as nothing else
    writes its entry, as that user and as nobody else; with the backend up it does so
    for 15 minutes (to the millisecond of Redis), and afterwards it is refused as
    invalid or expired. *)
Theorem login_validates u s p s1 s2 r s3 :
  inv s → Create u s = (Ok p, s1) → later s1 s2 →
  (∀ τ, access s2 τ (AccessToken p) = access s1 τ (AccessToken p)) →
  ValidateAccess (AccessToken p) s2 = (r, s3) →
  (r = Ok u ∨ r = Err ErrInvalidAccessToken) ∧
  (BackendUp S → now s3 + Millisecond ≤ now s + AccessTokenTTL → r = Ok u) ∧
  (now s1 + AccessTokenTTL + Millisecond ≤ now s3 → r = Err ErrInvalidAccessToken).
Proof.
  intros Hs Hc [Hs2 Hle] Hsame Hv. apply Create_session_Ok in Hc as (? & _ & _ & (wr & ? & Hent) & _); [|done].
  destruct Hent as (Hlive & Hdead & Honly).
  destruct (ValidateAccess_inv _ _ _ _ Hs2 Hv) as [[[? ?] _] Hr]. rewrite Hsame in Hr.
  split; [|split].
  - destruct Hr as [(v & Hv' & _ & ->)| ->]; [|by right]. left.
    apply Honly in Hv' as ->. apply uuid_Parse_String.
  - intros Hup Hτ. rewrite <- (uuid_Parse_String u).
    apply (ValidateAccess_up _ _ _ _ _ Hs2 Hv); [|apply uuid_String_ne].
    rewrite Hsame. apply Hlive; lia.
  - intros Hτ. destruct Hr as [(v & Hv' & _)|]; [|done].
    rewrite Hdead in Hv' by lia. done.
Qed.

(** The access token that [Refresh] issues is the user's. *)
Definition issued_to s u (a : string) : Prop :=
  ∃ wr, wr ≤ now s ∧ entry (λ τ, access s τ a) (uuid_String u) wr AccessTokenTTL.

Lemma Refresh_up `{!BackendUp S} t s r s' :
  inv s → text_ok t → Refresh t s = (r, s') →
  match r with
  | Ok _ => True
  | Err e => e = ErrInvalidRefreshToken ∧ rows s !! t = None ∧
      (∃ τ, now s ≤ τ ≤ now s' ∧ ∀ v, refresh s τ t = Some v → v = EmptyString)
  end.
Proof.
  intros Hs Ht Hr. pose proof (Refresh_inv _ _ _ _ Hs Hr) as (_ & _ & _ & Hres).
  destruct r as [a|e]; [done|]. unfold Refresh in Hr. m_inv Hr.
  - apply up_SetAccess in Hcall1. done.
  - unfold generateToken in Hcall0. m_inv Hcall0. by apply up_rand in Hcall1.
  - unfold refresh_uidStr in Hcall.
    apply M_bind_attempt_inv in Hcall as (r1 & s1 & Hget & Hslow).
    pose proof (law_GetRefresh _ _ _ _ Hs Hget) as [([Hs1 ?] & Hq1 & Ha1 & Hf1) _].
    assert (Hempty : ∀ v, refresh s (now s1) t = Some v → v = EmptyString).
    { intros v Hv. pose proof (up_GetRefresh _ _ _ _ _ Hget Hv) as ->.
      case_bool_decide; [done|by m_inv Hslow]. }
    rename select error into e.
    assert (Hs' : refresh_slow t s1 = (Err e, s')).
    { destruct r1; [|done]. case_bool_decide; [done|by m_inv Hslow]. }
    pose proof (refresh_slow_inv _ _ _ _ Hs1 Hs') as ([_ ?] & _).
    unfold refresh_slow in Hs'. apply M_bind_attempt_inv in Hs' as (r2 & s2 & Hu & Hs').
    apply up_GetUserID in Hu; [|done|done]. rewrite Hq1 in Hu.
    destruct (rows s !! t) as [u|]; [subst r2; m_inv Hs'|].
    destruct Hu as (e' & -> & He). rewrite He in Hs'. m_inv Hs'.
    split; [done|]. split; [done|]. exists (now s1). split; [lia|done].
Qed.

(** A refresh token whose cache entry is there. *)
Lemma Refresh_cached `{!BackendUp S} t u s r s' :
  inv s → text_ok t → Refresh t s = (r, s') →
  (∀ τ, now s ≤ τ ≤ now s' → refresh s τ t = Some (uuid_String u)) →
  (∀ u', rows s !! t = Some u' → u' = u) →
  ∃ a, r = Ok a ∧ issued_to s' u a.
Proof.
  intros Hs Ht Hr Hcached Hrow.
  pose proof (Refresh_up _ _ _ _ Hs Ht Hr) as Hup.
  pose proof (Refresh_inv _ _ _ _ Hs Hr) as ([_ ?] & _ & _ & Hres).
  destruct r as [a|e].
  - exists a. split; [done|]. destruct Hres as (v & τ & wr & ? & Hn & ? & Hent & _).
    exists wr. split; [lia|]. destruct Hn as [[Hv _]|(u' & Hu' & ->)].
    + rewrite Hcached in Hv by done. by injection Hv as <-.
    + by rewrite <- (Hrow _ Hu').
  - destruct Hup as (_ & _ & τ & ? & He). exfalso.
    by apply (uuid_String_ne u), He, Hcached.
Qed.

Lemma Revoke_up `{!BackendUp S} t s s' :
  inv s → Revoke t s = (Ok tt, s') → rows s' !! t = None ∧ ∀ τ, refresh s' τ t = None.
Proof.
  intros Hs Hr. pose proof (Revoke_inv _ _ _ _ Hs Hr) as (_ & _ & _ & _ & _ & _ & ->).
  split; [apply lookup_delete_eq|]. unfold Revoke in Hr. m_inv Hr.
  apply law_DeleteByRefreshToken in Hcall as ([Hs1 _] & _); [|done].
  pose proof (up_DeleteRefresh _ _ _ _ Hcall0) as ->.
  apply law_DeleteRefresh in Hcall0 as (_ & _ & _ & _ & [[? _]|]); done.
Qed.

(** C24: With the backend up, a refresh token that was revoked and not written since is
    refused by Refresh with ErrInvalidRefreshToken. *)
Theorem revoked_token_refused `{!BackendUp S} t s s1 s2 r s3 :
  inv s → text_ok t → Revoke t s = (Ok tt, s1) → later s1 s2 →
  rows s2 !! t = rows s1 !! t → (∀ τ, refresh s2 τ t = refresh s1 τ t) →
  Refresh t s2 = (r, s3) → r = Err ErrInvalidRefreshToken.
Proof.
  intros Hs Ht Hrev [Hs2 _] Hrow Hcache Href. apply Revoke_up in Hrev as [Hnone Hgone]; [|done].
  pose proof (Refresh_up _ _ _ _ Hs2 Ht Href) as Hup.
  pose proof (Refresh_inv _ _ _ _ Hs2 Href) as (_ & _ & _ & Hres).
  destruct r as [a|e]; [|by destruct Hup as [-> _]].
  destruct Hres as (v & τ & _ & _ & [[Hv _]|(u & Hu & _)] & _).
  - by rewrite Hcache, Hgone in Hv.
  - by rewrite Hrow, Hnone in Hu.
Qed.

Lemma RevokeAll_rows u s s' t :
  inv s → RevokeAll u s = (Ok tt, s') → rows s' !! t ≠ Some u.
Proof.
  intros Hs Hr. apply law_DeleteByUserID in Hr as (_ & _ & _ & [[? _]| ->]); [done| |done].
  intros [_ Hne]%map_lookup_filter_Some. done.
Qed.

Lemma Create_text_ok u s p s' :
  inv s → Create u s = (Ok p, s') → text_ok (RefreshToken p).
Proof.
  intros Hs Hr. unfold Create in Hr. m_inv Hr; try done. cbn.
  apply generateToken_quiet in Hcall as ([Hs0 _] & _); [|done]. by eapply generateToken_ok.
Qed.

(** C25: With the backend up, after RevokeAll no session of the user is left in the
    database, yet a refresh token it had still gets new access tokens until its cache
    entry expires, seven days after the login. *)
Theorem RevokeAll_spares_the_cache `{!BackendUp S} u s p s1 s2 r s3 :
  inv s → Create u s = (Ok p, s1) → RevokeAll u s1 = (Ok tt, s2) →
  Refresh (RefreshToken p) s2 = (r, s3) → now s3 + Millisecond ≤ now s + RefreshTokenTTL →
  (∀ t, rows s2 !! t ≠ Some u) ∧ ∃ a, r = Ok a ∧ issued_to s3 u a.
Proof.
  intros Hs Hc Hrev Href Hτ. pose proof (Create_text_ok _ _ _ _ Hs Hc) as Ht.
  apply Create_session_Ok in Hc as ([Hs1 ?] & _ & Hrows & _ & (wr & ? & Hlive & _ & Honly) & _); [|done].
  split; [intros t; by eapply RevokeAll_rows|].
  unfold RevokeAll in Hrev. apply law_DeleteByUserID in Hrev as ([Hs2 ?] & _ & Hf & Hrows2); [|done].
  pose proof (Refresh_inv _ _ _ _ Hs2 Href) as ([_ ?] & _).
  eapply Refresh_cached; [done|exact Ht|done|..].
  - intros τ [? ?]. rewrite Hf. apply Hlive; lia.
  - intros u' Hu'. destruct Hrows2 as [[? _]|Hrows2]; [done|].
    rewrite Hrows2, Hrows in Hu'. apply map_lookup_filter_Some in Hu' as [Hu' _].
    rewrite lookup_insert_eq in Hu'. by injection Hu' as <-.
Qed.

(** With the backend up, Refresh succeeds for every refresh token in the database,
    whatever the time since the login; when the cache entry is gone it issues a token of
    the right user and caches the refresh token for another seven days. *)
Theorem refresh_tokens_do_not_expire `{!BackendUp S} t u s r s' :
  inv s → text_ok t → rows s !! t = Some u → Refresh t s = (r, s') →
  rows s' !! t = Some u ∧ ∃ a, r = Ok a ∧
  ((∀ τ, refresh s τ t = None) →
   issued_to s' u a ∧ (same_refresh s s' ∨ ∃ wr, now s ≤ wr ∧
     entry (λ τ, refresh s' τ t) (uuid_String u) wr RefreshTokenTTL)).
Proof.
  intros Hs Ht Hu Hr. pose proof (Refresh_up _ _ _ _ Hs Ht Hr) as Hup.
  pose proof (Refresh_inv _ _ _ _ Hs Hr) as ([Hs' ?] & Hq & _ & Hres).
  destruct r as [a|e]; [|destruct Hup as (_ & Hnone & _); congruence].
  split; [congruence|]. exists a. split; [done|]. intros Hcold.
  destruct Hres as (v & τ & wr & ? & [[Hv _]|(u' & Hu' & ->)] & ? & Hent & _ & Hcache);
    [by rewrite Hcold in Hv|].
  rewrite Hu in Hu'. injection Hu' as <-. split; [exists wr; split; [lia|done]|].
  destruct Hcache as [|(_ & wr' & ? & ?)]; [by left|]. right. exists wr'. split; [lia|done].
Qed.
End claims.

(** ** Every history: tokens name users who logged in *)

Section histories.
Context {S : Type} `{Backend S} `{!Uuid} `{!UuidLaws}.
Implicit Types (s : S) (t : string) (u : UUID) (L : list UUID).

(** An operation of the service, successful or not, or anything else that
    leaves tokens alone.  [L] are the users [Create] was called for. *)
Inductive session_step : S * list UUID → S * list UUID → Prop :=
  | step_Create u s r s' L : Create u s = (r, s') → session_step (s, L) (s', u :: L)
  | step_Validate t s r s' L : Validate t s = (r, s') → session_step (s, L) (s', L)
  | step_Refresh t s r s' L : Refresh t s = (r, s') → session_step (s, L) (s', L)
  | step_Revoke t s r s' L : Revoke t s = (r, s') → session_step (s, L) (s', L)
  | step_RevokeAll u s r s' L : RevokeAll u s = (r, s') → session_step (s, L) (s', L)
  | step_other s s' L : quiet s s' → session_step (s, L) (s', L).

Definition no_tokens s : Prop :=
  inv s ∧ rows s = ∅ ∧ (∀ τ t, access s τ t = None) ∧ (∀ τ t, refresh s τ t = None).

Definition names L (v : string) : Prop := ∃ u, u ∈ L ∧ v = uuid_String u.

Record owned L s : Prop := {
  owned_inv : inv s;
  owned_rows t u : rows s !! t = Some u → u ∈ L;
  owned_access τ t v : access s τ t = Some v → names L v;
  owned_refresh τ t v : refresh s τ t = Some v → names L v;
}.

Lemma owned_mono L u s : owned L s → owned (u :: L) s.
Proof.
  intros [Hi Hr Ha Hf].
  assert (Hn : ∀ v, names L v → names (u :: L) v).
  { intros v (u' & Hu & ->). exists u'. split; [by right|done]. }
  split; eauto using list_elem_of_further.
Qed.

Lemma owned_quiet L s s' : owned L s → quiet s s' → owned L s'.
Proof.
  intros [Hi Hr Ha Hf] ([Hi' _] & Hr' & Ha' & Hf'). split; [done|..].
  - intros t u. rewrite Hr'. apply Hr.
  - intros τ t v. rewrite Ha'. apply Ha.
  - intros τ t v. rewrite Hf'. apply Hf.
Qed.

Lemma owned_generateToken L n s r s' :
  owned L s → generateToken n s = (r, s') → owned L s'.
Proof. intros Hs Hr. eapply owned_quiet; [done|]. by eapply generateToken_quiet, Hr; apply Hs. Qed.

Lemma owned_NewV7 L s r s' : owned L s → uuid_NewV7 s = (r, s') → owned L s'.
Proof. intros Hs Hr. eapply owned_quiet; [done|]. eapply law_NewV7, Hr. apply Hs. Qed.

Lemma owned_repo_Create L id u t s r s' :
  owned L s → u ∈ L → text_ok t → repo_Create id u t s = (r, s') → owned L s'.
Proof.
  intros [Hi Hr Ha Hf] Hu Ht ([Hi' _] & Ha' & Hf' & Hrows)%law_Create; [|done..]. split; [done|..].
  - intros t' u'. destruct Hrows as [[_ ->]|[_ ->]]; [apply Hr|].
    rewrite lookup_insert_Some. intros [[_ <-]|[_ ?]]; [done|by eapply Hr].
  - intros τ t' v. rewrite Ha'. apply Ha.
  - intros τ t' v. rewrite Hf'. apply Hf.
Qed.

Lemma owned_fewer_rows L s s' :
  owned L s → later s s' → same_access s s' → same_refresh s s' → rows s' ⊆ rows s → owned L s'.
Proof.
  intros [Hi Hr Ha Hf] [Hi' _] Ha' Hf' Hsub. split; [done|..].
  - intros t u Hu. by eapply Hr, lookup_weaken.
  - intros τ t v. rewrite Ha'. apply Ha.
  - intros τ t v. rewrite Hf'. apply Hf.
Qed.

Lemma owned_SetAccess L t v ttl s r s' :
  owned L s → names L v → 0 < ttl → tokens_SetAccessToken t v ttl s = (r, s') → owned L s'.
Proof.
  intros [Hi Hr Ha Hf] Hv Httl ([Hi' _] & Hq & Hf' & Ha' & Hset)%law_SetAccess; [|done..].
  split; [done|..].
  - intros t' u. rewrite Hq. apply Hr.
  - intros τ t' v' Hv'. destruct (decide (t' = t)) as [->|Ht].
    + destruct Hset as [[_ Hsame]|(_ & _ & Honly)]; [rewrite Hsame in Hv'; by eapply Ha|].
      by apply Honly in Hv' as ->.
    + rewrite Ha' in Hv' by done. by eapply Ha.
  - intros τ t' v'. rewrite Hf'. apply Hf.
Qed.

Lemma owned_SetRefresh L t v ttl s r s' :
  owned L s → names L v → 0 < ttl → tokens_SetRefreshToken t v ttl s = (r, s') → owned L s'.
Proof.
  intros [Hi Hr Ha Hf] Hv Httl ([Hi' _] & Hq & Ha' & Hf' & Hset)%law_SetRefresh; [|done..].
  split; [done|..].
  - intros t' u. rewrite Hq. apply Hr.
  - intros τ t' v'. rewrite Ha'. apply Ha.
  - intros τ t' v' Hv'. destruct (decide (t' = t)) as [->|Ht].
    + destruct Hset as [[_ Hsame]|(_ & _ & Honly)]; [rewrite Hsame in Hv'; by eapply Hf|].
      by apply Honly in Hv' as ->.
    + rewrite Hf' in Hv' by done. by eapply Hf.
Qed.

(** Follow a run call by call. *)
Ltac owned_calls :=
  repeat match goal with
  | Ho : owned _ ?s, Hc : generateToken _ ?s = _ |- _ =>
      try pose proof (generateToken_ok _ _ _ (owned_inv _ _ Ho) Hc);
      apply (owned_generateToken _ _ _ _ _ Ho) in Hc
  | Ho : owned _ ?s, Hc : uuid_NewV7 ?s = _ |- _ => apply (owned_NewV7 _ _ _ _ Ho) in Hc
  | Ho : owned _ ?s, Hc : repo_Create _ _ _ ?s = _ |- _ =>
      eapply owned_repo_Create in Hc; [|exact Ho|eassumption|eassumption]
  | Ho : owned _ ?s, Hc : tokens_SetAccessToken _ _ _ ?s = _ |- _ =>
      eapply owned_SetAccess in Hc; [|exact Ho|eassumption|reflexivity]
  | Ho : owned _ ?s, Hc : tokens_SetRefreshToken _ _ _ ?s = _ |- _ =>
      eapply owned_SetRefresh in Hc; [|exact Ho|eassumption|reflexivity]
  end; assumption.

Lemma owned_Create L u s r s' : owned L s → Create u s = (r, s') → owned (u :: L) s'.
Proof.
  intros Hs%(owned_mono _ u) Hr. unfold Create in Hr.
  assert (Hu : u ∈ u :: L) by apply list_elem_of_here.
  assert (Hn : names (u :: L) (uuid_String u)) by (by exists u).
  m_inv Hr; owned_calls.
Qed.

Lemma owned_refresh_uidStr L t s r s' :
  owned L s → refresh_uidStr t s = (r, s') →
  owned L s' ∧ ∀ v, r = Ok v → names L v.
Proof.
  intros Hs Hr. pose proof (refresh_uidStr_inv _ _ _ _ (owned_inv _ _ Hs) Hr)
    as ([Hi' _] & Hq & Ha' & Hf' & Hres).
  assert (Hnamed : ∀ τ v, named_by s τ t v → names L v).
  { intros τ v [[Hv _]|(u & Hu & ->)]; [by eapply owned_refresh|].
    exists u. split; [by eapply owned_rows|done]. }
  assert (Hv : ∀ v, r = Ok v → names L v).
  { intros v ->. destruct Hres as ((τ & _ & Hn) & _). by eapply Hnamed. }
  split; [|done]. split; [done|..].
  - intros t' u. rewrite Hq. by apply owned_rows.
  - intros τ t' v. rewrite Ha'. by eapply owned_access.
  - intros τ t' v Hv'. destruct (decide (t' = t)) as [->|Ht].
    + assert (Hsame : same_refresh s s' → names L v).
      { intros Hsame. rewrite Hsame in Hv'. by eapply owned_refresh. }
      destruct r as [v1|e]; [|by apply Hsame, Hres].
      destruct Hres as [_ [|(_ & wr & _ & _ & _ & Honly)]]; [by apply Hsame|].
      apply Honly in Hv' as ->. by apply Hv.
    + rewrite Hf' in Hv' by done. by eapply owned_refresh.
Qed.

Lemma owned_Refresh L t s r s' : owned L s → Refresh t s = (r, s') → owned L s'.
Proof.
  intros Hs Hr. unfold Refresh in Hr. m_inv Hr;
    apply (owned_refresh_uidStr _ _ _ _ _ Hs) in Hcall as [Hs1 Hn];
    try specialize (Hn _ eq_refl); owned_calls.
Qed.

Lemma owned_step s L s' L' : session_step (s, L) (s', L') → owned L s → owned L' s'.
Proof.
  intros Hstep Hs. pose proof (owned_inv _ _ Hs) as Hi.
  inversion Hstep as [u s0 r s1 L0 Hr|t s0 r s1 L0 Hr|t s0 r s1 L0 Hr|t s0 r s1 L0 Hr
                     |u s0 r s1 L0 Hr|s0 s1 L0 Hr]; subst.
  - by eapply owned_Create.
  - eapply owned_quiet; [done|]. by eapply ValidateAccess_inv.
  - by eapply owned_Refresh.
  - apply Revoke_inv in Hr as ([Hi' _] & Ha' & Hrows & Hf' & Hft & _); [|done].
    split; [done|..].
    + intros t' u. destruct Hrows as [-> | ->]; [by eapply owned_rows|].
      intros [_ ?]%lookup_delete_Some. by eapply owned_rows.
    + intros τ t' v. rewrite Ha'. by eapply owned_access.
    + intros τ t' v Hv. destruct (decide (t' = t)) as [->|Ht].
      * by eapply owned_refresh, Hft.
      * rewrite Hf' in Hv by done. by eapply owned_refresh.
  - apply law_DeleteByUserID in Hr as (Hl & Ha' & Hf' & Hrows); [|done].
    eapply owned_fewer_rows; [done..|]. destruct Hrows as [[_ ->]| ->]; [done|].
    apply map_filter_subseteq.
  - by eapply owned_quiet.
Qed.

(** From a state without tokens, after any sequence of service operations, successful or
    failed, with any randomness and clock, a token that validates names a user for whom
    Create was called. *)
Theorem access_tokens_name_logged_in_users s s' L t r s'' u :
  no_tokens s → rtc session_step (s, []) (s', L) →
  Validate t s' = (r, s'') → r = Ok u → u ∈ L.
Proof.
  intros (Hi & Hrows & Ha & Hf) Hsteps Hv ->.
  assert (Hown : owned L s').
  { remember (s, []) as a eqn:Ha0. remember (s', L) as b eqn:Hb.
    assert (owned a.2 a.1) as Hown.
    { subst a. split; cbn; [done|..].
      - intros t' u'. by rewrite Hrows, lookup_empty.
      - intros τ t' v. by rewrite Ha.
      - intros τ t' v. by rewrite Hf. }
    clear Ha0. revert s' L Hb Hv.
    induction Hsteps as [[s1 L1]|[s1 L1] [s2 L2] c Hstep _ IH]; intros s' L Hb Hv.
    - by injection Hb as -> ->.
    - eapply IH; [|done..]. by eapply owned_step. }
  apply ValidateAccess_inv in Hv as (_ & [(v & Hv & _ & Hp)|]); [|done|apply Hown].
  apply Hown in Hv as (u' & Hu' & ->). rewrite uuid_Parse_String in Hp. congruence.
Qed.
End histories.

(** ** The stores keep the promises, on a world *)

Section stores.
Context {R D : Type} `{RedisLaws R} `{PostgresLaws} `{OracleLaws} `{Uuid}.
Import store.
Implicit Types (d : Database) (t : string) (u : UUID).

Definition session_rows d : gmap string UUID :=
  list_to_map ((λ s, (sqlc.Session_RefreshToken s, Bytes (sqlc.Session_UserID s))) <$> sessions d).

#[export] Instance World_View : View (World R D) := {|
  inv w := Integrity (db w);
  now := clock;
  rows w := session_rows (db w);
  access w τ t := holds w τ (Access t);
  refresh w τ t := holds w τ (store.Refresh t);
  text_ok t := pg_varchar 255 t = Some t;
|}.

Lemma session_rows_Some d t u :
  Integrity d →
  session_rows d !! t = Some u ↔
  ∃ s, s ∈ sessions d ∧ sqlc.Session_RefreshToken s = t ∧ Bytes (sqlc.Session_UserID s) = u.
Proof.
  intros Hd. unfold session_rows. rewrite <- elem_of_list_to_map.
  - rewrite list_elem_of_fmap. naive_solver.
  - rewrite <- list_fmap_compose. cbn. apply Hd.
Qed.

Lemma session_rows_None d t :
  Integrity d →
  session_rows d !! t = None ↔ t ∉ sqlc.Session_RefreshToken <$> sessions d.
Proof.
  intros Hd. rewrite eq_None_not_Some. unfold is_Some. setoid_rewrite session_rows_Some; [|done].
  rewrite list_elem_of_fmap. naive_solver.
Qed.

Lemma session_rows_ext d d' :
  Integrity d → Integrity d' →
  (∀ t u, (∃ s, s ∈ sessions d ∧ sqlc.Session_RefreshToken s = t ∧
                 Bytes (sqlc.Session_UserID s) = u) ↔
          (∃ s, s ∈ sessions d' ∧ sqlc.Session_RefreshToken s = t ∧
                 Bytes (sqlc.Session_UserID s) = u)) →
  session_rows d = session_rows d'.
Proof.
  intros Hd Hd' Heq. apply map_eq. intros t. apply option_eq. intros u.
  by rewrite !session_rows_Some.
Qed.

Lemma user_id_Valid d s :
  Integrity d → s ∈ sessions d → Valid (sqlc.Session_UserID s) = true.
Proof.
  intros Hd Hs. pose proof (sessions_fkey _ Hd) as Hf. rewrite Forall_forall in Hf.
  apply Hf in Hs as [_ (x & -> & Hx)%list_elem_of_fmap].
  pose proof (users_valid _ Hd) as Hv. rewrite Forall_forall in Hv. by apply Hv.
Qed.

Lemma sql_CreateSession_rows id u t now n d row d' :
  Integrity d → pg_varchar 255 t = Some t →
  Queries.sql_CreateSession {|
    Queries.CreateSession_SessionID := toPgUUID id;
    Queries.CreateSession_UserID := toPgUUID u;
    Queries.CreateSession_RefreshToken := t |} now n d = Ok (row, d') →
  session_rows d !! t = None ∧ session_rows d' = <[t := u]> (session_rows d).
Proof.
  intros Hd Ht Hc. unfold_statement Hc. cbn in Hc. unfold varchar in Hc.
  rewrite Ht in Hc. statement_inv Hc. cbn in *.
  match goal with Hx : _ = Ok x |- _ => apply bind_Ok in Hx as (? & _ & [= <-]) end.
  assert (Hnone : session_rows d !! t = None) by by apply session_rows_None.
  split; [done|]. unfold session_rows. cbn. rewrite fmap_app. cbn. apply list_to_map_snoc.
  by rewrite <- list_fmap_compose.
Qed.

(** The session of a token, deleted by its identifier. *)
Lemma sql_DeleteSession_rows t now n d s a d' :
  Integrity d → s ∈ sessions d → sqlc.Session_RefreshToken s = t →
  Queries.sql_DeleteSession (sqlc.Session_SessionID s) now n d = Ok (a, d') →
  session_rows d' = delete t (session_rows d).
Proof.
  intros Hd Hs Ht Hdel. pose proof (keeps_DeleteSession _ _ _ _ _ _ Hd Hdel) as Hd'.
  unfold_statement Hdel. statement_inv Hdel.
  assert (Hvalid : Valid (sqlc.Session_SessionID s) = true).
  { pose proof (sessions_fkey _ Hd) as Hf. rewrite Forall_forall in Hf. by apply Hf. }
  apply map_eq. intros t'. apply option_eq. intros u.
  rewrite lookup_delete_Some, !session_rows_Some by done. cbn. setoid_rewrite elem_of_delete_from.
  split.
  - intros (s' & [Hne Hs'] & <- & <-). split; [|by eauto]. intros ->.
    assert (s' = s) as ->.
    { eapply (NoDup_key sqlc.Session_RefreshToken); [apply Hd|done..]. }
    by rewrite uuid_eq_refl in Hne.
  - intros (Hne & s' & Hs' & <- & <-). exists s'. split; [|done]. split; [|done].
    destruct (uuid_eq _ _) eqn:He; [|done]. apply uuid_eq_true in He as [_ He].
    assert (s' = s) as ->; [|done].
    eapply (NoDup_key sqlc.Session_SessionID); [apply Hd|done..].
Qed.

Lemma sql_DeleteSessionsByUserID_rows u now n d a d' :
  Integrity d → Queries.sql_DeleteSessionsByUserID (toPgUUID u) now n d = Ok (a, d') →
  session_rows d' = filter (λ p, p.2 ≠ u) (session_rows d).
Proof.
  intros Hd Hdel. pose proof (keeps_DeleteSessionsByUserID _ _ _ _ _ _ Hd Hdel) as Hd'.
  unfold_statement Hdel. statement_inv Hdel.
  apply map_eq. intros t. apply option_eq. intros u'.
  rewrite map_lookup_filter_Some, !session_rows_Some by done. cbn.
  setoid_rewrite elem_of_delete_from. split.
  - intros (s & [Hne Hs] & <- & <-). split; [by eauto|]. intros <-.
    pose proof (user_id_Valid _ _ Hd Hs) as Hv.
    assert (Hid : sqlc.Session_UserID s = toPgUUID (Bytes (sqlc.Session_UserID s))).
    { destruct (sqlc.Session_UserID s) as [x []]; done. }
    by rewrite <- Hid, uuid_eq_refl in Hne.
  - intros ((s & Hs & <- & <-) & Hne). exists s. split; [|done]. split; [|done].
    destruct (uuid_eq _ _) eqn:He; [|done]. apply uuid_eq_true in He as [_ He].
    by rewrite He in Hne.
Qed.

Implicit Types (w : World R D).

Lemma same_redis w w' : redis w' = redis w → same_access w w' ∧ same_refresh w w'.
Proof. intros Hr. unfold same_access, same_refresh. cbn. unfold holds. by rewrite Hr. Qed.

Lemma quiet_same w w' :
  Integrity (db w) → db w' = db w → redis w' = redis w → clock w' = clock (tick w) → quiet w w'.
Proof.
  intros Hi Hdb Hr Hc. split; [|split; [|by apply same_redis]].
  - split; cbn; [by rewrite Hdb|]. pose proof (tick_clock w). lia.
  - unfold same_rows. cbn. by rewrite Hdb.
Qed.

(** A statement of the program through its connection. *)
Lemma run_statement {A} (st : statement A) w r w' :
  sql_statement A st → Integrity (db w) → run_sql st w = (r, w') →
  later w w' ∧ same_access w w' ∧ same_refresh w w' ∧ redis w' = redis w ∧
  ((∃ a, r = Ok a ∧ st (clock w') (calls w') (db w) = Ok (a, db w')) ∨
   (∃ e, r = Err e ∧ (st (clock w') (calls w') (db w) = Err e ∨ is_fault e) ∧
     (db w' = db w ∨ ∃ a, st (clock w') (calls w') (db w) = Ok (a, db w')))).
Proof.
  intros Hst Hi (Hi' & Hr & _ & Hc & Hres)%write_inv; [|done..].
  split; [split; [done|]; cbn; pose proof (tick_clock w); lia|].
  split; [by apply same_redis|]. by split; [apply same_redis|].
Qed.

Lemma PGStore_Create_law id u t w r w' :
  Integrity (db w) → pg_varchar 255 t = Some t → PGStore.Create id u t w = (r, w') →
  later w w' ∧ same_access w w' ∧ same_refresh w w' ∧
  ((is_Ok r = false ∧ same_rows w w') ∨
   (rows w !! t = None ∧ rows w' = <[t := u]> (rows w))).
Proof.
  intros Hi Ht Hr. unfold PGStore.Create, Queries.CreateSession in Hr.
  assert (∃ r0, run_sql (Queries.sql_CreateSession {|
    Queries.CreateSession_SessionID := toPgUUID id;
    Queries.CreateSession_UserID := toPgUUID u;
    Queries.CreateSession_RefreshToken := t |}) w = (r0, w') ∧ is_Ok r0 = is_Ok r) as (r0 & Hrun & Hok).
  { m_inv Hr; eauto. }
  apply run_statement in Hrun as (Hl & Ha & Hf & _ & Hres); [|constructor|done].
  do 3 (split; [done|]).
  assert (Hcases : (is_Ok r0 = false ∧ db w' = db w) ∨ ∃ a, _ = Ok (a, db w')) by naive_solver.
  rewrite <- Hok. destruct Hcases as [[? Hdb]|[a Hst]].
  - left. split; [done|]. unfold same_rows. cbn. by rewrite Hdb.
  - right. by eapply sql_CreateSession_rows in Hst.
Qed.

Lemma sql_GetSession_Err t now n d e :
  Integrity d → Queries.sql_GetSessionByRefreshToken t now n d = Err e →
  (e = pgx_ErrNoRows ∧ session_rows d !! t = None) ∨ is_fault e.
Proof.
  intros Hd. unfold Queries.sql_GetSessionByRefreshToken, text_param.
  destruct (pg_text t); cbn [mbind result_bind]; [|intros [= <-]; right; by eexists].
  intros [Hone|(? & _ & ?)]%bind_Err; [|done].
  apply one_select_Err in Hone as [-> Hnone]. left. split; [done|].
  apply session_rows_None; [done|]. intros (s & Ht & Hs)%list_elem_of_fmap.
  apply Hnone in Hs. apply bool_decide_eq_false in Hs. done.
Qed.

Lemma GetSession_law t w r w' :
  Integrity (db w) → run_sql (Queries.sql_GetSessionByRefreshToken t) w = (r, w') →
  quiet w w' ∧ db w' = db w ∧
  match r with
  | Ok s => s ∈ sessions (db w) ∧ sqlc.Session_RefreshToken s = t
  | Err e => errors_Is e pgx_ErrNoRows = true → rows w !! t = None
  end.
Proof.
  intros Hi Hrun. pose proof (run_sql_inv _ _ _ _ Hrun) as (Hr & _ & Hc & _).
  apply run_statement in Hrun as (_ & _ & _ & _ & Hres); [|constructor|done].
  destruct Hres as [(s & -> & Hst)|(e & -> & He & Hdb)].
  - apply GetSessionByRefreshToken_Ok in Hst as (Hdb & _ & Hs & Ht); [|done].
    split; [by apply quiet_same|done].
  - assert (Hsame : db w' = db w).
    { destruct Hdb as [|[a Ha]]; [done|]. by apply reads_GetSessionByRefreshToken in Ha. }
    split; [by apply quiet_same|]. split; [done|]. intros Hnr.
    destruct He as [He|He]; [apply sql_GetSession_Err in He as [[_ ?]|He]; [done| |done]|];
      by destruct He as [? ->].
Qed.

Lemma PGStore_GetUserID_law t w r w' :
  Integrity (db w) → PGStore.GetUserIDByRefreshToken t w = (r, w') →
  quiet w w' ∧
  match r with
  | Ok u => rows w !! t = Some u
  | Err e => errors_Is e ErrSessionNotFound = true → rows w !! t = None
  end.
Proof.
  intros Hi Hr. unfold PGStore.GetUserIDByRefreshToken, Queries.GetSessionByRefreshToken in Hr.
  apply M_bind_attempt_inv in Hr as (r0 & w1 & Hget & Hr).
  pose proof (run_sql_inv _ _ _ _ Hget) as Hfault.
  apply GetSession_law in Hget as (Hq & Hdb & Hres); [|done].
  destruct r0 as [s|e]; cbn [no_rows] in Hr.
  - m_inv Hr. split; [done|]. destruct Hres as [Hs <-].
    apply session_rows_Some; [done|]. exists s. split; [done|]. split; [done|].
    unfold fromPgUUID. by rewrite (user_id_Valid _ _ Hi Hs).
  - destruct (errors_Is e pgx_ErrNoRows) eqn:He; m_inv Hr; (split; [done|]); [auto|].
    intros Hnf. exfalso.
    destruct Hfault as (_ & _ & _ & [(? & [=] & _)|[(e' & [= <-] & Hst & _)|(e' & [= <-] & Hf & _)]]).
    + apply sql_GetSession_Err in Hst as [[-> _]|Hf]; [done| |done]. by destruct Hf as [? ->].
    + by destruct Hf as [? ->].
Qed.

Lemma PGStore_DeleteByRefreshToken_law t w r w' :
  Integrity (db w) → PGStore.DeleteByRefreshToken t w = (r, w') →
  later w w' ∧ same_access w w' ∧ same_refresh w w' ∧
  ((is_Ok r = false ∧ same_rows w w') ∨ rows w' = delete t (rows w)) ∧
  match r with
  | Ok _ => rows w !! t ≠ None
  | Err e => errors_Is e ErrSessionNotFound = true → rows w !! t = None
  end.
Proof.
  intros Hi Hr.
  assert (Hget : ∃ w1 r1, PGStore.GetUserIDByRefreshToken t w = (r1, w1) ∧
    ((∃ e, r = Err e ∧ r1 = Err e ∧ w' = w1) ∨
     (∃ s, db w1 = db w ∧ s ∈ sessions (db w) ∧ sqlc.Session_RefreshToken s = t ∧ is_Ok r1 = true ∧
      run_sql (Queries.sql_DeleteSession (sqlc.Session_SessionID s)) w1 = (r, w')))).
  { unfold PGStore.DeleteByRefreshToken, Queries.GetSessionByRefreshToken in Hr.
    unfold PGStore.GetUserIDByRefreshToken, Queries.GetSessionByRefreshToken.
    apply M_bind_attempt_inv in Hr as (r0 & w1 & Hget & Hr).
    unfold attempt, mbind, M_bind in *. rewrite Hget.
    apply GetSession_law in Hget as (_ & Hdb & Hres); [|done].
    destruct (no_rows ErrSessionNotFound r0) as [s|e] eqn:Hn; cbn in Hr |- *.
    - do 2 eexists. split; [done|]. right. exists s. destruct r0 as [s0|e0]; cbn in Hn.
      + injection Hn as <-. destruct Hres. by repeat split.
      + by destruct (errors_Is e0 pgx_ErrNoRows).
    - injection Hr as <- <-. do 2 eexists. split; [done|]. left. eauto. }
  destruct Hget as (w1 & r1 & Hget & Hcases).
  apply PGStore_GetUserID_law in Hget as (([Hi1 ?] & Hq & Ha & Hf) & Hres); [|done].
  destruct Hcases as [(e & -> & -> & ->)|(s & Hdb & Hs & Ht & Hok & Hdel)].
  - by do 3 (split; [done|]); split; [left|].
  - apply run_statement in Hdel as ([? ?] & Ha2 & Hf2 & _ & Hres2); [|constructor|done].
    unfold same_access, same_refresh, same_rows in *.
    split; [split; [done|lia]|]. split; [intros; by rewrite Ha2|]. split; [intros; by rewrite Hf2|].
    rewrite Hdb in Hres2.
    assert (Hrow : rows w !! t ≠ None) by (destruct r1; [congruence|done]).
    assert (Hstep : ∀ a, Queries.sql_DeleteSession (sqlc.Session_SessionID s)
      (clock w') (calls w') (db w) = Ok (a, db w') → rows w' = delete t (rows w)).
    { intros a Hst. by eapply sql_DeleteSession_rows in Hst. }
    destruct Hres2 as [(a & -> & Hst)|(e & -> & He & Hst)].
    + split; [right; by eapply Hstep|done].
    + split; [|destruct He as [?|[? ->]]; done].
      destruct Hst as [Hsame|[a Hst]]; [left|right; by eapply Hstep].
      split; [done|]. cbn. by rewrite Hsame.
Qed.

Lemma PGStore_DeleteByUserID_law u w r w' :
  Integrity (db w) → PGStore.DeleteByUserID u w = (r, w') →
  later w w' ∧ same_access w w' ∧ same_refresh w w' ∧
  ((is_Ok r = false ∧ same_rows w w') ∨ rows w' = filter (λ p, p.2 ≠ u) (rows w)).
Proof.
  intros Hi Hr. unfold PGStore.DeleteByUserID, Queries.DeleteSessionsByUserID in Hr.
  apply run_statement in Hr as (Hl & Ha & Hf & _ & Hres); [|constructor|done].
  do 3 (split; [done|]).
  destruct Hres as [(a & -> & Hst)|(e & -> & _ & [Hdb|[a Hst]])].
  - right. by eapply sql_DeleteSessionsByUserID_rows in Hst.
  - left. split; [done|]. unfold same_rows. cbn. by rewrite Hdb.
  - right. by eapply sql_DeleteSessionsByUserID_rows in Hst.
Qed.

(** Redis commands do not touch the database. *)
Lemma later_same_db w w' :
  Integrity (db w) → db w' = db w → clock w' = clock (tick w) → later w w' ∧ same_rows w w'.
Proof.
  intros Hi Hdb Hc. split; [split; cbn|unfold same_rows; cbn]; rewrite ?Hdb; try done.
  pose proof (tick_clock w). lia.
Qed.

Lemma Get_law k w r w' :
  Integrity (db w) → client_Get (key_string k) w = (r, w') →
  quiet w w' ∧ ∀ v, r = Ok v → holds w (clock w') k = Some v.
Proof.
  intros Hi [-> Hr]%Get_inv. split; [by apply quiet_same|]. intros v ->.
  destruct Hr as [Hr|(e & _ & ?)]; [|done]. by destruct (holds _ _ _); simplify_eq.
Qed.

Lemma hex_text_ok b :
  length b = 32%nat → pg_varchar 255 (str (hex_EncodeToString b)) = Some (str (hex_EncodeToString b)).
Proof.
  intros Hl. apply pg_varchar_fits.
  - apply pg_text_ascii. rewrite unstr_str. clear Hl.
    induction b as [|c b IH]; [constructor|].
    unfold hex_EncodeToString in *. cbn. constructor; [|constructor; [|exact IH]]; clear; revert c.
    + by refine (byte_forall (λ c, 0 < byte_val (hex_digit (byte_val c `div` 16)) < 128) _);
        vm_compute.
    + by refine (byte_forall (λ c, 0 < byte_val (hex_digit (byte_val c `mod` 16)) < 128) _);
        vm_compute.
  - rewrite <- unstr_length, unstr_str, length_hex_EncodeToString, Hl. done.
Qed.

#[export] Instance World_Backend : Backend (World R D).
Proof.
  split.
  - intros n w r w' Hi [= <- <-]. split; [by apply quiet_same|].
    intros b Hb. by eapply rand_Read_length.
  - apply hex_text_ok.
  - intros w r w' Hi [= <- <-]. by apply quiet_same.
  - exact PGStore_Create_law.
  - exact PGStore_GetUserID_law.
  - exact PGStore_DeleteByRefreshToken_law.
  - exact PGStore_DeleteByUserID_law.
  - intros t v ttl w r w' Hi Httl Hset.
    apply (Set_inv (Access t)) in Hset as (Hdb & _ & Hc & Hne & Hk); [|done].
    destruct (later_same_db w w') as [Hl Hq]; [done..|]. do 2 (split; [done|]).
    split; [intros τ t'; by apply Hne|]. split; [intros τ t' Ht; apply Hne; congruence|].
    destruct Hk as [[? Hr]|Hk]; [left|right; exact Hk]. split; [done|]. by apply same_redis.
  - intros t v ttl w r w' Hi Httl Hset.
    apply (Set_inv (store.Refresh t)) in Hset as (Hdb & _ & Hc & Hne & Hk); [|done].
    destruct (later_same_db w w') as [Hl Hq]; [done..|]. do 2 (split; [done|]).
    split; [intros τ t'; by apply Hne|]. split; [intros τ t' Ht; apply Hne; congruence|].
    destruct Hk as [[? Hr]|Hk]; [left|right; exact Hk]. split; [done|]. by apply same_redis.
  - intros t w r w' Hi Hdel.
    apply (Del_inv (store.Refresh t)) in Hdel as (Hdb & _ & Hc & Hne & Hk).
    destruct (later_same_db w w') as [Hl Hq]; [done..|]. do 2 (split; [done|]).
    split; [intros τ t'; by apply Hne|]. split; [intros τ t' Ht; apply Hne; congruence|].
    destruct Hk as [[? Hr]|Hk]; [left|right; exact Hk]. split; [done|]. by apply same_redis.
  - intros t w r w' Hi Hget. by apply (Get_law (Access t)) in Hget.
  - intros t w r w' Hi Hget. by apply (Get_law (store.Refresh t)) in Hget.
Qed.

Lemma up_Get `{!FaultFree} k w r w' v :
  client_Get (key_string k) w = (r, w') → holds w (clock w') k = Some v → r = Ok v.
Proof. rewrite Get_FaultFree. intros [<- <-]%pair_eq Hv. by rewrite Hv. Qed.

Lemma GetSession_up `{!FaultFree} t w r w' :
  inv w → text_ok t → run_sql (Queries.sql_GetSessionByRefreshToken t) w = (r, w') →
  match rows w !! t with
  | Some u => ∃ s, r = Ok s ∧ u = fromPgUUID (sqlc.Session_UserID s)
  | None => r = Err pgx_ErrNoRows
  end.
Proof.
  intros Hi Ht Hget. unfold run_sql, World_DBTX in Hget.
  rewrite call_FaultFree in Hget. cbn [db clock tick] in Hget.
  change (rows w) with (session_rows (db w)).
  destruct (Queries.sql_GetSessionByRefreshToken t _ _ _) as [[s d]|e] eqn:Hst;
    injection Hget as <- <-.
  - apply GetSessionByRefreshToken_Ok in Hst as (_ & _ & Hs & <-); [|done].
    assert (session_rows (db w) !! sqlc.Session_RefreshToken s = Some (Bytes (sqlc.Session_UserID s)))
      as -> by (apply session_rows_Some; eauto).
    exists s. split; [done|]. unfold fromPgUUID. by rewrite (user_id_Valid (db w)).
  - pose proof Hst as Hst'. unfold Queries.sql_GetSessionByRefreshToken, text_param in Hst'.
    rewrite (pg_varchar_text _ _ _ Ht) in Hst'. cbn [mbind result_bind] in Hst'.
    apply bind_Err in Hst' as [Hone|(? & _ & ?)]; [|done].
    apply one_select_Err in Hone as [-> _].
    by apply sql_GetSession_Err in Hst as [[_ ->]|[? ?]].
Qed.

#[export] Instance World_BackendUp `{!FaultFree} : BackendUp (World R D).
Proof.
  split.
  - intros n w r w' [= <- _]. apply rand_Read_ok.
  - intros t v ttl w r w' Hset. pose proof (Set_FaultFree (Access t) v ttl w) as Hok.
    cbn in Hset. unfold SetAccessToken in Hset. cbn in Hok. by rewrite Hset in Hok.
  - intros t v ttl w r w' Hset. pose proof (Set_FaultFree (store.Refresh t) v ttl w) as Hok.
    cbn in Hset. unfold SetRefreshToken in Hset. cbn in Hok. by rewrite Hset in Hok.
  - intros t w r w' Hdel. pose proof (Del_FaultFree (store.Refresh t) w) as Hok.
    cbn in Hdel. unfold DeleteRefreshToken in Hdel. cbn in Hok. by rewrite Hdel in Hok.
  - intros t w r w' v Hget Hv. exact (up_Get (Access t) w r w' v Hget Hv).
  - intros t w r w' v Hget Hv. exact (up_Get (store.Refresh t) w r w' v Hget Hv).
  - intros t w r w' Hi Ht Hr.
    unfold repo_GetUserIDByRefreshToken, PGStore_Repository, PGStore.GetUserIDByRefreshToken,
      Queries.GetSessionByRefreshToken in Hr.
    apply M_bind_attempt_inv in Hr as (r0 & w1 & Hget & Hr).
    apply GetSession_up in Hget; [|done..]. destruct (rows w !! t) as [u|].
    + destruct Hget as (s & -> & ->). cbn [no_rows] in Hr. by m_inv Hr.
    + subst r0. cbn [no_rows] in Hr. change (errors_Is pgx_ErrNoRows pgx_ErrNoRows) with true in Hr.
      m_inv Hr. by eexists.
  - intros t w r w' Hi Ht Hrow Hr.
    unfold repo_DeleteByRefreshToken, PGStore_Repository, PGStore.DeleteByRefreshToken,
      Queries.GetSessionByRefreshToken, Queries.DeleteSession in Hr.
    apply M_bind_attempt_inv in Hr as (r0 & w1 & Hget & Hr).
    apply GetSession_up in Hget; [|done..]. destruct (rows w !! t) as [u|]; [|done].
    destruct Hget as (s & -> & _). cbn [no_rows] in Hr. unfold mbind, M_bind, lift in Hr.
    unfold run_sql, World_DBTX in Hr. rewrite call_FaultFree in Hr. by injection Hr as <- _.
Qed.
End stores.

(** ** A run: Ada logs in *)

Module Demo.
Import Sim Example_.

Abbreviation W := (World (gmap string (string * Z)) unit).

Definition w0 : W := mkWorld ada_db ∅ tt 0 0.
Definition ada_id : UUID := Vector.const (byte_of 1) 16.

Definition the_pair (r : result TokenPair) : TokenPair :=
  match r with Ok p => p | Err _ => {| AccessToken := EmptyString; RefreshToken := EmptyString |} end.

Definition pair : TokenPair := the_pair (Create ada_id w0).1.
Definition w1 : W := (Create ada_id w0).2.
Definition w2 : W := (Revoke (RefreshToken pair) w1).2.
Definition w2' : W := (RevokeAll ada_id w1).2.

Lemma w0_inv : inv w0.
Proof. apply (Integrity_steps empty_Database); [apply ada_steps|apply Integrity_empty]. Qed.

Lemma login : Create ada_id w0 = (Ok pair, w1).
Proof. apply run_eq. vm_compute. reflexivity. Qed.

Lemma logout : Revoke (RefreshToken pair) w1 = (Ok tt, w2).
Proof. apply run_eq. vm_compute. reflexivity. Qed.

Lemma logout_all : RevokeAll ada_id w1 = (Ok tt, w2').
Proof. apply run_eq. vm_compute. reflexivity. Qed.

Lemma w1_inv : inv w1.
Proof. by destruct (Create_session_Ok _ _ _ _ w0_inv login) as [[? _] _]. Qed.

Lemma w0_no_tokens : no_tokens w0.
Proof. split; [apply w0_inv|done]. Qed.

Lemma login_validates_witness :
  (ValidateAccess (AccessToken pair) w1).1 = Ok ada_id.
Proof.
  destruct (ValidateAccess (AccessToken pair) w1) as [r w] eqn:Hv.
  destruct (login_validates ada_id w0 pair w1 w1 r w) as (_ & Hok & _).
  - apply w0_inv.
  - apply login.
  - split; [apply w1_inv|lia].
  - done.
  - exact Hv.
  - apply Hok; [apply _|]. apply (f_equal snd) in Hv. cbn in Hv. subst w. vm_compute. discriminate.
Defined.

Lemma revoked_token_refused_witness :
  (Refresh (RefreshToken pair) w2).1 = Err ErrInvalidRefreshToken.
Proof.
  destruct (Refresh (RefreshToken pair) w2) as [r w] eqn:Hr.
  apply (revoked_token_refused (RefreshToken pair) w1 w2 w2 r w).
  - apply w1_inv.
  - vm_compute. reflexivity.
  - apply logout.
  - split; [|lia].
    by destruct (Revoke_inv (RefreshToken pair) w1 (Ok tt) w2 w1_inv logout) as [[? _] _].
  - done.
  - done.
  - exact Hr.
Defined.

Lemma RevokeAll_spares_the_cache_witness :
  ∃ a, (Refresh (RefreshToken pair) w2').1 = Ok a.
Proof.
  destruct (Refresh (RefreshToken pair) w2') as [r w] eqn:Hr.
  destruct (RevokeAll_spares_the_cache ada_id w0 pair w1 w2' r w) as (_ & a & -> & _).
  - apply w0_inv.
  - apply login.
  - apply logout_all.
  - exact Hr.
  - apply (f_equal snd) in Hr. cbn in Hr. subst w. vm_compute. discriminate.
  - by exists a.
Defined.

(** Refreshing works a hundred days after the login. *)
Definition later_w1 : W := mkWorld (db w1) (redis w1) tt (clock w1 + 100 * 24 * Hour) (calls w1).

Lemma refresh_tokens_do_not_expire_witness :
  ∃ a, (Refresh (RefreshToken pair) later_w1).1 = Ok a.
Proof.
  destruct (Refresh (RefreshToken pair) later_w1) as [r w] eqn:Hr.
  destruct (refresh_tokens_do_not_expire (RefreshToken pair) ada_id later_w1 r w)
    as (_ & a & -> & _).
  - apply w1_inv.
  - vm_compute. reflexivity.
  - vm_compute. reflexivity.
  - exact Hr.
  - by exists a.
Defined.

Lemma access_tokens_name_logged_in_users_witness : ada_id ∈ [ada_id].
Proof.
  destruct (Validate (AccessToken pair) w1) as [r w] eqn:Hv.
  apply (access_tokens_name_logged_in_users w0 w1 [ada_id] (AccessToken pair) r w ada_id).
  - apply w0_no_tokens.
  - apply rtc_once. apply (step_Create ada_id w0 (Ok pair)). apply login.
  - exact Hv.
  - apply (f_equal fst) in Hv. cbn [fst] in Hv. rewrite <- Hv. vm_compute. reflexivity.
Defined.

End Demo.
End session.
