(* ===== verification/Users.v ===== *)
(** User accounts: [internal/modules/user/].

    [Repository] is the interface of [repository.go]; the service of
    [service.go] is written against it, and [Store] of [store.go] implements it
    over the queries of [Database.v].  bcrypt is a parameter with the law that
    a hash accepts the password it was made from. *)

From S2P Require Import Prelude.
From S2P Require Import Bytes.
From S2P Require Import Platform.
From S2P Require Import Database.
From S2P Require Import Integrity.
From S2P Require Import World.

(** ** [golang.org/x/crypto/bcrypt]: hashing draws a salt *)

Class Bcrypt := {
  bcrypt_hash : nat → string → result string;
  bcrypt_CompareHashAndPassword : string → string → option error;
}.

Definition bcrypt_ErrMismatchedHashAndPassword : error :=
  errors_New "bcrypt" "crypto/bcrypt: hashedPassword is not the hash of the given password".

Class BcryptLaws `{Bcrypt} : Prop := {
  bcrypt_accepts n p h :
    bcrypt_hash n p = Ok h → bcrypt_CompareHashAndPassword h p = None;
  bcrypt_hash_Err n p e :
    bcrypt_hash n p = Err e → is_fault e ∨ ∃ text, e = errors_New "bcrypt" text;
  bcrypt_hash_text n p h :
    bcrypt_hash n p = Ok h →
    String.length h = 60%nat ∧ Forall (λ c, 0 < byte_val c < 128) (unstr h);
}.

Class Hasher (S : Type) := bcrypt_GenerateFromPassword : string → M S string.

#[export] Instance World_Hasher {R D} `{Oracle} `{Bcrypt} : Hasher (World R D) := λ p w,
  (bcrypt_hash (calls w) p, tick w).

Module user.

(** ** domain.go *)

Definition ErrNotFound : error := errors_New "user" "user not found".
Definition ErrEmailTaken : error := errors_New "user" "email already taken".
Definition ErrUsernameTaken : error := errors_New "user" "username already taken".

Record User := {
  ID : UUID;
  Name : string;
  Username : string;
  Email : string;
  Password : string;
  CreatedAt : Z;
  UpdatedAt : Z;
  IsDeleted : bool;
  IsVerified : bool;
}.

#[export] Instance User_eq_dec : EqDecision User.
Proof. solve_decision. Defined.

Record RegisterInput := {
  in_Name : string;
  in_Username : string;
  in_Password : string;
  in_Email : string;
}.

(** ** repository.go *)

Class Repository (S : Type) := {
  repo_Create : User → M S User;
  repo_GetByID : UUID → M S User;
  repo_GetByEmail : string → M S User;
  repo_GetByUsername : string → M S User;
  repo_Verify : UUID → M S unit;
  repo_SoftDelete : UUID → M S unit;
  repo_UpdatePassword : UUID → string → M S unit;
}.

(** ** service.go *)

Section service.
Context {S : Type} `{Repository S} `{Entropy S} `{Hasher S} `{Bcrypt}.

(** The lookup that must find nobody: [err == nil] is [taken], any error but
    [ErrNotFound] is returned wrapped. *)
Definition check_free (before : string) (taken : error) (lookup : M S User) : M S unit :=
  r ← attempt lookup;
  match r with
  | Ok _ => fail taken
  | Err e => if errors_Is e ErrNotFound then mret tt
             else fail (fmt_Errorf_w before e EmptyString)
  end.

(** The fields that [User{...}] leaves out are zero. *)
Definition Register (input : RegisterInput) : M S User :=
  check_free "check email: " ErrEmailTaken (repo_GetByEmail (in_Email input));;
  check_free "check username: " ErrUsernameTaken (repo_GetByUsername (in_Username input));;
  hashed ← mwrap "hash password: " (bcrypt_GenerateFromPassword (in_Password input));
  id ← mwrap "generate uuid: " uuid_NewV7;
  mwrap "create user: " (repo_Create {|
    ID := id; Name := in_Name input; Username := in_Username input; Password := hashed;
    Email := in_Email input; CreatedAt := zero_Time; UpdatedAt := zero_Time;
    IsDeleted := false; IsVerified := false |}).

Definition GetByID (id : UUID) : M S User := repo_GetByID id.
Definition GetByEmail (email : string) : M S User := repo_GetByEmail email.
Definition VerifyPassword (hashed plain : string) : option error :=
  bcrypt_CompareHashAndPassword hashed plain.
End service.

(** ** store.go *)

Definition fromSqlcUser (u : sqlc.User) : User := {|
  ID := fromPgUUID (sqlc.User_UserID u); Name := sqlc.User_Name u;
  Username := sqlc.User_Username u; Email := sqlc.User_Email u;
  Password := sqlc.User_Password u; CreatedAt := Time (sqlc.User_CreatedAt u);
  UpdatedAt := Time (sqlc.User_UpdatedAt u); IsDeleted := sqlc.User_IsDeleted u;
  IsVerified := sqlc.User_IsVerified u |}.

Module Store.
Section store.
Context {S : Type} `{Postgres} `{DBTX S}.

Definition CreateUserParams_of (u : User) : Queries.CreateUserParams := {|
  Queries.CreateUser_UserID := toPgUUID (ID u); Queries.CreateUser_Name := Name u;
  Queries.CreateUser_Username := Username u; Queries.CreateUser_Password := Password u;
  Queries.CreateUser_Email := Email u |}.

Definition Create (u : User) : M S User :=
  row ← Queries.CreateUser (CreateUserParams_of u);
  mret (fromSqlcUser row).

Definition GetByID (id : UUID) : M S User :=
  r ← attempt (Queries.GetUserByID (toPgUUID id));
  row ← lift (no_rows ErrNotFound r);
  mret (fromSqlcUser row).

Definition GetByEmail (email : string) : M S User :=
  r ← attempt (Queries.GetUserByEmail email);
  row ← lift (no_rows ErrNotFound r);
  mret (fromSqlcUser row).

Definition GetByUsername (username : string) : M S User :=
  r ← attempt (Queries.GetUserByUsername username);
  row ← lift (no_rows ErrNotFound r);
  mret (fromSqlcUser row).

Definition Verify (id : UUID) : M S unit := Queries.VerifyUser (toPgUUID id).

Definition SoftDelete (id : UUID) : M S unit := Queries.SoftDeleteUser (toPgUUID id).

Definition UpdatePassword (id : UUID) (password : string) : M S unit :=
  Queries.UpdateUserPassword {|
    Queries.UpdateUserPassword_UserID := toPgUUID id;
    Queries.UpdateUserPassword_Password := password |}.
End store.
End Store.

#[export] Instance Store_Repository {S} `{Postgres} `{DBTX S} : Repository S := {|
  repo_Create := Store.Create;
  repo_GetByID := Store.GetByID;
  repo_GetByEmail := Store.GetByEmail;
  repo_GetByUsername := Store.GetByUsername;
  repo_Verify := Store.Verify;
  repo_SoftDelete := Store.SoftDelete;
  repo_UpdatePassword := Store.UpdatePassword;
|}.

(** ** The abstract directory

    What a repository promises: a map from identifiers to accounts, deleted
    ones included, in which lookups see the accounts that are not deleted.
    [stored] is the text a column keeps for a string, if it keeps any. *)

Class View (S : Type) := {
  inv : S → Prop;
  now : S → Z;
  dir : S → gmap UUID User;
  stored : string → option string;
}.

(** A lookup of the account that is not deleted and has [p]. *)
Definition found (m : gmap UUID User) (p : User → Prop) (r : result User) : Prop :=
  (∃ u, r = Ok u ∧ m !! ID u = Some u ∧ p u ∧ IsDeleted u = false) ∨
  (r = Err ErrNotFound ∧ ∀ id u, m !! id = Some u → p u → IsDeleted u = true).

(** An identifier or a name that some account has, deleted or not. *)
Definition taken (m : gmap UUID User) (id : UUID) (username email : string) : Prop :=
  m !! id ≠ None ∨ ∃ id' u, m !! id' = Some u ∧ (Username u = username ∨ Email u = email).

Definition created (stored : string → option string) (t : Z) (m : gmap UUID User) (u : User)
    (r : result User) (m' : gmap UUID User) : Prop :=
  (∃ name username password email,
     stored (Name u) = Some name ∧ stored (Username u) = Some username ∧
     stored (Password u) = Some password ∧ stored (Email u) = Some email ∧
     ¬ taken m (ID u) username email ∧
     let u' := {| ID := ID u; Name := name; Username := username; Email := email;
                  Password := password; CreatedAt := Time (sql_now t);
                  UpdatedAt := Time (sql_now t); IsDeleted := false; IsVerified := false |} in
     r = Ok u' ∧ m' = <[ID u := u']> m) ∨
  ((∃ e, r = Err e ∧ is_fault e) ∧ m' = m ∧
   ∀ username email, stored (Username u) = Some username → stored (Email u) = Some email →
     stored (Name u) = None ∨ stored (Password u) = None ∨ taken m (ID u) username email).

Definition verified (t : Z) (u : User) : User := {|
  ID := ID u; Name := Name u; Username := Username u; Email := Email u; Password := Password u;
  CreatedAt := CreatedAt u; UpdatedAt := Time (sql_now t); IsDeleted := IsDeleted u;
  IsVerified := true |}.

Definition deleted (t : Z) (u : User) : User := {|
  ID := ID u; Name := Name u; Username := Username u; Email := Email u; Password := Password u;
  CreatedAt := CreatedAt u; UpdatedAt := Time (sql_now t); IsDeleted := true;
  IsVerified := IsVerified u |}.

Definition with_password (password : string) (t : Z) (u : User) : User := {|
  ID := ID u; Name := Name u; Username := Username u; Email := Email u; Password := password;
  CreatedAt := CreatedAt u; UpdatedAt := Time (sql_now t); IsDeleted := IsDeleted u;
  IsVerified := IsVerified u |}.

(** A call that failed outside the program: its error is none of the
    program's, and it may have been applied. *)
Definition failed {A} (r : result A) (m m' : gmap UUID User) (applied : Prop) : Prop :=
  ∃ e, r = Err e ∧ is_fault e ∧ (m' = m ∨ applied).

(** An error of another package. *)
Definition foreign (e : error) : Prop := ∀ text, errors_Is e (errors_New "user" text) = false.

Class Directory (S : Type) `{Repository S} `{Entropy S} `{Hasher S} `{Bcrypt} `{View S} : Prop := {
  law_NewV7 s r s' : inv s → uuid_NewV7 s = (r, s') → inv s' ∧ now s ≤ now s' ∧ dir s' = dir s ∧
    ∀ e, r = Err e → foreign e;
  law_hash p s r s' :
    inv s → bcrypt_GenerateFromPassword p s = (r, s') →
    inv s' ∧ now s ≤ now s' ∧ dir s' = dir s ∧
    (∀ h, r = Ok h → VerifyPassword h p = None ∧ stored h = Some h) ∧
    (∀ e, r = Err e → foreign e);
  law_GetByID id s r s' :
    inv s → repo_GetByID id s = (r, s') →
    inv s' ∧ now s ≤ now s' ∧ dir s' = dir s ∧
    (found (dir s) (λ u, ID u = id) r ∨ ∃ e, r = Err e ∧ is_fault e);
  law_GetByEmail email s r s' :
    inv s → repo_GetByEmail email s = (r, s') →
    inv s' ∧ now s ≤ now s' ∧ dir s' = dir s ∧
    (found (dir s) (λ u, Email u = email) r ∨ ∃ e, r = Err e ∧ is_fault e);
  law_GetByUsername username s r s' :
    inv s → repo_GetByUsername username s = (r, s') →
    inv s' ∧ now s ≤ now s' ∧ dir s' = dir s ∧
    (found (dir s) (λ u, Username u = username) r ∨ ∃ e, r = Err e ∧ is_fault e);
  law_Create u s r s' :
    inv s → repo_Create u s = (r, s') →
    inv s' ∧ now s ≤ now s' ∧
    (created stored (now s') (dir s) u r (dir s') ∨
     failed r (dir s) (dir s') (∃ r0, created stored (now s') (dir s) u r0 (dir s')));
  law_Verify id s r s' :
    inv s → repo_Verify id s = (r, s') →
    inv s' ∧ now s ≤ now s' ∧
    let m' := alter (verified (now s')) id (dir s) in
    (r = Ok tt ∧ dir s' = m' ∨ failed r (dir s) (dir s') (dir s' = m'));
  law_SoftDelete id s r s' :
    inv s → repo_SoftDelete id s = (r, s') →
    inv s' ∧ now s ≤ now s' ∧
    let m' := alter (deleted (now s')) id (dir s) in
    (r = Ok tt ∧ dir s' = m' ∨ failed r (dir s) (dir s') (dir s' = m'));
  law_UpdatePassword id password s r s' :
    inv s → repo_UpdatePassword id password s = (r, s') →
    inv s' ∧ now s ≤ now s' ∧
    ((∃ pw, stored password = Some pw ∧ r = Ok tt ∧
        dir s' = alter (with_password pw (now s')) id (dir s)) ∨
     failed r (dir s) (dir s') (∃ pw, stored password = Some pw ∧
        dir s' = alter (with_password pw (now s')) id (dir s)));
}.

(** ** Registering, against any directory *)

Section theorems.
Context {S : Type} `{Directory S}.

Lemma foreign_fault e : is_fault e → foreign e.
Proof. by intros [text ->] ?. Qed.

Lemma foreign_wrap before e after : foreign e → foreign (fmt_Errorf_w before e after).
Proof. intros He text. cbn. by rewrite He, bool_decide_false. Qed.

Definition live (m : gmap UUID User) (p : User → Prop) : Prop :=
  ∃ id u, m !! id = Some u ∧ p u ∧ IsDeleted u = false.

(** A lookup that must find nobody. *)
Lemma check_free_law before taken (lookup : M S User) p s r s' :
  (∀ r0, lookup s = (r0, s') →
     inv s' ∧ now s ≤ now s' ∧ dir s' = dir s ∧
     (found (dir s) p r0 ∨ ∃ e, r0 = Err e ∧ is_fault e)) →
  check_free before taken lookup s = (r, s') →
  inv s' ∧ now s ≤ now s' ∧ dir s' = dir s ∧
  match r with
  | Ok _ => ¬ live (dir s) p
  | Err e => (e = taken ∧ live (dir s) p) ∨ foreign e
  end.
Proof.
  intros Hlaw Hr. unfold check_free in Hr.
  apply M_bind_attempt_inv in Hr as (r0 & s1 & Hl & Hr).
  assert (s1 = s') as ->.
  { destruct r0 as [u|e]; [|destruct (errors_Is e ErrNotFound)]; by m_inv Hr. }
  destruct (Hlaw _ Hl) as (Hi & Hle & Hd & Hres). do 3 (split; [done|]).
  destruct Hres as [[(u & -> & Hu & Hp & Hlive)|[-> Hnone]]|(e & -> & Hf)].
  - m_inv Hr. left. split; [done|]. by exists (ID u), u.
  - injection Hr as <-. intros (id & u & Hu & Hp & Hlive). rewrite (Hnone _ _ Hu Hp) in Hlive. done.
  - rewrite (foreign_fault e Hf _ : errors_Is e ErrNotFound = false) in Hr. injection Hr as <-.
    right. by apply foreign_wrap, foreign_fault.
Qed.

Lemma foreign_not_taken e (P Q : Prop) :
  foreign e → (errors_Is e ErrEmailTaken = true → P) ∧ (errors_Is e ErrUsernameTaken = true → Q).
Proof. intros He. unfold ErrEmailTaken, ErrUsernameTaken. by rewrite !He. Qed.

Lemma Register_inv input s r s' :
  inv s → Register input s = (r, s') →
  inv s' ∧ now s ≤ now s' ∧
  match r with
  | Ok u =>
      stored (in_Name input) = Some (Name u) ∧ stored (in_Username input) = Some (Username u) ∧
      stored (in_Email input) = Some (Email u) ∧
      VerifyPassword (Password u) (in_Password input) = None ∧
      IsDeleted u = false ∧ IsVerified u = false ∧
      ¬ taken (dir s) (ID u) (Username u) (Email u) ∧ dir s' = <[ID u := u]> (dir s)
  | Err e =>
      (errors_Is e ErrEmailTaken = true →
         live (dir s) (λ u, Email u = in_Email input) ∧ dir s' = dir s) ∧
      (errors_Is e ErrUsernameTaken = true →
         live (dir s) (λ u, Username u = in_Username input) ∧
         ¬ live (dir s) (λ u, Email u = in_Email input) ∧ dir s' = dir s)
  end.
Proof.
  intros Hi Hr. unfold Register in Hr. apply M_bind_inv in Hr as Hcases. clear Hr.
  destruct Hcases as [([] & s1 & Hc & Hr)|(e & Hc & ->)].
  2:{ apply (check_free_law _ _ _ (λ u, Email u = in_Email input)) in Hc as (? & ? & Hd & He);
        [|intros r0; by apply law_GetByEmail].
      do 2 (split; [done|]). destruct He as [[-> Hl]|]; [|by apply foreign_not_taken].
      split; [done|]. by vm_compute. }
  apply (check_free_law _ _ _ (λ u, Email u = in_Email input)) in Hc as (Hi1 & ? & Hd1 & Hemail);
    [|intros r0; by apply law_GetByEmail].
  apply M_bind_inv in Hr as [([] & s2 & Hc & Hr)|(e & Hc & ->)].
  2:{ apply (check_free_law _ _ _ (λ u, Username u = in_Username input)) in Hc as (? & ? & Hd & He);
        [|intros r0; by apply law_GetByUsername].
      split; [done|]. split; [lia|]. rewrite Hd1 in *.
      destruct He as [[-> Hl]|]; [|by apply foreign_not_taken].
      split; [by vm_compute|]. intros _. split; [done|]. split; [done|congruence]. }
  apply (check_free_law _ _ _ (λ u, Username u = in_Username input)) in Hc as (Hi2 & ? & Hd2 & Huser);
    [|intros r0; by apply law_GetByUsername].
  m_inv Hr.
  - apply law_hash in Hcall as (Hi3 & ? & Hd3 & Hhash & _); [|done].
    destruct (Hhash _ eq_refl) as [Hverify Hpw].
    apply law_NewV7 in Hcall0 as (Hi4 & ? & Hd4 & _); [|done].
    apply law_Create in Hr as (Hi5 & ? & [Hc|Hc]); [|by destruct Hc as (? & ? & _)|done].
    split; [done|]. split; [lia|].
    destruct Hc as [(name & username & password & email & Hn & Hu & Hp & He & Ht & Hok & Hd)|Hc];
      [|by destruct Hc as [(? & ? & _) _]].
    cbn in Hn, Hu, Hp, He, Ht, Hok, Hd. injection Hok as ->. cbn.
    rewrite Hpw in Hp. injection Hp as <-.
    assert (Hdir : dir s3 = dir s) by congruence. by rewrite <- Hdir.
  - apply law_hash in Hcall as (Hi3 & ? & Hd3 & _); [|done].
    apply law_NewV7 in Hcall0 as (Hi4 & ? & Hd4 & _); [|done].
    apply law_Create in Hr as (Hi5 & ? & Hc); [|done]. split; [done|]. split; [lia|].
    apply foreign_not_taken, foreign_wrap, foreign_fault.
    destruct Hc as [[(? & ? & ? & ? & _ & _ & _ & _ & _ & ? & _)|[(e' & [= <-] & ?) _]]|(e' & [= <-] & ? & _)];
      done.
  - apply law_hash in Hcall as (Hi3 & ? & Hd3 & _); [|done].
    apply law_NewV7 in Hcall0 as (Hi4 & ? & Hd4 & He); [|done]. split; [done|]. split; [lia|].
    by apply foreign_not_taken, foreign_wrap, He.
  - apply law_hash in Hcall as (Hi3 & ? & Hd3 & _ & He); [|done]. split; [done|]. split; [lia|].
    by apply foreign_not_taken, foreign_wrap, He.
Qed.

(** A user that Register returns, against any store that keeps the contract of a
    repository, had an unused id, username and email and is the only account added; the
    password it was registered with verifies, a lookup by its email returns it or fails
    on an outage, and registering its email again creates nothing and fails, with
    ErrEmailTaken unless on an outage. *)
Theorem registered_user_is_found input s u s' :
  inv s → Register input s = (Ok u, s') →
  ¬ taken (dir s) (ID u) (Username u) (Email u) ∧ dir s' = <[ID u := u]> (dir s) ∧
  VerifyPassword (Password u) (in_Password input) = None ∧
  (∀ r s'', GetByEmail (Email u) s' = (r, s'') → r = Ok u ∨ ∃ e, r = Err e ∧ is_fault e) ∧
  (∀ input' r s'', in_Email input' = Email u → Register input' s' = (r, s'') →
     dir s'' = dir s' ∧ ∃ e, r = Err e ∧ (e = ErrEmailTaken ∨ foreign e)).
Proof.
  intros Hi Hr. apply Register_inv in Hr
    as (Hi' & _ & _ & _ & _ & Hv & Hdel & _ & Ht & Hd); [|done].
  assert (Hu : dir s' !! ID u = Some u) by (rewrite Hd; apply lookup_insert_eq).
  do 3 (split; [done|]). split.
  - intros r s'' Hget. apply law_GetByEmail in Hget as (_ & _ & _ & [Hf|]); [|by right|done].
    destruct Hf as [(u' & -> & Hu' & Heq & _)|[_ Hnone]].
    + left. f_equal. destruct (decide (ID u' = ID u)) as [Hid|Hid]; [congruence|].
      rewrite Hd, lookup_insert_ne in Hu' by done. destruct Ht. right. eauto.
    + rewrite (Hnone _ _ Hu eq_refl) in Hdel. done.
  - intros input' r s'' Hemail Hr. unfold Register in Hr.
    assert (Hlive : live (dir s') (λ v, Email v = in_Email input')) by (by exists (ID u), u).
    apply M_bind_inv in Hr as [([] & s2 & Hc & _)|(e & Hc & ->)];
      apply (check_free_law _ _ _ (λ v, Email v = in_Email input')) in Hc
        as (_ & _ & Hd'' & Hres); try (intros r0; by apply law_GetByEmail); [done|].
    split; [done|]. exists e. split; [done|]. destruct Hres as [[? _]|]; auto.
Qed.

(** Register never creates an account whose email or username a live user has: it fails
    with ErrEmailTaken, or else with ErrUsernameTaken, or on an outage, and the accounts
    are unchanged; and it answers with these errors only when a live user has that
    email, or has that username and none has that email. *)
Theorem Register_refuses_live_names input s r s' :
  inv s → Register input s = (r, s') →
  let email_live := live (dir s) (λ u, Email u = in_Email input) in
  let username_live := live (dir s) (λ u, Username u = in_Username input) in
  (email_live → dir s' = dir s ∧ ∃ e, r = Err e ∧ (e = ErrEmailTaken ∨ foreign e)) ∧
  (¬ email_live → username_live →
     dir s' = dir s ∧ ∃ e, r = Err e ∧ (e = ErrUsernameTaken ∨ foreign e)) ∧
  (∀ e, r = Err e → errors_Is e ErrEmailTaken = true → email_live) ∧
  (∀ e, r = Err e → errors_Is e ErrUsernameTaken = true → username_live ∧ ¬ email_live).
Proof.
  intros Hi Hr email_live username_live. pose proof (Register_inv _ _ _ _ Hi Hr) as (_ & _ & Hres).
  unfold Register in Hr.
  assert (Hfirst : dir s' = dir s ∧ (∃ e, r = Err e ∧ (e = ErrEmailTaken ∧ email_live ∨ foreign e)) ∨
    ∃ s2, inv s2 ∧ dir s2 = dir s ∧ ¬ email_live ∧
    (check_free "check username: " ErrUsernameTaken (repo_GetByUsername (in_Username input));;
     hashed ← mwrap "hash password: " (bcrypt_GenerateFromPassword (in_Password input));
     id ← mwrap "generate uuid: " uuid_NewV7;
     mwrap "create user: " (repo_Create {|
       ID := id; Name := in_Name input; Username := in_Username input; Password := hashed;
       Email := in_Email input; CreatedAt := zero_Time; UpdatedAt := zero_Time;
       IsDeleted := false; IsVerified := false |})) s2 = (r, s')).
  { apply M_bind_inv in Hr as [([] & s2 & Hc & Hr)|(e & Hc & ->)];
      apply (check_free_law _ _ _ (λ v, Email v = in_Email input)) in Hc
        as (Hi2 & _ & Hd & Hf); try (intros r0; by apply law_GetByEmail); [right|left]; eauto. }
  clear Hr. split; [|split; [|split]].
  - intros Hemail. destruct Hfirst as [(Hd & e & -> & He)|(s2 & _ & _ & Hno & _)]; [|done].
    split; [done|]. exists e. split; [done|]. naive_solver.
  - intros Hemail Huser. destruct Hfirst as [(Hd & e & -> & He)|(s2 & Hi2 & Hd & _ & Hr)].
    { split; [done|]. exists e. split; [done|]. naive_solver. }
    apply M_bind_inv in Hr as [([] & s3 & Hc & Hr)|(e & Hc & ->)];
      apply (check_free_law _ _ _ (λ v, Username v = in_Username input)) in Hc
        as (_ & _ & Hd3 & Hf3); try (intros r0; by apply law_GetByUsername); rewrite Hd in *; [done|].
    split; [done|]. exists e. split; [done|]. naive_solver.
  - intros e -> He. by apply Hres.
  - intros e -> He. apply Hres in He as (? & ? & _). done.
Qed.
End theorems.

(** ** [Store] is such a directory, on a world *)

Section store.
Context {R D : Type} `{PostgresLaws} `{OracleLaws} `{BcryptLaws}.
Implicit Types (w : World R D) (d : Database).

Definition accounts d : gmap UUID User :=
  list_to_map ((λ row, (Bytes (sqlc.User_UserID row), fromSqlcUser row)) <$> users d).

#[export] Instance World_View : View (World R D) := {|
  inv w := Integrity (db w);
  now := clock;
  dir w := accounts (db w);
  stored := pg_varchar 255;
|}.

Lemma pgUUID_Valid (a : pgUUID) : Valid a = true → a = toPgUUID (Bytes a).
Proof. by destruct a as [x []]. Qed.

Lemma user_Valid d row : Integrity d → row ∈ users d → Valid (sqlc.User_UserID row) = true.
Proof. intros Hd. pose proof (users_valid _ Hd) as Hv. rewrite Forall_forall in Hv. apply Hv. Qed.

Lemma accounts_keys d : Integrity d → NoDup ((λ row, Bytes (sqlc.User_UserID row)) <$> users d).
Proof.
  intros Hd. pose proof (users_pkey _ Hd) as Hn. pose proof (users_valid _ Hd) as Hv.
  revert Hn Hv. induction (users d) as [|row t IH]; [constructor|].
  rewrite !fmap_cons, !NoDup_cons, Forall_cons. intros [Hin Hn] [Hr Hv]. split; [|by apply IH].
  intros (row' & Heq & Hrow')%list_elem_of_fmap. apply Hin, list_elem_of_fmap.
  exists row'. split; [|done]. rewrite Forall_forall in Hv.
  rewrite (pgUUID_Valid _ Hr), (pgUUID_Valid _ (Hv _ Hrow')). by rewrite Heq.
Qed.

Lemma accounts_Some d id u :
  Integrity d →
  accounts d !! id = Some u ↔
  ∃ row, row ∈ users d ∧ sqlc.User_UserID row = toPgUUID id ∧ fromSqlcUser row = u.
Proof.
  intros Hd. unfold accounts. rewrite <- elem_of_list_to_map.
  - rewrite list_elem_of_fmap. split.
    + intros (row & [= -> ->] & Hrow). exists row. split; [done|]. split; [|done].
      by apply pgUUID_Valid, (user_Valid d).
    + intros (row & Hrow & Hid & <-). exists row. by rewrite Hid.
  - rewrite <- list_fmap_compose. by apply accounts_keys.
Qed.

Lemma accounts_ID d id u : Integrity d → accounts d !! id = Some u → ID u = id.
Proof. intros Hd (row & _ & Hid & <-)%accounts_Some; [|done]. cbn. by rewrite Hid. Qed.

(** An update of one user's row. *)
Lemma accounts_update f g id d :
  Integrity d → Integrity (set_users (update (λ u, uuid_eq (sqlc.User_UserID u) (toPgUUID id)) f) d) →
  (∀ row, sqlc.User_UserID (f row) = sqlc.User_UserID row) →
  (∀ row, fromSqlcUser (f row) = g (fromSqlcUser row)) →
  accounts (set_users (update (λ u, uuid_eq (sqlc.User_UserID u) (toPgUUID id)) f) d) =
  alter g id (accounts d).
Proof.
  intros Hd Hd' Hid Hf. apply map_eq. intros id'. apply option_eq. intros u.
  rewrite lookup_alter_Some, !accounts_Some by done. cbn. setoid_rewrite elem_of_update. split.
  - intros (row & (row0 & -> & Hrow0) & Hrow & <-).
    assert (Hid0 : sqlc.User_UserID row0 = toPgUUID id').
    { by destruct (uuid_eq _ _); rewrite ?Hid in Hrow. }
    destruct (decide (id' = id)) as [->|Hne].
    + left. split; [done|]. exists (fromSqlcUser row0). rewrite Hid0, uuid_eq_refl by done.
      split; [by apply accounts_Some; eauto|done].
    + right. split; [done|]. exists row0. split; [done|]. split; [done|].
      destruct (uuid_eq _ _) eqn:He; [|done]. apply uuid_eq_true in He as [_ He].
      rewrite Hid0 in He. by apply (inj toPgUUID) in He.
  - intros [(-> & u0 & (row & Hrow & Hidr & <-)%accounts_Some & ->)|(Hne & row & Hrow & Hidr & <-)];
      [|done|].
    + exists (f row). rewrite Hid, Hf. split; [|done]. exists row. by rewrite Hidr, uuid_eq_refl.
    + exists row. split; [|done]. exists row. split; [|done].
      destruct (uuid_eq _ _) eqn:He; [|done]. apply uuid_eq_true in He as [_ He].
      rewrite Hidr in He. by apply (inj toPgUUID) in He.
Qed.

Lemma accounts_has {K} (key : User → K) (col : sqlc.User → K) d k :
  Integrity d → (∀ row, key (fromSqlcUser row) = col row) →
  k ∈ col <$> users d ↔ ∃ id u, accounts d !! id = Some u ∧ key u = k.
Proof.
  intros Hd Hkey. rewrite list_elem_of_fmap. split.
  - intros (row & -> & Hrow). exists (Bytes (sqlc.User_UserID row)), (fromSqlcUser row).
    split; [|done]. apply accounts_Some; [done|]. exists row. split; [done|]. split; [|done].
    by apply pgUUID_Valid, (user_Valid d).
  - intros (id & u & (row & Hrow & _ & <-)%accounts_Some & <-); [|done]. by exists row.
Qed.

Lemma accounts_None d id :
  Integrity d → accounts d !! id = None ↔ toPgUUID id ∉ sqlc.User_UserID <$> users d.
Proof.
  intros Hd. rewrite eq_None_not_Some. unfold is_Some. setoid_rewrite accounts_Some; [|done].
  rewrite list_elem_of_fmap. naive_solver.
Qed.

(** What the constraints of the table refuse. *)
Lemma not_taken d id username email :
  Integrity d →
  toPgUUID id ∉ sqlc.User_UserID <$> users d → username ∉ sqlc.User_Username <$> users d →
  email ∉ sqlc.User_Email <$> users d → ¬ taken (accounts d) id username email.
Proof.
  intros Hd Hid Hname Hemail [Hin|(id' & u & Hu & [Heq|Heq])].
  - by apply Hin, accounts_None.
  - apply Hname, (accounts_has Username); eauto.
  - apply Hemail, (accounts_has Email); eauto.
Qed.

Lemma sql_CreateUser_created u now n d :
  Integrity d →
  match Queries.sql_CreateUser (Store.CreateUserParams_of u) now n d with
  | Ok (row, d') => created (pg_varchar 255) now (accounts d) u (Ok (fromSqlcUser row)) (accounts d')
  | Err e => created (pg_varchar 255) now (accounts d) u (Err e) (accounts d)
  end.
Proof.
  intros Hd. destruct (Queries.sql_CreateUser _ now n d) as [[row d']|e] eqn:Hst.
  - left. unfold_statement Hst. statement_inv Hst. cbn in *.
    repeat match goal with Hx : varchar _ _ = Ok _ |- _ => apply varchar_Ok in Hx end.
    do 4 eexists. do 4 (split; [eassumption|]). split; [by apply not_taken|]. split; [done|].
    unfold accounts. cbn. rewrite fmap_app. apply list_to_map_snoc.
    rewrite <- list_fmap_compose. intros (row & Hrow & Hin)%list_elem_of_fmap.
    match goal with Hx : toPgUUID _ ∉ _ |- _ => apply Hx end. apply list_elem_of_fmap.
    exists row. split; [|done]. cbn in Hrow. rewrite Hrow.
    symmetry. by apply pgUUID_Valid, (user_Valid d).
  - right. unfold_statement Hst. cbn in Hst.
    assert (He : is_fault e ∧ (∀ username email,
      pg_varchar 255 (Username u) = Some username → pg_varchar 255 (Email u) = Some email →
      pg_varchar 255 (Name u) = None ∨ pg_varchar 255 (Password u) = None ∨
      taken (accounts d) (ID u) username email)); [|split; [exists e; split; [done|apply He]|split; [done|apply He]]].
    apply bind_Err in Hst as [[? ->]%varchar_Err|(name & Hn & Hst)]; [by auto|].
    apply bind_Err in Hst as [[? Hx]%varchar_Err|(username & Hu & Hst)];
      [split; [done|]; congruence|].
    apply bind_Err in Hst as [[? ->]%varchar_Err|(password & Hp & Hst)]; [by auto|].
    apply bind_Err in Hst as [[? Hx]%varchar_Err|(email & Hm & Hst)]; [split; [done|]; congruence|].
    apply varchar_Ok in Hu, Hm. rewrite Hu, Hm.
    cut (is_fault e ∧ taken (accounts d) (ID u) username email); [naive_solver|].
    apply bind_Err in Hst as [[? Hin]%unique_inv|([] & _ & Hst)].
    { split; [done|]. left. by intros Hnone%accounts_None. }
    apply bind_Err in Hst as [[? Hin]%unique_inv|([] & _ & Hst)].
    { split; [done|]. right. apply (accounts_has Username) in Hin as (id & v & ? & ?); eauto. }
    apply bind_Err in Hst as [[? Hin]%unique_inv|([] & _ & Hst)]; [|done].
    split; [done|]. right. apply (accounts_has Email) in Hin as (id & v & ? & ?); eauto.
Qed.

Lemma toPgUUID_from (a : pgUUID) : Valid a = true → a = toPgUUID (fromPgUUID a).
Proof. destruct a as [x []]; [done|discriminate]. Qed.

(** The three lookups. *)
Lemma lookup_law (st : statement sqlc.User) (p : User → Prop) w r w' :
  Integrity (db w) → reads st →
  (∀ t n row d', st t n (db w) = Ok (row, d') →
     row ∈ users (db w) ∧ p (fromSqlcUser row) ∧ sqlc.User_IsDeleted row = false) →
  (∀ t n e, st t n (db w) = Err e → is_fault e ∨
     (e = pgx_ErrNoRows ∧
      ∀ row, row ∈ users (db w) → p (fromSqlcUser row) → sqlc.User_IsDeleted row = true)) →
  (r0 ← attempt (run_sql st); row ← lift (no_rows ErrNotFound r0); mret (fromSqlcUser row)) w =
    (r, w') →
  inv w' ∧ now w ≤ now w' ∧ dir w' = dir w ∧ (found (dir w) p r ∨ ∃ e, r = Err e ∧ is_fault e).
Proof.
  intros Hi Hreads Hok Herr Hr. apply M_bind_attempt_inv in Hr as (r0 & w1 & Hrun & Hr).
  apply read_inv in Hrun as [-> Hres]; [|done].
  assert (w' = tick w) as -> by (destruct (no_rows ErrNotFound r0); by m_inv Hr).
  split; [done|]. split; [apply tick_clock|]. split; [done|].
  assert (Hcases : (∃ e, is_fault e ∧ r0 = Err e) ∨ (∃ row, r0 = Ok row ∧ row ∈ users (db w) ∧
    p (fromSqlcUser row) ∧ sqlc.User_IsDeleted row = false) ∨ (r0 = Err pgx_ErrNoRows ∧
    ∀ row, row ∈ users (db w) → p (fromSqlcUser row) → sqlc.User_IsDeleted row = true)).
  { destruct Hres as [->|]; [|by left].
    destruct (st _ _ (db w)) as [[row d']|e] eqn:Hst; cbn.
    - apply Hok in Hst. right; left. by exists row.
    - apply Herr in Hst as [?|[-> ?]]; [left; by exists e|auto]. }
  destruct Hcases as [(e & He & ->)|[(row & -> & Hrow & Hp & Hdel)|[-> Hnone]]].
  - right. destruct He as [text ->]. injection Hr as <-. by eexists; split; [|eexists].
  - injection Hr as <-. left; left. exists (fromSqlcUser row). split; [done|].
    split; [|done]. cbn [dir World_View]. apply accounts_Some; [done|]. exists row.
    split; [done|]. split; [|done]. by apply toPgUUID_from, (user_Valid (db w)).
  - injection Hr as <-. left; right. split; [done|].
    intros id u (row & Hrow & _ & <-)%accounts_Some Hp; [|done]. by apply Hnone.
Qed.

(** An update of one account. *)
Lemma modify_law (st : statement unit) f g id w r w' :
  Integrity (db w) → sql_statement unit st →
  (∀ t n d a d', st t n d = Ok (a, d') →
     d' = set_users (update (λ u, uuid_eq (sqlc.User_UserID u) (toPgUUID id)) (f t)) d) →
  (∀ t row, sqlc.User_UserID (f t row) = sqlc.User_UserID row) →
  (∀ t row, fromSqlcUser (f t row) = g t (fromSqlcUser row)) →
  run_sql st w = (r, w') →
  inv w' ∧ now w ≤ now w' ∧
  ((r = Ok tt ∧ dir w' = alter (g (now w')) id (dir w)) ∨
   ∃ e, r = Err e ∧ ((∃ t n, st t n (db w) = Err e) ∨ is_fault e) ∧
     (dir w' = dir w ∨ dir w' = alter (g (now w')) id (dir w) ∧ ∃ t n a, st t n (db w) = Ok a)).
Proof.
  intros Hi Hst Hset Hid Hf Hrun.
  apply write_inv in Hrun as (Hi' & _ & _ & Hc & Hres); [|done..].
  split; [done|]. split; [cbn; rewrite Hc; apply tick_clock|].
  assert (Hstep : ∀ a, st (clock w') (calls w') (db w) = Ok (a, db w') →
    dir w' = alter (g (now w')) id (dir w)).
  { intros a Ha. apply Hset in Ha. cbn [dir World_View now]. rewrite Ha in *.
    by apply accounts_update. }
  destruct Hres as [([] & -> & Ha)|(e & -> & He & Hd)].
  - left. split; [done|]. by eapply Hstep.
  - right. exists e. split; [done|]. split; [destruct He; eauto|].
    destruct Hd as [Hd|[a Ha]]; [left|right; split; [by eapply Hstep|eauto]].
    cbn. by rewrite Hd.
Qed.

Lemma not_deleted (b1 b2 : bool) : b1 && negb b2 = false → b1 = true → b2 = true.
Proof. by destruct b1, b2. Qed.

Lemma hash_stored n p h : bcrypt_hash n p = Ok h → pg_varchar 255 h = Some h.
Proof.
  intros [Hl Ha]%bcrypt_hash_text. apply pg_varchar_fits; [by apply pg_text_ascii|]. lia.
Qed.

#[export] Instance World_Directory : Directory (World R D).
Proof.
  split.
  - intros w r w' Hi [= <- <-]. split; [done|]. split; [apply tick_clock|]. split; [done|].
    intros e He%new_v7_Err. by apply foreign_fault.
  - intros p w r w' Hi [= <- <-]. split; [done|]. split; [apply tick_clock|].
    split; [done|]. split.
    + intros h Hh. split; [by eapply bcrypt_accepts|by eapply hash_stored].
    + intros e [He|[text ->]]%bcrypt_hash_Err; [by apply foreign_fault|]. by intros text'.
  - intros id w r w' Hi. apply lookup_law; [done|apply reads_GetUserByID|..].
    + intros t n row d' (_ & Hrow & Hid & Hdel)%GetUserByID_Ok; [|done]. split; [done|].
      split; [|done]. cbn. by rewrite Hid.
    + intros t n e [Hone|(? & _ & ?)]%bind_Err; [|done]. right.
      apply one_select_Err in Hone as [-> Hnone]. split; [done|]. intros row Hrow Hid.
      apply Hnone in Hrow as Hp. apply (not_deleted _ _ Hp), uuid_eq_true.
      pose proof (user_Valid _ _ Hi Hrow) as Hv. split; [done|].
      rewrite <- Hid. by apply toPgUUID_from.
  - intros email w r w' Hi. apply lookup_law; [done|apply reads_GetUserByEmail|..].
    + by intros t n row d' (_ & _ & Hrow & He & Hdel)%GetUserByEmail_Ok.
    + intros t n e [He|(? & _ & [Hone|(? & _ & ?)]%bind_Err)]%bind_Err; [|right|done].
      { left. by eapply text_param_Err. }
      apply one_select_Err in Hone as [-> Hnone]. split; [done|]. intros row Hrow He.
      apply Hnone in Hrow as Hp. by apply (not_deleted _ _ Hp), bool_decide_eq_true.
  - intros username w r w' Hi. apply lookup_law; [done|apply reads_GetUserByUsername|..].
    + by intros t n row d' (_ & _ & Hrow & He & Hdel)%GetUserByUsername_Ok.
    + intros t n e [He|(? & _ & [Hone|(? & _ & ?)]%bind_Err)]%bind_Err; [|right|done].
      { left. by eapply text_param_Err. }
      apply one_select_Err in Hone as [-> Hnone]. split; [done|]. intros row Hrow He.
      apply Hnone in Hrow as Hp. by apply (not_deleted _ _ Hp), bool_decide_eq_true.
  - intros u w r w' Hi Hr.
    assert (∃ r0, run_sql (Queries.sql_CreateUser (Store.CreateUserParams_of u)) w = (r0, w') ∧
      r = fromSqlcUser <$> r0) as (r0 & Hrun & ->).
    { apply M_bind_inv in Hr as [(row & w1 & Hrun & Hr)|(e & Hrun & ->)].
      - injection Hr as <- <-. by exists (Ok row).
      - by exists (Err e). }
    apply write_inv in Hrun as (Hi' & _ & _ & Hc & Hres); [|constructor|done].
    split; [done|]. split; [cbn; rewrite Hc; apply tick_clock|].
    pose proof (sql_CreateUser_created u (clock w') (calls w') (db w) Hi) as Hcr.
    destruct Hres as [(row & -> & Ha)|(e & -> & He & Hd)].
    + left. by rewrite Ha in Hcr.
    + destruct (Queries.sql_CreateUser _ _ _ _) as [[row d']|e'] eqn:Hst.
      * right. exists e. split; [done|]. destruct He as [|He]; [done|]. split; [done|].
        destruct Hd as [Hd|[a [= -> ->]]]; [left; cbn; by rewrite Hd|]. right. eexists. exact Hcr.
      * destruct Hd as [Hd|[a ?]]; [|done].
        assert (Hdir : dir w' = accounts (db w)) by (cbn; by rewrite Hd).
        destruct He as [[= ->]|He].
        { left. by rewrite Hdir. }
        right. exists e. split; [done|]. split; [done|]. by left.
  - intros id w r w' Hi Hrun.
    apply (modify_law _ (λ t u, {|
      sqlc.User_UserID := sqlc.User_UserID u; sqlc.User_Name := sqlc.User_Name u;
      sqlc.User_Username := sqlc.User_Username u; sqlc.User_Password := sqlc.User_Password u;
      sqlc.User_Email := sqlc.User_Email u; sqlc.User_CreatedAt := sqlc.User_CreatedAt u;
      sqlc.User_UpdatedAt := sql_now t; sqlc.User_DeletedAt := sqlc.User_DeletedAt u;
      sqlc.User_IsDeleted := sqlc.User_IsDeleted u; sqlc.User_IsVerified := true |}) verified id)
      in Hrun as (Hi' & Hle & Hres); [|done|constructor|by intros ????? [= <- <-]|done|done].
    do 2 (split; [done|]). destruct Hres as [|(e & -> & He & Hd)]; [by left|right].
    exists e. split; [done|]. split; [by destruct He as [(? & ? & ?)|]|]. naive_solver.
  - intros id w r w' Hi Hrun.
    apply (modify_law _ (λ t u, {|
      sqlc.User_UserID := sqlc.User_UserID u; sqlc.User_Name := sqlc.User_Name u;
      sqlc.User_Username := sqlc.User_Username u; sqlc.User_Password := sqlc.User_Password u;
      sqlc.User_Email := sqlc.User_Email u; sqlc.User_CreatedAt := sqlc.User_CreatedAt u;
      sqlc.User_UpdatedAt := sql_now t; sqlc.User_DeletedAt := sql_now t;
      sqlc.User_IsDeleted := true; sqlc.User_IsVerified := sqlc.User_IsVerified u |}) deleted id)
      in Hrun as (Hi' & Hle & Hres); [|done|constructor|by intros ????? [= <- <-]|done|done].
    do 2 (split; [done|]). destruct Hres as [|(e & -> & He & Hd)]; [by left|right].
    exists e. split; [done|]. split; [by destruct He as [(? & ? & ?)|]|]. naive_solver.
  - intros id password w r w' Hi Hrun.
    destruct (varchar 255 password) as [pw|e0] eqn:Hpw.
    + apply varchar_Ok in Hpw as Hstored.
      set (arg := {| Queries.UpdateUserPassword_UserID := toPgUUID id;
                     Queries.UpdateUserPassword_Password := password |}).
      set (f := λ t u, {|
        sqlc.User_UserID := sqlc.User_UserID u; sqlc.User_Name := sqlc.User_Name u;
        sqlc.User_Username := sqlc.User_Username u; sqlc.User_Password := pw;
        sqlc.User_Email := sqlc.User_Email u; sqlc.User_CreatedAt := sqlc.User_CreatedAt u;
        sqlc.User_UpdatedAt := sql_now t; sqlc.User_DeletedAt := sqlc.User_DeletedAt u;
        sqlc.User_IsDeleted := sqlc.User_IsDeleted u;
        sqlc.User_IsVerified := sqlc.User_IsVerified u |}).
      assert (Hset : ∀ t n d, Queries.sql_UpdateUserPassword arg t n d =
        Ok (tt, set_users (update (λ u, uuid_eq (sqlc.User_UserID u) (toPgUUID id)) (f t)) d)).
      { intros t n d. unfold Queries.sql_UpdateUserPassword. cbn. by rewrite Hpw. }
      destruct (modify_law (Queries.sql_UpdateUserPassword arg) f (with_password pw) id w r w')
        as (Hi' & Hle & Hres); [done|constructor| |done|done|exact Hrun|].
      { intros t n d a d'. rewrite Hset. by intros [= <- <-]. }
      do 2 (split; [done|]). destruct Hres as [[-> Hd]|(e & -> & He & Hd)]; [left; by exists pw|right].
      exists e. split; [done|]. split.
      * destruct He as [(t & n & He)|]; [|done]. by rewrite Hset in He.
      * destruct Hd as [|[Hd _]]; [by left|right; by exists pw].
    + apply write_inv in Hrun as (Hi' & _ & _ & Hc & Hres); [|constructor|done].
      split; [done|]. split; [cbn; rewrite Hc; apply tick_clock|]. right.
      apply varchar_Err in Hpw as Hf. unfold Queries.sql_UpdateUserPassword in Hres. cbn in Hres.
      rewrite Hpw in Hres. destruct Hres as [(? & _ & ?)|(e & -> & He & Hd)]; [done|].
      exists e. split; [done|]. split; [destruct He as [[= <-]|]; [apply Hf|done]|].
      destruct Hd as [Hd|[? ?]]; [|done]. left. cbn. by rewrite Hd.
Qed.
End store.

(** ** A registration, and a second one with the same names *)

Module Demo.
Import Sim.

(** The hash of this instance is a tag before the password, cut or filled to 60
    characters; it is injective on passwords of at most 56 characters. *)
Definition demo_hash (p : string) : string := str (take 60 (unstr ("$2a$" +:+ p) ++ replicate 60 "."%char)).

#[export] Instance demo_bcrypt : Bcrypt := {|
  bcrypt_hash _ p :=
    if forallb (λ c, (0 <? byte_val c) && (byte_val c <? 128)) (unstr p)
    then Ok (demo_hash p) else Err (errors_New "bcrypt" "password");
  bcrypt_CompareHashAndPassword h p :=
    if bool_decide (h = demo_hash p) then None else Some bcrypt_ErrMismatchedHashAndPassword;
|}.

Lemma demo_hash_text p :
  forallb (λ c, (0 <? byte_val c) && (byte_val c <? 128)) (unstr p) = true →
  String.length (demo_hash p) = 60%nat ∧ Forall (λ c, 0 < byte_val c < 128) (unstr (demo_hash p)).
Proof.
  intros Hp. unfold demo_hash. rewrite <- unstr_length, unstr_str. split.
  - rewrite length_take, length_app, length_replicate. lia.
  - apply Forall_take, Forall_app. split; [|by apply Forall_replicate].
    rewrite unstr_app. apply Forall_app. split; [by repeat constructor|].
    apply Forall_forall. intros c Hc%list_elem_of_In. rewrite forallb_forall in Hp.
    apply Hp in Hc. by rewrite andb_true_iff, !Z.ltb_lt in Hc.
Qed.

#[export] Instance demo_bcrypt_laws : BcryptLaws.
Proof.
  split; cbn; intros n p; destruct (forallb _ (unstr p)) eqn:Hp; try done.
  - intros h [= <-]. by rewrite bool_decide_true.
  - intros e [= <-]. right. by eexists.
  - intros h [= <-]. by apply demo_hash_text.
Qed.

Definition ada_input : RegisterInput := {|
  in_Name := "Ada"; in_Username := "ada"; in_Password := "correct horse";
  in_Email := "ada@example.org" |}.

Abbreviation W := (World (gmap string (string * Z)) unit).

Definition w0 : W := mkWorld empty_Database ∅ tt 0 0.
Definition w1 : W := (Register ada_input w0).2.

Lemma empty_inv : inv w0.
Proof. exact Integrity_empty. Qed.

Lemma registered_user_is_found_witness :
  ∃ u, (Register ada_input w0).1 = Ok u ∧ VerifyPassword (Password u) "correct horse" = None ∧
  dir w1 = <[ID u := u]> ∅.
Proof.
  destruct (Register ada_input w0).1 as [u|e] eqn:Hu; [|vm_compute in Hu; discriminate Hu].
  exists u. split; [reflexivity|].
  destruct (registered_user_is_found ada_input w0 u w1) as (_ & Hd & Hv & _).
  - apply empty_inv.
  - apply run_eq. exact Hu.
  - split; [exact Hv|exact Hd].
Defined.

Lemma Register_refuses_live_names_witness :
  ∃ e, (Register ada_input w1).1 = Err e ∧ (e = ErrEmailTaken ∨ foreign e).
Proof.
  assert (Hi : inv w1).
  { by destruct (Register_inv ada_input w0 _ w1 empty_inv (run_eq _ _ _ eq_refl)). }
  destruct (Register ada_input w1) as [r w] eqn:Hr.
  destruct (Register_refuses_live_names ada_input w1 r w Hi Hr) as (Hlive & _).
  destruct Hlive as [_ He]; [|exact He].
  destruct (Register ada_input w0).1 as [u|e] eqn:Hu; [|vm_compute in Hu; discriminate Hu].
  apply run_eq, Register_inv in Hu as (_ & _ & _ & _ & Hm & _ & Hdel & _ & _ & Hd);
    [|apply empty_inv].
  exists (ID u), u. split; [|split; [|exact Hdel]].
  - unfold w1. rewrite Hd. apply lookup_insert_eq.
  - cbn in Hm. by injection Hm as <-.
Defined.
End Demo.
End user.
