(* ===== verification/Totp.v ===== *)
(** One-time passwords: [internal/modules/session/totp.go].  The codes
    themselves, [github.com/pquerna/otp], are a parameter. *)

From S2P Require Import Prelude.
From S2P Require Import Platform.
From S2P Require Import Database.
From S2P Require Import World.
From S2P Require Import RedisStore.

(** ** [github.com/pquerna/otp/totp]

    [totp_Generate] draws a secret for the [n]-th call and gives it with its
    URL; [totp_Validate] checks a code at a time. *)
Class Totp := {
  totp_Generate : nat → string → string → result (string * string);
  totp_Validate : Z → string → string → bool;
}.

Module totp.

Definition totpTTL : Z := 5 * Minute.

Class TOTPStore (S : Type) := {
  store_SetTOTPSecret : string → string → Z → M S unit;
  store_GetTOTPSecret : string → M S string;
  store_DeleteTOTPSecret : string → M S unit;
}.

(** Drawing a secret; the code check reads the clock. *)
Class TotpLib (S : Type) := {
  lib_Generate : string → string → M S (string * string);
  lib_Validate : string → string → M S bool;
}.

Record TOTPSetupResult := { Secret : string; URL : string }.

Section service.
Context {S : Type} `{TOTPStore S} `{TotpLib S}.

(** The [issuer] of the [TOTPService]. *)
Context (issuer : string).

Definition Setup (userID accountName : string) : M S TOTPSetupResult :=
  '(secret, url) ← mwrap "generate totp: " (lib_Generate issuer accountName);
  mwrap "store totp secret: " (store_SetTOTPSecret userID secret totpTTL);;
  mret {| Secret := secret; URL := url |}.

(** A failure to delete the secret is only logged. *)
Definition Verify (userID code : string) : M S bool :=
  secret ← mwrap "get totp secret: " (store_GetTOTPSecret userID);
  valid ← lib_Validate code secret;
  (if valid : bool then attempt (store_DeleteTOTPSecret userID);; mret tt else mret tt);;
  mret valid.
End service.

#[export] Instance RedisStore_TOTPStore {S} `{RedisClient S} : TOTPStore S := {|
  store_SetTOTPSecret := store.SetTOTPSecret;
  store_GetTOTPSecret := store.GetTOTPSecret;
  store_DeleteTOTPSecret := store.DeleteTOTPSecret;
|}.

#[export] Instance World_TotpLib {R D} `{Oracle} `{Totp} : TotpLib (World R D) := {|
  lib_Generate issuer account w := (totp_Generate (calls w) issuer account, tick w);
  lib_Validate code secret w := (Ok (totp_Validate (clock w) code secret), w);
|}.

Section theorems.
Context {R D : Type} `{RedisLaws R} `{!Oracle} `{!Totp}.
Implicit Types (w : World R D) (u : string).

Lemma Setup_Ok issuer u account w res w' :
  Setup issuer u account w = (Ok res, w') →
  db w' = db w ∧ clock w ≤ clock w' ∧
  (∀ τ, clock w' ≤ τ → τ + Millisecond ≤ clock w' + totpTTL →
     store.holds w' τ (store.Totp u) = Some (Secret res)) ∧
  (∀ τ, clock w' + totpTTL + Millisecond ≤ τ → store.holds w' τ (store.Totp u) = None) ∧
  (∀ τ k, k ≠ store.Totp u → store.holds w' τ k = store.holds w τ k).
Proof.
  intros Hr. unfold Setup in Hr.
  apply M_bind_inv in Hr as [([secret url] & w1 & Hgen & Hr)|(e & _ & ?)]; [|done].
  apply M_mwrap_inv in Hgen as (r0 & Hgen & Hr0). symmetry in Hr0. apply wrap_err_Ok in Hr0 as ->.
  cbn in Hgen. injection Hgen as Hgen <-.
  m_inv Hr. apply (store.Set_inv (store.Totp u)) in Hcall as (Hdb & _ & Hc & Hne & Hk); [|done].
  destruct Hk as [[? _]|(Hlive & Hdead & _)]; [done|].
  split; [done|]. split; [rewrite Hc; cbn; lia|]. split; [exact Hlive|]. split; [exact Hdead|].
  exact Hne.
Qed.

(** Checking a code reads the secret, and deletes it when the code is right. *)
Lemma Verify_inv u code w r w' :
  Verify u code w = (r, w') →
  db w' = db w ∧ clock w ≤ clock w' ∧
  (∀ τ k, k ≠ store.Totp u → store.holds w' τ k = store.holds w τ k) ∧
  match r with
  | Ok valid => ∃ secret τ, clock w ≤ τ ≤ clock w' ∧
      store.holds w τ (store.Totp u) = Some secret ∧ valid = totp_Validate τ code secret ∧
      (valid = false → redis w' = redis w)
  | Err _ => redis w' = redis w
  end.
Proof.
  intros Hr. unfold Verify in Hr. apply M_bind_inv in Hr as [(secret & w1 & Hget & Hr)|(e & Hget & ->)].
  - apply M_mwrap_inv in Hget as (r0 & Hget & Hr0). symmetry in Hr0. apply wrap_err_Ok in Hr0 as ->.
    apply (store.Get_inv (store.Totp u)) in Hget as [-> [Hg|(e & _ & ?)]]; [|done].
    destruct (store.holds _ _ _) as [secret'|] eqn:Hh; [injection Hg as <-|done].
    apply M_bind_inv in Hr as [(valid & w2 & Hval & Hr)|(e & Hval & _)]; [|done].
    injection Hval as Hv <-. destruct valid.
    + m_inv Hr. apply (store.Del_inv (store.Totp u)) in Hcall0 as (Hdb & _ & Hc & Hne & _).
      split; [done|]. split; [rewrite Hc; cbn; lia|]. split; [exact Hne|].
      exists secret, (clock (tick w)). split; [rewrite Hc; cbn; lia|done].
    + m_inv Hr. split; [done|]. split; [cbn; lia|]. split; [done|].
      exists secret, (clock (tick w)). split; [cbn; lia|done].
  - apply M_mwrap_inv in Hget as (r0 & Hget & _).
    apply (store.Get_inv (store.Totp u)) in Hget as [-> _]. split; [done|]. split; [cbn; lia|done].
Qed.

Context `{!FaultFree}.

Lemma Verify_up u code w secret :
  store.holds w (clock (tick w)) (store.Totp u) = Some secret →
  (Verify u code w).1 = Ok (totp_Validate (clock (tick w)) code secret) ∧
  (totp_Validate (clock (tick w)) code secret = true →
   ∀ τ, store.holds (Verify u code w).2 τ (store.Totp u) = None).
Proof.
  intros Hh. destruct (Verify u code w) as [r w'] eqn:Hr. unfold Verify in Hr.
  unfold mbind at 1, M_bind at 1, mwrap in Hr.
  assert (Hget : store_GetTOTPSecret u w = (Ok secret, tick w)).
  { pose proof (store.Get_FaultFree (store.Totp u) w) as Hg. by rewrite Hh in Hg. }
  rewrite Hget in Hr. cbn [wrap_err] in Hr.
  apply M_bind_inv in Hr as [(valid & w2 & Hval & Hr)|(e & Hval & _)]; [|done].
  injection Hval as Hv <-. change (totp_Validate (clock (tick w)) code secret = valid) in Hv.
  rewrite Hv. destruct valid; m_inv Hr; cbn [fst snd]; [|done].
  split; [done|]. intros _.
  pose proof (store.Del_FaultFree (store.Totp u) (tick w)) as Hdel.
  match goal with Hc : _ = (?r1, _) |- _ =>
    assert (r1 = Ok tt) as -> by (etrans; [|exact Hdel]; exact (f_equal fst (eq_sym Hc)));
    apply (store.Del_inv (store.Totp u)) in Hc as (_ & _ & _ & _ & [[? _]|]); done end.
Qed.

Lemma Verify_gone u code w :
  store.holds w (clock (tick w)) (store.Totp u) = None → ∃ e, (Verify u code w).1 = Err e.
Proof.
  intros Hh. destruct (Verify u code w) as [[v|e] w'] eqn:Hr; [|by exists e].
  unfold Verify in Hr. unfold mbind at 1, M_bind at 1, mwrap in Hr.
  pose proof (store.Get_FaultFree (store.Totp u) w) as Hg. rewrite Hh in Hg.
  assert (Hget : store_GetTOTPSecret u w = (Err redis_Nil, tick w)) by exact Hg.
  rewrite Hget in Hr. done.
Qed.

(** C27: With Redis up, a verification less than five minutes after Setup answers
    whether the code is valid for the new secret at the moment it is made; after a valid
    code every verification fails in any later state whose Redis holds no secret of the
    user that was not held after that code, whatever else was written, so until a new
    setup; and after an invalid one the secret is still there. *)
Theorem totp_code_works_once issuer u account w res w1 code r w2 :
  Setup issuer u account w = (Ok res, w1) → Verify u code w1 = (r, w2) →
  clock w2 + Millisecond ≤ clock w1 + totpTTL →
  (∃ τ, clock w1 ≤ τ ≤ clock w2 ∧ r = Ok (totp_Validate τ code (Secret res))) ∧
  (r = Ok true → ∀ w3, (∀ τ s, store.holds w3 τ (store.Totp u) = Some s → ∃ τ', store.holds w2 τ' (store.Totp u) = Some s) →
     ∀ code' r' w4, Verify u code' w3 = (r', w4) → ∃ e, r' = Err e) ∧
  (r = Ok false → ∀ τ, store.holds w2 τ (store.Totp u) = store.holds w1 τ (store.Totp u)).
Proof.
  intros (_ & _ & Hlive & _)%Setup_Ok Hv Hτ.
  pose proof (Verify_inv _ _ _ _ _ Hv) as (_ & _ & _ & Hres).
  assert (Hle : clock (tick w1) ≤ clock w2).
  { unfold Verify in Hv. apply M_bind_inv in Hv as [(s & w3 & Hget & Hv)|(e & Hget & _)];
      apply M_mwrap_inv in Hget as (r0 & Hget & _);
      apply (store.Get_inv (store.Totp u)) in Hget as [-> _]; [|done].
    apply M_bind_inv in Hv as [(valid & w3 & Hval & Hv)|(e & Hval & _)]; [|done].
    injection Hval as _ <-. destruct valid; m_inv Hv; [|done].
    apply (store.Del_inv (store.Totp u)) in Hcall0 as (_ & _ & -> & _). apply tick_clock. }
  pose proof (tick_clock w1) as Ht.
  assert (Hh : store.holds w1 (clock (tick w1)) (store.Totp u) = Some (Secret res)) by (apply Hlive; lia).
  destruct (Verify_up u code w1 (Secret res) Hh) as [Hok Hgone]. rewrite Hv in Hok, Hgone. cbn in Hok, Hgone.
  split; [|split].
  - exists (clock (tick w1)). split; [lia|done].
  - intros -> w3 Hsince code' r' w4 Hv'. injection Hok as Hok.
    destruct (Verify_gone u code' w3) as [e He]; [|exists e; by rewrite Hv' in He].
    destruct (store.holds w3 _ _) as [s|] eqn:Hs; [|done]. apply Hsince in Hs as [τ' Hs].
    by rewrite Hgone in Hs.
  - intros -> τ. destruct Hres as (s & τ' & _ & _ & _ & Hsame). unfold store.holds. by rewrite Hsame.
Qed.
End theorems.

Module Demo.
Import Sim.

(** Codes that are the secret itself. *)
#[export] Instance demo_totp : Totp := {|
  totp_Generate n issuer account := Ok ("JBSWY3DP", "otpauth://totp/" +:+ account)%string;
  totp_Validate _ code secret := bool_decide (code = secret);
|}.

Abbreviation W := (World (gmap string (string * Z)) unit).

Definition w0 : W := mkWorld empty_Database ∅ tt 0 0.
Definition w1 : W := (Setup "gitfed" "ada" "ada" w0).2.
Definition w2 : W := (Verify "ada" "JBSWY3DP" w1).2.

(** Somebody else sets up a secret in between. *)
Definition w3 : W := (Setup "gitfed" "bob" "bob" w2).2.

Lemma bob_apart τ s : store.holds w3 τ (store.Totp "ada") = Some s → ∃ τ', store.holds w2 τ' (store.Totp "ada") = Some s.
Proof.
  intros Hs. exists τ. rewrite <- Hs. symmetry.
  destruct (Setup "gitfed" "bob" "bob" w2) as [[res|e] w] eqn:Hw; [|by vm_compute in Hw].
  assert (w3 = w) as -> by (unfold w3; by rewrite Hw).
  apply Setup_Ok in Hw as (_ & _ & _ & _ & Hother). by apply Hother.
Qed.

Lemma totp_code_works_once_witness :
  (Verify "ada" "JBSWY3DP" w1).1 = Ok true ∧ ∃ e, (Verify "ada" "JBSWY3DP" w3).1 = Err e.
Proof.
  destruct (totp_code_works_once "gitfed" "ada" "ada" w0
    {| Secret := "JBSWY3DP"; URL := "otpauth://totp/ada" |} w1 "JBSWY3DP" (Ok true) w2)
    as ((τ & _ & Hr) & Hagain & _).
  - apply run_eq. vm_compute. reflexivity.
  - apply run_eq. vm_compute. reflexivity.
  - vm_compute. discriminate.
  - split; [vm_compute; reflexivity|].
    apply (Hagain eq_refl w3 bob_apart "JBSWY3DP"%string _ (Verify "ada" "JBSWY3DP" w3).2).
    by apply run_eq.
Defined.
End Demo.
End totp.
