(* ===== verification/Sso.v ===== *)
(** Signing in with Google: [internal/modules/sso/].  The OAuth 2 client and
    the decoding of Google's answer are parameters. *)

From stdpp Require Import pretty.
From S2P Require Import Prelude.
From S2P Require Import Bytes.
From S2P Require Import Platform.
From S2P Require Import Database.
From S2P Require Import Integrity.
From S2P Require Import World.
From S2P Require Import RedisStore.

Module sso.

(** ** domain.go *)

Definition Provider : Type := string.
Definition ProviderGoogle : Provider := "google".
Definition ProviderLocal : Provider := "local".
Definition ProviderQoppaTech : Provider := "qoppatech".

Definition ErrProviderNotFound : error := errors_New "sso" "sso provider record not found".
Definition ErrInvalidState : error := errors_New "sso" "invalid oauth state".

Record Record_ := {
  ID : UUID;
  UserID : UUID;
  Name : string;
  Provider_ : Provider;
  Username : string;
  ActivatedAt : Z;
  CreatedAt : Z;
}.

Record GoogleUserInfo := { Sub : string; Email : string; InfoName : string }.

Record GoogleConfig := { ClientID : string; ClientSecret : string; RedirectURL : string }.

(** ** [golang.org/x/oauth2], Google's endpoints and [encoding/json] *)

Record oauth2_Config := {
  cfg_ClientID : string;
  cfg_ClientSecret : string;
  cfg_RedirectURL : string;
  cfg_Scopes : list string;
}.

Class OAuth := {
  oauth_AuthCodeURL : oauth2_Config → string → string;
  oauth_Exchange : nat → oauth2_Config → string → result string;
  oauth_Userinfo : nat → oauth2_Config → string → result (Z * string);
  json_GoogleUserInfo : string → result GoogleUserInfo;
}.

Class OAuthClient (S : Type) := {
  client_Exchange : oauth2_Config → string → M S string;
  client_Userinfo : oauth2_Config → string → M S (Z * string);
}.

#[export] Instance World_OAuthClient {R D} `{Oracle} `{OAuth} : OAuthClient (World R D) := {|
  client_Exchange cfg code w := (oauth_Exchange (calls w) cfg code, tick w);
  client_Userinfo cfg token w := (oauth_Userinfo (calls w) cfg token, tick w);
|}.

(** ** repository.go *)

Class Repository (S : Type) := {
  repo_Create : Record_ → M S Record_;
  repo_GetByProviderAndUsername : Provider → string → M S Record_;
  repo_GetByUserID : UUID → M S (list Record_);
  repo_Delete : UUID → M S unit;
}.

Class StateStore (S : Type) := {
  states_SetOAuthState : string → Z → M S unit;
  states_GetOAuthState : string → M S bool;
  states_DeleteOAuthState : string → M S unit;
}.

(** ** service.go *)

Definition NewService (gcfg : GoogleConfig) : oauth2_Config := {|
  cfg_ClientID := ClientID gcfg; cfg_ClientSecret := ClientSecret gcfg;
  cfg_RedirectURL := RedirectURL gcfg;
  cfg_Scopes := ["openid"; "email"; "profile"]%string |}.

Definition oauthStateTTL : Z := 10 * Minute.

Section service.
Context {S : Type} `{Repository S} `{StateStore S} `{Entropy S} `{Uuid} `{OAuth} `{OAuthClient S}.

(** The [googleOAuth] of the [Service]. *)
Context (googleOAuth : oauth2_Config).

Definition GoogleAuthURL : M S string :=
  id ← uuid_New;
  let state := uuid_String id in
  mwrap "store oauth state: " (states_SetOAuthState state oauthStateTTL);;
  mret (oauth_AuthCodeURL googleOAuth state).

Definition GoogleCallback (state code : string) : M S GoogleUserInfo :=
  valid ← mwrap "check oauth state: " (states_GetOAuthState state);
  if negb valid then fail ErrInvalidState
  else
    attempt (states_DeleteOAuthState state);;
    token ← mwrap "oauth exchange: " (client_Exchange googleOAuth code);
    '(status, body) ← mwrap "fetch userinfo: " (client_Userinfo googleOAuth token);
    if negb (status =? 200) then
      fail (fmt_Errorf ("userinfo response " +:+ pretty status +:+ ": " +:+ body))
    else mwrap "decode userinfo: " (lift (json_GoogleUserInfo body)).

Definition FindOrCreateSSO (userID : UUID) (provider : Provider) (name username : string) :
    M S Record_ :=
  r ← attempt (repo_GetByProviderAndUsername provider username);
  match r with
  | Ok existing => mret existing
  | Err e =>
      if errors_Is e ErrProviderNotFound then
        id ← mwrap "generate uuid: " uuid_NewV7;
        mwrap "create sso: " (repo_Create {|
          ID := id; UserID := userID; Name := name; Provider_ := provider;
          Username := username; ActivatedAt := zero_Time; CreatedAt := zero_Time |})
      else fail (fmt_Errorf_w "lookup sso: " e EmptyString)
  end.

Definition GetByUserID (userID : UUID) : M S (list Record_) := repo_GetByUserID userID.
End service.

(** ** store.go *)

Definition fromSqlcSSO (s : sqlc.SsoProvider) : Record_ := {|
  ID := fromPgUUID (sqlc.Sso_SsoID s); UserID := fromPgUUID (sqlc.Sso_UserID s);
  Name := sqlc.Sso_Name s; Provider_ := sqlc.Sso_Provider s;
  Username := Text_String (sqlc.Sso_Username s); ActivatedAt := Time (sqlc.Sso_ActivatedAt s);
  CreatedAt := Time (sqlc.Sso_CreatedAt s) |}.

Module PGStore.
Section store.
Context {S : Type} `{Postgres} `{DBTX S}.

Definition Create (r : Record_) : M S Record_ :=
  row ← Queries.CreateSSO {|
    Queries.CreateSSO_SsoID := toPgUUID (ID r); Queries.CreateSSO_UserID := toPgUUID (UserID r);
    Queries.CreateSSO_Name := Name r; Queries.CreateSSO_Provider := Provider_ r;
    Queries.CreateSSO_Username := optional_Text (Username r) |};
  mret (fromSqlcSSO row).

Definition GetByProviderAndUsername (provider : Provider) (username : string) : M S Record_ :=
  r ← attempt (Queries.GetSSOByProviderAndUsername {|
    Queries.GetSSO_Provider := provider; Queries.GetSSO_Username := optional_Text username |});
  row ← lift (no_rows ErrProviderNotFound r);
  mret (fromSqlcSSO row).

Definition GetByUserID (userID : UUID) : M S (list Record_) :=
  rows ← Queries.GetSSOByUserID (toPgUUID userID);
  mret (fromSqlcSSO <$> rows).

Definition Delete (id : UUID) : M S unit := Queries.DeleteSSO (toPgUUID id).
End store.
End PGStore.

#[export] Instance PGStore_Repository {S} `{Postgres} `{DBTX S} : Repository S := {|
  repo_Create := PGStore.Create;
  repo_GetByProviderAndUsername := PGStore.GetByProviderAndUsername;
  repo_GetByUserID := PGStore.GetByUserID;
  repo_Delete := PGStore.Delete;
|}.

(** [RedisStateStore] hands every operation to [store.RedisStore]. *)
#[export] Instance RedisStateStore {S} `{RedisClient S} : StateStore S := {|
  states_SetOAuthState := store.SetOAuthState;
  states_GetOAuthState := store.GetOAuthState;
  states_DeleteOAuthState := store.DeleteOAuthState;
|}.

(** ** The state of an authorization is used once *)

Section states.
Context {R D : Type} `{RedisLaws R} `{!Oracle} `{!FaultFree} `{!Uuid} `{!OAuth} `{!Postgres}.
Implicit Types (w : World R D) (cfg : oauth2_Config).

Definition state_held w (state : string) : bool :=
  match store.holds w (clock (tick w)) (store.OAuth state) with Some _ => true | None => false end.

Lemma GetOAuthState_FaultFree state w :
  store.GetOAuthState state w = (Ok (state_held w state), tick w).
Proof.
  unfold store.GetOAuthState, state_held.
  pose proof (store.Get_FaultFree (store.OAuth state) w) as Hg.
  assert (client_Get (store.oauthStateKey state) w = (match
    store.holds w (clock (tick w)) (store.OAuth state) with
    | Some v => Ok v | None => Err redis_Nil end, tick w)) as -> by exact Hg.
  destruct (store.holds _ _ _); [done|]. by rewrite bool_decide_true.
Qed.

(** An unknown state is refused before anything else is done. *)
Lemma GoogleCallback_unknown cfg state code w :
  state_held w state = false → GoogleCallback cfg state code w = (Err ErrInvalidState, tick w).
Proof.
  intros Hh. unfold GoogleCallback, mbind at 1, M_bind at 1, mwrap. cbn [states_GetOAuthState RedisStateStore].
  by rewrite GetOAuthState_FaultFree, Hh.
Qed.

(** A known state is deleted, whatever Google answers. *)
Lemma GoogleCallback_known cfg state code w r w' :
  state_held w state = true → GoogleCallback cfg state code w = (r, w') →
  r ≠ Err ErrInvalidState ∧ db w' = db w ∧ ∀ τ, store.holds w' τ (store.OAuth state) = None.
Proof.
  intros Hh Hr. unfold GoogleCallback in Hr. unfold mbind at 1, M_bind at 1, mwrap at 1 in Hr.
  cbn [states_GetOAuthState RedisStateStore] in Hr.
  rewrite GetOAuthState_FaultFree, Hh in Hr. cbn [wrap_err negb] in Hr.
  apply M_bind_attempt_inv in Hr as (r0 & w1 & Hdel & Hr).
  assert (db w1 = db w ∧ ∀ τ, store.holds w1 τ (store.OAuth state) = None) as [Hdb Hgone].
  { pose proof (store.Del_FaultFree (store.OAuth state) (tick w)) as Hok.
    assert (r0 = Ok tt) as -> by (etrans; [|exact Hok]; exact (f_equal fst (eq_sym Hdel))).
    by apply (store.Del_inv (store.OAuth state)) in Hdel as (? & _ & _ & _ & [[? _]|]). }
  apply M_bind_inv in Hr as [(token & w2 & He & Hr)|(e & He & ->)];
    apply M_mwrap_inv in He as (r1 & He & Hr1); injection He as _ <-; [|by apply wrap_err_Err in Hr1 as (e' & _ & ->)].
  apply M_bind_inv in Hr as [([status body] & w2 & He & Hr)|(e & He & ->)];
    apply M_mwrap_inv in He as (r2 & He & Hr2); injection He as _ <-; [|by apply wrap_err_Err in Hr2 as (e' & _ & ->)].
  destruct (negb (status =? 200)); [by injection Hr as <- <-|].
  apply M_mwrap_inv in Hr as (r3 & Hr & ->). injection Hr as _ <-.
  by destruct r3.
Qed.

(** With Redis up, the state in an authorization URL is accepted by a callback for ten
    minutes, after which it is refused with ErrInvalidState; the first callback with it
    consumes it, whatever Google answers, so every later one is refused. *)
Theorem oauth_state_used_once cfg w url w1 :
  GoogleAuthURL cfg w = (Ok url, w1) →
  ∃ state, url = oauth_AuthCodeURL cfg state ∧
  (∀ code w2, redis w2 = redis w1 → clock w1 ≤ clock w2 →
     (clock (tick w2) + Millisecond ≤ clock w1 + oauthStateTTL →
        ∀ r w3, GoogleCallback cfg state code w2 = (r, w3) →
        r ≠ Err ErrInvalidState ∧
        ∀ code' w4, redis w4 = redis w3 →
          GoogleCallback cfg state code' w4 = (Err ErrInvalidState, tick w4)) ∧
     (clock w1 + oauthStateTTL + Millisecond ≤ clock w2 →
        GoogleCallback cfg state code w2 = (Err ErrInvalidState, tick w2))).
Proof.
  intros Hr. unfold GoogleAuthURL in Hr.
  apply M_bind_inv in Hr as [(id & w0 & Hnew & Hr)|(e & Hnew & _)]; [|done].
  injection Hnew as _ <-. m_inv Hr. exists (uuid_String id). split; [done|].
  apply (store.Set_inv (store.OAuth (uuid_String id))) in Hcall
    as (_ & _ & _ & _ & [[? _]|(Hlive & Hdead & _)]); [done| |done].
  intros code w2 Hredis Hle. pose proof (tick_clock w2) as Ht. split.
  - intros Hτ r w3 Hcb. assert (Hheld : state_held w2 (uuid_String id) = true).
    { unfold state_held. unfold store.holds in Hlive |- *. rewrite Hredis, Hlive; [done|lia|lia]. }
    apply GoogleCallback_known in Hcb as (Hne & _ & Hgone); [|done]. split; [done|].
    intros code' w4 Hw4. apply GoogleCallback_unknown. unfold state_held, store.holds in *.
    by rewrite Hw4, Hgone.
  - intros Hτ. apply GoogleCallback_unknown. unfold state_held, store.holds in *.
    rewrite Hredis, Hdead by lia. done.
Qed.
End states.

(** ** A provider's account is linked once *)

Section links.
Context {R D : Type} `{PostgresLaws} `{!Oracle} `{!Redis R} `{!FaultFree}.
Implicit Types (w : World R D) (d : Database) (p un : string).

Definition linked d p un : Prop :=
  ∃ s, s ∈ sso_providers d ∧ sqlc.Sso_Provider s = p ∧
       sqlc.Sso_Username s = {| Text_String := un; Text_Valid := true |}.

(** The text is stored and compared as it is. *)
Definition plain (n : Z) (s : string) : Prop := pg_varchar n s = Some s.

Lemma plain_text n s : plain n s → text_param s = Ok tt.
Proof. intros Hs. unfold text_param. by rewrite (pg_varchar_text _ _ _ Hs). Qed.

Lemma optional_Text_ne un :
  un ≠ EmptyString → optional_Text un = {| Text_String := un; Text_Valid := true |}.
Proof. intros Hne. unfold optional_Text. by rewrite bool_decide_false. Qed.

Lemma text_eq_true a un :
  text_eq a {| Text_String := un; Text_Valid := true |} = true ↔
  a = {| Text_String := un; Text_Valid := true |}.
Proof.
  unfold text_eq. destruct a as [s []]; cbn; [|naive_solver].
  rewrite bool_decide_eq_true. naive_solver.
Qed.

Lemma GetByProviderAndUsername_linked p un w r w' :
  plain 50 p → plain 255 un → un ≠ EmptyString →
  repo_GetByProviderAndUsername p un w = (r, w') →
  w' = tick w ∧
  ((∃ rec, r = Ok rec ∧ Provider_ rec = p ∧ Username rec = un ∧ linked (db w) p un) ∨
   (r = Err ErrProviderNotFound ∧ ¬ linked (db w) p un)).
Proof.
  intros Hp Hun Hne Hr. cbn in Hr. unfold PGStore.GetByProviderAndUsername in Hr.
  rewrite optional_Text_ne in Hr by done.
  apply M_bind_attempt_inv in Hr as (r0 & w1 & Hrun & Hr).
  unfold Queries.GetSSOByProviderAndUsername in Hrun. rewrite run_sql_FaultFree in Hrun.
  unfold Queries.sql_GetSSOByProviderAndUsername in Hrun. cbn in Hrun.
  rewrite (plain_text _ _ Hp), (plain_text _ _ Hun) in Hrun. cbn [mbind result_bind] in Hrun.
  destruct (one _) as [row|e] eqn:Hone; injection Hrun as <- <-.
  - injection Hr as <- <-. split; [done|]. left. exists (fromSqlcSSO row).
    apply one_Ok in Hone. assert (Hin : row ∈ select (Datatypes.S (calls w))
      (λ s, bool_decide (sqlc.Sso_Provider s = p) &&
            text_eq (sqlc.Sso_Username s) {| Text_String := un; Text_Valid := true |})
      (sso_providers (db w))).
    { destruct (select _ _ _); [done|]. injection Hone as ->. apply list_elem_of_here. }
    apply elem_of_select in Hin as [[Hpr%bool_decide_eq_true Hu%text_eq_true]%andb_prop Hin].
    split; [done|]. split; [done|]. split; [cbn; by rewrite Hu|]. by exists row.
  - apply one_select_Err in Hone as [-> Hnone]. injection Hr as <- <-. split; [done|].
    right. split; [done|]. intros (s & Hs & Hpr & Hu). apply Hnone in Hs.
    by rewrite bool_decide_true, (proj2 (text_eq_true _ _) Hu) in Hs.
Qed.

Lemma sql_CreateSSO_linked id u name p un now n d row d' :
  plain 50 p → plain 255 un → un ≠ EmptyString →
  Queries.sql_CreateSSO {|
    Queries.CreateSSO_SsoID := id; Queries.CreateSSO_UserID := u; Queries.CreateSSO_Name := name;
    Queries.CreateSSO_Provider := p; Queries.CreateSSO_Username := optional_Text un |} now n d =
    Ok (row, d') →
  sqlc.Sso_Provider row = p ∧
  sqlc.Sso_Username row = {| Text_String := un; Text_Valid := true |} ∧ row ∈ sso_providers d'.
Proof.
  intros Hp Hun Hne Hst. rewrite optional_Text_ne in Hst by done.
  unfold_statement Hst. cbn in Hst. unfold varchar_null, varchar in Hst. cbn in Hst.
  rewrite (plain_text _ _ Hp), (plain_text _ _ Hun), Hp, Hun in Hst. cbn in Hst. statement_inv Hst.
  split; [done|]. split; [done|]. apply elem_of_app. right. by apply list_elem_of_singleton.
Qed.

(** FindOrCreateSSO returns a record of the provider and username it was given, and any
    later call with the two, for any user, succeeds with such a record and leaves the
    database as it is. *)
Theorem FindOrCreateSSO_links_once u p name un w rec w1 :
  plain 50 p → plain 255 un → un ≠ EmptyString →
  FindOrCreateSSO u p name un w = (Ok rec, w1) →
  Provider_ rec = p ∧ Username rec = un ∧
  ∀ u' name' w2 r w3, db w2 = db w1 → FindOrCreateSSO u' p name' un w2 = (r, w3) →
    db w3 = db w1 ∧ ∃ rec', r = Ok rec' ∧ Provider_ rec' = p ∧ Username rec' = un.
Proof.
  intros Hp Hun Hne Hr.
  assert (Hlink : Provider_ rec = p ∧ Username rec = un ∧ linked (db w1) p un).
  { unfold FindOrCreateSSO in Hr. apply M_bind_attempt_inv in Hr as (r0 & w0 & Hget & Hr).
    apply GetByProviderAndUsername_linked in Hget as [-> Hget]; [|done..].
    destruct Hget as [(rec' & -> & Hpr & Hu & Hl)|[-> Hno]]; [by m_inv Hr|].
    change (errors_Is ErrProviderNotFound ErrProviderNotFound) with true in Hr.
    m_inv Hr. cbn in Hr. unfold PGStore.Create, Queries.CreateSSO in Hr. m_inv Hr.
    rewrite run_sql_FaultFree in Hcall. cbn in Hcall.
    destruct (Queries.sql_CreateSSO _ _ _ _) as [[row d]|e] eqn:Hst in Hcall; [|done].
    injection Hcall as <- <-. apply sql_CreateSSO_linked in Hst as (Hpr & Hu & Hin); [|done..].
    split; [done|]. split; [cbn; by rewrite Hu|]. by exists row. }
  destruct Hlink as (Hpr & Hu & Hl). split; [done|]. split; [done|].
  intros u' name' w2 r w3 Hdb Hr'. unfold FindOrCreateSSO in Hr'.
  apply M_bind_attempt_inv in Hr' as (r0 & w4 & Hget & Hr').
  apply GetByProviderAndUsername_linked in Hget as [-> Hget]; [|done..].
  destruct Hget as [(rec' & -> & Hpr' & Hu' & _)|[_ Hno]].
  - injection Hr' as <- <-. split; [done|]. by exists rec'.
  - by rewrite Hdb in Hno.
Qed.

(** An empty username is stored as NULL, which no comparison matches, so each call of
    FindOrCreateSSO without a username adds a record. *)
Theorem FindOrCreateSSO_without_username u p name w rec w1 :
  plain 50 p → FindOrCreateSSO u p name EmptyString w = (Ok rec, w1) →
  length (sso_providers (db w1)) = Datatypes.S (length (sso_providers (db w))).
Proof.
  intros Hp Hr. unfold FindOrCreateSSO in Hr.
  apply M_bind_attempt_inv in Hr as (r0 & w0 & Hget & Hr).
  assert (r0 = Err ErrProviderNotFound ∧ w0 = tick w) as [-> ->].
  { cbn in Hget. unfold PGStore.GetByProviderAndUsername in Hget.
    apply M_bind_attempt_inv in Hget as (r1 & w2 & Hrun & Hget).
    unfold Queries.GetSSOByProviderAndUsername in Hrun. rewrite run_sql_FaultFree in Hrun.
    unfold Queries.sql_GetSSOByProviderAndUsername in Hrun. cbn in Hrun.
    rewrite (plain_text _ _ Hp) in Hrun. cbn [mbind result_bind] in Hrun.
    destruct (one _) as [row|e] eqn:Hone; injection Hrun as <- <-.
    - apply one_Ok in Hone. exfalso.
      assert (Hin : row ∈ select (Datatypes.S (calls w))
        (λ s, bool_decide (sqlc.Sso_Provider s = p) && text_eq (sqlc.Sso_Username s) (optional_Text EmptyString))
        (sso_providers (db w))).
      { destruct (select _ _ _); [done|]. injection Hone as ->. apply list_elem_of_here. }
      apply elem_of_select in Hin as [[_ Ht]%andb_prop _].
      unfold text_eq in Ht. cbn in Ht. by rewrite andb_false_r in Ht.
    - apply one_select_Err in Hone as [-> _]. by injection Hget as <- <-. }
  change (errors_Is ErrProviderNotFound ErrProviderNotFound) with true in Hr.
  m_inv Hr. cbn in Hr. unfold PGStore.Create, Queries.CreateSSO in Hr. m_inv Hr.
  rewrite run_sql_FaultFree in Hcall. cbn in Hcall.
  destruct (Queries.sql_CreateSSO _ _ _ _) as [[row d]|e] eqn:Hst in Hcall; [|done].
  injection Hcall as <- <-. unfold_statement Hst. statement_inv Hst. cbn.
  rewrite length_app. cbn. lia.
Qed.
End links.

Module Demo.
Import Sim Example_.

#[export] Instance demo_oauth : OAuth := {|
  oauth_AuthCodeURL cfg state := "https://accounts.google.com/?state=" +:+ state;
  oauth_Exchange _ _ code := Ok code;
  oauth_Userinfo _ _ _ := Ok (200, "{}"%string);
  json_GoogleUserInfo _ :=
    Ok {| Sub := "1"; Email := "ada@example.org"; InfoName := "Ada" |}%string;
|}.

Abbreviation W := (World (gmap string (string * Z)) unit).
Definition cfg : oauth2_Config :=
  NewService {| ClientID := "id"; ClientSecret := "secret"; RedirectURL := "url" |}.
Definition ada_id : UUID := Vector.const (byte_of 1) 16.

Definition w0 : W := mkWorld ada_db ∅ tt 0 0.
Definition w1 : W := (GoogleAuthURL cfg w0).2.

Lemma oauth_state_used_once_witness :
  ∃ state, (GoogleAuthURL cfg w0).1 = Ok (oauth_AuthCodeURL cfg state) ∧
  ∀ r w3, GoogleCallback cfg state "code" w1 = (r, w3) →
    r ≠ Err ErrInvalidState ∧ GoogleCallback cfg state "code" w3 = (Err ErrInvalidState, tick w3).
Proof.
  destruct (GoogleAuthURL cfg w0).1 as [url|e] eqn:Hurl; [|vm_compute in Hurl; discriminate Hurl].
  destruct (oauth_state_used_once cfg w0 url w1 (run_eq _ _ _ Hurl)) as (state & -> & Hcb).
  exists state. split; [reflexivity|]. intros r w3 Hr.
  destruct (Hcb "code"%string w1) as [Hok _]; [reflexivity|lia|].
  destruct (Hok ltac:(vm_compute; discriminate) r w3 Hr) as [Hne Hagain].
  split; [exact Hne|]. by apply Hagain.
Defined.

Definition link (name username : string) (w : W) := FindOrCreateSSO ada_id ProviderGoogle name username w.

Lemma FindOrCreateSSO_links_once_witness :
  ∃ rec, (link "Ada" "ada@example.org" w0).1 = Ok rec ∧ Username rec = "ada@example.org"%string.
Proof.
  destruct (link "Ada" "ada@example.org" w0).1 as [rec|e] eqn:Hr; [|vm_compute in Hr; discriminate Hr].
  exists rec. split; [reflexivity|].
  destruct (FindOrCreateSSO_links_once ada_id ProviderGoogle "Ada" "ada@example.org" w0 rec
    (link "Ada" "ada@example.org" w0).2) as (_ & Hu & _);
    [reflexivity|reflexivity|discriminate|by apply run_eq|exact Hu].
Defined.

Lemma FindOrCreateSSO_without_username_witness :
  ∃ rec, (link "Ada" EmptyString w0).1 = Ok rec ∧
  length (sso_providers (db (link "Ada" EmptyString w0).2)) = 1%nat.
Proof.
  destruct (link "Ada" EmptyString w0).1 as [rec|e] eqn:Hr; [|vm_compute in Hr; discriminate Hr].
  exists rec. split; [reflexivity|].
  apply (FindOrCreateSSO_without_username ada_id ProviderGoogle "Ada" w0 rec);
    [reflexivity|by apply run_eq].
Defined.
End Demo.
End sso.
