(* ===== verification/Orgs.v ===== *)
(** Organizations and their members: [internal/modules/organization/]. *)

From S2P Require Import Prelude.
From S2P Require Import Bytes.
From S2P Require Import Platform.
From S2P Require Import Database.
From S2P Require Import Integrity.
From S2P Require Import World.

Module organization.

(** ** domain.go *)

Definition ErrNotFound : error := errors_New "organization" "organization not found".

Record Organization := { ID : UUID; Name : string; Description : string }.

#[export] Instance Organization_eq_dec : EqDecision Organization.
Proof. solve_decision. Defined.

Record CreateInput := { in_Name : string; in_Description : string }.

(** ** repository.go *)

Class Repository (S : Type) := {
  repo_Create : Organization → M S Organization;
  repo_DeleteByID : UUID → M S unit;
  repo_GetByID : UUID → M S Organization;
  repo_AddUser : UUID → UUID → M S unit;
  repo_RemoveUser : UUID → UUID → M S unit;
  repo_GetByUserID : UUID → M S (list Organization);
}.

(** ** service.go *)

Section service.
Context {S : Type} `{Repository S} `{Entropy S}.

Definition Create (input : CreateInput) : M S Organization :=
  id ← mwrap "generate uuid: " uuid_NewV7;
  mwrap "create org: " (repo_Create {|
    ID := id; Name := in_Name input; Description := in_Description input |}).

Definition GetByID (id : UUID) : M S Organization := repo_GetByID id.
Definition DeleteByID (id : UUID) : M S unit := repo_DeleteByID id.
Definition AddUser (orgID userID : UUID) : M S unit := repo_AddUser orgID userID.
Definition RemoveUser (orgID userID : UUID) : M S unit := repo_RemoveUser orgID userID.
Definition GetByUserID (userID : UUID) : M S (list Organization) := repo_GetByUserID userID.
End service.

(** ** store.go *)

Definition fromSqlcOrg (o : sqlc.Organization) : Organization := {|
  ID := fromPgUUID (sqlc.Org_OrganizationID o); Name := sqlc.Org_OrganizationName o;
  Description := Text_String (sqlc.Org_OrganizationDescription o) |}.

Module Store.
Section store.
Context {S : Type} `{Postgres} `{DBTX S}.

Definition Create (org : Organization) : M S Organization :=
  row ← Queries.CreateOrganization {|
    Queries.CreateOrganization_OrganizationID := toPgUUID (ID org);
    Queries.CreateOrganization_OrganizationName := Name org;
    Queries.CreateOrganization_OrganizationDescription := optional_Text (Description org) |};
  mret (fromSqlcOrg row).

Definition DeleteByID (id : UUID) : M S unit := Queries.DeleteOrganizationByID (toPgUUID id).

Definition GetByID (id : UUID) : M S Organization :=
  r ← attempt (Queries.GetOrganizationByID (toPgUUID id));
  row ← lift (no_rows ErrNotFound r);
  mret (fromSqlcOrg row).

Definition AddUser (orgID userID : UUID) : M S unit :=
  Queries.AddUserToOrganization {|
    Queries.AddUser_OrganizationID := toPgUUID orgID;
    Queries.AddUser_UserID := toPgUUID userID |}.

Definition RemoveUser (orgID userID : UUID) : M S unit :=
  Queries.RemoveUserFromOrganization {|
    Queries.RemoveUser_OrganizationID := toPgUUID orgID;
    Queries.RemoveUser_UserID := toPgUUID userID |}.

Definition GetByUserID (userID : UUID) : M S (list Organization) :=
  rows ← Queries.GetOrganizationsByUserID (toPgUUID userID);
  mret (fromSqlcOrg <$> rows).
End store.
End Store.

#[export] Instance Store_Repository {S} `{Postgres} `{DBTX S} : Repository S := {|
  repo_Create := Store.Create;
  repo_DeleteByID := Store.DeleteByID;
  repo_GetByID := Store.GetByID;
  repo_AddUser := Store.AddUser;
  repo_RemoveUser := Store.RemoveUser;
  repo_GetByUserID := Store.GetByUserID;
|}.

(** ** The abstract view: organizations by identifier, and pairs of members *)

Section theorems.
Context {R D : Type} `{PostgresLaws} `{OracleLaws}.
Implicit Types (w : World R D) (d : Database).

Definition is_org d (o : Organization) : Prop :=
  ∃ row, row ∈ organizations d ∧ sqlc.Org_OrganizationID row = toPgUUID (ID o) ∧ fromSqlcOrg row = o.

Definition member d (orgID userID : UUID) : Prop :=
  {| sqlc.OU_OrganizationID := toPgUUID orgID; sqlc.OU_UserID := toPgUUID userID |}
    ∈ organization_users d.

Lemma is_org_unique d o1 o2 : Integrity d → is_org d o1 → is_org d o2 → ID o1 = ID o2 → o1 = o2.
Proof.
  intros Hd (r1 & Hr1 & Hi1 & <-) (r2 & Hr2 & Hi2 & <-) Heq.
  rewrite Heq, <- Hi2 in Hi1.
  by rewrite (NoDup_key sqlc.Org_OrganizationID _ _ _ (organizations_pkey _ Hd) Hr1 Hr2 Hi1).
Qed.

Lemma is_org_fromSqlc d row :
  Integrity d → row ∈ organizations d →
  sqlc.Org_OrganizationID row = toPgUUID (ID (fromSqlcOrg row)) ∧ is_org d (fromSqlcOrg row).
Proof.
  intros Hd Hrow. pose proof (organizations_valid _ Hd) as Hv. rewrite Forall_forall in Hv.
  specialize (Hv _ Hrow). cbn. unfold fromPgUUID. cbn.
  assert (Hid : sqlc.Org_OrganizationID row = toPgUUID (ID (fromSqlcOrg row))).
  { cbn. unfold fromPgUUID. rewrite Hv. by destruct (sqlc.Org_OrganizationID row) as [x []]. }
  split; [exact Hid|]. by exists row.
Qed.

(** The pairs of the join. *)
Lemma elem_of_join {A B C} (f : A * B → C) (p : A * B → bool) n (l : list A) (k : list B) c :
  c ∈ f <$> select n p (a ← l; (λ b, (a, b)) <$> k) ↔
  ∃ a b, a ∈ l ∧ b ∈ k ∧ p (a, b) = true ∧ f (a, b) = c.
Proof.
  rewrite list_elem_of_fmap. setoid_rewrite elem_of_select. split.
  - intros ([a b] & -> & Hp & Hin). apply list_elem_of_bind in Hin as (a' & Hin & Ha).
    apply list_elem_of_fmap in Hin as (b' & [= -> ->] & Hb). by exists a', b'.
  - intros (a & b & Ha & Hb & Hp & <-). exists (a, b). split; [done|]. split; [done|].
    apply list_elem_of_bind. exists a. split; [|done]. by apply list_elem_of_fmap_2.
Qed.

Lemma NoDup_join {A B} (l : list A) (k : list B) :
  NoDup l → NoDup k → NoDup (a ← l; (λ b, (a, b)) <$> k).
Proof.
  intros Hl Hk. induction Hl as [|a l Ha Hl IH]; [constructor|]. cbn. apply NoDup_app.
  split; [|split; [|exact IH]].
  - apply NoDup_fmap_2_strong; [|done]. by intros b1 b2 _ _ [= ->].
  - intros [a' b] (b' & [= -> ->] & _)%list_elem_of_fmap (a'' & (b'' & [= -> ->] & _)%list_elem_of_fmap & Hin)%list_elem_of_bind.
    done.
Qed.

Lemma GetByUserID_inv u w r w' :
  Integrity (db w) → GetByUserID u w = (r, w') →
  w' = tick w ∧
  ((∃ orgs, r = Ok orgs ∧ NoDup orgs ∧
     ∀ o, o ∈ orgs ↔ is_org (db w) o ∧ member (db w) (ID o) u) ∨
   ∃ e, is_fault e ∧ r = Err e).
Proof.
  intros Hi Hr. unfold GetByUserID in Hr. cbn in Hr. unfold Store.GetByUserID in Hr.
  apply M_bind_inv in Hr as [(rows & w1 & Hrun & Hr)|(e & Hrun & ->)];
    (apply read_inv in Hrun as [-> Hres]; [|apply reads_GetOrganizationsByUserID]); cbn in Hres.
  2:{ split; [done|]. right. destruct Hres as [|(e' & ? & [= <-])]; [done|by exists e]. }
  injection Hr as <- <-. split; [done|]. left. eexists. split; [done|].
  destruct Hres as [[= ->]|(e & _ & ?)]; [|done].
  rewrite <- list_fmap_compose.
  set (p := λ x : sqlc.Organization * sqlc.OrganizationUser, let '(o, ou) := x in
    uuid_eq (sqlc.Org_OrganizationID o) (sqlc.OU_OrganizationID ou) &&
    uuid_eq (sqlc.OU_UserID ou) (toPgUUID u)).
  assert (Hp : ∀ o ou, p (o, ou) = true ↔ Valid (sqlc.Org_OrganizationID o) = true ∧
    ou = {| sqlc.OU_OrganizationID := sqlc.Org_OrganizationID o; sqlc.OU_UserID := toPgUUID u |}).
  { intros o [a b]. cbn. rewrite andb_true_iff, !uuid_eq_true. cbn. split.
    - intros [[Hv He] [_ Hu]]. split; [done|]. congruence.
    - intros [Hv [= -> ->]]. done. }
  split.
  - apply NoDup_fmap_2_strong.
    + intros [o1 ou1] [o2 ou2] [Hp1 Hin1]%elem_of_select [Hp2 Hin2]%elem_of_select Heq.
      apply Hp in Hp1 as [_ ->], Hp2 as [_ ->].
      apply list_elem_of_bind in Hin1 as (o & (ou & [= -> _] & _)%list_elem_of_fmap & Ho1).
      apply list_elem_of_bind in Hin2 as (o' & (ou' & [= -> _] & _)%list_elem_of_fmap & Ho2).
      destruct (is_org_fromSqlc _ _ Hi Ho1) as [Hid1 _], (is_org_fromSqlc _ _ Hi Ho2) as [Hid2 _].
      cbn in Heq. rewrite Heq, <- Hid2 in Hid1.
      by rewrite (NoDup_key sqlc.Org_OrganizationID _ _ _ (organizations_pkey _ Hi) Ho1 Ho2 Hid1).
    + unfold select. rewrite pg_order_perm. apply NoDup_filter, NoDup_join.
      * eapply NoDup_fmap_1, organizations_pkey, Hi.
      * pose proof (organization_users_pkey _ Hi) as Hk. by rewrite list_fmap_id in Hk.
  - intros o. rewrite elem_of_join. split.
    + intros (row & ou & Hrow & Hou & [_ ->]%Hp & <-).
      destruct (is_org_fromSqlc _ _ Hi Hrow) as [Hid Ho]. split; [exact Ho|].
      unfold member. cbn in Hid |- *. by rewrite <- Hid.
    + intros [(row & Hrow & Hid & <-) Hm]. exists row. eexists. split; [done|].
      split; [exact Hm|]. split; [|done]. apply Hp. by rewrite Hid.
Qed.

(** What joining and leaving do to the members. *)
Lemma AddUser_inv orgID u w r w' :
  Integrity (db w) → AddUser orgID u w = (r, w') →
  Integrity (db w') ∧ organizations (db w') = organizations (db w) ∧ users (db w') = users (db w) ∧
  ((is_Ok r = false ∧ organization_users (db w') = organization_users (db w)) ∨
   (¬ member (db w) orgID u ∧
    toPgUUID orgID ∈ sqlc.Org_OrganizationID <$> organizations (db w) ∧
    organization_users (db w') = organization_users (db w) ++
      [{| sqlc.OU_OrganizationID := toPgUUID orgID; sqlc.OU_UserID := toPgUUID u |}])).
Proof.
  intros Hi Hr. unfold AddUser in Hr. cbn in Hr. unfold Store.AddUser in Hr.
  apply write_inv in Hr as (Hi' & _ & _ & _ & Hres); [|constructor|done]. split; [done|].
  assert (Hstep : ∀ t n a d', Queries.sql_AddUserToOrganization {|
      Queries.AddUser_OrganizationID := toPgUUID orgID; Queries.AddUser_UserID := toPgUUID u |}
      t n (db w) = Ok (a, d') →
    organizations d' = organizations (db w) ∧ users d' = users (db w) ∧
    ¬ member (db w) orgID u ∧ toPgUUID orgID ∈ sqlc.Org_OrganizationID <$> organizations (db w) ∧
    organization_users d' = organization_users (db w) ++
      [{| sqlc.OU_OrganizationID := toPgUUID orgID; sqlc.OU_UserID := toPgUUID u |}]).
  { intros t n a d' Hst. unfold_statement Hst. statement_inv Hst. cbn.
    rewrite list_fmap_id in *. done. }
  destruct Hres as [(a & -> & Hst)|(e & -> & _ & [Hd|[a Hst]])].
  - apply Hstep in Hst as (? & ? & ?). auto.
  - rewrite Hd. auto.
  - apply Hstep in Hst as (? & ? & ?). auto.
Qed.

Lemma member_snoc d d' orgID u o v :
  organization_users d' = organization_users d ++
    [{| sqlc.OU_OrganizationID := toPgUUID orgID; sqlc.OU_UserID := toPgUUID u |}] →
  member d' o v ↔ member d o v ∨ (o = orgID ∧ v = u).
Proof.
  intros Hd. unfold member. rewrite Hd, elem_of_app, list_elem_of_singleton. split.
  - intros [|[= -> ->]]; auto.
  - intros [|[-> ->]]; auto.
Qed.

(** GetByUserID changes nothing and lists, once each, exactly the organizations that the
    user is a member of, or fails on an outage. *)
Theorem GetByUserID_lists_memberships u w r w' :
  Integrity (db w) → GetByUserID u w = (r, w') →
  db w' = db w ∧
  ((∃ orgs, r = Ok orgs ∧ NoDup (ID <$> orgs) ∧
     ∀ o, o ∈ orgs ↔ is_org (db w) o ∧ member (db w) (ID o) u) ∨
   ∃ e, is_fault e ∧ r = Err e).
Proof.
  intros Hi Hr. apply GetByUserID_inv in Hr as [-> Hres]; [|done]. split; [done|].
  destruct Hres as [(orgs & -> & Hn & Ho)|]; [left|by right]. exists orgs. split; [done|].
  split; [|done]. apply NoDup_fmap_2_strong; [|done]. intros o1 o2 [Ho1 _]%Ho [Ho2 _]%Ho Heq.
  by eapply is_org_unique.
Qed.

(** *** With connections up *)

Lemma AddUser_up `{!FaultFree} orgID u w r w' :
  Integrity (db w) → AddUser orgID u w = (r, w') → r = Ok tt ∨ ∃ e, r = Err e ∧ db w' = db w.
Proof.
  intros Hi Hr. unfold AddUser in Hr. cbn in Hr. unfold Store.AddUser, Queries.AddUserToOrganization in Hr.
  apply run_sql_up in Hr as [([] & -> & _)|(e & -> & _ & ->)]; [by left|right; by exists e].
Qed.

Lemma GetByUserID_up `{!FaultFree} u w r w' : GetByUserID u w = (r, w') → is_Ok r = true.
Proof.
  intros Hr. unfold GetByUserID in Hr. cbn in Hr. unfold Store.GetByUserID, Queries.GetOrganizationsByUserID in Hr.
  apply M_bind_inv in Hr as [(rows & w1 & _ & Hr)|(e & Hrun & ->)]; [by injection Hr as <- <-|].
  by apply run_sql_up in Hrun as [(a & ? & _)|(e' & _ & ? & _)].
Qed.

Lemma DeleteByID_up `{!FaultFree} id w r w' : DeleteByID id w = (r, w') → r = Ok tt.
Proof.
  intros Hr. unfold DeleteByID in Hr. cbn in Hr. unfold Store.DeleteByID, Queries.DeleteOrganizationByID in Hr.
  by apply run_sql_up in Hr as [([] & -> & _)|(e & _ & ? & _)].
Qed.

Lemma org_Create_up `{!FaultFree} input w r w' :
  Integrity (db w) → Create input w = (r, w') →
  Integrity (db w') ∧ organization_users (db w') = organization_users (db w) ∧
  ((∃ e, r = Err e ∧ db w' = db w) ∨
   ∃ o, r = Ok o ∧ (∀ x, is_org (db w') x ↔ is_org (db w) x ∨ x = o) ∧
     ∀ x, is_org (db w) x → ID x ≠ ID o).
Proof.
  intros Hi Hr. unfold Create in Hr.
  apply M_bind_inv in Hr as [(id & w1 & Hid & Hr)|(e & Hid & ->)];
    apply M_mwrap_inv in Hid as (r0 & Hid & _); injection Hid as _ <-.
  2:{ split; [done|]. split; [done|]. left. by exists e. }
  apply M_mwrap_inv in Hr as (r1 & Hr & ->). cbn in Hr. unfold Store.Create in Hr.
  apply M_bind_inv in Hr as [(row & w2 & Hrun & Hr)|(e & Hrun & ->)];
    unfold Queries.CreateOrganization in Hrun.
  - injection Hr as <- <-. pose proof Hrun as Hup.
    apply write_inv in Hrun as (Hi' & _); [|constructor|exact Hi].
    apply run_sql_up in Hup as [(a & [= <-] & Hst)|(e & ? & _)]; [|done].
    revert Hi'. unfold_statement Hst. cbn in Hst. statement_inv Hst. intros Hi'.
    split; [done|]. split; [done|]. right. eexists. split; [done|]. split.
    + intros o. unfold is_org. cbn. setoid_rewrite elem_of_app. setoid_rewrite list_elem_of_singleton.
      split.
      * intros (row' & [Hin| ->] & Hid & <-); [left; by exists row'|by right].
      * intros [(row' & Hin & Hid & <-)| ->]; [exists row'; auto|]. eexists. split; [by right|done].
    + intros o (row' & Hin & Hid & <-) Heq.
      match goal with Hu : toPgUUID _ ∉ _ |- _ => apply Hu end.
      apply list_elem_of_fmap. exists row'. split; [|done]. rewrite Hid. f_equal. exact (eq_sym Heq).
  - apply run_sql_up in Hrun as [(a & ? & _)|(e' & _ & _ & ->)]; [done|].
    split; [done|]. split; [done|]. left. by eexists.
Qed.

(** The organization that Create returns is there. *)
Lemma Create_Ok input w o w' :
  Integrity (db w) → Create input w = (Ok o, w') →
  Integrity (db w') ∧ users (db w') = users (db w) ∧ is_org (db w') o ∧
  pg_varchar 255 (in_Name input) = Some (Name o).
Proof.
  intros Hi Hr. unfold Create in Hr.
  apply M_bind_inv in Hr as [(id & w1 & Hid & Hr)|(e & _ & ?)]; [|done].
  apply M_mwrap_inv in Hid as (r0 & Hid & _); injection Hid as _ <-.
  apply M_mwrap_inv in Hr as (r1 & Hr & Heq). symmetry in Heq. apply wrap_err_Ok in Heq. subst r1.
  cbn in Hr. unfold Store.Create, Queries.CreateOrganization in Hr.
  apply M_bind_inv in Hr as [(row & w2 & Hrun & Hr)|(e & _ & ?)]; [|done]. injection Hr as <- <-.
  apply write_inv in Hrun as (Hi' & _ & _ & _ & Hres); [|constructor|exact Hi].
  destruct Hres as [(a & [= <-] & Hst)|(e & ? & _)]; [|done]. split; [done|].
  revert Hi'. unfold_statement Hst. cbn in Hst. apply bind_Ok in Hst as (name & Hname%varchar_Ok & Hst).
  statement_inv Hst. intros Hi'. split; [done|]. split; [|done]. eexists. split; [|split; [|done]].
  - apply elem_of_app. right. by apply list_elem_of_singleton.
  - done.
Qed.

Lemma DeleteByID_inv id w r w' :
  Integrity (db w) → DeleteByID id w = (r, w') →
  Integrity (db w') ∧
  ((is_Ok r = false ∧ db w' = db w) ∨
   ((∀ o, is_org (db w') o ↔ is_org (db w) o ∧ ID o ≠ id) ∧
    (∀ o u, member (db w') o u ↔ member (db w) o u ∧ o ≠ id))).
Proof.
  intros Hi Hr. unfold DeleteByID in Hr. cbn in Hr. unfold Store.DeleteByID in Hr.
  apply write_inv in Hr as (Hi' & _ & _ & _ & Hres); [|constructor|done]. split; [done|].
  assert (Hstep : ∀ t n a, Queries.sql_DeleteOrganizationByID (toPgUUID id) t n (db w) =
      Ok (a, db w') →
    (∀ o, is_org (db w') o ↔ is_org (db w) o ∧ ID o ≠ id) ∧
    (∀ o u, member (db w') o u ↔ member (db w) o u ∧ o ≠ id)).
  { intros t n a Hst. unfold_statement Hst. injection Hst as _ <-. cbn.
    assert (Hne : ∀ x, uuid_eq (toPgUUID x) (toPgUUID id) = false ↔ x ≠ id).
    { intros x. rewrite <- not_true_iff_false, uuid_eq_true. cbn. split; [naive_solver|].
      intros Hx [_ He]. by apply (inj toPgUUID) in He. }
    unfold is_org, member. cbn. split.
    - intros o. setoid_rewrite elem_of_delete_from. split.
      + intros (row & [Hrow Hin] & Hid & <-). rewrite Hid in Hrow. apply Hne in Hrow. eauto 6.
      + intros [(row & Hin & Hid & <-) Ho]. exists row. split; [split; [|done]|done].
        rewrite Hid. by apply Hne.
    - intros o u. rewrite elem_of_delete_from. cbn [sqlc.OU_OrganizationID]. rewrite Hne. naive_solver. }
  destruct Hres as [(a & -> & Hst)|(e & -> & _ & [Hd|[a Hst]])]; eauto.
Qed.

(** A successful DeleteByID removes the organization and all its memberships, no other
    organization or membership, keeps the database well-formed, and the organization is
    then not found. *)
Theorem DeleteByID_removes_org_and_members id w w' :
  Integrity (db w) → DeleteByID id w = (Ok tt, w') →
  Integrity (db w') ∧
  (∀ o, is_org (db w') o ↔ is_org (db w) o ∧ ID o ≠ id) ∧
  (∀ o u, member (db w') o u ↔ member (db w) o u ∧ o ≠ id) ∧
  ∀ r w'', GetByID id w' = (r, w'') → r = Err ErrNotFound ∨ ∃ e, is_fault e ∧ r = Err e.
Proof.
  intros Hi Hr. apply DeleteByID_inv in Hr as (Hi' & [[? _]|[Ho Hm]]); [done| |done].
  split; [done|]. split; [done|]. split; [done|]. intros r w'' Hget.
  unfold GetByID in Hget. cbn in Hget. unfold Store.GetByID in Hget.
  apply M_bind_attempt_inv in Hget as (r0 & w1 & Hrun & Hget).
  apply read_inv in Hrun as [-> [->|(e & He & ->)]]; [| |apply reads_GetOrganizationByID].
  - unfold Queries.sql_GetOrganizationByID in Hget.
    destruct (one _) as [row|e] eqn:Hone; cbn in Hget.
    + apply one_Ok in Hone. exfalso.
      assert (Hin : row ∈ select (calls (tick w'))
        (λ o, uuid_eq (sqlc.Org_OrganizationID o) (toPgUUID id)) (organizations (db w'))).
      { destruct (select _ _ _); [done|]. injection Hone as ->. apply list_elem_of_here. }
      apply elem_of_select in Hin as [[_ Hid]%uuid_eq_true Hin].
      destruct (is_org_fromSqlc _ _ Hi' Hin) as [Hid' Horg]. apply Ho in Horg as [_ Hne].
      apply Hne. rewrite Hid in Hid'. by apply (inj toPgUUID) in Hid'.
    + apply one_select_Err in Hone as [-> _]. injection Hget as <- _. by left.
  - destruct He as [text ->]. injection Hget as <- _. right. eexists. by split; [eexists|].
Qed.
End theorems.

Module Demo.
Import Sim Example_.

Abbreviation W := (World (gmap string (string * Z)) unit).
Definition ada_id : UUID := Vector.const (byte_of 1) 16.

Definition w0 : W := mkWorld ada_db ∅ tt 0 0.
Definition team : UUID := Vector.const (byte_of 0) 16.
Definition w1 : W := (Create {| in_Name := "Team"; in_Description := EmptyString |} w0).2.
Definition w2 : W := (AddUser team ada_id w1).2.
Definition w3 : W := (DeleteByID team w2).2.

Lemma w2_steps : rtc sql_step empty_Database (db w2).
Proof.
  eapply rtc_r; [eapply rtc_r; [apply ada_steps|]|].
  - eapply sql_step_statement with (now := 1000000) (n := 2%nat);
      [apply (st_CreateOrganization {|
         Queries.CreateOrganization_OrganizationID := toPgUUID team;
         Queries.CreateOrganization_OrganizationName := "Team";
         Queries.CreateOrganization_OrganizationDescription := optional_Text EmptyString |})|].
    vm_compute. reflexivity.
  - eapply sql_step_statement with (now := 1000000) (n := 2%nat);
      [apply (st_AddUserToOrganization {|
         Queries.AddUser_OrganizationID := toPgUUID team;
         Queries.AddUser_UserID := toPgUUID ada_id |})|].
    vm_compute. reflexivity.
Qed.

Lemma w2_inv : Integrity (db w2).
Proof. apply (Integrity_steps empty_Database); [apply w2_steps|apply Integrity_empty]. Qed.

Lemma GetByUserID_lists_memberships_witness :
  ∃ orgs, (GetByUserID ada_id w2).1 = Ok orgs ∧
  {| ID := team; Name := "Team"; Description := EmptyString |} ∈ orgs.
Proof.
  destruct (GetByUserID ada_id w2) as [r w] eqn:Hr.
  destruct (GetByUserID_lists_memberships ada_id w2 r w w2_inv Hr) as [_ [(orgs & -> & _ & Ho)|Herr]].
  - exists orgs. split; [reflexivity|]. apply Ho. split.
    + eexists. split; [apply list_elem_of_here|]. split; reflexivity.
    + apply list_elem_of_here.
  - apply (f_equal fst) in Hr. vm_compute in Hr. destruct Herr as (e & _ & ->). discriminate Hr.
Defined.

Lemma DeleteByID_removes_org_and_members_witness : ¬ member (db w3) team ada_id.
Proof.
  destruct (DeleteByID_removes_org_and_members team w2 w3 w2_inv) as (_ & _ & Hm & _).
  - apply run_eq. vm_compute. reflexivity.
  - intros H. apply Hm in H as [_ Hne]. by apply Hne.
Defined.
End Demo.
End organization.
