(* ===== verification/Regexp.v ===== *)
(** The regular expressions of the program ([regexp.MustCompile]): a matcher by
    derivatives, correct for the language of the expression.  The expressions
    are anchored at both ends and their classes are ASCII, so they match bytes. *)

From S2P Require Import Prelude.
From S2P Require Import Bytes.

Inductive regexp :=
  | Void
  | Empty
  | Class_ (p : byte → bool)
  | Cat (r1 r2 : regexp)
  | Alt (r1 r2 : regexp)
  | Star (r : regexp).

(** [r+], [r{2,}] *)
Definition Plus (r : regexp) : regexp := Cat r (Star r).
Definition AtLeast2 (r : regexp) : regexp := Cat r (Cat r (Star r)).

Inductive matches : regexp → bytes → Prop :=
  | m_Empty : matches Empty []
  | m_Class p c : p c = true → matches (Class_ p) [c]
  | m_Cat r1 r2 s1 s2 : matches r1 s1 → matches r2 s2 → matches (Cat r1 r2) (s1 ++ s2)
  | m_Alt_l r1 r2 s : matches r1 s → matches (Alt r1 r2) s
  | m_Alt_r r1 r2 s : matches r2 s → matches (Alt r1 r2) s
  | m_Star_nil r : matches (Star r) []
  | m_Star_app r s1 s2 : matches r s1 → matches (Star r) s2 → matches (Star r) (s1 ++ s2).

Fixpoint nullable (r : regexp) : bool :=
  match r with
  | Void | Class_ _ => false
  | Empty | Star _ => true
  | Cat r1 r2 => nullable r1 && nullable r2
  | Alt r1 r2 => nullable r1 || nullable r2
  end.

Fixpoint deriv (c : byte) (r : regexp) : regexp :=
  match r with
  | Void | Empty => Void
  | Class_ p => if p c then Empty else Void
  | Cat r1 r2 =>
      if nullable r1 then Alt (Cat (deriv c r1) r2) (deriv c r2) else Cat (deriv c r1) r2
  | Alt r1 r2 => Alt (deriv c r1) (deriv c r2)
  | Star r1 => Cat (deriv c r1) (Star r1)
  end.

(** [re.MatchString] of [^r$]. *)
Fixpoint MatchString (r : regexp) (s : bytes) : bool :=
  match s with
  | [] => nullable r
  | c :: s' => MatchString (deriv c r) s'
  end.

Lemma nullable_spec r : nullable r = true ↔ matches r [].
Proof.
  induction r as [| |p|r1 IH1 r2 IH2|r1 IH1 r2 IH2|r1 _]; cbn.
  - split; [done|by inversion 1].
  - split; [constructor|done].
  - split; [done|by inversion 1].
  - rewrite andb_true_iff, IH1, IH2. split.
    + intros [H1 H2]. apply (m_Cat r1 r2 [] []); done.
    + inversion 1 as [| |? ? s1 s2 H1 H2 Hr Hs| | | |]. by apply app_eq_nil in Hs as [-> ->].
  - rewrite orb_true_iff, IH1, IH2. split.
    + intros [H|H]; by constructor.
    + inversion 1; auto.
  - split; [constructor|done].
Qed.

Lemma Star_cons r c s :
  matches (Star r) (c :: s) → ∃ s1 s2, s = s1 ++ s2 ∧ matches r (c :: s1) ∧ matches (Star r) s2.
Proof.
  intros H. remember (Star r) as r' eqn:Hr. remember (c :: s) as s' eqn:Hs.
  induction H as [| | | | | |r0 s1 s2 H1 _ H2 IH]; simplify_eq.
  destruct s1 as [|c1 s1]; [by apply IH|]. injection Hs as -> <-. by exists s1, s2.
Qed.

Lemma deriv_spec c r s : matches (deriv c r) s ↔ matches r (c :: s).
Proof.
  revert s. induction r as [| |p|r1 IH1 r2 IH2|r1 IH1 r2 IH2|r1 IH1]; intros s; cbn.
  - split; inversion 1.
  - split; inversion 1.
  - destruct (p c) eqn:Hp.
    + split; [inversion 1; by constructor|]. inversion 1; subst. constructor.
    + split; [inversion 1|]. inversion 1; congruence.
  - assert (Hcat : matches (Cat (deriv c r1) r2) s ↔
      ∃ s1 s2, s = s1 ++ s2 ∧ matches r1 (c :: s1) ∧ matches r2 s2).
    { split.
      - inversion 1 as [| |? ? s1 s2 H1 H2| | | |]; subst. exists s1, s2. by rewrite <- IH1.
      - intros (s1 & s2 & -> & H1 & H2). constructor; [by apply IH1|done]. }
    assert (Hc : matches (Cat r1 r2) (c :: s) ↔ matches (Cat (deriv c r1) r2) s ∨
      (nullable r1 = true ∧ matches r2 (c :: s))).
    { rewrite Hcat. split.
      - inversion 1 as [| |? ? s1 s2 H1 H2 Hr Hs| | | |]; subst.
        destruct s1 as [|c1 s1]; cbn in Hs.
        + right. subst s2. split; [by apply nullable_spec|done].
        + injection Hs as -> <-. left. by exists s1, s2.
      - intros [(s1 & s2 & -> & H1 & H2)|[H1 H2]].
        + exact (m_Cat r1 r2 (c :: s1) s2 H1 H2).
        + apply (m_Cat r1 r2 [] (c :: s)); [by apply nullable_spec|done]. }
    rewrite Hc. destruct (nullable r1).
    + split.
      * inversion 1; subst; [by left|right]. by rewrite <- IH2.
      * intros [|[_ ?]]; [by apply m_Alt_l|]. apply m_Alt_r. by apply IH2.
    + naive_solver.
  - split.
    + inversion 1; subst; [apply m_Alt_l|apply m_Alt_r]; [by apply IH1|by apply IH2].
    + inversion 1; subst; [apply m_Alt_l|apply m_Alt_r]; [by apply IH1|by apply IH2].
  - split.
    + inversion 1 as [| |? ? s1 s2 H1 H2| | | |]; subst.
      apply (m_Star_app r1 (c :: s1) s2); [by apply IH1|done].
    + intros (s1 & s2 & -> & H1 & H2)%Star_cons. constructor; [by apply IH1|done].
Qed.

Lemma MatchString_spec r s : MatchString r s = true ↔ matches r s.
Proof.
  revert r. induction s as [|c s IH]; intros r; cbn; [apply nullable_spec|].
  by rewrite IH, deriv_spec.
Qed.

(** ** Matching the forms the program uses *)

Lemma matches_Class p s : matches (Class_ p) s ↔ ∃ c, s = [c] ∧ p c = true.
Proof. split; [inversion 1; eauto|]. intros (c & -> & Hc). by constructor. Qed.

Lemma matches_Cat r1 r2 s : matches (Cat r1 r2) s ↔ ∃ s1 s2, s = s1 ++ s2 ∧ matches r1 s1 ∧ matches r2 s2.
Proof. split; [inversion 1; eauto|]. intros (s1 & s2 & -> & H1 & H2). by constructor. Qed.

Lemma matches_Star_Class p s : matches (Star (Class_ p)) s ↔ Forall (λ c, p c = true) s.
Proof.
  split.
  - induction s as [|c s IH]; [constructor|].
    intros (s1 & s2 & -> & H1 & H2)%Star_cons. apply matches_Class in H1 as (c' & [= <- ->] & Hc).
    constructor; [done|]. by apply IH.
  - induction 1 as [|c s Hc _ IH]; [constructor|].
    apply (m_Star_app _ [c] s); [by constructor|done].
Qed.

Lemma matches_Plus_Class p s :
  matches (Plus (Class_ p)) s ↔ s ≠ [] ∧ Forall (λ c, p c = true) s.
Proof.
  unfold Plus. rewrite matches_Cat. setoid_rewrite matches_Class. setoid_rewrite matches_Star_Class.
  split.
  - intros (s1 & s2 & -> & (c & -> & Hc) & Hs). split; [done|]. by constructor.
  - intros [Hne Hs]. destruct Hs as [|c s Hc Hs]; [done|]. exists [c], s. eauto.
Qed.

(** ** Character classes *)

Definition in_range (lo hi : byte) (c : byte) : bool :=
  (byte_val lo <=? byte_val c) && (byte_val c <=? byte_val hi).

Definition alpha (c : byte) : bool := in_range "a" "z" c || in_range "A" "Z" c.
Definition alnum (c : byte) : bool := alpha c || in_range "0" "9" c.
Definition one_of (cs : list byte) (c : byte) : bool := bool_decide (c ∈ cs).
