(* ===== verification/Filepath.v ===== *)
(** Slash-separated paths: [path/filepath] on Unix.

    A path is read as the list of its [elements], what is left of its
    components after [Clean]; [Join] and [Abs] are described by what they do to
    the elements. *)

From S2P Require Import Prelude.
From S2P Require Import GoStrings.

Definition slash : byte := "/"%char.
Definition dot : bytes := ["."%char].
Definition dotdot : bytes := ["."; "."]%char.

Definition IsAbs (path : bytes) : bool :=
  match path with c :: _ => bool_decide (c = slash) | [] => false end.

(** One component, on the stack of the elements before it. *)
Definition clean_step (rooted : bool) (stack : list bytes) (c : bytes) : list bytes :=
  if bool_decide (c = []) || bool_decide (c = dot) then stack
  else if bool_decide (c = dotdot) then
    match stack with
    | top :: rest => if bool_decide (top = dotdot) then c :: stack else rest
    | [] => if rooted then [] else [c]
    end
  else c :: stack.

Definition clean_stack (rooted : bool) (stack : list bytes) (path : bytes) : list bytes :=
  foldl (clean_step rooted) stack (split_byte slash path).

Definition elements (path : bytes) : list bytes := reverse (clean_stack (IsAbs path) [] path).

(** [filepath.Clean] *)
Definition Clean (path : bytes) : bytes :=
  let es := elements path in
  if IsAbs path then slash :: join [slash] es
  else match es with [] => dot | _ => join [slash] es end.

(** [filepath.Join] *)
Fixpoint Join (elem : list bytes) : bytes :=
  match elem with
  | [] => []
  | [] :: elem' => Join elem'
  | _ => Clean (join [slash] elem)
  end.

(** ** Splitting and joining *)

Lemma split_byte_cons c s : ∃ p ps, split_byte c s = p :: ps.
Proof.
  destruct s as [|b s]; [by eexists _, _|]. cbn. case_bool_decide; [by eexists _, _|].
  by destruct (split_byte c s); eexists _, _.
Qed.

Lemma split_byte_app c a b : split_byte c (a ++ c :: b) = split_byte c a ++ split_byte c b.
Proof.
  induction a as [|x a IH]; cbn; [by rewrite bool_decide_true|].
  case_bool_decide; [by rewrite IH|]. rewrite IH.
  destruct (split_byte_cons c a) as (p & ps & ->). done.
Qed.

Lemma split_byte_plain c s : c ∉ s → split_byte c s = [s].
Proof.
  induction s as [|x s IH]; cbn; [done|]. intros Hc%not_elem_of_cons.
  rewrite bool_decide_false by naive_solver. by rewrite IH by naive_solver.
Qed.

Lemma split_byte_join c ps :
  ps ≠ [] → Forall (λ p, c ∉ p) ps → split_byte c (join [c] ps) = ps.
Proof.
  intros Hne Hps. induction Hps as [|p ps Hp Hps IH]; [done|]. destruct ps as [|q ps].
  - by apply split_byte_plain.
  - change (join [c] (p :: q :: ps)) with (p ++ c :: join [c] (q :: ps)).
    by rewrite split_byte_app, (split_byte_plain c p), IH.
Qed.

Lemma split_byte_no_sep c s : Forall (λ p, c ∉ p) (split_byte c s).
Proof.
  induction s as [|x s IH]; cbn; [repeat constructor; set_solver|].
  case_bool_decide; [constructor; [set_solver|done]|].
  destruct (split_byte_cons c s) as (p & ps & Hs). rewrite Hs in *.
  inversion IH; subst. constructor; [set_solver|done].
Qed.

Lemma join_app c ps qs :
  ps ≠ [] → qs ≠ [] → join [c] (ps ++ qs) = join [c] ps ++ c :: join [c] qs.
Proof.
  intros Hp Hq. induction ps as [|p ps IH]; [done|]. destruct ps as [|p' ps].
  - cbn. by destruct qs.
  - change (join [c] ((p :: p' :: ps) ++ qs)) with (p ++ c :: join [c] ((p' :: ps) ++ qs)).
    change (join [c] (p :: p' :: ps)) with (p ++ c :: join [c] (p' :: ps)).
    rewrite IH by done. by rewrite <- app_assoc.
Qed.

Lemma join_split c s : join [c] (split_byte c s) = s.
Proof.
  induction s as [|x s IH]; cbn; [done|]. destruct (split_byte_cons c s) as (p & ps & Hs).
  rewrite Hs in *. case_bool_decide as Hx.
  - subst x. change (c :: join [c] (p :: ps) = c :: s). by rewrite IH.
  - rewrite <- IH. by destruct ps.
Qed.

(** A component is a part of the text. *)
Lemma elem_of_split_byte c s p : p ∈ split_byte c s → ∃ a b, s = a ++ p ++ b.
Proof.
  intros (l1 & l2 & Hs)%list_elem_of_split. pose proof (join_split c s) as Hj. rewrite Hs in Hj.
  destruct l1 as [|q l1]; [|rewrite join_app in Hj by done]; (destruct l2 as [|q2 l2]; [cbn in Hj|
    change (join [c] (p :: q2 :: l2)) with (p ++ c :: join [c] (q2 :: l2)) in Hj]); subst s.
  - exists [], []. by rewrite app_nil_r.
  - by exists [], (c :: join [c] (q2 :: l2)).
  - exists (join [c] (q :: l1) ++ [c]), []. by rewrite app_nil_r, <- app_assoc.
  - exists (join [c] (q :: l1) ++ [c]), (c :: join [c] (q2 :: l2)). by rewrite <- app_assoc.
Qed.

(** ** Elements *)

(** A component that names an entry of a directory. *)
Definition plain (c : bytes) : Prop := c ≠ [] ∧ c ≠ dot ∧ c ≠ dotdot ∧ slash ∉ c.

(** What [Clean] leaves: names, after a number of [..] in a relative path. *)
Definition canonical (rooted : bool) (stack : list bytes) : Prop :=
  ∃ n names, stack = names ++ replicate n dotdot ∧ Forall plain names ∧ (rooted = true → n = 0%nat).

Lemma clean_step_canonical rooted stack c :
  slash ∉ c → canonical rooted stack → canonical rooted (clean_step rooted stack c).
Proof.
  intros Hc (n & names & -> & Hn & Hr). unfold clean_step.
  destruct (bool_decide _ || bool_decide _) eqn:Hskip; [by exists n, names|].
  apply orb_false_elim in Hskip as [?%bool_decide_eq_false ?%bool_decide_eq_false].
  case_bool_decide as Hdd; subst.
  - destruct Hn as [|x names (? & ? & ? & ?) Hn]; cbn.
    + destruct n as [|n]; cbn; [destruct rooted; [by exists 0%nat, []|by exists 1%nat, []]|].
      rewrite bool_decide_true by done. exists (S (S n)), []. split_and!; [done|done|naive_solver].
    + rewrite bool_decide_false by done. by exists n, names.
  - exists n, (c :: names). split_and!; [done| |done]. by constructor.
Qed.

Lemma clean_stack_canonical rooted stack path :
  canonical rooted stack → canonical rooted (clean_stack rooted stack path).
Proof.
  unfold clean_stack. pose proof (split_byte_no_sep slash path) as Hs. revert stack.
  induction Hs as [|c cs Hc _ IH]; intros stack Hst; [done|].
  cbn. apply IH. by apply clean_step_canonical.
Qed.

Lemma elements_canonical path : canonical (IsAbs path) (reverse (elements path)).
Proof.
  unfold elements. rewrite reverse_involutive. apply clean_stack_canonical. by exists 0%nat, [].
Qed.

Lemma clean_step_plain rooted stack c : plain c → clean_step rooted stack c = c :: stack.
Proof. intros (? & ? & ? & _). unfold clean_step. by rewrite !bool_decide_false. Qed.

Lemma clean_names rooted stack names :
  Forall plain names → foldl (clean_step rooted) stack names = reverse names ++ stack.
Proof.
  intros Hn. revert stack. induction Hn as [|c names Hc _ IH]; intros stack; [done|].
  cbn [foldl]. rewrite IH, (clean_step_plain _ _ _ Hc), reverse_cons. by rewrite <- app_assoc.
Qed.

Lemma clean_dotdots n : foldl (clean_step false) [] (replicate n dotdot) = replicate n dotdot.
Proof.
  assert (∀ m, foldl (clean_step false) (replicate m dotdot) (replicate n dotdot) =
    replicate (m + n) dotdot) as Hm; [|exact (Hm 0%nat)].
  induction n as [|n IH]; intros m; cbn; [by rewrite Nat.add_0_r|].
  replace (clean_step false (replicate m dotdot) dotdot) with (replicate (S m) dotdot) by by destruct m.
  rewrite IH. f_equal. lia.
Qed.

(** Cleaning clean components again changes nothing. *)
Lemma clean_canonical rooted es :
  canonical rooted (reverse es) → foldl (clean_step rooted) [] es = reverse es.
Proof.
  intros (n & names & Hes & Hn & Hr). rewrite Hes.
  assert (es = replicate n dotdot ++ reverse names) as ->.
  { by rewrite <- (reverse_involutive es), Hes, reverse_app, reverse_replicate. }
  assert (foldl (clean_step rooted) [] (replicate n dotdot) = replicate n dotdot) as Hd.
  { destruct rooted; [by rewrite Hr|apply clean_dotdots]. }
  rewrite foldl_app, Hd, clean_names by by apply Forall_reverse. by rewrite reverse_involutive.
Qed.

Lemma canonical_component rooted es e :
  canonical rooted (reverse es) → e ∈ es → e ≠ [] ∧ e ≠ dot ∧ slash ∉ e.
Proof.
  intros (n & names & Hes & Hn & _) He. apply elem_of_reverse in He. rewrite Hes in He.
  apply elem_of_app in He as [He|[-> _]%elem_of_replicate].
  - rewrite Forall_forall in Hn. apply Hn in He as (? & ? & _ & ?). done.
  - split_and!; [done|done|]. unfold slash, dotdot. set_solver.
Qed.

Lemma join_relative es :
  Forall (λ e, e ≠ [] ∧ slash ∉ e) es → es ≠ [] → IsAbs (join [slash] es) = false.
Proof.
  intros Hes Hne. destruct Hes as [|e es [He Hs] _]; [done|]. destruct e as [|c e]; [done|].
  destruct es; cbn; apply bool_decide_eq_false; set_solver.
Qed.

Definition render (rooted : bool) (es : list bytes) : bytes :=
  if rooted then slash :: join [slash] es
  else match es with [] => dot | _ => join [slash] es end.

Lemma Clean_render path : Clean path = render (IsAbs path) (elements path).
Proof. done. Qed.

Lemma elements_render rooted es :
  canonical rooted (reverse es) → IsAbs (render rooted es) = rooted ∧ elements (render rooted es) = es.
Proof.
  intros Hc. assert (Hes : Forall (λ e, e ≠ [] ∧ slash ∉ e) es).
  { apply Forall_forall. intros e He. by destruct (canonical_component rooted es e Hc He) as (? & _ & ?). }
  assert (Hs : Forall (λ e, slash ∉ e) es) by (eapply Forall_impl; [exact Hes|by intros e []]).
  destruct (decide (es = [])) as [->|Hne]; [by destruct rooted|].
  assert (Habs : IsAbs (render rooted es) = rooted).
  { destruct rooted; [done|]. cbn. destruct es; [done|]. by apply join_relative. }
  split; [done|]. unfold elements, clean_stack. rewrite Habs.
  assert (foldl (clean_step rooted) [] (split_byte slash (render rooted es)) =
    foldl (clean_step rooted) [] es) as ->.
  { destruct rooted; cbn [render].
    - change (slash :: join [slash] es) with ([] ++ slash :: join [slash] es).
      by rewrite split_byte_app, split_byte_join.
    - destruct es as [|e es]; [done|]. by rewrite split_byte_join. }
  by rewrite clean_canonical, reverse_involutive.
Qed.

Lemma Clean_elements path : IsAbs (Clean path) = IsAbs path ∧ elements (Clean path) = elements path.
Proof. rewrite Clean_render. apply elements_render, elements_canonical. Qed.

Lemma Clean_Clean path : Clean (Clean path) = Clean path.
Proof. destruct (Clean_elements path) as [Ha He]. by rewrite (Clean_render (Clean path)), Ha, He. Qed.

(** ** Below a directory *)

(** Components that never climb above where they start act the same anywhere. *)
Lemma clean_below rooted stack cs :
  dotdot ∉ foldl (clean_step false) [] cs →
  foldl (clean_step rooted) stack cs = foldl (clean_step false) [] cs ++ stack.
Proof.
  induction cs as [|c cs IH] using rev_ind; [done|]. rewrite !foldl_snoc.
  set (st := foldl (clean_step false) [] cs) in *. intros Hno.
  assert (Hstep : (dotdot ∉ st) ∧ clean_step rooted (st ++ stack) c = clean_step false st c ++ stack).
  { unfold clean_step in *. destruct (bool_decide _ || bool_decide _); [done|].
    case_bool_decide as Hdd; [|split; [set_solver|done]].
    destruct st as [|top rest]; [set_solver|]. cbn.
    case_bool_decide; [set_solver|]. split; [set_solver|done]. }
  destruct Hstep as [Hst Hstep]. by rewrite IH, Hstep.
Qed.

Lemma IsAbs_app a b : a ≠ [] → IsAbs (a ++ b) = IsAbs a.
Proof. by destruct a. Qed.

Lemma elements_app a b :
  a ≠ [] → elements (a ++ slash :: b) = reverse (clean_stack (IsAbs a) (reverse (elements a)) b).
Proof.
  intros Ha. unfold elements at 1. unfold clean_stack. rewrite split_byte_app, foldl_app, IsAbs_app by done.
  unfold elements. by rewrite reverse_involutive.
Qed.

(** Joining a path that does not climb goes down from the base. *)
Lemma Join_below a b :
  a ≠ [] → IsAbs b = false → dotdot ∉ elements b →
  IsAbs (Join [a; b]) = IsAbs a ∧ elements (Join [a; b]) = elements a ++ elements b ∧
  Clean (Join [a; b]) = Join [a; b].
Proof.
  intros Ha Hb Hno.
  assert (Join [a; b] = Clean (a ++ slash :: b)) as -> by (by destruct a).
  destruct (Clean_elements (a ++ slash :: b)) as [Habs Hes].
  rewrite Habs, Hes, IsAbs_app by done. split; [done|]. split; [|apply Clean_Clean].
  rewrite elements_app by done. unfold elements at 3. rewrite Hb.
  unfold elements in Hno. rewrite Hb in Hno. unfold clean_stack in *.
  rewrite clean_below by (intros Hin; apply Hno; by apply elem_of_reverse).
  by rewrite reverse_app, reverse_involutive.
Qed.

(** An absolute path that is clean. *)
Definition clean_abs (p : bytes) : Prop := IsAbs p = true ∧ Clean p = p.

Lemma clean_abs_render p : clean_abs p → p = slash :: join [slash] (elements p).
Proof. intros [Ha Hc]. rewrite <- Hc at 1. by rewrite Clean_render, Ha. Qed.

Lemma clean_abs_inj p q : clean_abs p → clean_abs q → elements p = elements q → p = q.
Proof. intros Hp%clean_abs_render Hq%clean_abs_render He. by rewrite Hp, Hq, He. Qed.

Lemma clean_abs_Clean p : IsAbs p = true → clean_abs (Clean p).
Proof. intros Ha. split; [by rewrite (proj1 (Clean_elements p))|apply Clean_Clean]. Qed.

Lemma clean_abs_Join p q : IsAbs p = true → clean_abs (Join [p; q]).
Proof. intros Ha. destruct p as [|c p]; [done|]. exact (clean_abs_Clean (c :: p ++ slash :: q) Ha). Qed.

Definition below (base p : bytes) : Prop := p = base ∨ ∃ rest, p = base ++ slash :: rest.

(** The textual test for being below, on clean paths: the root has nothing below. *)
Lemma below_elements base p es :
  clean_abs base → clean_abs p → elements p = elements base ++ es → es ≠ [] →
  below base p ↔ elements base ≠ [].
Proof.
  intros Hb Hp He Hne. pose proof (clean_abs_render _ Hp) as Hr. rewrite He in Hr. split.
  - intros Hbelow Hnil. rewrite Hnil in Hr. cbn in Hr. apply clean_abs_render in Hb. rewrite Hnil in Hb.
    cbn in Hb. destruct Hp as [Habs Hclean].
    assert (Hes : IsAbs (join [slash] es) = false).
    { apply join_relative; [|done]. apply Forall_forall. intros e Hin.
      destruct (canonical_component true (elements p) e) as (? & _ & ?); [|by rewrite He, Hnil|done].
      rewrite <- Habs. apply elements_canonical. }
    assert (Hj : join [slash] es ≠ []).
    { intros Hj. rewrite Hj in Hr. rewrite Hr in He. rewrite Hnil in He. cbn in He. by rewrite <- He in Hne. }
    destruct Hbelow as [Hbelow|[rest Hbelow]]; rewrite Hbelow, Hb in Hr; injection Hr as Hr.
    + by rewrite <- Hr in Hj.
    + by rewrite <- Hr in Hes.
  - intros Hnil. right. exists (join [slash] es). apply clean_abs_render in Hb. rewrite join_app in Hr by done.
    rewrite Hr. rewrite Hb at 2. done.
Qed.
