(* ===== verification/Disk.v ===== *)
(** The disk: what the program asks the operating system and go-git about it.

    [Filesystem] and [Storer] are the calls, over an abstract state; [Disk] and
    [GoGit] say what they do on a disk of type [D], and the instances run them on
    a [World].  [DiskLaws] are the documented facts about [git.PlainInit] that the
    proofs use, and [SimDisk] a concrete disk. *)

From S2P Require Import Prelude.
From S2P Require Import Platform.
From S2P Require Import World.
From S2P Require Import Filepath.

(** ** The operating system and [git.PlainInit] *)

(** [osfs_Stat root name] is [osfs.New(root).Stat(name)], and
    [git_PlainInit path branch] makes a bare repository, with [branch] for the
    option [WithDefaultBranch]. *)
Class Filesystem (S : Type) := {
  os_Getwd : M S bytes;
  os_Stat : bytes → M S unit;
  filepath_EvalSymlinks : bytes → M S bytes;
  osfs_Stat : bytes → bytes → M S unit;
  git_PlainInit : bytes → option string → M S unit;
}.

(** [git.ErrRepositoryAlreadyExists] of go-git *)
Definition git_ErrRepositoryAlreadyExists : error :=
  errors_New "go-git" "repository already exists".

Class Disk (D : Type) := {
  disk_Getwd : D → result bytes;
  disk_Stat : D → bytes → result unit;
  disk_EvalSymlinks : D → bytes → result bytes;
  disk_osfs_Stat : D → bytes → bytes → result unit;
  disk_PlainInit : nat → bytes → option string → D → result unit * D;
}.

(** [os.IsNotExist] *)
Class OsErrors := os_IsNotExist : error → bool.

#[export] Instance World_Filesystem {R D} `{Oracle} `{Disk D} : Filesystem (World R D) := {|
  os_Getwd w := (disk_Getwd (disk w), tick w);
  os_Stat path w := (disk_Stat (disk w) path, tick w);
  filepath_EvalSymlinks path w := (disk_EvalSymlinks (disk w) path, tick w);
  osfs_Stat root name w := (disk_osfs_Stat (disk w) root name, tick w);
  git_PlainInit path branch w :=
    let '(r, k) := disk_PlainInit (calls w) path branch (disk w) in (r, set_disk k (tick w));
|}.

(** [config] is the file by which the program knows a repository. *)
Definition config_file : bytes := unstr "config".

(** [PlainInit] makes a repository, or fails: with [ErrRepositoryAlreadyExists]
    where there is one. *)
Class DiskLaws (D : Type) `{Disk D} := {
  is_repo : D → bytes → Prop;
  disk_Getwd_abs d wd : disk_Getwd d = Ok wd → IsAbs wd = true;
  PlainInit_Ok n p b d d' :
    disk_PlainInit n p b d = (Ok tt, d') →
    is_repo d' p ∧ disk_osfs_Stat d' p config_file = Ok tt;
  PlainInit_exists n p b d :
    is_repo d p → disk_PlainInit n p b d = (Err git_ErrRepositoryAlreadyExists, d);
  PlainInit_keeps n p b d r d' q :
    disk_PlainInit n p b d = (r, d') → is_repo d q → is_repo d' q;
}.

(** ** go-git's storage of one repository *)

(** [plumbing.Reference]: [ref_target] is empty unless it is symbolic. *)
Record Reference := { ref_name : string; ref_hash : string; ref_target : string }.

Record UploadPackOptions := { up_StatelessRPC : bool; up_AdvertiseRefs : bool }.
Record ReceivePackOptions := { rp_StatelessRPC : bool }.

(** An iterator is what it delivers and the error it ends in, if any.  A pack
    operation reads the request and gives what it wrote and its error. *)
Class Storer (S : Type) := {
  storer_IterReferences : bytes → M S (list Reference * option error);
  storer_IterCommits : bytes → M S (list string * option error);
  storer_Reference : bytes → string → M S (option Reference);
  object_GetCommit : bytes → string → M S Z;
  transport_UploadPack : bytes → UploadPackOptions → bytes → M S (bytes * option error);
  transport_ReceivePack : bytes → ReceivePackOptions → bytes → M S (bytes * option error);
}.

Class GoGit (D : Type) := {
  gg_IterReferences : D → bytes → result (list Reference * option error);
  gg_IterCommits : D → bytes → result (list string * option error);
  gg_Reference : D → bytes → string → result (option Reference);
  gg_GetCommit : D → bytes → string → result Z;
  gg_UploadPack : nat → bytes → UploadPackOptions → bytes → D → (bytes * option error) * D;
  gg_ReceivePack : nat → bytes → ReceivePackOptions → bytes → D → (bytes * option error) * D;
}.

(** [ReferenceName.IsBranch] and [IsTag] *)
Class RefNames := {
  ref_IsBranch : string → bool;
  ref_IsTag : string → bool;
}.

#[export] Instance World_Storer {R D} `{Oracle} `{GoGit D} : Storer (World R D) := {|
  storer_IterReferences path w := (gg_IterReferences (disk w) path, tick w);
  storer_IterCommits path w := (gg_IterCommits (disk w) path, tick w);
  storer_Reference path name w := (gg_Reference (disk w) path name, tick w);
  object_GetCommit path hash w := (gg_GetCommit (disk w) path hash, tick w);
  transport_UploadPack path opts req w :=
    let '(r, k) := gg_UploadPack (calls w) path opts req (disk w) in (Ok r, set_disk k (tick w));
  transport_ReceivePack path opts req w :=
    let '(r, k) := gg_ReceivePack (calls w) path opts req (disk w) in (Ok r, set_disk k (tick w));
|}.

Definition plumbing_HEAD : string := "HEAD".

(** ** A concrete disk: the set of its repositories, without links *)

Module SimDisk.

Definition ENOENT : error := errors_New "os" "file does not exist".

#[export] Instance sim_disk : Disk (gset (list ascii)) := {|
  disk_Getwd _ := Ok (unstr "/srv");
  disk_Stat d p := if bool_decide (p ∈ d) then Ok tt else Err ENOENT;
  disk_EvalSymlinks _ p := Ok p;
  disk_osfs_Stat d root name :=
    if bool_decide (root ∈ d) && bool_decide (name = config_file) then Ok tt else Err ENOENT;
  disk_PlainInit _ p _ d :=
    if bool_decide (p ∈ d) then (Err git_ErrRepositoryAlreadyExists, d) else (Ok tt, {[p]} ∪ d);
|}.

#[export] Instance sim_os_errors : OsErrors := λ e, bool_decide (e = ENOENT).

#[export] Instance sim_disk_laws : DiskLaws (gset (list ascii)).
Proof.
  apply (Build_DiskLaws _ _ (λ d p, p ∈ d)).
  - cbn. by intros d wd [= <-].
  - cbn. intros n p b d d'. case_bool_decide; intros [= <-]. rewrite !bool_decide_true; [|done|set_solver].
    set_solver.
  - cbn. intros n p b d Hp. by rewrite bool_decide_true.
  - cbn. intros n p b d r d' q. case_bool_decide; intros [= <- <-]; set_solver.
Defined.
End SimDisk.
