(* ===== verification/Repos.v ===== *)
(** Git repositories: [internal/modules/git/], their rows in the database and
    their directories on disk.  go-git's storage and pack transport are
    parameters (Disk.v). *)

From S2P Require Import Prelude.
From S2P Require Import Bytes.
From S2P Require Import Regexp.
From S2P Require Import Platform.
From S2P Require Import Database.
From S2P Require Import Integrity.
From S2P Require Import World.
From S2P Require Import Filepath.
From S2P Require Import Disk.
From S2P Require Import GoStrings.

(** [strconv.Quote], for the verb [%q]: it needs Unicode's tables of printable
    characters. *)
Class Quoting := strconv_Quote : string → string.

Module git.

(** ** domain.go *)

Definition ErrRepoNotFound : error := errors_New "git" "repository not found".
Definition ErrRepoAlreadyExists : error := errors_New "git" "repository already exists".
Definition ErrInvalidRepoName : error := errors_New "git" "invalid repository name".
Definition ErrRepoAccessDenied : error := errors_New "git" "repository access denied".

Record GitRepository := {
  ID : UUID;
  Name : string;
  Description : string;
  IsPrivate : bool;
  IsDeleted : bool;
  CreatedAt : Z;
  UpdatedAt : Z;
  OwnerID : UUID;
  DefaultRef : string;
  Head : string;
}.

#[export] Instance GitRepository_eq_dec : EqDecision GitRepository.
Proof. solve_decision. Defined.

Record CreateInput := {
  create_Id : UUID;
  create_Name : string;
  create_Description : string;
  create_IsPrivate : bool;
  create_OwnerID : UUID;
  create_DefaultRef : string;
}.

(** A nil pointer is [None]. *)
Record UpdateInput := {
  update_Name : option string;
  update_Description : option string;
  update_IsPrivate : option bool;
  update_OwnerId : option UUID;
  update_DefaultRef : option string;
}.

Record RefInfo := { ref_Name : string; ref_Hash : string; ref_Peeled : string }.

Record RepoStats := {
  BranchCount : Z;
  TagCount : Z;
  CommitCount : Z;
  SizeBytes : Z;
  LastCommitTime : Z;
}.

Record UploadPackRequest := {
  upload_RepoPath : string;
  upload_Adverts : bool;
  upload_StatelessRPC : bool;
}.

Record ReceivePackRequest := { receive_RepoPath : string; receive_StatelessRPC : bool }.

(** ** repository.go *)

Class Repository (S : Type) := {
  repo_Create : CreateInput → M S GitRepository;
  repo_GetByID : UUID → M S GitRepository;
  repo_GetByName : UUID → string → M S GitRepository;
  repo_ListByOwner : UUID → M S (list GitRepository);
  repo_Update : UUID → UpdateInput → M S GitRepository;
  repo_SoftDelete : UUID → M S unit;
  repo_Delete : UUID → M S unit;
}.

(** ** store.go *)

Definition fromSqlcRepo (g : sqlc.GitRepository) : GitRepository := {|
  ID := fromPgUUID (sqlc.Repo_ID g); Name := sqlc.Repo_Name g;
  Description := Text_String (sqlc.Repo_Description g);
  IsPrivate := sqlc.Repo_IsPrivate g; IsDeleted := sqlc.Repo_IsDeleted g;
  CreatedAt := Time (sqlc.Repo_CreatedAt g); UpdatedAt := Time (sqlc.Repo_UpdatedAt g);
  OwnerID := fromPgUUID (sqlc.Repo_OwnerID g); DefaultRef := sqlc.Repo_DefaultRef g;
  Head := sqlc.Repo_Head g |}.

Module Store.
Section store.
Context {S : Type} `{Postgres} `{DBTX S}.

Definition Create (input : CreateInput) : M S GitRepository :=
  row ← Queries.CreateRepository {|
    Queries.CreateRepository_ID := toPgUUID (create_Id input);
    Queries.CreateRepository_Name := create_Name input;
    Queries.CreateRepository_Description := optional_Text (create_Description input);
    Queries.CreateRepository_IsPrivate := create_IsPrivate input;
    Queries.CreateRepository_OwnerID := toPgUUID (create_OwnerID input);
    Queries.CreateRepository_DefaultRef := create_DefaultRef input |};
  mret (fromSqlcRepo row).

Definition GetByID (id : UUID) : M S GitRepository :=
  r ← attempt (Queries.GetRepositoryByID (toPgUUID id));
  row ← lift (no_rows ErrRepoNotFound r);
  mret (fromSqlcRepo row).

Definition GetByName (ownerID : UUID) (name : string) : M S GitRepository :=
  rows ← Queries.GetRepositoryByRepositoryName name;
  match find (λ row, bool_decide (sqlc.Repo_OwnerID row = toPgUUID ownerID) &&
                     negb (sqlc.Repo_IsDeleted row)) rows with
  | Some row => mret (fromSqlcRepo row)
  | None => fail ErrRepoNotFound
  end.

Definition ListByOwner (ownerID : UUID) : M S (list GitRepository) :=
  rows ← Queries.GetRepositoryByOwnerId (toPgUUID ownerID);
  mret (fromSqlcRepo <$> filter (λ row, sqlc.Repo_IsDeleted row = false) rows).

Definition Update (id : UUID) (input : UpdateInput) : M S GitRepository :=
  existing ← GetByID id;
  let name := default (Name existing) (update_Name input) in
  let description := default (Description existing) (update_Description input) in
  let isPrivate := default (IsPrivate existing) (update_IsPrivate input) in
  let ownerID := default (OwnerID existing) (update_OwnerId input) in
  let defaultRef := default (DefaultRef existing) (update_DefaultRef input) in
  Queries.UpdateRepository {|
    Queries.UpdateRepository_ID := toPgUUID id;
    Queries.UpdateRepository_Name := name;
    Queries.UpdateRepository_Description := optional_Text description;
    Queries.UpdateRepository_IsPrivate := isPrivate;
    Queries.UpdateRepository_OwnerID := toPgUUID ownerID;
    Queries.UpdateRepository_DefaultRef := defaultRef |};;
  GetByID id.

Definition SoftDelete (id : UUID) : M S unit :=
  Queries.SoftDeleteRepository (toPgUUID id);; mret tt.

Definition Delete (id : UUID) : M S unit := SoftDelete id.
End store.
End Store.

#[export] Instance Store_Repository {S} `{Postgres} `{DBTX S} : Repository S := {|
  repo_Create := Store.Create;
  repo_GetByID := Store.GetByID;
  repo_GetByName := Store.GetByName;
  repo_ListByOwner := Store.ListByOwner;
  repo_Update := Store.Update;
  repo_SoftDelete := Store.SoftDelete;
  repo_Delete := Store.Delete;
|}.

(** ** service.go: names and paths *)

(** [^[a-zA-Z0-9][a-zA-Z0-9._-]*$] *)
Definition name_char (c : byte) : bool := alnum c || one_of (unstr "._-") c.
Definition validRepoName : regexp := Cat (Class_ alnum) (Star (Class_ name_char)).

Definition invalid_name `{Quoting} (name : string) : error :=
  fmt_Errorf_w EmptyString ErrInvalidRepoName (": " +:+ strconv_Quote name).

Definition ValidateRepoName `{Quoting} (name : string) : result unit :=
  if negb (MatchString validRepoName (unstr name)) then Err (invalid_name name) else Ok tt.

Definition SanitizeRepoPath (path : string) : string :=
  let path := TrimPrefix (unstr path) [slash] in
  let path := ReplaceAll dotdot [] path in
  let path := Trim_byte slash path in
  str path.

Definition BuildRepoPath (base : string) (components : list string) : string :=
  let parts := foldl (λ parts c, parts ++ [unstr (SanitizeRepoPath c)]) [unstr base] components in
  str (join [slash] parts).

Definition repoNameFromPath (path : string) : string :=
  match last (split_byte slash (unstr path)) with
  | Some part => str part
  | None => path
  end.

(** [GitRepository{Name: name}] *)
Definition named (name : string) : GitRepository := {|
  ID := uuid_Nil; Name := name; Description := EmptyString; IsPrivate := false;
  IsDeleted := false; CreatedAt := zero_Time; UpdatedAt := zero_Time; OwnerID := uuid_Nil;
  DefaultRef := EmptyString; Head := EmptyString |}.

Module Service.
Section service.
Context {S : Type} `{Quoting} `{Entropy S} `{Filesystem S} `{Storer S}.

(** The [reposDir] of the [Service]. *)
Context (reposDir : string).

Definition RepoPath (repo : GitRepository) : bytes :=
  Join [unstr reposDir; unstr (SanitizeRepoPath (Name repo))].

(** The storage of a repository is known by its path; opening it cannot fail. *)
Definition openStorer (repo : GitRepository) : M S bytes := mret (RepoPath repo).

Definition Create (input : CreateInput) : M S GitRepository :=
  if negb (MatchString validRepoName (unstr (create_Name input))) then
    fail (invalid_name (create_Name input))
  else
    id ← uuid_New;
    let repo := {|
      ID := id; Name := create_Name input; Description := create_Description input;
      IsPrivate := create_IsPrivate input; IsDeleted := false;
      CreatedAt := zero_Time; UpdatedAt := zero_Time; OwnerID := create_OwnerID input;
      DefaultRef := create_DefaultRef input; Head := EmptyString |} in
    let path := RepoPath repo in
    let opts := if bool_decide (DefaultRef repo = EmptyString) then None else Some (DefaultRef repo) in
    mwrap "init bare repo: " (git_PlainInit path opts);;
    mret repo.

Definition GetByID (id : UUID) : M S GitRepository :=
  fail (fmt_Errorf_w EmptyString ErrRepoNotFound ": lookup by ID not implemented").

Definition GetByName (ownerID : UUID) (name : string) : M S GitRepository :=
  id ← uuid_New;
  let repo := {|
    ID := id; Name := name; Description := EmptyString; IsPrivate := false;
    IsDeleted := false; CreatedAt := zero_Time; UpdatedAt := zero_Time; OwnerID := ownerID;
    DefaultRef := EmptyString; Head := EmptyString |} in
  r ← attempt (osfs_Stat (RepoPath repo) config_file);
  match r with
  | Err _ => fail (fmt_Errorf_w EmptyString ErrRepoNotFound (": " +:+ name))
  | Ok _ => mret repo
  end.

Definition ListByOwner (ownerID : UUID) : M S (list GitRepository) :=
  fail (fmt_Errorf "list by owner: not implemented without database").

Definition Update (id : UUID) (input : UpdateInput) : M S GitRepository :=
  fail (fmt_Errorf "update: not implemented without database").

Definition Delete (id : UUID) : M S unit :=
  fail (fmt_Errorf "delete: not implemented without database").

Definition GetRefs (repo : GitRepository) : M S (list RefInfo) :=
  storer ← mwrap "open storer: " (openStorer repo);
  '(refs, stop) ← mwrap "iter references: " (storer_IterReferences storer);
  match stop with
  | Some err => fail (fmt_Errorf_w "walk references: " err EmptyString)
  | None => mret ((λ ref, {| ref_Name := ref_name ref; ref_Hash := ref_hash ref;
                             ref_Peeled := ref_target ref |}) <$> refs)
  end.

Definition Exists (repo : GitRepository) : M S bool :=
  r ← attempt (osfs_Stat (RepoPath repo) config_file);
  mret (is_Ok r).

(** The writer and what is written to it are the result. *)
Definition UploadPack (req : UploadPackRequest) (r : bytes) : M S (bytes * option error) :=
  storer ← mwrap "open storer: " (openStorer (named (repoNameFromPath (upload_RepoPath req))));
  transport_UploadPack storer {| up_StatelessRPC := upload_StatelessRPC req;
                                 up_AdvertiseRefs := upload_Adverts req |} r.

Definition ReceivePack (req : ReceivePackRequest) (r : bytes) : M S (bytes * option error) :=
  storer ← mwrap "open storer: " (openStorer (named (repoNameFromPath (receive_RepoPath req))));
  transport_ReceivePack storer {| rp_StatelessRPC := receive_StatelessRPC req |} r.
End service.

Section stats.
Context {S : Type} `{Storer S} `{RefNames}.
Context (reposDir : string).

Definition count {A} (p : A → bool) (l : list A) : Z := Z.of_nat (length (filter p l)).

(** The errors are ignored, and the size is not computed. *)
Definition GetStats (repo : GitRepository) : M S RepoStats :=
  storer ← mwrap "open storer: " (openStorer reposDir repo);
  refs ← attempt (storer_IterReferences storer);
  let names := match refs with Ok (refs, _) => ref_name <$> refs | Err _ => [] end in
  commits ← attempt (storer_IterCommits storer);
  let objects := match commits with Ok (objects, _) => objects | Err _ => [] end in
  head ← attempt (storer_Reference storer plumbing_HEAD);
  lastCommitTime ← match head with
    | Ok (Some head) =>
        commitObj ← attempt (object_GetCommit storer (ref_hash head));
        mret (match commitObj with Ok t => t | Err _ => zero_Time end)
    | _ => mret zero_Time
    end;
  mret {|
    BranchCount := count ref_IsBranch names; TagCount := count ref_IsTag names;
    CommitCount := Z.of_nat (length objects); SizeBytes := 0;
    LastCommitTime := lastCommitTime |}.
End stats.
End Service.

(** ** The directory of a repository *)

(** A text without [..]. *)
Fixpoint double_dot (s : bytes) : bool :=
  match s with
  | c :: s' => bool_decide (c = "."%char) && bool_decide (head s' = Some "."%char) || double_dot s'
  | [] => false
  end.

Lemma double_dot_app a b : double_dot (a ++ b) = false → double_dot a = false ∧ double_dot b = false.
Proof.
  induction a as [|c a IH]; [done|]. cbn. intros [Hc Hab]%orb_false_elim.
  destruct (IH Hab) as [-> ->]. split; [|done]. rewrite orb_false_r.
  destruct a; cbn in *; [by rewrite andb_false_r|done].
Qed.

Lemma double_dot_dotdot a b : double_dot (a ++ dotdot ++ b) = true.
Proof. apply not_false_iff_true. intros [_ [H _]%double_dot_app]%double_dot_app. by vm_compute in H. Qed.

(** Removing the double dots leaves none, and changes nothing where there were none. *)
Lemma remove_dotdot fuel s :
  (length s ≤ fuel)%nat →
  double_dot (replace_loop dotdot [] fuel s) = false ∧
  (head s ≠ Some "."%char → head (replace_loop dotdot [] fuel s) = head s) ∧
  (double_dot s = false → replace_loop dotdot [] fuel s = s).
Proof.
  revert s. induction fuel as [|fuel IH]; intros s Hl; [destruct s; cbn in *; [done|lia]|].
  destruct s as [|c s]; [done|]. cbn [replace_loop]. cbn in Hl.
  destruct (strip_prefix dotdot (c :: s)) as [rest|] eqn:Hstrip.
  - apply strip_prefix_Some in Hstrip. cbn in Hstrip. simplify_eq. cbn in *.
    split; [apply IH; lia|]. done.
  - destruct (IH s ltac:(lia)) as (Hno & Hhead & Hsame). split_and!; [|done|].
    + cbn. rewrite Hno, orb_false_r. destruct (decide (c = "."%char)) as [->|]; [|by rewrite bool_decide_false].
      assert (head s ≠ Some "."%char) as Hs.
      { destruct s as [|c' s]; [done|]. by intros [= ->]. }
      rewrite Hhead by done. by rewrite (bool_decide_false _ Hs).
    + intros [_ Hs]%orb_false_elim. by rewrite Hsame.
Qed.

(** A text that [SanitizeRepoPath] leaves as it is. *)
Definition sanitized (s : bytes) : Prop :=
  double_dot s = false ∧ head s ≠ Some slash ∧ last s ≠ Some slash.

Lemma SanitizeRepoPath_sanitized path : sanitized (unstr (SanitizeRepoPath path)).
Proof.
  unfold SanitizeRepoPath, sanitized. rewrite unstr_str.
  set (s := TrimPrefix _ _). destruct (Trim_byte_spec slash (ReplaceAll dotdot [] s)) as (l & r & Hs & Hh & Hl).
  split; [|done]. destruct (remove_dotdot (length s) s) as [Hno _]; [done|].
  fold (ReplaceAll dotdot [] s) in Hno. rewrite Hs in Hno.
  by apply double_dot_app in Hno as [_ [? _]%double_dot_app].
Qed.

Lemma SanitizeRepoPath_same path : sanitized (unstr path) → SanitizeRepoPath path = path.
Proof.
  intros (Hdd & Hh & Hl). unfold SanitizeRepoPath.
  assert (TrimPrefix (unstr path) [slash] = unstr path) as ->.
  { unfold TrimPrefix. destruct (strip_prefix _ _) as [rest|] eqn:Hp; [|done].
    apply strip_prefix_Some in Hp. by rewrite Hp in Hh. }
  destruct (remove_dotdot (length (unstr path)) (unstr path)) as (_ & _ & Hsame); [done|].
  unfold ReplaceAll. rewrite Hsame, Trim_byte_same by done. apply str_unstr.
Qed.

Lemma split_no_dotdot s : double_dot s = false → dotdot ∉ split_byte slash s.
Proof. intros Hdd (a & b & ->)%elem_of_split_byte. by rewrite double_dot_dotdot in Hdd. Qed.

Lemma elements_no_dotdot s : double_dot s = false → dotdot ∉ elements s.
Proof.
  intros Hdd%split_no_dotdot. unfold elements, clean_stack. rewrite elem_of_reverse.
  assert (Hgen : ∀ rooted cs stack, dotdot ∉ stack → dotdot ∉ cs →
    dotdot ∉ foldl (clean_step rooted) stack cs); [|apply Hgen; [set_solver|done]].
  clear. intros rooted cs. induction cs as [|c cs IH]; [done|]. intros stack Hst Hcs.
  cbn. apply IH; [|set_solver]. unfold clean_step.
  destruct (bool_decide _ || bool_decide _); [done|]. rewrite bool_decide_false; set_solver.
Qed.

Section paths.
Context `{Quoting} (reposDir : string).

Lemma RepoPath_elements repo :
  reposDir ≠ EmptyString →
  IsAbs (Service.RepoPath reposDir repo) = IsAbs (unstr reposDir) ∧
  elements (Service.RepoPath reposDir repo) =
    elements (unstr reposDir) ++ elements (unstr (SanitizeRepoPath (Name repo))) ∧
  dotdot ∉ elements (unstr (SanitizeRepoPath (Name repo))).
Proof.
  intros Hne. destruct (SanitizeRepoPath_sanitized (Name repo)) as (Hdd & Hh & _).
  pose proof (elements_no_dotdot _ Hdd) as Hno. unfold Service.RepoPath.
  destruct (Join_below (unstr reposDir) (unstr (SanitizeRepoPath (Name repo)))) as (Ha & He & _).
  - intros ->%unstr_nil_inv. done.
  - destruct (unstr (SanitizeRepoPath _)); [done|]. cbn in *. apply bool_decide_eq_false. naive_solver.
  - done.
  - done.
Qed.

Lemma ValidateRepoName_chars name :
  ValidateRepoName name = Ok tt →
  ∃ c cs, unstr name = c :: cs ∧ alnum c = true ∧ Forall (λ c, name_char c = true) cs.
Proof.
  unfold ValidateRepoName. destruct (MatchString _ _) eqn:Hm; [|done]. intros _.
  apply MatchString_spec, matches_Cat in Hm as (s1 & s2 & Hs & H1 & H2).
  apply matches_Class in H1 as (c & -> & Hc). apply matches_Star_Class in H2. by exists c, s2.
Qed.

Lemma replace_subset fuel s : replace_loop dotdot [] fuel s ⊆ s.
Proof.
  revert s. induction fuel as [|fuel IH]; intros s; [done|]. destruct s as [|c s]; [done|].
  cbn [replace_loop]. destruct (strip_prefix dotdot (c :: s)) as [rest|] eqn:Hp.
  - apply strip_prefix_Some in Hp as ->. specialize (IH rest). set_solver.
  - specialize (IH s). set_solver.
Qed.

(** The directory of a valid name is one name. *)
Lemma valid_name_plain name :
  ValidateRepoName name = Ok tt → plain (unstr (SanitizeRepoPath name)).
Proof.
  intros (c & cs & Hn & Hc & Hcs)%ValidateRepoName_chars.
  assert (Hdot : c ≠ "."%char) by (by intros ->).
  assert (Hslash : slash ∉ c :: cs).
  { intros [<-|Hin]%elem_of_cons; [done|]. rewrite Forall_forall in Hcs. by apply Hcs in Hin. }
  unfold SanitizeRepoPath. rewrite unstr_str, Hn.
  assert (TrimPrefix (c :: cs) [slash] = c :: cs) as ->.
  { unfold TrimPrefix. destruct (strip_prefix _ _) as [rest|] eqn:Hp; [|done].
    apply strip_prefix_Some in Hp. rewrite Hp in Hslash. set_solver. }
  unfold ReplaceAll. cbn [length replace_loop].
  destruct (strip_prefix dotdot (c :: cs)) as [rest|] eqn:Hp.
  { apply strip_prefix_Some in Hp. by injection Hp as -> _. }
  set (e := c :: replace_loop _ _ _ _).
  assert (He : slash ∉ e).
  { pose proof (replace_subset (length cs) cs). subst e. set_solver. }
  rewrite Trim_byte_same.
  - subst e. unfold plain, dot, dotdot. split_and!; [done|by intros [= -> ?]|by intros [= -> ?]|done].
  - intros Hh. apply He. destruct e; [done|]. injection Hh as ->. apply list_elem_of_here.
  - intros Hl%last_Some_elem_of. done.
Qed.

Lemma elements_plain e : plain e → elements e = [e].
Proof.
  intros (Hne & Hd & Hdd & Hs). unfold elements, clean_stack. rewrite split_byte_plain by done.
  cbn. unfold clean_step. by rewrite !bool_decide_false.
Qed.

(** C28: The directory of a repository, whatever its name, is below reposDir: its path
    has the elements of reposDir followed by those of the sanitized name, among which
    there is no double dot. For a valid name that is one directory, named as the
    repository if the name has no double dot, and two valid names share it exactly when
    they agree without their double dots. *)
Theorem RepoPath_stays_below repo :
  reposDir ≠ EmptyString →
  let e := unstr (SanitizeRepoPath (Name repo)) in
  (IsAbs (Service.RepoPath reposDir repo) = IsAbs (unstr reposDir) ∧
   elements (Service.RepoPath reposDir repo) = elements (unstr reposDir) ++ elements e ∧
   dotdot ∉ elements e) ∧
  (ValidateRepoName (Name repo) = Ok tt →
     plain e ∧ elements e = [e] ∧ (double_dot (unstr (Name repo)) = false → e = unstr (Name repo)) ∧
     ∀ repo', ValidateRepoName (Name repo') = Ok tt →
       Service.RepoPath reposDir repo = Service.RepoPath reposDir repo' ↔
       SanitizeRepoPath (Name repo) = SanitizeRepoPath (Name repo')).
Proof.
  intros Hne e. split; [by apply RepoPath_elements|]. intros Hv.
  pose proof (valid_name_plain _ Hv) as Hp. pose proof (elements_plain _ Hp) as He.
  split_and!; [done|done| |].
  - intros Hdd. subst e. rewrite SanitizeRepoPath_same; [done|]. split; [done|].
    apply ValidateRepoName_chars in Hv as (c & cs & -> & Hc & Hcs). split.
    + by intros [= ->].
    + intros Hl%last_Some_elem_of. apply elem_of_cons in Hl as [<-|Hin]; [done|].
      rewrite Forall_forall in Hcs. by apply Hcs in Hin.
  - intros repo' Hv'. split; [|by unfold Service.RepoPath; intros ->].
    intros Heq. destruct (RepoPath_elements repo Hne) as (_ & H1 & _).
    destruct (RepoPath_elements repo' Hne) as (_ & H2 & _).
    pose proof (elements_plain _ (valid_name_plain _ Hv')) as He'.
    subst e. rewrite Heq, H2, He', He in H1.
    apply app_inv_head in H1. injection H1 as H1. by apply (inj unstr).
Qed.
End paths.

(** ** The repositories of the database *)

Section rows.
Context {R D : Type} `{PostgresLaws} `{OracleLaws}.
Implicit Types (w : World R D) (d : Database) (g : GitRepository) (id owner : UUID).

Definition repo_row d g : Prop := ∃ row, row ∈ git_repository d ∧ fromSqlcRepo row = g.

Lemma repo_row_ids d row :
  Integrity d → row ∈ git_repository d →
  sqlc.Repo_ID row = toPgUUID (ID (fromSqlcRepo row)) ∧
  sqlc.Repo_OwnerID row = toPgUUID (OwnerID (fromSqlcRepo row)).
Proof.
  intros Hi Hin. pose proof (git_repository_fkey _ Hi) as Hf. rewrite Forall_forall in Hf.
  apply Hf in Hin as [Hid Ho]. apply list_elem_of_fmap in Ho as (u & Hu & Hin).
  pose proof (users_valid _ Hi) as Hv. rewrite Forall_forall in Hv. apply Hv in Hin.
  rewrite <- Hu in Hin. cbn. unfold fromPgUUID. rewrite Hid, Hin.
  destruct (sqlc.Repo_ID row) as [? []], (sqlc.Repo_OwnerID row) as [? []]; done.
Qed.

Lemma repo_row_unique d g1 g2 :
  Integrity d → repo_row d g1 → repo_row d g2 → ID g1 = ID g2 → g1 = g2.
Proof.
  intros Hi (r1 & Hin1 & <-) (r2 & Hin2 & <-) Heq.
  destruct (repo_row_ids _ _ Hi Hin1) as [Hid1 _], (repo_row_ids _ _ Hi Hin2) as [Hid2 _].
  rewrite Heq, <- Hid2 in Hid1.
  by rewrite (NoDup_key sqlc.Repo_ID _ _ _ (git_repository_pkey _ Hi) Hin1 Hin2 Hid1).
Qed.

Lemma GetByID_inv id w r w' :
  Integrity (db w) → repo_GetByID id w = (r, w') →
  w' = tick w ∧
  ((∃ g, r = Ok g ∧ repo_row (db w) g ∧ ID g = id) ∨
   (r = Err ErrRepoNotFound ∧ ∀ g, repo_row (db w) g → ID g ≠ id) ∨
   ∃ e, is_fault e ∧ r = Err e).
Proof.
  intros Hi Hr. cbn in Hr. unfold Store.GetByID in Hr.
  apply M_bind_attempt_inv in Hr as (r0 & w1 & Hrun & Hr).
  apply read_inv in Hrun as [-> Hrun]; [|apply reads_GetRepositoryByID].
  destruct Hrun as [->|(e & [text ->] & ->)].
  2:{ injection Hr as <- <-. split; [done|]. right. right. eexists. split; [by eexists|done]. }
  unfold Queries.sql_GetRepositoryByID in Hr. destruct (one _) as [row|e] eqn:Hone.
  - injection Hr as <- <-. split; [done|]. left. exists (fromSqlcRepo row). split; [done|].
    apply (one_select sqlc.Repo_ID) in Hone as [Hin [_ Hid]%uuid_eq_true].
    + split; [by exists row|]. destruct (repo_row_ids _ _ Hi Hin) as [Hid' _].
      apply (inj toPgUUID). by rewrite <- Hid', Hid.
    + apply git_repository_pkey, Hi.
    + intros r1 r2 [_ ->]%uuid_eq_true [_ ->]%uuid_eq_true. done.
  - apply one_select_Err in Hone as [-> Hnone]. injection Hr as <- <-. split; [done|].
    right. left. split; [done|]. intros g (row & Hin & <-) Hid.
    destruct (repo_row_ids _ _ Hi Hin) as [Hid' _]. apply Hnone in Hin.
    by rewrite Hid', Hid, uuid_eq_refl in Hin.
Qed.

Lemma GetByName_inv owner name w r w' :
  Integrity (db w) → repo_GetByName owner name w = (r, w') →
  w' = tick w ∧
  let hit g := repo_row (db w) g ∧ OwnerID g = owner ∧ Name g = name ∧ IsDeleted g = false in
  ((∃ g, r = Ok g ∧ hit g) ∨ (r = Err ErrRepoNotFound ∧ ∀ g, ¬ hit g) ∨ ∃ e, is_fault e ∧ r = Err e).
Proof.
  intros Hi Hr. cbn in Hr. unfold Store.GetByName in Hr.
  apply M_bind_inv in Hr as [(rows & w1 & Hrun & Hr)|(e & Hrun & ->)];
    (apply read_inv in Hrun as [-> Hrun]; [|apply reads_GetRepositoryByRepositoryName]).
  2:{ split; [done|]. right. right. destruct Hrun as [Hrun|(e' & ? & [= <-])]; [|by eexists].
      unfold Queries.sql_GetRepositoryByRepositoryName, text_param in Hrun.
      destruct (pg_text name); [done|]. injection Hrun as ->. eexists. split; [by eexists|done]. }
  destruct Hrun as [Hrun|(e & _ & ?)]; [|done].
  unfold Queries.sql_GetRepositoryByRepositoryName in Hrun.
  destruct (text_param name); [|done]. injection Hrun as ->.
  destruct (find _ _) as [row|] eqn:Hfind.
  - injection Hr as <- <-. split; [done|]. left. exists (fromSqlcRepo row). split; [done|].
    apply find_some in Hfind as [Hin%list_elem_of_In [Ho%bool_decide_eq_true Hd]%andb_prop].
    apply elem_of_select in Hin as [Hn%bool_decide_eq_true Hin].
    destruct (repo_row_ids _ _ Hi Hin) as [_ Ho']. split; [by exists row|].
    split; [apply (inj toPgUUID); by rewrite <- Ho', Ho|]. split; [done|]. cbn.
    by destruct (sqlc.Repo_IsDeleted row).
  - injection Hr as <- <-. split; [done|]. right. left. split; [done|].
    intros g ((row & Hin & <-) & Ho & Hn & Hd). destruct (repo_row_ids _ _ Hi Hin) as [_ Ho'].
    assert (Hf : In row (select (calls (tick w))
      (λ r, bool_decide (sqlc.Repo_Name r = name)) (git_repository (db w)))).
    { apply list_elem_of_In, elem_of_select. split; [|done]. by apply bool_decide_eq_true. }
    apply (find_none _ _ Hfind) in Hf. cbn in Hd. by rewrite Ho', Ho, bool_decide_true, Hd in Hf.
Qed.

(** ListByOwner changes nothing and lists, once each, exactly the repositories of the
    owner that are not deleted, or fails on an outage. *)
Theorem ListByOwner_lists_live_repos owner w r w' :
  Integrity (db w) → repo_ListByOwner owner w = (r, w') →
  db w' = db w ∧
  ((∃ gs, r = Ok gs ∧ NoDup (ID <$> gs) ∧
     ∀ g, g ∈ gs ↔ repo_row (db w) g ∧ OwnerID g = owner ∧ IsDeleted g = false) ∨
   ∃ e, is_fault e ∧ r = Err e).
Proof.
  intros Hi Hr. cbn in Hr. unfold Store.ListByOwner in Hr.
  apply M_bind_inv in Hr as [(rows & w1 & Hrun & Hr)|(e & Hrun & ->)];
    (apply read_inv in Hrun as [-> Hrun]; [|apply reads_GetRepositoryByOwnerId]).
  2:{ split; [done|]. right. destruct Hrun as [|(e' & ? & [= <-])]; [done|by eexists]. }
  injection Hr as <- <-. split; [done|]. left. destruct Hrun as [[= ->]|(e & _ & ?)]; [|done].
  eexists. split; [done|].
  assert (Hrows : ∀ row, row ∈ filter (λ row, sqlc.Repo_IsDeleted row = false)
      (select (calls (tick w)) (λ r, uuid_eq (sqlc.Repo_OwnerID r) (toPgUUID owner)) (git_repository (db w))) ↔
    row ∈ git_repository (db w) ∧ OwnerID (fromSqlcRepo row) = owner ∧ IsDeleted (fromSqlcRepo row) = false).
  { intros row. rewrite list_elem_of_filter, elem_of_select. split.
    - intros (Hd & [_ Ho]%uuid_eq_true & Hin). destruct (repo_row_ids _ _ Hi Hin) as [_ Ho'].
      split; [done|]. split; [|done]. apply (inj toPgUUID). by rewrite <- Ho', Ho.
    - intros (Hin & Ho & Hd). destruct (repo_row_ids _ _ Hi Hin) as [_ Ho'].
      split; [done|]. split; [|done]. by rewrite Ho', Ho, uuid_eq_refl. }
  split.
  - rewrite <- list_fmap_compose. apply NoDup_fmap_2_strong.
    + intros r1 r2 [Hin1 _]%Hrows [Hin2 _]%Hrows Heq.
      change (ID (fromSqlcRepo r1) = ID (fromSqlcRepo r2)) in Heq.
      destruct (repo_row_ids _ _ Hi Hin1) as [Hid1 _], (repo_row_ids _ _ Hi Hin2) as [Hid2 _].
      rewrite Heq, <- Hid2 in Hid1. by apply (NoDup_key sqlc.Repo_ID _ _ _ (git_repository_pkey _ Hi)).
    + apply NoDup_filter. unfold select. rewrite pg_order_perm. apply NoDup_filter.
      eapply NoDup_fmap_1, git_repository_pkey, Hi.
  - intros g. rewrite list_elem_of_fmap. split.
    + intros (row & -> & (? & ? & ?)%Hrows). split; [by exists row|done].
    + intros ((row & Hin & <-) & ? & ?). exists row. split; [done|]. by apply Hrows.
Qed.

Definition deleted_at (t : Z) g : GitRepository := {|
  ID := ID g; Name := Name g; Description := Description g; IsPrivate := IsPrivate g;
  IsDeleted := true; CreatedAt := CreatedAt g; UpdatedAt := Time (sql_now t);
  OwnerID := OwnerID g; DefaultRef := DefaultRef g; Head := Head g |}.

(** A statement that changes the row of one repository. *)
Lemma repo_row_update d f id g (h : GitRepository → GitRepository) :
  Integrity d → repo_row d g → ID g = id →
  (∀ row, fromSqlcRepo row = g → fromSqlcRepo (f row) = h g) →
  ∀ x, repo_row (set_git_repository
         (update (λ r, uuid_eq (sqlc.Repo_ID r) (toPgUUID id)) f) d) x ↔
       (repo_row d x ∧ ID x ≠ id) ∨ x = h g.
Proof.
  intros Hi Hg Hid Hf x. unfold repo_row. cbn. setoid_rewrite elem_of_update.
  assert (Heq : ∀ row, row ∈ git_repository d →
    uuid_eq (sqlc.Repo_ID row) (toPgUUID id) = true ↔ ID (fromSqlcRepo row) = id).
  { intros row Hin. destruct (repo_row_ids _ _ Hi Hin) as [-> _]. rewrite uuid_eq_true.
    split; [intros [_ Hr]; by apply (inj toPgUUID)|by intros ->]. }
  split.
  - intros (row & (row0 & -> & Hin) & <-). destruct (uuid_eq _ _) eqn:Hu.
    + right. apply Hf. apply (repo_row_unique d); [done|by exists row0|done|].
      rewrite Hid. by apply Heq.
    + left. split; [by exists row0|]. intros Hx. by rewrite (proj2 (Heq _ Hin) Hx) in Hu.
  - intros [[(row & Hin & <-) Hx]| ->].
    + exists row. split; [|done]. exists row. split; [|done].
      destruct (uuid_eq _ _) eqn:Hu; [|done]. by apply (Heq _ Hin) in Hu.
    + destruct Hg as (row & Hin & Hrow). exists (f row). split; [|by apply Hf].
      exists row. split; [|done]. rewrite <- Hrow in Hid. by rewrite (proj2 (Heq _ Hin) Hid).
Qed.

Lemma SoftDelete_inv id w r w' :
  Integrity (db w) → repo_SoftDelete id w = (r, w') →
  Integrity (db w') ∧ disk w' = disk w ∧
  ((db w' = db w ∧ is_Ok r = false) ∨
   ∃ g t, repo_row (db w) g ∧ ID g = id ∧
     ∀ x, repo_row (db w') x ↔ (repo_row (db w) x ∧ ID x ≠ id) ∨ x = deleted_at t g).
Proof.
  intros Hi Hr. cbn in Hr. unfold Store.SoftDelete in Hr.
  assert (Hrun : ∃ r0, run_sql (Queries.sql_SoftDeleteRepository (toPgUUID id)) w = (r0, w') ∧
    is_Ok r0 = is_Ok r).
  { apply M_bind_inv in Hr as [(row & w1 & Hrun & Hr)|(e & Hrun & ->)]; [|by eexists].
    injection Hr as <- <-. by eexists. }
  destruct Hrun as (r0 & Hrun & <-).
  apply write_inv in Hrun as (Hi' & _ & Hd & _ & Hres); [|constructor|done].
  do 2 (split; [done|]).
  assert (Hstep : ∀ t n a, Queries.sql_SoftDeleteRepository (toPgUUID id) t n (db w) = Ok (a, db w') →
    ∃ g t, repo_row (db w) g ∧ ID g = id ∧
     ∀ x, repo_row (db w') x ↔ (repo_row (db w) x ∧ ID x ≠ id) ∨ x = deleted_at t g).
  { intros t n a Hst. unfold Queries.sql_SoftDeleteRepository in Hst.
    apply bind_Ok in Hst as (row & Hone & Hst). injection Hst as -> Hst.
    apply one_Ok in Hone. destruct (select _ _ _) as [|row0 rows] eqn:Hsel; [done|].
    assert (Hin : row0 ∈ row0 :: rows) by apply list_elem_of_here. rewrite <- Hsel in Hin.
    apply elem_of_select in Hin as [[_ Hid]%uuid_eq_true Hin].
    destruct (repo_row_ids _ _ Hi Hin) as [Hid' _]. rewrite Hid in Hid'. apply (inj toPgUUID) in Hid'.
    exists (fromSqlcRepo row0), t. split; [by exists row0|]. split; [done|].
    rewrite <- Hst. apply (repo_row_update _ _ _ (fromSqlcRepo row0)); [done|by exists row0|done|].
    intros row1 <-. done. }
  destruct Hres as [(a & -> & Hst)|(e & -> & _ & [Hdb|[a Hst]])].
  - right. by eapply Hstep.
  - by left.
  - right. by eapply Hstep.
Qed.

(** A successful SoftDelete marks that repository deleted, changes no other one and
    nothing on disk; afterwards no listing and no lookup by name returns it, but a
    lookup by its id still does, marked as deleted. *)
Theorem soft_deleted_repo_hidden id w w' :
  Integrity (db w) → repo_SoftDelete id w = (Ok tt, w') →
  Integrity (db w') ∧ disk w' = disk w ∧
  ∃ g t, repo_row (db w) g ∧ ID g = id ∧
  (∀ x, repo_row (db w') x ↔ (repo_row (db w) x ∧ ID x ≠ id) ∨ x = deleted_at t g) ∧
  (∀ owner gs w'', repo_ListByOwner owner w' = (Ok gs, w'') → id ∉ ID <$> gs) ∧
  (∀ owner name x w'', repo_GetByName owner name w' = (Ok x, w'') → ID x ≠ id) ∧
  (∀ r w'', repo_GetByID id w' = (r, w'') →
     r = Ok (deleted_at t g) ∨ ∃ e, is_fault e ∧ r = Err e).
Proof.
  intros Hi Hr. pose proof (SoftDelete_inv _ _ _ _ Hi Hr) as (Hi' & Hd & [[_ ?]|(g & t & Hg & Hid & Hx)]);
    [done|]. do 2 (split; [done|]). exists g, t. do 3 (split; [done|]).
  assert (Hdel : ∀ x, repo_row (db w') x → ID x = id → x = deleted_at t g) by (intros x Hrow; apply Hx in Hrow; naive_solver).
  split_and!.
  - intros owner gs w'' Hl (x & Hidx & Hin)%list_elem_of_fmap.
    cbn in Hl. unfold Store.ListByOwner in Hl.
    apply M_bind_inv in Hl as [(rows & w1 & Hrun & Hl)|(e & Hrun & ?)]; [|done].
    injection Hl as <- <-. apply read_inv in Hrun as [_ Hrun]; [|apply reads_GetRepositoryByOwnerId].
    destruct Hrun as [[= ->]|(e & _ & ?)]; [|done].
    apply list_elem_of_fmap in Hin as (row & -> & (Hlive & Hin)%list_elem_of_filter).
    apply elem_of_select in Hin as [_ Hin].
    assert (fromSqlcRepo row = deleted_at t g) as He by (apply Hdel; [by exists row|done]).
    apply (f_equal IsDeleted) in He. cbn in He. by rewrite Hlive in He.
  - intros owner name x w'' Hget Hidx. apply GetByName_inv in Hget as [_ Hget]; [|done].
    destruct Hget as [(x' & [= <-] & Hrow & _ & _ & Hlive)|[[? _]|(e & _ & ?)]]; [|done..].
    by rewrite (Hdel x Hrow Hidx) in Hlive.
  - intros r w'' Hget. apply GetByID_inv in Hget as [_ Hget]; [|done].
    destruct Hget as [(x & -> & Hrow & Hidx)|[[_ Hnone]|]]; [left|exfalso|by right].
    + f_equal. by apply Hdel.
    + apply (Hnone (deleted_at t g)); [|done]. apply Hx. by right.
Qed.

(** What deleting one repository leaves of the others. *)
Lemma SoftDelete_others id w r w' x :
  Integrity (db w) → repo_SoftDelete id w = (r, w') → ID x ≠ id →
  repo_row (db w') x ↔ repo_row (db w) x.
Proof.
  intros Hi Hr Hx. apply SoftDelete_inv in Hr as (_ & _ & [[-> _]|(g & t & _ & Hid & Hrow)]); [done| |done].
  rewrite Hrow. split; [|by left]. intros [[? _]| ->]; [done|]. by destruct Hx.
Qed.

Lemma SoftDelete_up `{!FaultFree} g w r w' :
  Integrity (db w) → repo_row (db w) g → repo_SoftDelete (ID g) w = (r, w') → r = Ok tt.
Proof.
  intros Hi (row & Hin & <-) Hr. cbn in Hr. unfold Store.SoftDelete, Queries.SoftDeleteRepository in Hr.
  apply M_bind_inv in Hr as [(a & w1 & _ & Hr)|(e & Hrun & ->)]; [by injection Hr as <- <-|].
  apply run_sql_up in Hrun as [(a & ? & _)|(e' & _ & Hst & _)]; [done|].
  unfold Queries.sql_SoftDeleteRepository in Hst. apply bind_Err in Hst as [Hone|(? & _ & ?)]; [|done].
  destruct (repo_row_ids _ _ Hi Hin) as [Hid _]. destruct (select _ _ _) as [|r0 rs] eqn:Hsel; [|done].
  exfalso. apply (not_elem_of_nil row). rewrite <- Hsel. apply elem_of_select. split; [|done].
  rewrite Hid. by apply uuid_eq_refl.
Qed.

(** The text of a column that may be NULL. *)
Definition null_varchar (n : Z) (s : string) : option string :=
  if bool_decide (s = EmptyString) then Some EmptyString else pg_varchar n s.

Definition merged g (input : UpdateInput) g' : Prop :=
  ID g' = ID g ∧
  pg_varchar 100 (default (Name g) (update_Name input)) = Some (Name g') ∧
  null_varchar 4000 (default (Description g) (update_Description input)) = Some (Description g') ∧
  IsPrivate g' = default (IsPrivate g) (update_IsPrivate input) ∧
  IsDeleted g' = IsDeleted g ∧ CreatedAt g' = CreatedAt g ∧
  OwnerID g' = default (OwnerID g) (update_OwnerId input) ∧
  pg_varchar 255 (default (DefaultRef g) (update_DefaultRef input)) = Some (DefaultRef g') ∧
  Head g' = Head g.

Lemma varchar_null_inv n s t :
  varchar_null n (optional_Text s) = Ok t → null_varchar n s = Some (Text_String t).
Proof.
  unfold varchar_null, null_varchar, optional_Text. cbn.
  case_bool_decide; cbn; [by intros [= <-]|]. intros (s' & Hs & [= <-])%bind_Ok. by apply varchar_Ok.
Qed.

Lemma sql_UpdateRepository_merges id input g t n d a d' :
  Integrity d → repo_row d g → ID g = id →
  Queries.sql_UpdateRepository {|
    Queries.UpdateRepository_ID := toPgUUID id;
    Queries.UpdateRepository_Name := default (Name g) (update_Name input);
    Queries.UpdateRepository_Description :=
      optional_Text (default (Description g) (update_Description input));
    Queries.UpdateRepository_IsPrivate := default (IsPrivate g) (update_IsPrivate input);
    Queries.UpdateRepository_OwnerID := toPgUUID (default (OwnerID g) (update_OwnerId input));
    Queries.UpdateRepository_DefaultRef := default (DefaultRef g) (update_DefaultRef input) |}
    t n d = Ok (a, d') →
  ∃ g', merged g input g' ∧
    ∀ x, repo_row d' x ↔ (repo_row d x ∧ ID x ≠ id) ∨ x = g'.
Proof.
  intros Hi Hg Hid Hst. unfold Queries.sql_UpdateRepository in Hst. cbn in Hst.
  apply bind_Ok in Hst as (name & Hname%varchar_Ok & Hst).
  apply bind_Ok in Hst as (description & Hdesc%varchar_null_inv & Hst).
  apply bind_Ok in Hst as (default_ref & Href%varchar_Ok & Hst).
  destruct Hg as (row & Hin & Hrow). destruct (select _ _ _) as [|r rs] eqn:Hsel.
  { assert (row ∈ select n (λ r, uuid_eq (sqlc.Repo_ID r) (toPgUUID id)) (git_repository d)) as Hno.
    { apply elem_of_select. split; [|done]. destruct (repo_row_ids _ _ Hi Hin) as [-> _].
      rewrite Hrow, Hid. by apply uuid_eq_refl. }
    rewrite Hsel in Hno. by apply elem_of_nil in Hno. }
  statement_inv Hst.
  exists {| ID := id; Name := name; Description := Text_String description;
    IsPrivate := default (IsPrivate g) (update_IsPrivate input); IsDeleted := IsDeleted g;
    CreatedAt := CreatedAt g; UpdatedAt := Time (sql_now t);
    OwnerID := default (OwnerID g) (update_OwnerId input); DefaultRef := default_ref; Head := Head g |}.
  split; [by repeat split; rewrite <- ?Hid|].
  apply (repo_row_update d _ _ g (λ _, _)); [done|by exists row|done|].
  intros row' Hrow'. rewrite <- Hid, <- Hrow'. done.
Qed.

(** A successful Update returns the repository with each given field replaced (as its
    column stores it), every other field but the time of the update kept, that row
    changed accordingly and no other. *)
Theorem Update_merges id input w g' w' :
  Integrity (db w) → repo_Update id input w = (Ok g', w') →
  Integrity (db w') ∧ ∃ g, repo_row (db w) g ∧ ID g = id ∧ merged g input g' ∧
  ∀ x, repo_row (db w') x ↔ (repo_row (db w) x ∧ ID x ≠ id) ∨ x = g'.
Proof.
  intros Hi Hr. cbn in Hr. unfold Store.Update in Hr.
  apply M_bind_inv in Hr as [(g & w1 & Hget & Hr)|(e & _ & ?)]; [|done].
  apply (GetByID_inv id w) in Hget as [-> Hget]; [|done].
  destruct Hget as [(g0 & [= <-] & Hg & Hid)|[[? _]|(e & _ & ?)]]; [|done..].
  apply M_bind_inv in Hr as [([] & w2 & Hrun & Hr)|(e & _ & ?)]; [|done].
  unfold Queries.UpdateRepository in Hrun.
  apply write_inv in Hrun as (Hi' & _ & _ & _ & Hres); [|constructor|done].
  destruct Hres as [([] & _ & Hst)|(e & ? & _)]; [|done].
  apply (sql_UpdateRepository_merges id input g) in Hst as (g1 & Hm & Hx); [|done..].
  apply (GetByID_inv id w2) in Hr as [-> Hget]; [|done]. cbn [tick db].
  destruct Hget as [(g0 & [= <-] & Hg' & Hid')|[[? _]|(e & _ & ?)]]; [|done..].
  assert (g' = g1) as ->; [|split; [done|]; by exists g].
  apply Hx in Hg' as [[_ ?]|]; [done|done].
Qed.

Definition created (input : CreateInput) (t : Z) g : Prop :=
  ID g = create_Id input ∧
  pg_varchar 100 (create_Name input) = Some (Name g) ∧
  null_varchar 4000 (create_Description input) = Some (Description g) ∧
  IsPrivate g = create_IsPrivate input ∧ IsDeleted g = false ∧
  CreatedAt g = Time (sql_now t) ∧ UpdatedAt g = Time (sql_now t) ∧
  OwnerID g = create_OwnerID input ∧
  pg_varchar 255 (create_DefaultRef input) = Some (DefaultRef g) ∧ Head g = EmptyString.

Lemma pg_error_fault code : is_fault (pg_error code).
Proof. by eexists. Qed.

Lemma sql_CreateRepository_Err arg t n d e :
  Queries.sql_CreateRepository arg t n d = Err e → is_fault e.
Proof.
  unfold Queries.sql_CreateRepository. intros Hst.
  repeat match type of Hst with (_ ≫= _) = _ => apply bind_Err in Hst as [Hst|(? & _ & Hst)] end;
    try first [discriminate Hst|exact (varchar_fault _ _ _ Hst)].
  - unfold varchar_null in Hst. destruct (Text_Valid _); [|done].
    apply bind_Err in Hst as [Hst|(? & _ & Hst)]; [by eapply varchar_fault|done].
  - unfold not_null in Hst. destruct (Valid _); [done|]. injection Hst as <-. apply pg_error_fault.
  - unfold not_null in Hst. destruct (Valid _); [done|]. injection Hst as <-. apply pg_error_fault.
  - unfold unique in Hst. destruct (decide _); [|done]. injection Hst as <-. apply pg_error_fault.
  - unfold references in Hst. destruct (decide _); [done|]. injection Hst as <-. apply pg_error_fault.
Qed.

Lemma sql_CreateRepository_created input t n d row d' :
  Integrity d →
  Queries.sql_CreateRepository {|
    Queries.CreateRepository_ID := toPgUUID (create_Id input);
    Queries.CreateRepository_Name := create_Name input;
    Queries.CreateRepository_Description := optional_Text (create_Description input);
    Queries.CreateRepository_IsPrivate := create_IsPrivate input;
    Queries.CreateRepository_OwnerID := toPgUUID (create_OwnerID input);
    Queries.CreateRepository_DefaultRef := create_DefaultRef input |} t n d = Ok (row, d') →
  created input t (fromSqlcRepo row) ∧
  (∀ g, repo_row d g → ID g ≠ create_Id input) ∧
  ∀ x, repo_row d' x ↔ repo_row d x ∨ x = fromSqlcRepo row.
Proof.
  intros Hi Hst. unfold Queries.sql_CreateRepository in Hst. cbn in Hst.
  apply bind_Ok in Hst as (name & Hname%varchar_Ok & Hst).
  apply bind_Ok in Hst as (description & Hdesc%varchar_null_inv & Hst).
  apply bind_Ok in Hst as (default_ref & Href%varchar_Ok & Hst).
  statement_inv Hst. split; [by repeat split|]. split.
  - intros g (row & Hin & <-) Hid. destruct (repo_row_ids _ _ Hi Hin) as [Hid' _].
    rewrite Hid in Hid'. match goal with Hu : toPgUUID _ ∉ _ |- _ => apply Hu end.
    rewrite <- Hid'. by apply list_elem_of_fmap_2.
  - intros x. unfold repo_row. cbn. setoid_rewrite elem_of_app. setoid_rewrite list_elem_of_singleton.
    naive_solver.
Qed.

Lemma Create_inv input w r w' :
  Integrity (db w) → repo_Create input w = (r, w') →
  Integrity (db w') ∧ disk w' = disk w ∧
  ((∃ e, r = Err e ∧ is_fault e ∧ db w' = db w) ∨
   ∃ g, created input (clock w') g ∧ (r = Ok g ∨ ∃ e, r = Err e ∧ is_fault e) ∧
     (∀ x, repo_row (db w) x → ID x ≠ create_Id input) ∧
     ∀ x, repo_row (db w') x ↔ repo_row (db w) x ∨ x = g).
Proof.
  intros Hi Hr. cbn in Hr. unfold Store.Create in Hr.
  assert (Hrun : ∃ r0, Queries.CreateRepository {|
    Queries.CreateRepository_ID := toPgUUID (create_Id input);
    Queries.CreateRepository_Name := create_Name input;
    Queries.CreateRepository_Description := optional_Text (create_Description input);
    Queries.CreateRepository_IsPrivate := create_IsPrivate input;
    Queries.CreateRepository_OwnerID := toPgUUID (create_OwnerID input);
    Queries.CreateRepository_DefaultRef := create_DefaultRef input |} w = (r0, w') ∧
    r = fromSqlcRepo <$> r0).
  { apply M_bind_inv in Hr as [(row & w1 & Hrun & Hr)|(e & Hrun & ->)]; [|by eexists].
    injection Hr as <- <-. by eexists. }
  destruct Hrun as (r0 & Hrun & ->). unfold Queries.CreateRepository in Hrun.
  apply write_inv in Hrun as (Hi' & _ & Hd & _ & Hres); [|constructor|done].
  do 2 (split; [done|]).
  destruct Hres as [(row & -> & Hst)|(e & -> & He & Hdb)].
  - right. exists (fromSqlcRepo row). apply sql_CreateRepository_created in Hst as (? & ? & ?); [|done].
    split_and!; [done|by left|done|done].
  - assert (is_fault e) as Hf by (destruct He as [He|He]; [by eapply sql_CreateRepository_Err|done]).
    destruct Hdb as [Hdb|[row Hst]]; [left; by exists e|right]. exists (fromSqlcRepo row).
    apply sql_CreateRepository_created in Hst as (? & ? & ?); [|done].
    split_and!; [done|right; by exists e|done|done].
Qed.

Lemma GetByID_up `{!FaultFree} id w e w' : repo_GetByID id w = (Err e, w') → e = ErrRepoNotFound.
Proof.
  intros Hr. cbn in Hr. unfold Store.GetByID, Queries.GetRepositoryByID in Hr.
  apply M_bind_attempt_inv in Hr as (r0 & w1 & Hrun & Hr).
  apply run_sql_up in Hrun as [(a & -> & _)|(e' & -> & Hst & _)]; [done|].
  unfold Queries.sql_GetRepositoryByID in Hst. destruct (one _) as [row|e0] eqn:Hone; [done|].
  injection Hst as <-. apply one_select_Err in Hone as [-> _]. by injection Hr as <- _.
Qed.

Lemma GetByName_up `{!FaultFree} owner name w e w' :
  pg_text name = true → repo_GetByName owner name w = (Err e, w') → e = ErrRepoNotFound.
Proof.
  intros Ht Hr. cbn in Hr. unfold Store.GetByName, Queries.GetRepositoryByRepositoryName in Hr.
  apply M_bind_inv in Hr as [(rows & w1 & _ & Hr)|(e' & Hrun & _)].
  - destruct (find _ _); injection Hr as Hr _; congruence.
  - apply run_sql_up in Hrun as [(a & ? & _)|(e'' & _ & Hst & _)]; [done|].
    unfold Queries.sql_GetRepositoryByRepositoryName, text_param in Hst. by rewrite Ht in Hst.
Qed.

(** The tables that Create leaves alone. *)
Lemma Create_frame input w r w' :
  repo_Create input w = (r, w') →
  users (db w') = users (db w) ∧ organizations (db w') = organizations (db w) ∧
  organization_users (db w') = organization_users (db w).
Proof.
  intros Hr. cbn in Hr. unfold Store.Create, Queries.CreateRepository in Hr.
  assert (Hrun : ∃ r0, run_sql (Queries.sql_CreateRepository {|
    Queries.CreateRepository_ID := toPgUUID (create_Id input);
    Queries.CreateRepository_Name := create_Name input;
    Queries.CreateRepository_Description := optional_Text (create_Description input);
    Queries.CreateRepository_IsPrivate := create_IsPrivate input;
    Queries.CreateRepository_OwnerID := toPgUUID (create_OwnerID input);
    Queries.CreateRepository_DefaultRef := create_DefaultRef input |}) w = (r0, w')).
  { apply M_bind_inv in Hr as [(row & w1 & Hrun & Hr)|(e & Hrun & _)]; [|by eexists].
    injection Hr as _ <-. by eexists. }
  destruct Hrun as [r0 Hrun].
  assert (Hkeep : ∀ A (table : Database → list A), (∀ f d, table (set_git_repository f d) = table d) →
    table (db w') = table (db w)); [|split_and!; by apply Hkeep].
  intros A table Htable. eapply run_sql_keeps; [|exact Hrun].
  intros t n d a d' Hst. unfold_statement Hst. statement_inv Hst. apply Htable.
Qed.

Lemma repo_Create_up `{!FaultFree} input w e w' : repo_Create input w = (Err e, w') → db w' = db w.
Proof.
  intros Hr. cbn in Hr. unfold Store.Create, Queries.CreateRepository in Hr.
  apply M_bind_inv in Hr as [(row & w1 & _ & Hr)|(e' & Hrun & _)]; [done|].
  by apply run_sql_up in Hrun as [(a & ? & _)|(e'' & _ & _ & ->)].
Qed.
End rows.

Module Demo.
Import Sim SimDisk Example_.

Abbreviation W := (World (gmap string (string * Z)) (gset (list ascii))).
Definition ada_id : UUID := Vector.const (byte_of 1) 16.
Definition hello_id : UUID := Vector.const (byte_of 9) 16.

#[export] Instance demo_quoting : Quoting := λ s, s.

Definition hello : CreateInput := {|
  create_Id := hello_id; create_Name := "hello"; create_Description := EmptyString;
  create_IsPrivate := false; create_OwnerID := ada_id; create_DefaultRef := "main" |}.

Definition w0 : W := mkWorld ada_db ∅ ∅ 0 0.
Definition w1 : W := (repo_Create hello w0).2.
Definition w2 : W := (repo_SoftDelete hello_id w1).2.

Lemma ada_db_inv : Integrity ada_db.
Proof. apply (Integrity_steps empty_Database); [apply ada_steps|apply Integrity_empty]. Qed.

Lemma hello_created : Integrity (db w1) ∧ ∃ g, repo_row (db w1) g ∧ ID g = hello_id.
Proof.
  destruct (Create_inv hello w0 (repo_Create hello w0).1 w1 ada_db_inv) as (Hi & _ & Hres);
    [exact (run_eq _ _ _ eq_refl)|].
  split; [done|]. destruct Hres as [(e & He & _)|(g & (Hid & _) & _ & _ & Hx)].
  - vm_compute in He. discriminate He.
  - exists g. split; [apply Hx; by right|exact Hid].
Qed.

Lemma RepoPath_stays_below_witness :
  elements (Service.RepoPath "/srv/repos" (named "../../etc/passwd")) =
    [unstr "srv"; unstr "repos"; unstr "etc"; unstr "passwd"] ∧
  Service.RepoPath "/srv/repos" (named "a..b") = Service.RepoPath "/srv/repos" (named "ab").
Proof.
  split.
  - destruct (RepoPath_stays_below "/srv/repos" (named "../../etc/passwd")) as [(_ & He & _) _];
      [discriminate|]. rewrite He. vm_compute. reflexivity.
  - destruct (RepoPath_stays_below "/srv/repos" (named "a..b")) as [_ Hv]; [discriminate|].
    apply Hv; reflexivity.
Defined.

Lemma ListByOwner_lists_live_repos_witness :
  ∃ gs, (repo_ListByOwner ada_id w1).1 = Ok gs ∧ hello_id ∈ ID <$> gs.
Proof.
  destruct (repo_ListByOwner ada_id w1) as [r w] eqn:Hr.
  destruct (ListByOwner_lists_live_repos ada_id w1 r w (proj1 hello_created) Hr)
    as [_ [(gs & -> & _ & Hg)|(e & _ & ->)]].
  - exists gs. split; [reflexivity|]. destruct (proj2 hello_created) as (g & Hrow & Hid).
    apply list_elem_of_fmap. exists g. split; [done|]. apply Hg. split; [exact Hrow|].
    destruct Hrow as (row & Hin & <-). apply list_elem_of_singleton in Hin as ->.
    split; reflexivity.
  - apply (f_equal fst) in Hr. vm_compute in Hr. discriminate Hr.
Defined.

Lemma soft_deleted_repo_hidden_witness :
  ∃ g, repo_row (db w2) g ∧ ID g = hello_id ∧ IsDeleted g = true.
Proof.
  destruct (soft_deleted_repo_hidden hello_id w1 w2 (proj1 hello_created))
    as (_ & _ & g & t & _ & Hid & Hx & _).
  - apply run_eq. vm_compute. reflexivity.
  - exists (deleted_at t g). split; [apply Hx; by right|]. split; [exact Hid|reflexivity].
Defined.

Definition rename : UpdateInput := {|
  update_Name := Some "world"%string; update_Description := None; update_IsPrivate := Some true;
  update_OwnerId := None; update_DefaultRef := None |}.

Lemma Update_merges_witness :
  ∃ g, (repo_Update hello_id rename w1).1 = Ok g ∧ Name g = "world"%string ∧ IsPrivate g = true ∧
    ID g = hello_id.
Proof.
  destruct (repo_Update hello_id rename w1) as [[g|e] w] eqn:Hr.
  - destruct (Update_merges hello_id rename w1 g w (proj1 hello_created) Hr)
      as (_ & g0 & _ & Hid & (Hid' & Hname & _ & Hp & _) & _).
    exists g. split; [reflexivity|]. split; [|split; [exact Hp|by rewrite Hid']].
    vm_compute in Hname. by injection Hname.
  - apply (f_equal fst) in Hr. vm_compute in Hr. discriminate Hr.
Defined.
End Demo.
End git.
