(* ===== verification/Http.v ===== *)
(** The HTTP layer: requests, responses and what the handlers share,
    [internal/api/http/middleware.go].

    A handler takes the response writer and the request and gives the writer it
    leaves; it acts on the state through the services.  Decoding the JSON of a
    body is a parameter, a function of what [http.MaxBytesReader] lets through. *)

From S2P Require Import Prelude.
From S2P Require Import Bytes.
From S2P Require Import Platform.
From S2P Require Import GoStrings.

(** ** [net/http] *)

Definition StatusOK : Z := 200.
Definition StatusCreated : Z := 201.
Definition StatusNoContent : Z := 204.
Definition StatusTemporaryRedirect : Z := 307.
Definition StatusBadRequest : Z := 400.
Definition StatusUnauthorized : Z := 401.
Definition StatusForbidden : Z := 403.
Definition StatusNotFound : Z := 404.
Definition StatusConflict : Z := 409.
Definition StatusTooManyRequests : Z := 429.
Definition StatusInternalServerError : Z := 500.
Definition StatusServiceUnavailable : Z := 503.

Record Cookie := {
  cookie_Name : string;
  cookie_Value : string;
  cookie_Path : string;
  cookie_MaxAge : Z;
  cookie_HttpOnly : bool;
  cookie_Secure : bool;
  cookie_SameSite : string;
}.

Definition SameSiteStrictMode : string := "Strict".

(** What [encoding/json] writes; the fields of an object in its order. *)
#[warnings="-register-all"]
Inductive json :=
  | JString (s : string)
  | JBool (b : bool)
  | JArray (l : list json)
  | JObject (fields : list (string * json)).

(** One write to the body: a JSON value and a newline, a line of text, bytes. *)
Inductive chunk :=
  | JsonLine (v : json)
  | TextLine (s : string)
  | Raw (b : bytes).

(** A request after routing; [r_userID] is the value the context has under
    [userIDKey], and the maps are the [Get] of a header or a query and
    [PathValue]; [r_Path] is the escaped path of the URL. *)
Record Request := {
  r_Method : string;
  r_Path : string;
  r_PathValue : string → string;
  r_Query : string → string;
  r_Header : string → string;
  r_Cookies : list (string * string);
  r_Body : bytes;
  r_RemoteAddr : string;
  r_ProtoAtLeast11 : bool;
  r_userID : option UUID;
}.

(** The writer: the header map, the cookies set, the status line with the header
    and the cookies it was sent with, and the body. *)
Record ResponseWriter := {
  w_Header : gmap string string;
  w_Cookies : list Cookie;
  w_Sent : option (Z * gmap string string * list Cookie);
  w_Body : list chunk;
}.

Definition NewResponseWriter : ResponseWriter :=
  {| w_Header := ∅; w_Cookies := []; w_Sent := None; w_Body := [] |}.

Definition Header_Set (k v : string) (w : ResponseWriter) : ResponseWriter := {|
  w_Header := <[k := v]> (w_Header w); w_Cookies := w_Cookies w;
  w_Sent := w_Sent w; w_Body := w_Body w |}.

(** [http.SetCookie] *)
Definition SetCookie (w : ResponseWriter) (c : Cookie) : ResponseWriter := {|
  w_Header := w_Header w; w_Cookies := w_Cookies w ++ [c];
  w_Sent := w_Sent w; w_Body := w_Body w |}.

(** A second call is ignored. *)
Definition WriteHeader (status : Z) (w : ResponseWriter) : ResponseWriter := {|
  w_Header := w_Header w; w_Cookies := w_Cookies w;
  w_Sent := match w_Sent w with
            | Some sent => Some sent
            | None => Some (status, w_Header w, w_Cookies w)
            end;
  w_Body := w_Body w |}.

Definition Write (b : chunk) (w : ResponseWriter) : ResponseWriter :=
  let w := WriteHeader StatusOK w in {|
  w_Header := w_Header w; w_Cookies := w_Cookies w; w_Sent := w_Sent w;
  w_Body := w_Body w ++ [b] |}.

Definition status (w : ResponseWriter) : option Z :=
  match w_Sent w with Some (code, _, _) => Some code | None => None end.

(** [http.Error] *)
Definition http_Error (w : ResponseWriter) (text : string) (code : Z) : ResponseWriter :=
  let w := Header_Set "Content-Type" "text/plain; charset=utf-8" w in
  let w := Header_Set "X-Content-Type-Options" "nosniff" w in
  Write (TextLine text) (WriteHeader code w).

(** The texts of the statuses of a redirect. *)
Definition StatusText (code : Z) : string :=
  if code =? 301 then "Moved Permanently" else if code =? 307 then "Temporary Redirect" else EmptyString.

Definition quote : string := str [ascii_of_nat 34].

(** [htmlReplacer] *)
Definition htmlEscape (s : string) : string :=
  str (flat_map (λ c,
    if bool_decide (c = "&"%char) then unstr "&amp;"
    else if bool_decide (c = "<"%char) then unstr "&lt;"
    else if bool_decide (c = ">"%char) then unstr "&gt;"
    else if bool_decide (c = ascii_of_nat 34) then unstr "&#34;"
    else if bool_decide (c = "'"%char) then unstr "&#39;"
    else [c]) (unstr s)).

(** A byte that is not ASCII as a percent sign and its hexadecimal numeral. *)
Definition hex_digit (n : Z) : byte := byte_of (if n <? 10 then 48 + n else 87 + n).
Definition hexEscapeNonASCII (s : string) : string :=
  str (flat_map (λ c,
    if byte_val c <? 128 then [c] else ["%"%char; hex_digit (byte_val c / 16); hex_digit (byte_val c mod 16)]) (unstr s)).

(** The body of a redirect, but for the newline that [Fprintln] adds. *)
Definition redirect_link (url : string) (code : Z) : string :=
  "<a href=" +:+ quote +:+ htmlEscape url +:+ quote +:+ ">" +:+ StatusText code +:+ "</a>." +:+ str [ascii_of_nat 10].

Definition html_type : string := "text/html; charset=utf-8".

(** [http.Redirect] to a URL that is absolute, or of a path that is clean. *)
Definition http_Redirect (w : ResponseWriter) (r : Request) (url : string) (code : Z) : ResponseWriter :=
  let hadCT := bool_decide (is_Some (w_Header w !! "Content-Type"%string)) in
  let w := Header_Set "Location" (hexEscapeNonASCII url) w in
  let w := if negb hadCT && (bool_decide (r_Method r = "GET"%string) || bool_decide (r_Method r = "HEAD"%string))
           then Header_Set "Content-Type" html_type w else w in
  let w := WriteHeader code w in
  if negb hadCT && bool_decide (r_Method r = "GET"%string) then Write (TextLine (redirect_link url code)) w else w.

Definition Handler (S : Type) : Type := ResponseWriter → Request → M S ResponseWriter.

(** [r.Cookie(name)]: the first of that name. *)
Definition request_Cookie (r : Request) (name : string) : option string :=
  snd <$> find (λ c, bool_decide (c.1 = name)) (r_Cookies r).

(** ** Bodies: [json.NewDecoder(http.MaxBytesReader(w, r.Body, n)).Decode(&req)] *)

(** The first [n] bytes, and whether there were more. *)
Record LimitedBody := { lb_bytes : bytes; lb_exceeded : bool }.

Definition MaxBytesReader (n : Z) (b : bytes) : LimitedBody :=
  {| lb_bytes := take (Z.to_nat n) b; lb_exceeded := n <? Z.of_nat (length b) |}.

Class JsonDecode (A : Type) := json_Decode : LimitedBody → result A.

(** Every handler reads at most a kibibyte. *)
Definition Decode_body {A} `{JsonDecode A} (r : Request) : result A :=
  json_Decode (MaxBytesReader (Z.shiftl 1 10) (r_Body r)).

Module http.

Definition is_empty (s : string) : bool := bool_decide (s = EmptyString).

(** ** middleware.go *)

Definition AccessCookieName : string := "access_token".
Definition RefreshCookieName : string := "refresh_token".

Class TokenValidator (S : Type) := validator_Validate : string → M S UUID.

Definition writeJSON (w : ResponseWriter) (code : Z) (v : json) : ResponseWriter :=
  let w := Header_Set "Content-Type" "application/json" w in
  let w := WriteHeader code w in
  Write (JsonLine v) w.

(** [map[string]string{"error": text}] *)
Definition error_body (text : string) : json := JObject [("error"%string, JString text)].
Definition message_body (text : string) : json := JObject [("message"%string, JString text)].

(** Answers that several handlers give. *)
Definition internal_error (w : ResponseWriter) : ResponseWriter :=
  writeJSON w StatusInternalServerError (error_body "internal server error").

Definition unauthorized (w : ResponseWriter) : ResponseWriter :=
  writeJSON w StatusUnauthorized (error_body "unauthorized").

(** [strings.CutPrefix(r.Header.Get("Authorization"), "Bearer ")] *)
Definition bearer_token (r : Request) : string :=
  let '(token, found) := CutPrefix (r_Header r "Authorization") "Bearer " in
  if negb found then EmptyString else token.

Definition cookie_or_bearer (name : string) (r : Request) : string :=
  match request_Cookie r name with
  | Some v => if negb (bool_decide (v = EmptyString)) then v else bearer_token r
  | None => bearer_token r
  end.

Definition extractAccessToken (r : Request) : string := cookie_or_bearer AccessCookieName r.

(** [r.WithContext(context.WithValue(r.Context(), userIDKey, userID))] *)
Definition with_userID (userID : UUID) (r : Request) : Request := {|
  r_Method := r_Method r; r_Path := r_Path r; r_PathValue := r_PathValue r;
  r_Query := r_Query r; r_Header := r_Header r; r_Cookies := r_Cookies r;
  r_Body := r_Body r; r_RemoteAddr := r_RemoteAddr r; r_ProtoAtLeast11 := r_ProtoAtLeast11 r; r_userID := Some userID |}.

Definition UserIDFromContext (r : Request) : option UUID := r_userID r.

Definition Auth {S} `{TokenValidator S} (next : Handler S) : Handler S := λ w r,
  let token := extractAccessToken r in
  if bool_decide (token = EmptyString) then
    mret (writeJSON w StatusUnauthorized (error_body "missing or invalid token"))
  else
    validated ← attempt (validator_Validate token);
    match validated with
    | Err _ => mret (writeJSON w StatusUnauthorized (error_body "invalid or expired token"))
    | Ok userID => next w (with_userID userID r)
    end.

Definition access_cookie (token : string) (maxAge : Z) (secure : bool) : Cookie := {|
  cookie_Name := AccessCookieName; cookie_Value := token; cookie_Path := "/";
  cookie_MaxAge := maxAge; cookie_HttpOnly := true; cookie_Secure := secure;
  cookie_SameSite := SameSiteStrictMode |}.

Definition refresh_cookie (token : string) (maxAge : Z) (secure : bool) : Cookie := {|
  cookie_Name := RefreshCookieName; cookie_Value := token; cookie_Path := "/auth/refresh";
  cookie_MaxAge := maxAge; cookie_HttpOnly := true; cookie_Secure := secure;
  cookie_SameSite := SameSiteStrictMode |}.

Definition SetAccessCookie (w : ResponseWriter) token maxAge secure : ResponseWriter :=
  SetCookie w (access_cookie token maxAge secure).
Definition SetRefreshCookie (w : ResponseWriter) token maxAge secure : ResponseWriter :=
  SetCookie w (refresh_cookie token maxAge secure).
Definition ClearAccessCookie (w : ResponseWriter) secure : ResponseWriter :=
  SetCookie w (access_cookie EmptyString (-1) secure).
Definition ClearRefreshCookie (w : ResponseWriter) secure : ResponseWriter :=
  SetCookie w (refresh_cookie EmptyString (-1) secure).

(** ** What a response says *)

(** The answer to a request on a fresh writer. *)
Definition answered (code : Z) (v : json) (w : ResponseWriter) : Prop :=
  status w = Some code ∧ w_Body w = [JsonLine v].

Lemma writeJSON_answered w code v :
  w_Sent w = None → w_Body w = [] → answered code v (writeJSON w code v).
Proof. intros Hs Hb. unfold answered, status. cbn. by rewrite Hs, Hb. Qed.

Lemma status_writeJSON w code v : w_Sent w = None → status (writeJSON w code v) = Some code.
Proof. intros Hs. unfold status. cbn. by rewrite Hs. Qed.
End http.
