(* ===== verification/HttpAuth.v ===== *)
(** Handlers of accounts and logins: [internal/api/http/user_presenter.go],
    [session_presenter.go], [totp_presenter.go] and [sso_presenter.go].  Log lines
    are left out. *)

From S2P Require Import Prelude.
From S2P Require Import Bytes.
From S2P Require Import Regexp.
From S2P Require Import Platform.
From S2P Require Import Database.
From S2P Require Import Integrity.
From S2P Require Import World.
From S2P Require Import RedisStore.
From S2P Require Import Session.
From S2P Require Import Users.
From S2P Require Import Totp.
From S2P Require Import Sso.
From S2P Require Import Http.
From S2P Require Import GoStrings.

Module accounts.
Import http.

(** [len(s)] of a string *)
Definition len (s : string) : Z := Z.of_nat (String.length s).

(** ** user_presenter.go *)

Definition maxNameLen : Z := 255.
Definition maxUsernameLen : Z := 255.
Definition maxEmailLen : Z := 255.
Definition maxPasswordLen : Z := 72.
Definition minPasswordLen : Z := 8.

(** The classes of the expression. *)
Definition local_char (c : byte) : bool := alnum c || one_of (unstr "._%+-") c.
Definition domain_char (c : byte) : bool := alnum c || one_of (unstr ".-") c.

(** [^[a-zA-Z0-9._%+\-]+@[a-zA-Z0-9.\-]+\.[a-zA-Z]{2,}$] *)
Definition emailRegex : regexp :=
  Cat (Plus (Class_ local_char))
  (Cat (Class_ (one_of (unstr "@")))
  (Cat (Plus (Class_ domain_char))
  (Cat (Class_ (one_of (unstr "."))) (AtLeast2 (Class_ alpha))))).

Record registerRequest := {
  reg_Name : string;
  reg_Username : string;
  reg_Password : string;
  reg_Email : string;
}.

Definition userResponse (u : user.User) (userID : string) : json := JObject [
  ("user_id", JString userID); ("name", JString (user.Name u));
  ("username", JString (user.Username u)); ("email", JString (user.Email u))]%string.

(** The text of the error, if any. *)
Definition validateRegisterInput (req : registerRequest) : option string :=
  if maxNameLen <? len (reg_Name req) then Some "name too long"%string
  else if maxUsernameLen <? len (reg_Username req) then Some "username too long"%string
  else if maxEmailLen <? len (reg_Email req) then Some "email too long"%string
  else if negb (MatchString emailRegex (unstr (reg_Email req))) then
    Some "invalid email format"%string
  else if len (reg_Password req) <? minPasswordLen then
    Some "password must be at least 8 characters"%string
  else if maxPasswordLen <? len (reg_Password req) then Some "password too long"%string
  else None.

(** The password is not trimmed. *)
Definition trim_register (req : registerRequest) : registerRequest := {|
  reg_Name := TrimSpace (reg_Name req); reg_Username := TrimSpace (reg_Username req);
  reg_Password := reg_Password req; reg_Email := TrimSpace (reg_Email req) |}.

Definition register_input (req : registerRequest) : user.RegisterInput := {|
  user.in_Name := reg_Name req; user.in_Username := reg_Username req;
  user.in_Password := reg_Password req; user.in_Email := reg_Email req |}.

Section user_presenter.
Context {S : Type} `{user.Repository S} `{Entropy S} `{Hasher S} `{Uuid} `{JsonDecode registerRequest}.

Definition Register : Handler S := λ w r,
  match Decode_body r with
  | Err _ => mret (writeJSON w StatusBadRequest (error_body "invalid request body"))
  | Ok req =>
      let req := trim_register req in
      if is_empty (reg_Name req) || is_empty (reg_Username req) ||
         is_empty (reg_Password req) || is_empty (reg_Email req) then
        mret (writeJSON w StatusBadRequest (error_body "all fields are required"))
      else match validateRegisterInput req with
      | Some text => mret (writeJSON w StatusBadRequest (error_body text))
      | None =>
          u ← attempt (user.Register (register_input req));
          mret (match u with
          | Err err =>
              if errors_Is err user.ErrEmailTaken then
                writeJSON w StatusConflict (error_body "email already taken")
              else if errors_Is err user.ErrUsernameTaken then
                writeJSON w StatusConflict (error_body "username already taken")
              else internal_error w
          | Ok u => writeJSON w StatusCreated (userResponse u (uuid_String (user.ID u)))
          end)
      end
  end.
End user_presenter.

(** ** session_presenter.go *)

Definition accessCookieMaxAge : Z := 15 * 60.
Definition refreshCookieMaxAge : Z := 7 * 24 * 60 * 60.

Record loginRequest := { login_Email : string; login_Password : string }.

Definition loginResponse (tokens : session.TokenPair) (user : json) : json := JObject [
  ("access_token", JString (session.AccessToken tokens));
  ("refresh_token", JString (session.RefreshToken tokens)); ("user", user)]%string.

Definition refreshResponse (accessToken : string) : json :=
  JObject [("access_token"%string, JString accessToken)].

Definition extractRefreshToken (r : Request) : string := cookie_or_bearer RefreshCookieName r.

Section session_presenter.
Context {S : Type} `{user.Repository S} `{session.Repository S} `{session.TokenStore S}
  `{Entropy S} `{Bcrypt} `{Uuid} `{JsonDecode loginRequest}.

(** The [secure] of the presenter. *)
Context (secure : bool).

Definition set_pair (w : ResponseWriter) (tokens : session.TokenPair) : ResponseWriter :=
  let w := SetAccessCookie w (session.AccessToken tokens) accessCookieMaxAge secure in
  SetRefreshCookie w (session.RefreshToken tokens) refreshCookieMaxAge secure.

Definition invalid_credentials (w : ResponseWriter) : ResponseWriter :=
  writeJSON w StatusUnauthorized (error_body "invalid credentials").

Definition Login : Handler S := λ w r,
  match Decode_body r with
  | Err _ => mret (writeJSON w StatusBadRequest (error_body "invalid request body"))
  | Ok req =>
      let email := TrimSpace (login_Email req) in
      let password := TrimSpace (login_Password req) in
      if is_empty email || is_empty password then
        mret (writeJSON w StatusBadRequest (error_body "email and password are required"))
      else if maxEmailLen <? len email then
        mret (writeJSON w StatusBadRequest (error_body "email too long"))
      else if maxPasswordLen <? len password then
        mret (writeJSON w StatusBadRequest (error_body "password too long"))
      else
        u ← attempt (user.GetByEmail email);
        match u with
        | Err err => mret (if errors_Is err user.ErrNotFound then invalid_credentials w
                           else internal_error w)
        | Ok u =>
            match user.VerifyPassword (user.Password u) password with
            | Some err =>
                mret (if errors_Is err bcrypt_ErrMismatchedHashAndPassword then invalid_credentials w
                      else internal_error w)
            | None =>
                tokens ← attempt (session.Create (user.ID u));
                mret (match tokens with
                | Err _ => internal_error w
                | Ok tokens =>
                    writeJSON (set_pair w tokens) StatusOK
                      (loginResponse tokens (userResponse u (uuid_String (user.ID u))))
                end)
            end
        end
  end.

Definition Refresh : Handler S := λ w r,
  let refreshToken := extractRefreshToken r in
  if is_empty refreshToken then
    mret (writeJSON w StatusUnauthorized (error_body "missing refresh token"))
  else
    accessToken ← attempt (session.Refresh refreshToken);
    mret (match accessToken with
    | Err err =>
        if errors_Is err session.ErrInvalidRefreshToken then
          writeJSON w StatusUnauthorized (error_body "invalid or expired refresh token")
        else internal_error w
    | Ok accessToken =>
        let w := SetAccessCookie w accessToken accessCookieMaxAge secure in
        writeJSON w StatusOK (refreshResponse accessToken)
    end).

Definition Logout : Handler S := λ w r,
  let refreshToken := extractRefreshToken r in
  if is_empty refreshToken then
    mret (writeJSON w StatusUnauthorized (error_body "missing refresh token"))
  else
    revoked ← attempt (session.Revoke refreshToken);
    mret (match revoked with
    | Err err =>
        if errors_Is err session.ErrSessionNotFound then
          writeJSON w StatusNotFound (error_body "session not found")
        else internal_error w
    | Ok _ =>
        let w := ClearAccessCookie w secure in
        let w := ClearRefreshCookie w secure in
        writeJSON w StatusOK (message_body "logged out")
    end).
End session_presenter.

(** ** totp_presenter.go *)

Record totpVerifyRequest := { totp_Code : string }.

Section totp_presenter.
Context {S : Type} `{totp.TOTPStore S} `{totp.TotpLib S} `{Uuid} `{JsonDecode totpVerifyRequest}.

(** The issuer of the service. *)
Context (issuer : string).

Definition Setup : Handler S := λ w r,
  match UserIDFromContext r with
  | None => mret (unauthorized w)
  | Some userID =>
      result ← attempt (totp.Setup issuer (uuid_String userID) (uuid_String userID));
      mret (match result with
      | Err _ => internal_error w
      | Ok result => writeJSON w StatusOK (JObject [
          ("secret", JString (totp.Secret result)); ("url", JString (totp.URL result))]%string)
      end)
  end.

Definition Verify : Handler S := λ w r,
  match UserIDFromContext r with
  | None => mret (unauthorized w)
  | Some userID =>
      match Decode_body r with
      | Err _ => mret (writeJSON w StatusBadRequest (error_body "code is required"))
      | Ok req =>
          if is_empty (totp_Code req) then
            mret (writeJSON w StatusBadRequest (error_body "code is required"))
          else
            valid ← attempt (totp.Verify (uuid_String userID) (totp_Code req));
            mret (match valid with
            | Err _ => internal_error w
            | Ok valid =>
                if negb valid then
                  writeJSON w StatusUnauthorized (error_body "invalid totp code")
                else writeJSON w StatusOK (message_body "totp verified")
            end)
      end
  end.
End totp_presenter.

(** ** sso_presenter.go *)

Section sso_presenter.
Context {S : Type} `{sso.Repository S} `{sso.StateStore S} `{user.Repository S}
  `{session.Repository S} `{session.TokenStore S} `{Entropy S} `{Hasher S} `{Uuid}
  `{sso.OAuth} `{sso.OAuthClient S}.
Context (googleOAuth : sso.oauth2_Config) (secure : bool).

Definition GoogleRedirect : Handler S := λ w r,
  url ← attempt (sso.GoogleAuthURL googleOAuth);
  mret (match url with
  | Err _ => internal_error w
  | Ok url => http_Redirect w r url StatusTemporaryRedirect
  end).

(** Find the user of that email, or register one, without a password. *)
Definition find_or_register (info : sso.GoogleUserInfo) : M S user.User :=
  u ← attempt (user.GetByEmail (sso.Email info));
  match u with
  | Ok u => mret u
  | Err err =>
      if errors_Is err user.ErrNotFound then
        user.Register {|
          user.in_Name := sso.InfoName info; user.in_Username := sso.Email info;
          user.in_Password := EmptyString; user.in_Email := sso.Email info |}
      else fail err
  end.

Definition GoogleCallback : Handler S := λ w r,
  let state := r_Query r "state" in
  let code := r_Query r "code" in
  if is_empty state || is_empty code then
    mret (writeJSON w StatusBadRequest (error_body "missing state or code"))
  else
    info ← attempt (sso.GoogleCallback googleOAuth state code);
    match info with
    | Err err =>
        mret (if errors_Is err sso.ErrInvalidState then
                writeJSON w StatusBadRequest (error_body "invalid oauth state")
              else writeJSON w StatusInternalServerError (error_body "oauth failed"))
    | Ok info =>
        u ← attempt (find_or_register info);
        match u with
        | Err _ => mret (internal_error w)
        | Ok u =>
            linked ← attempt (sso.FindOrCreateSSO (user.ID u) sso.ProviderGoogle
                                (sso.InfoName info) (sso.Email info));
            match linked with
            | Err _ => mret (internal_error w)
            | Ok _ =>
                tokens ← attempt (session.Create (user.ID u));
                mret (match tokens with
                | Err _ => internal_error w
                | Ok tokens => writeJSON (set_pair secure w tokens) StatusOK (JObject [
                    ("access_token", JString (session.AccessToken tokens));
                    ("email", JString (user.Email u)); ("name", JString (user.Name u));
                    ("refresh_token", JString (session.RefreshToken tokens));
                    ("user_id", JString (uuid_String (user.ID u)))]%string)
                end)
            end
        end
    end.
End sso_presenter.

(** ** What an email address is *)

Definition valid_email (s : bytes) : Prop :=
  ∃ local domain tld, s = local ++ "@"%char :: domain ++ "."%char :: tld ∧
  local ≠ [] ∧ Forall (λ c, local_char c = true) local ∧
  domain ≠ [] ∧ Forall (λ c, domain_char c = true) domain ∧
  (2 ≤ length tld)%nat ∧ Forall (λ c, alpha c = true) tld.

Lemma matches_one_of (c : byte) s : matches (Class_ (one_of [c])) s ↔ s = [c].
Proof.
  rewrite matches_Class. unfold one_of. split.
  - intros (x & -> & Hx%bool_decide_eq_true%list_elem_of_singleton). by subst.
  - intros ->. exists c. split; [done|]. by apply bool_decide_eq_true, list_elem_of_singleton.
Qed.

Lemma matches_AtLeast2_Class p s :
  matches (AtLeast2 (Class_ p)) s ↔ (2 ≤ length s)%nat ∧ Forall (λ c, p c = true) s.
Proof.
  unfold AtLeast2. rewrite matches_Cat. setoid_rewrite matches_Class.
  setoid_rewrite (matches_Plus_Class p). split.
  - intros (s1 & s2 & -> & (c & -> & Hc) & Hne & Hs). destruct s2; [done|]. split; [cbn; lia|].
    by constructor.
  - intros [Hl Hs]. destruct Hs as [|c [|d s] Hc Hs]; cbn in Hl; [lia..|].
    exists [c], (d :: s). split; [done|]. split; [by exists c|done].
Qed.

Lemma emailRegex_spec s : MatchString emailRegex s = true ↔ valid_email s.
Proof.
  rewrite MatchString_spec. unfold emailRegex, valid_email.
  rewrite matches_Cat. setoid_rewrite matches_Plus_Class. setoid_rewrite matches_Cat.
  setoid_rewrite matches_one_of. setoid_rewrite matches_Cat. setoid_rewrite matches_Plus_Class.
  setoid_rewrite matches_Cat. setoid_rewrite matches_one_of.
  setoid_rewrite matches_AtLeast2_Class. split.
  - intros (l & s2 & -> & [? ?] & a & s3 & -> & -> & dm & s4 & -> & [? ?] & dt & t & -> & -> & ? & ?).
    by exists l, dm, t.
  - intros (l & dm & t & -> & ? & ? & ? & ? & ? & ?).
    exists l, ("@"%char :: dm ++ "."%char :: t). split; [done|]. split; [done|].
    exists ["@"%char], (dm ++ "."%char :: t). split; [done|]. split; [done|].
    exists dm, ("."%char :: t). split; [done|]. split; [done|].
    by exists ["."%char], t.
Qed.

Lemma validateRegisterInput_None req :
  validateRegisterInput req = None ↔
  len (reg_Name req) ≤ 255 ∧ len (reg_Username req) ≤ 255 ∧ len (reg_Email req) ≤ 255 ∧
  valid_email (unstr (reg_Email req)) ∧ 8 ≤ len (reg_Password req) ≤ 72.
Proof.
  unfold validateRegisterInput, maxNameLen, maxUsernameLen, maxEmailLen, maxPasswordLen,
    minPasswordLen. rewrite <- emailRegex_spec.
  repeat z_test; destruct (MatchString _ _); cbn; repeat z_test; intuition (discriminate || lia).
Qed.

(** ** Registering and logging in, on a world *)

#[export] Existing Instances user.Store_Repository user.World_View user.World_Directory
  session.PGStore_Repository session.RedisTokenStore session.World_View session.World_Backend
  session.World_BackendUp totp.RedisStore_TOTPStore totp.World_TotpLib
  sso.PGStore_Repository sso.RedisStateStore sso.World_OAuthClient.

Section theorems.
Context {R D : Type} `{RedisLaws R} `{PostgresLaws} `{OracleLaws} `{BcryptLaws} `{UuidLaws}.
Context `{!JsonDecode registerRequest} `{!JsonDecode loginRequest}.
Implicit Types (w : World R D) (r : Request).

(** A live account that the password opens. *)
Definition opens (d : Database) (u : user.User) (email password : string) : Prop :=
  user.accounts d !! user.ID u = Some u ∧ user.IsDeleted u = false ∧ user.Email u = email ∧
  user.VerifyPassword (user.Password u) password = None.

Lemma GetByEmail_tick email w res w' :
  user.GetByEmail email w = (res, w') → w' = tick w.
Proof.
  intros Hr. cbn in Hr. unfold user.Store.GetByEmail in Hr.
  apply M_bind_attempt_inv in Hr as (r0 & w1 & Hrun & Hr).
  apply read_inv in Hrun as [-> _]; [|apply reads_GetUserByEmail].
  unfold lift in Hr. by destruct (no_rows _ _); injection Hr as _ <-.
Qed.

Lemma GetByEmail_found email w res w' :
  Integrity (db w) → user.GetByEmail email w = (res, w') →
  user.found (user.accounts (db w)) (λ u, user.Email u = email) res ∨ ∃ e, res = Err e ∧ is_fault e.
Proof. intros Hi Hr. by apply user.law_GetByEmail in Hr as (_ & _ & _ & ?). Qed.

Lemma GetByEmail_up `{!FaultFree} email w res w' e :
  Integrity (db w) → pg_text email = true → user.GetByEmail email w = (res, w') → res = Err e →
  e = user.ErrNotFound.
Proof.
  intros Hi Ht Hr ->. cbn in Hr. unfold user.Store.GetByEmail in Hr.
  apply M_bind_attempt_inv in Hr as (r0 & w1 & Hrun & Hr).
  unfold Queries.GetUserByEmail in Hrun. rewrite run_sql_FaultFree in Hrun.
  unfold Queries.sql_GetUserByEmail, text_param in Hrun. rewrite Ht in Hrun. cbn in Hrun.
  destruct (one _) as [row|e0] eqn:Hone; cbn in Hrun; injection Hrun as <- <-; [done|].
  apply one_select_Err in Hone as [-> _]. by injection Hr as <- _.
Qed.

Definition fresh_pair secure (p : session.TokenPair) : list Cookie :=
  [access_cookie (session.AccessToken p) accessCookieMaxAge secure;
   refresh_cookie (session.RefreshToken p) refreshCookieMaxAge secure].

(** C12: A login answers 200 only for a live account whose email is the given one and
    whose stored hash the given password opens; it then sets exactly the two cookies of
    a fresh token pair, adds the one session row, and the access token is stored for
    that account. Otherwise no cookie is set, and if no live account is opened by the
    credentials nothing is written. *)
Theorem Login_checks_credentials secure r w res w' :
  Integrity (db w) → Login secure NewResponseWriter r w = (res, w') →
  ∃ resp, res = Ok resp ∧
  ((∃ req u p, Decode_body r = Ok req ∧
      opens (db w) u (TrimSpace (login_Email req)) (TrimSpace (login_Password req)) ∧
      answered StatusOK (loginResponse p (userResponse u (uuid_String (user.ID u)))) resp ∧
      w_Cookies resp = fresh_pair secure p ∧
      session.rows w' = <[session.RefreshToken p := user.ID u]> (session.rows w) ∧
      ∃ wr, clock w ≤ wr ≤ clock w' ∧
        session.entry (λ τ, session.access w' τ (session.AccessToken p))
          (uuid_String (user.ID u)) wr session.AccessTokenTTL) ∨
   (status resp ≠ Some StatusOK ∧ w_Cookies resp = [] ∧
    ((∀ req u, Decode_body r = Ok req →
        ¬ opens (db w) u (TrimSpace (login_Email req)) (TrimSpace (login_Password req))) →
      db w' = db w ∧ redis w' = redis w))).
Proof.
  intros Hi Hr. unfold Login in Hr.
  destruct (Decode_body r) as [req|e] eqn:Hreq.
  2:{ injection Hr as <- <-. eexists. split; [done|]. by right. }
  cbv zeta in Hr. set (email := TrimSpace (login_Email req)) in *.
  set (password := TrimSpace (login_Password req)) in *.
  destruct (is_empty email || is_empty password);
    [injection Hr as <- <-; eexists; split; [done|]; by right|].
  destruct (maxEmailLen <? len email); [injection Hr as <- <-; eexists; split; [done|]; by right|].
  destruct (maxPasswordLen <? len password); [injection Hr as <- <-; eexists; split; [done|]; by right|].
  apply M_bind_attempt_inv in Hr as (got & w1 & Hget & Hr).
  pose proof (GetByEmail_tick _ _ _ _ Hget) as ->.
  pose proof (GetByEmail_found _ _ _ _ Hi Hget) as Hfound.
  destruct got as [u|e].
  2:{ injection Hr as <- <-. eexists. split; [done|]. right. by destruct (errors_Is e _). }
  destruct (user.VerifyPassword (user.Password u) password) as [e|] eqn:Hverify.
  { injection Hr as <- <-. eexists. split; [done|]. right. by destruct (errors_Is e _). }
  assert (Hopens : opens (db w) u email password).
  { destruct Hfound as [[(u' & [= <-] & Hu & He & Hd)|[? _]]|(e & ? & _)]; [|done..]. done. }
  apply M_bind_attempt_inv in Hr as (made & w2 & Hmake & Hr).
  destruct made as [p|e]; injection Hr as <- <-; eexists; (split; [done|]).
  - left. exists req, u, p. split; [done|]. split; [done|].
    split; [apply writeJSON_answered; done|]. split; [done|].
    apply session.Create_session_Ok in Hmake as ((_ & _) & _ & Hrows & (wr & Hwr & He) & _); [|exact Hi].
    split; [exact Hrows|]. exists wr. split; [|exact He].
    pose proof (tick_clock w). cbn in Hwr |- *. unfold session.now in Hwr. cbn in Hwr. lia.
  - right. split; [done|]. split; [done|]. intros Hno. by destruct (Hno req u eq_refl).
Qed.

(** The answer does not tell an unknown email from a wrong password. *)
Theorem Login_refusal_is_uniform `{!FaultFree} secure r req w :
  Integrity (db w) → Decode_body r = Ok req →
  let email := TrimSpace (login_Email req) in
  let password := TrimSpace (login_Password req) in
  email ≠ EmptyString → password ≠ EmptyString → len email ≤ 255 → len password ≤ 72 →
  pg_text email = true →
  (∀ u, user.accounts (db w) !! user.ID u = Some u → user.Email u = email →
     user.IsDeleted u = false →
     user.VerifyPassword (user.Password u) password = Some bcrypt_ErrMismatchedHashAndPassword) →
  Login secure NewResponseWriter r w = (Ok (invalid_credentials NewResponseWriter), tick w).
Proof.
  intros Hi Hreq email password He Hp Hle Hlp Ht Hno. unfold Login. rewrite Hreq. cbv zeta.
  fold email password. unfold is_empty. rewrite !bool_decide_false by done. cbn [orb].
  unfold maxEmailLen, maxPasswordLen. rewrite (proj2 (Z.ltb_ge _ _) Hle), (proj2 (Z.ltb_ge _ _) Hlp).
  unfold mbind at 1, M_bind at 1, attempt at 1. destruct (user.GetByEmail email w) as [got w1] eqn:Hget.
  pose proof (GetByEmail_tick _ _ _ _ Hget) as ->.
  pose proof (GetByEmail_found _ _ _ _ Hi Hget) as Hfound. destruct got as [u|e].
  - destruct Hfound as [[(u' & [= <-] & Hu & Hm & Hd)|[? _]]|(e & ? & _)]; [|done..].
    by rewrite (Hno u Hu Hm Hd).
  - by rewrite (GetByEmail_up email w (Err e) _ e Hi Ht Hget eq_refl).
Qed.

(** With connections up, a registration that fails has changed no row. *)
Lemma check_free_db before taken (s : statement sqlc.User) w (res : result unit) w' :
  reads s →
  user.check_free before taken (r ← attempt (run_sql s); row ← lift (no_rows user.ErrNotFound r);
                                mret (user.fromSqlcUser row)) w = (res, w') → db w' = db w.
Proof.
  intros Hs Hr. unfold user.check_free in Hr. apply M_bind_attempt_inv in Hr as (found & w1 & Hrun & Hr).
  apply M_bind_attempt_inv in Hrun as (row & w2 & Hrow & Hrun). apply read_inv in Hrow as [-> _]; [|done].
  assert (w1 = tick w) as ->.
  { unfold lift, mbind, M_bind in Hrun. destruct (no_rows _ _); by injection Hrun as _ <-. }
  destruct found as [v|e]; [|destruct (errors_Is e _)]; by injection Hr as _ <-.
Qed.

Lemma user_Register_up `{!FaultFree} input w e w' : user.Register input w = (Err e, w') → db w' = db w.
Proof.
  intros Hr. unfold user.Register in Hr. apply M_bind_inv in Hr as [([] & w1 & H1_ & Hr)|(e1 & H1_ & _)];
    (apply check_free_db in H1_ as Hd1; [|apply reads_GetUserByEmail]); [|done].
  apply M_bind_inv in Hr as [([] & w2 & H2_ & Hr)|(e2 & H2_ & _)];
    (apply check_free_db in H2_ as Hd2; [|apply reads_GetUserByUsername]); [|by rewrite Hd2].
  apply M_bind_inv in Hr as [(hashed & w3 & H3_ & Hr)|(e3 & H3_ & _)];
    apply M_mwrap_inv in H3_ as (r3 & H3_ & _); injection H3_ as _ <-; [|cbn; congruence].
  apply M_bind_inv in Hr as [(id & w4 & H4_ & Hr)|(e4 & H4_ & _)];
    apply M_mwrap_inv in H4_ as (r4 & H4_ & _); injection H4_ as _ <-; [|cbn; congruence].
  apply M_mwrap_inv in Hr as (r5 & Hr & Hr5). apply wrap_err_Err in Hr5 as (e5 & -> & _).
  apply M_bind_inv in Hr as [(row & w5 & _ & ?)|(e6 & Hr & _)]; [done|].
  apply run_sql_up in Hr as [(a & ? & _)|(e7 & _ & _ & ->)]; [done|]. cbn. congruence.
Qed.

(** C26: A registration that answers 201 has created one account, with an email address
    of the accepted form, a password of 8 to 72 bytes that opens it, and an identifier,
    username and email no account had; one that answers otherwise has, with connections
    up, changed no row. It answers 409 only when a live account has the email or
    username, without a change to the accounts, and 400 without any call. *)
Theorem Register_creates_valid_account r w res w' :
  Integrity (db w) → Register NewResponseWriter r w = (res, w') →
  ∃ resp, res = Ok resp ∧
  ((∃ req u, Decode_body r = Ok req ∧
      let t := trim_register req in
      reg_Name t ≠ EmptyString ∧ reg_Username t ≠ EmptyString ∧
      valid_email (unstr (reg_Email t)) ∧ 8 ≤ len (reg_Password req) ≤ 72 ∧
      answered StatusCreated (userResponse u (uuid_String (user.ID u))) resp ∧
      ¬ user.taken (user.accounts (db w)) (user.ID u) (user.Username u) (user.Email u) ∧
      user.accounts (db w') = <[user.ID u := u]> (user.accounts (db w)) ∧
      pg_varchar 255 (reg_Email t) = Some (user.Email u) ∧
      opens (db w') u (user.Email u) (reg_Password req)) ∨
   (status resp ≠ Some StatusCreated ∧
    (status resp = Some StatusConflict → user.accounts (db w') = user.accounts (db w) ∧
      ∃ req, Decode_body r = Ok req ∧
        (user.live (user.accounts (db w)) (λ u, user.Email u = reg_Email (trim_register req)) ∨
         user.live (user.accounts (db w)) (λ u, user.Username u = reg_Username (trim_register req)))) ∧
    (status resp = Some StatusBadRequest → w' = w) ∧
    (FaultFree → db w' = db w))).
Proof.
  intros Hi Hr. unfold Register in Hr.
  destruct (Decode_body r) as [req|e] eqn:Hreq.
  2:{ injection Hr as <- <-. eexists. split; [done|]. by right. }
  cbv zeta in Hr. set (t := trim_register req) in *.
  destruct (is_empty (reg_Name t) || _ || _ || _) eqn:Hempty.
  { injection Hr as <- <-. eexists. split; [done|]. by right. }
  destruct (validateRegisterInput t) as [text|] eqn:Hvalid.
  { injection Hr as <- <-. eexists. split; [done|]. by right. }
  apply validateRegisterInput_None in Hvalid as (_ & _ & _ & Hemail & Hpw).
  repeat apply orb_false_elim in Hempty as [Hempty ?].
  unfold is_empty in *. rewrite !bool_decide_eq_false in *.
  apply M_bind_attempt_inv in Hr as (made & w1 & Hmake & Hr).
  pose proof (λ up : FaultFree, user_Register_up (register_input t) w) as Hup.
  pose proof Hmake as Hmade. apply (user.Register_inv (register_input t) w) in Hmake as (Hi' & _ & Hres); [|exact Hi].
  destruct made as [u|e]; injection Hr as <- <-.
  - eexists. split; [done|]. left. exists req, u. split; [done|].
    destruct Hres as (_ & _ & Hem & Hv & Hdel & _ & Ht & Hd). cbn in Hd.
    split_and!; try done; [apply Hpw|apply Hpw|]. split; [rewrite Hd; apply lookup_insert_eq|done].
  - destruct Hres as [He Hu]. destruct (errors_Is e user.ErrEmailTaken).
    { eexists. split; [done|]. right. split; [done|].
      split; [|split; [done|intros up; by eapply Hup]]. intros _. destruct (He eq_refl) as [Hl Hd]. split; [exact Hd|]. exists req. split; [done|]. by left. }
    destruct (errors_Is e user.ErrUsernameTaken).
    { eexists. split; [done|]. right. split; [done|].
      split; [|split; [done|intros up; by eapply Hup]]. intros _. destruct (Hu eq_refl) as (Hl & _ & Hd). split; [exact Hd|]. exists req. split; [done|]. by right. }
    eexists. split; [done|]. right. split; [done|]. split; [done|]. split; [done|]. intros up. by eapply Hup.
Qed.

(** A logout that answers 200 deletes the session of the refresh token, which there was;
    it changes no access token, so the one of the session it ends stays valid until it
    expires. *)
Theorem Logout_keeps_access_tokens secure r w resp w' :
  Integrity (db w) → Logout secure NewResponseWriter r w = (Ok resp, w') →
  (∀ τ t, session.access w' τ t = session.access w τ t) ∧
  (status resp = Some StatusOK →
     session.rows w !! extractRefreshToken r ≠ None ∧
     session.rows w' = delete (extractRefreshToken r) (session.rows w)).
Proof.
  intros Hi Hr. unfold Logout in Hr. cbv zeta in Hr.
  destruct (is_empty _); [by injection Hr as <- <-|].
  apply M_bind_attempt_inv in Hr as (revoked & w1 & Hrev & Hr).
  apply session.Revoke_inv in Hrev as (_ & Ha & _ & _ & _ & Hres); [|exact Hi].
  destruct revoked as [u|e]; injection Hr as <- <-; [done|]. split; [exact Ha|].
  by destruct (errors_Is e _).
Qed.
End theorems.

(** ** What a browser sends back

    RFC 6265: a cookie goes to the paths below its own; one with a negative age is
    dropped. *)

Definition path_match (cookie_path request_path : string) : bool :=
  bool_decide (cookie_path = request_path) ||
  match strip_prefix (unstr cookie_path) (unstr request_path) with
  | Some rest => bool_decide (last (unstr cookie_path) = Some "/"%char) || bool_decide (head rest = Some "/"%char)
  | None => false
  end.

Definition sent_cookies (jar : list Cookie) (path : string) : list (string * string) :=
  (λ c, (cookie_Name c, cookie_Value c)) <$> filter (λ c, path_match (cookie_Path c) path = true ∧ 0 < cookie_MaxAge c) jar.

(** The cookie of the refresh token goes to /auth/refresh only, so a browser that was
    given both cookies cannot log out: it is told that the token is missing. *)
Theorem browser_cannot_log_out {S} `{session.Repository S} `{session.TokenStore S} `{Entropy S} `{Uuid}
    secure tokens wr r (s : S) :
  r_Path r = "/auth/logout"%string → r_Header r "Authorization" = EmptyString →
  r_Cookies r = sent_cookies (w_Cookies (set_pair secure NewResponseWriter tokens)) (r_Path r) →
  Logout secure wr r s =
    (Ok (writeJSON wr StatusUnauthorized (error_body "missing refresh token")), s).
Proof.
  intros Hp Ha Hc. rewrite Hp in Hc.
  assert (Hno : extractRefreshToken r = EmptyString).
  { unfold extractRefreshToken, cookie_or_bearer, request_Cookie, bearer_token. rewrite Hc, Ha. reflexivity. }
  unfold Logout. cbv zeta. by rewrite Hno.
Qed.

Module Demo.
Import Sim.

Abbreviation W := (World (gmap string (string * Z)) unit).

#[export] Existing Instances user.Demo.demo_bcrypt user.Demo.demo_bcrypt_laws.

(** The body is the password. *)
#[export] Instance demo_login : JsonDecode loginRequest := λ b,
  Ok {| login_Email := " ada@example.org"; login_Password := str (lb_bytes b) |}.

#[export] Instance demo_register : JsonDecode registerRequest := λ b,
  Ok {| reg_Name := "Ada"; reg_Username := "ada"; reg_Password := str (lb_bytes b);
        reg_Email := "ada@example.org" |}.

Definition post (body : string) (cookies : list (string * string)) : Request := {|
  r_Method := "POST"; r_Path := "/"; r_PathValue _ := EmptyString; r_Query _ := EmptyString;
  r_Header _ := EmptyString; r_Cookies := cookies; r_Body := unstr body;
  r_RemoteAddr := EmptyString; r_ProtoAtLeast11 := true; r_userID := None |}.

Definition w0 : W := user.Demo.w0.
Definition w1 : W := user.Demo.w1.
Definition w2 : W := (Login false NewResponseWriter (post "correct horse" []) w1).2.

Lemma ada_registered : Integrity (db w1).
Proof.
  by destruct (user.Register_inv user.Demo.ada_input w0 _ w1 user.Demo.empty_inv (run_eq _ _ _ eq_refl)).
Qed.

Lemma ada_logged_in : Integrity (db w2).
Proof.
  destruct (session.Create (Vector.const (byte_of 3) 16) (tick w1)) as [r w] eqn:Hr.
  assert (db w2 = db w) as ->.
  { apply (f_equal (λ x, db x.2)) in Hr. cbn [snd] in Hr. rewrite <- Hr. vm_compute. reflexivity. }
  destruct r as [p|e]; [|apply (f_equal fst) in Hr; vm_compute in Hr; discriminate Hr].
  apply session.Create_session_Ok in Hr as [[Hi _] _]; [exact Hi|exact ada_registered].
Qed.

Lemma Login_checks_credentials_witness :
  ∃ u, opens (db w1) u "ada@example.org" "correct horse".
Proof.
  destruct (Login false NewResponseWriter (post "correct horse" []) w1) as [res w] eqn:Hr.
  destruct (Login_checks_credentials false _ w1 res w ada_registered Hr)
    as (resp & -> & [(req & u & p & [= <-] & Ho & _)|(Hs & _)]).
  - exists u. exact Ho.
  - exfalso. apply Hs. apply (f_equal fst) in Hr. vm_compute in Hr. by injection Hr as <-.
Defined.

Lemma Register_creates_valid_account_witness :
  ∃ u, user.accounts (db (Register NewResponseWriter (post " secret12" []) w0).2) =
       <[user.ID u := u]> ∅ ∧ user.VerifyPassword (user.Password u) " secret12" = None.
Proof.
  destruct (Register NewResponseWriter (post " secret12" []) w0) as [res w] eqn:Hr.
  destruct (Register_creates_valid_account _ w0 res w Integrity_empty Hr)
    as (resp & -> & [(req & u & [= <-] & _ & _ & _ & _ & _ & _ & Hd & _ & (_ & _ & _ & Hv))|(Hs & _)]).
  - exists u. split; [exact Hd|exact Hv].
  - exfalso. apply Hs. apply (f_equal fst) in Hr. vm_compute in Hr. by injection Hr as <-.
Defined.

(** The tokens of the login are in its cookies. *)
Definition cookies : list (string * string) :=
  match (Login false NewResponseWriter (post "correct horse" []) w1).1 with
  | Ok resp => (λ c, (cookie_Name c, cookie_Value c)) <$> w_Cookies resp
  | Err _ => []
  end.

Lemma Logout_keeps_access_tokens_witness :
  let r := post EmptyString cookies in
  let w3 := (Logout false NewResponseWriter r w2).2 in
  session.rows w3 !! extractRefreshToken r = None ∧
  session.access w3 (clock w3) (extractAccessToken r) = session.access w2 (clock w3) (extractAccessToken r).
Proof.
  intros r w3. destruct (Logout false NewResponseWriter r w2) as [[resp|e] w] eqn:Hr.
  - destruct (Logout_keeps_access_tokens false r w2 resp w ada_logged_in Hr) as [Ha Hrows].
    assert (Hs : status resp = Some StatusOK).
    { apply (f_equal fst) in Hr. vm_compute in Hr. by injection Hr as <-. }
    destruct (Hrows Hs) as [_ Hd]. change w3 with w. split.
    + rewrite Hd. apply lookup_delete_eq.
    + apply Ha.
  - apply (f_equal fst) in Hr. vm_compute in Hr. discriminate Hr.
Defined.

(** A browser after a login, at /auth/logout. *)
Definition logging_out : Request := {|
  r_Method := "POST"; r_Path := "/auth/logout"; r_PathValue _ := EmptyString; r_Query _ := EmptyString;
  r_Header _ := EmptyString;
  r_Cookies := [(AccessCookieName, "a"%string)]; r_Body := []; r_RemoteAddr := EmptyString; r_ProtoAtLeast11 := true; r_userID := None |}.

Lemma browser_cannot_log_out_witness :
  status (default NewResponseWriter (match (Logout true NewResponseWriter logging_out (mkWorld empty_Database ∅ tt 0 0 : W)).1 with
    Ok resp => Some resp | Err _ => None end)) = Some StatusUnauthorized.
Proof.
  rewrite (browser_cannot_log_out true {| session.AccessToken := "a"; session.RefreshToken := "r" |});
    reflexivity.
Defined.
End Demo.
End accounts.
