(* ===== verification/HttpForge.v ===== *)
(** Handlers of organizations and repositories:
    [internal/api/http/organization_presenter.go] and [repository_presenter.go].
    Log lines are left out. *)

From S2P Require Import Prelude.
From S2P Require Import Bytes.
From S2P Require Import Platform.
From S2P Require Import Database.
From S2P Require Import Integrity.
From S2P Require Import World.
From S2P Require Import Orgs.
From S2P Require Import Disk.
From S2P Require Import Repos.
From S2P Require Import Http.
From S2P Require Import GoStrings.

Module forge.
Import http.

(** A field with [omitempty]. *)
Definition omitempty (name value : string) : list (string * json) :=
  if is_empty value then [] else [(name, JString value)].

(** ** organization_presenter.go *)

Record createOrganizationRequest := { org_Name : string; org_Description : string }.
Record addOrganizationUserRequest := { add_UserID : string }.

Definition toOrganizationResponse `{Uuid} (org : organization.Organization) : json := JObject (
  [("id", JString (uuid_String (organization.ID org)));
   ("name", JString (organization.Name org))]%string ++
  omitempty "description" (organization.Description org)).

Definition userBelongsToOrg (orgs : list organization.Organization) (orgID : UUID) : bool :=
  existsb (λ org, bool_decide (organization.ID org = orgID)) orgs.

Module orgs.
Section organization_presenter.
Context {S : Type} `{organization.Repository S} `{Entropy S} `{Uuid}
  `{JsonDecode createOrganizationRequest} `{JsonDecode addOrganizationUserRequest}.

Definition ensureCreatorMembership (orgID userID : UUID) : M S unit :=
  r ← attempt (organization.AddUser orgID userID);
  match r with
  | Err err => attempt (organization.DeleteByID orgID);; fail err
  | Ok _ => mret tt
  end.

Definition Create : Handler S := λ w r,
  match UserIDFromContext r with
  | None => mret (unauthorized w)
  | Some authUserID =>
      match Decode_body r with
      | Err _ => mret (writeJSON w StatusBadRequest (error_body "invalid request body"))
      | Ok req =>
          let name := TrimSpace (org_Name req) in
          let description := TrimSpace (org_Description req) in
          if is_empty name then
            mret (writeJSON w StatusBadRequest (error_body "name is required"))
          else
            org ← attempt (organization.Create {|
              organization.in_Name := name; organization.in_Description := description |});
            match org with
            | Err _ => mret (internal_error w)
            | Ok org =>
                joined ← attempt (ensureCreatorMembership (organization.ID org) authUserID);
                mret (match joined with
                | Err _ => internal_error w
                | Ok _ => writeJSON w StatusCreated (toOrganizationResponse org)
                end)
            end
      end
  end.

Definition List : Handler S := λ w r,
  match UserIDFromContext r with
  | None => mret (unauthorized w)
  | Some authUserID =>
      orgs ← attempt (organization.GetByUserID authUserID);
      mret (match orgs with
      | Err _ => internal_error w
      | Ok orgs => writeJSON w StatusOK (JArray (toOrganizationResponse <$> orgs))
      end)
  end.

Definition AddUser : Handler S := λ w r,
  match UserIDFromContext r with
  | None => mret (unauthorized w)
  | Some authUserID =>
      match uuid_Parse (r_PathValue r "orgID") with
      | Err _ => mret (writeJSON w StatusBadRequest (error_body "invalid org id"))
      | Ok orgID =>
          match Decode_body r with
          | Err _ => mret (writeJSON w StatusBadRequest (error_body "invalid request body"))
          | Ok req =>
              match uuid_Parse (TrimSpace (add_UserID req)) with
              | Err _ => mret (writeJSON w StatusBadRequest (error_body "invalid user id"))
              | Ok userID =>
                  authUserOrgs ← attempt (organization.GetByUserID authUserID);
                  match authUserOrgs with
                  | Err _ => mret (internal_error w)
                  | Ok authUserOrgs =>
                      if negb (userBelongsToOrg authUserOrgs orgID) then
                        mret (writeJSON w StatusForbidden (error_body "forbidden"))
                      else
                        added ← attempt (organization.AddUser orgID userID);
                        mret (match added with
                        | Err err =>
                            if errors_Is err organization.ErrNotFound then
                              writeJSON w StatusNotFound (error_body "organization not found")
                            else internal_error w
                        | Ok _ => writeJSON w StatusOK (message_body "user added")
                        end)
                  end
              end
          end
      end
  end.
End organization_presenter.
End orgs.

(** ** repository_presenter.go *)

Record createRepositoryRequest := {
  repo_Name : string;
  repo_Description : string;
  repo_IsPrivate : bool;
  repo_DefaultRef : string;
}.

Definition toRepositoryResponse `{Uuid} (repo : git.GitRepository) : json := JObject (
  [("id", JString (uuid_String (git.ID repo))); ("name", JString (git.Name repo))]%string ++
  omitempty "description" (git.Description repo) ++
  [("is_private", JBool (git.IsPrivate repo));
   ("owner_id", JString (uuid_String (git.OwnerID repo)))]%string ++
  omitempty "default_ref" (git.DefaultRef repo)).

Module repos.
Section repository_presenter.
Context {S : Type} `{git.Repository S} `{Filesystem S} `{Entropy S} `{Uuid} `{Quoting}
  `{JsonDecode createRepositoryRequest}.

(** The [reposDir] of the git service. *)
Context (reposDir : string).

Definition Create : Handler S := λ w r,
  match UserIDFromContext r with
  | None => mret (unauthorized w)
  | Some authUserID =>
      match Decode_body r with
      | Err _ => mret (writeJSON w StatusBadRequest (error_body "invalid request body"))
      | Ok req =>
          let name := TrimSpace (repo_Name req) in
          let description := TrimSpace (repo_Description req) in
          let defaultRef := TrimSpace (repo_DefaultRef req) in
          if is_empty name then
            mret (writeJSON w StatusBadRequest (error_body "name is required"))
          else if negb (is_Ok (git.ValidateRepoName name)) then
            mret (writeJSON w StatusBadRequest (error_body "invalid repository name"))
          else
            repoID ← uuid_New;
            let input id := {|
              git.create_Id := id; git.create_Name := name; git.create_Description := description;
              git.create_IsPrivate := repo_IsPrivate req; git.create_OwnerID := authUserID;
              git.create_DefaultRef := defaultRef |} in
            repo ← attempt (git.repo_Create (input repoID));
            match repo with
            | Err err =>
                mret (if errors_Is err git.ErrRepoAlreadyExists then
                        writeJSON w StatusConflict (error_body "repository already exists")
                      else internal_error w)
            | Ok repo =>
                made ← attempt (git.Service.Create reposDir (input uuid_Nil));
                match made with
                | Err _ =>
                    rollback ← attempt (git.repo_SoftDelete (git.ID repo));
                    match rollback with
                    | Err _ =>
                        attempt (git.repo_Delete (git.ID repo));;
                        mret (internal_error w)
                    | Ok _ => mret (internal_error w)
                    end
                | Ok _ => mret (writeJSON w StatusCreated (toRepositoryResponse repo))
                end
            end
      end
  end.

Definition List : Handler S := λ w r,
  match UserIDFromContext r with
  | None => mret (unauthorized w)
  | Some authUserID =>
      repos ← attempt (git.repo_ListByOwner authUserID);
      mret (match repos with
      | Err _ => internal_error w
      | Ok repos => writeJSON w StatusOK (JArray (toRepositoryResponse <$> repos))
      end)
  end.

Definition Delete : Handler S := λ w r,
  match UserIDFromContext r with
  | None => mret (unauthorized w)
  | Some authUserID =>
      match uuid_Parse (TrimSpace (r_PathValue r "id")) with
      | Err _ => mret (writeJSON w StatusBadRequest (error_body "invalid repository id"))
      | Ok repoID =>
          repo ← attempt (git.repo_GetByID repoID);
          match repo with
          | Err err =>
              mret (if errors_Is err git.ErrRepoNotFound then
                      writeJSON w StatusNotFound (error_body "repository not found")
                    else internal_error w)
          | Ok repo =>
              if negb (bool_decide (git.OwnerID repo = authUserID)) then
                mret (writeJSON w StatusForbidden (error_body "forbidden"))
              else
                deleted ← attempt (git.repo_SoftDelete repoID);
                mret (match deleted with
                | Err err =>
                    if errors_Is err git.ErrRepoNotFound then
                      writeJSON w StatusNotFound (error_body "repository not found")
                    else internal_error w
                | Ok _ => WriteHeader StatusNoContent w
                end)
          end
      end
  end.
End repository_presenter.
End repos.

#[export] Existing Instances organization.Store_Repository git.Store_Repository.

(** ** Organizations, on a world *)

Section organizations.
Context {R D : Type} `{PostgresLaws} `{OracleLaws} `{Uuid}.
Context `{!JsonDecode createOrganizationRequest} `{!JsonDecode addOrganizationUserRequest}.
Implicit Types (w : World R D) (r : Request) (u : UUID).
Import organization.

Lemma userBelongsToOrg_spec orgs orgID :
  userBelongsToOrg orgs orgID = true ↔ ∃ o, o ∈ orgs ∧ ID o = orgID.
Proof.
  unfold userBelongsToOrg. rewrite existsb_exists. setoid_rewrite bool_decide_eq_true.
  split; intros (o & Hin & Ho); exists o; (split; [|done]); by apply list_elem_of_In.
Qed.

(** The creator is a member, or the organization is gone again. *)
Lemma ensureCreatorMembership_up `{!FaultFree} o u w0 w res w' :
  Integrity (db w) → organization_users (db w) = organization_users (db w0) →
  (∀ x, is_org (db w) x ↔ is_org (db w0) x ∨ x = o) → (∀ x, is_org (db w0) x → ID x ≠ ID o) →
  (∀ i v, member (db w0) i v → i ≠ ID o) →
  orgs.ensureCreatorMembership (ID o) u w = (res, w') →
  Integrity (db w') ∧
  ((res = Ok tt ∧ (∀ x, is_org (db w') x ↔ is_org (db w0) x ∨ x = o) ∧
    (∀ i v, member (db w') i v ↔ member (db w0) i v ∨ (i = ID o ∧ v = u))) ∨
   ((∃ e, res = Err e) ∧ (∀ x, is_org (db w') x ↔ is_org (db w0) x) ∧
    (∀ i v, member (db w') i v ↔ member (db w0) i v))).
Proof.
  intros Hi Hou Ho Hfresh Hmem Hr. unfold orgs.ensureCreatorMembership in Hr.
  apply M_bind_attempt_inv in Hr as (a & w1 & Hadd & Hr).
  pose proof (AddUser_up _ _ _ _ _ Hi Hadd) as Hup.
  apply AddUser_inv in Hadd as (Hi1 & Horgs & _ & Hadd); [|done].
  assert (Hsame : ∀ x, is_org (db w1) x ↔ is_org (db w) x) by (intros x; unfold is_org; by rewrite Horgs).
  destruct Hup as [->|(e & -> & Hdb)].
  - injection Hr as <- <-. destruct Hadd as [[? _]|(_ & _ & Hsnoc)]; [done|].
    split; [done|]. left. split; [done|]. split; [intros x; by rewrite Hsame|].
    intros i v. rewrite (member_snoc (db w0)); [done|]. by rewrite Hsnoc, Hou.
  - apply M_bind_attempt_inv in Hr as (b & w2 & Hdel & Hr). injection Hr as <- <-.
    pose proof (DeleteByID_up _ _ _ _ Hdel) as ->.
    apply DeleteByID_inv in Hdel as (Hi2 & [[? _]|[Ho2 Hm2]]); [done| |done].
    split; [done|]. right. split; [by eexists|]. split.
    + intros x. rewrite Ho2, Hsame, Ho. naive_solver.
    + intros i v. rewrite Hm2. assert (member (db w1) i v ↔ member (db w0) i v) as ->; [|naive_solver].
      unfold member. by rewrite Hdb, Hou.
Qed.

(** C20: With connections up, creating an organization answers 201 exactly when it added
    one new organization with the authenticated user as its one member; otherwise
    organizations and members are as before, also when the membership failed after the
    organization was made. *)
Theorem org_Create_all_or_nothing `{!FaultFree} u r w res w' :
  Integrity (db w) → r_userID r = Some u → orgs.Create NewResponseWriter r w = (res, w') →
  ∃ resp, res = Ok resp ∧ Integrity (db w') ∧
  ((∃ o, answered StatusCreated (toOrganizationResponse o) resp ∧
      (∀ x, is_org (db w) x → ID x ≠ ID o) ∧
      (∀ x, is_org (db w') x ↔ is_org (db w) x ∨ x = o) ∧
      (∀ i v, member (db w') i v ↔ member (db w) i v ∨ (i = ID o ∧ v = u))) ∨
   (status resp ≠ Some StatusCreated ∧ (∀ x, is_org (db w') x ↔ is_org (db w) x) ∧
    (∀ i v, member (db w') i v ↔ member (db w) i v))).
Proof.
  intros Hi Hu Hr. unfold orgs.Create, UserIDFromContext in Hr. rewrite Hu in Hr.
  destruct (Decode_body r) as [req|e]; [|injection Hr as <- <-; eexists; split; [done|]; split; [done|]; by right].
  cbv zeta in Hr. destruct (is_empty _);
    [injection Hr as <- <-; eexists; split; [done|]; split; [done|]; by right|].
  apply M_bind_attempt_inv in Hr as (made & w1 & Hmake & Hr).
  apply org_Create_up in Hmake as (Hi1 & Hou & Hmake); [|done].
  destruct Hmake as [(e & -> & Hdb)|(o & -> & Ho & Hfresh)].
  - injection Hr as <- <-. eexists. split; [done|]. split; [done|]. right. by rewrite Hdb.
  - apply M_bind_attempt_inv in Hr as (joined & w2 & Hjoin & Hr).
    apply (ensureCreatorMembership_up o u w) in Hjoin as (Hi2 & Hjoin); [|done..|].
    + destruct Hjoin as [(-> & Ho' & Hm)|((e & ->) & Ho' & Hm)]; injection Hr as <- <-;
        eexists; (split; [done|]); (split; [done|]).
      * left. exists o. split; [by apply writeJSON_answered|]. done.
      * by right.
    + intros i v Hm Heq. pose proof (organization_users_fkeys _ Hi) as Hf.
      rewrite Forall_forall in Hf. apply Hf in Hm as [Hin _]. cbn in Hin.
      apply list_elem_of_fmap in Hin as (row & Hid & Hin).
      destruct (is_org_fromSqlc _ _ Hi Hin) as [Hid' Hrow]. apply (Hfresh _ Hrow).
      rewrite <- Hid in Hid'. apply (inj toPgUUID) in Hid'. by rewrite <- Hid', Heq.
Qed.

Definition forbidden : ResponseWriter :=
  writeJSON NewResponseWriter StatusForbidden (error_body "forbidden").

(** C10: Adding a user to an organization adds that one membership, or none, and only if
    the authenticated user is a member and the other was not; it answers 200 only if it
    added it, and with connections up a well-formed request of a stranger gets 403 with
    the database untouched, whether the organization exists or not. *)
Theorem org_AddUser_by_members_only u r w res w' :
  Integrity (db w) → r_userID r = Some u → orgs.AddUser NewResponseWriter r w = (res, w') →
  let asked orgID v := ∃ req, uuid_Parse (r_PathValue r "orgID") = Ok orgID ∧
    Decode_body r = Ok req ∧ uuid_Parse (TrimSpace (add_UserID req)) = Ok v in
  let joins orgID v := asked orgID v ∧ member (db w) orgID u ∧ ¬ member (db w) orgID v ∧
    ∀ i y, member (db w') i y ↔ member (db w) i y ∨ (i = orgID ∧ y = v) in
  ∃ resp, res = Ok resp ∧ Integrity (db w') ∧ (∀ x, is_org (db w') x ↔ is_org (db w) x) ∧
  ((∃ orgID v, joins orgID v) ∨
   (status resp ≠ Some StatusOK ∧ ∀ i y, member (db w') i y ↔ member (db w) i y)) ∧
  (FaultFree → ∀ orgID v, asked orgID v → ¬ member (db w) orgID u → resp = forbidden ∧ db w' = db w).
Proof.
  intros Hi Hu Hr asked joins. unfold orgs.AddUser, UserIDFromContext in Hr. rewrite Hu in Hr.
  destruct (uuid_Parse (r_PathValue r "orgID")) as [orgID|e] eqn:Horg;
    [|injection Hr as <- <-; eexists; split_and!; [done..|by right|intros _ o' v' (req' & Ho & Hd & Hx); congruence]].
  destruct (Decode_body r) as [req|e] eqn:Hreq;
    [|injection Hr as <- <-; eexists; split_and!; [done..|by right|intros _ o' v' (req' & Ho & Hd & Hx); congruence]].
  destruct (uuid_Parse (TrimSpace (add_UserID req))) as [v|e] eqn:Hv;
    [|injection Hr as <- <-; eexists; split_and!; [done..|by right|intros _ o' v' (req' & Ho & Hd & Hx); congruence]].
  assert (Hasked : ∀ o' v', asked o' v' ↔ o' = orgID ∧ v' = v).
  { intros o' v'. split.
    - intros (req' & Ho & [= <-] & Hx). split; congruence.
    - intros [-> ->]. by exists req. }
  apply M_bind_attempt_inv in Hr as (got & w1 & Hget & Hr).
  pose proof (λ up : FaultFree, GetByUserID_up _ _ _ _ Hget) as Hup.
  apply GetByUserID_inv in Hget as [-> Hgot]; [|done].
  destruct got as [os|e].
  2:{ injection Hr as <- <-. eexists. split_and!; [done..|by right|]. intros up. by specialize (Hup up). }
  destruct Hgot as [(os' & [= <-] & _ & Hos)|(e & _ & ?)]; [|done].
  destruct (userBelongsToOrg os orgID) eqn:Hb; cbn [negb] in Hr.
  2:{ injection Hr as <- <-. eexists. split_and!; [done..|by right|done]. }
  assert (Hmem : member (db w) orgID u).
  { apply userBelongsToOrg_spec in Hb as (o & [_ Ho]%Hos & <-). exact Ho. }
  apply M_bind_attempt_inv in Hr as (added & w2 & Hadd & Hr). injection Hr as <- <-.
  apply AddUser_inv in Hadd as (Hi' & Horgs & _ & Hadd); [|done].
  eexists. split; [done|]. split; [done|]. split; [intros x; unfold is_org; by rewrite Horgs|].
  split; [|intros _ o' v' [-> ->]%Hasked Hno; by destruct Hno].
  destruct Hadd as [[Ha Hou]|(Hno & _ & Hou)].
  - right. split; [|intros i y; unfold member; by rewrite Hou].
    destruct added as [|e]; [done|]. by destruct (errors_Is e _).
  - left. exists orgID, v. split; [by apply Hasked|]. split; [done|]. split; [done|].
    intros i y. exact (member_snoc _ _ _ _ _ _ Hou).
Qed.
End organizations.

(** ** Repositories, on a world *)

Section repositories.
Context {R D : Type} `{PostgresLaws} `{OracleLaws} `{DiskLaws D} `{Uuid} `{Quoting}.
Context `{!JsonDecode createRepositoryRequest} (reposDir : string).
Implicit Types (w : World R D) (r : Request) (u : UUID).
Import git.

Lemma Service_Create_inv input w res w' :
  Service.Create reposDir input w = (res, w') →
  let path := Service.RepoPath reposDir (named (create_Name input)) in
  db w' = db w ∧ (∀ g, res = Ok g → is_repo (disk w') path ∧ ¬ is_repo (disk w) path).
Proof.
  intros Hr. unfold Service.Create in Hr. destruct (negb _); [by injection Hr as <- <-|].
  apply M_bind_inv in Hr as [(id & w1 & Hid & Hr)|(e & Hid & _)]; [|done]. injection Hid as _ <-.
  cbv zeta in Hr. set (repo := {| ID := id |}) in Hr.
  change (Service.RepoPath reposDir repo) with (Service.RepoPath reposDir (named (create_Name input))) in Hr.
  set (path := Service.RepoPath _ _) in *.
  apply M_bind_inv in Hr as [([] & w1 & Hmake & Hr)|(e & Hmake & ->)];
    apply M_mwrap_inv in Hmake as (r0 & Hmake & Hr0); cbn in Hmake;
    destruct (disk_PlainInit _ _ _ _) as [r1 k] eqn:Hinit; injection Hmake as <- <-.
  2:{ done. }
  injection Hr as <- <-. split; [done|]. intros g _. symmetry in Hr0. apply wrap_err_Ok in Hr0. subst r1.
  split; [by eapply PlainInit_Ok|]. intros Hrepo. by rewrite PlainInit_exists in Hinit.
Qed.

(** Undoing an insertion leaves the other rows, and marks the new one deleted. *)
Lemma rollback_inv (rows : GitRepository → Prop) g (resp : ResponseWriter) w2 res w' :
  (rollback ← attempt (repo_SoftDelete (ID g));
   match rollback with
   | Err _ => attempt (repo_Delete (ID g));; mret resp
   | Ok _ => mret resp
   end) w2 = (res, w') →
  Integrity (db w2) → (∀ x, repo_row (db w2) x ↔ rows x ∨ x = g) → (∀ x, rows x → ID x ≠ ID g) →
  res = Ok resp ∧ Integrity (db w') ∧ (∀ x, rows x → repo_row (db w') x) ∧
  (FaultFree → ∀ x, repo_row (db w') x → rows x ∨ IsDeleted x = true).
Proof.
  intros Hr Hi2 Hrows Hold. apply M_bind_attempt_inv in Hr as (undone & w3 & Hsoft & Hr).
  assert (Hsame : ∀ x, rows x → repo_row (db w3) x).
  { intros x Hx. rewrite (SoftDelete_others _ _ _ _ x Hi2 Hsoft); [|by apply Hold]. apply Hrows. by left. }
  pose proof (SoftDelete_inv _ _ _ _ Hi2 Hsoft) as (Hi3 & _ & Hdel).
  destruct undone as [[]|e'].
  - injection Hr as <- <-. split_and!; [done..|]. intros _ x Hx.
    destruct Hdel as [[_ ?]|(g3 & t & _ & _ & Hx3)]; [done|]. apply Hx3 in Hx as [[Hx Hne]| ->]; [|by right].
    apply Hrows in Hx as [Hx| ->]; [by left|]. by destruct Hne.
  - apply M_bind_attempt_inv in Hr as (undone & w4 & Hhard & Hr). injection Hr as <- <-.
    split; [done|]. split; [by eapply (SoftDelete_inv (ID g))|]. split.
    + intros x Hx. rewrite (SoftDelete_others _ _ _ _ x Hi3 Hhard); auto.
    + intros up. exfalso. apply (SoftDelete_up g) in Hsoft; [done|done|]. apply Hrows. by right.
Qed.

Lemma ValidateRepoName_nonempty : ValidateRepoName EmptyString ≠ Ok tt.
Proof. by vm_compute. Qed.

(** C19: Creating a repository never changes a row there was. It answers 201 only for a
    valid name, after it added one live row owned by the authenticated user and made the
    directory, which was no repository before; otherwise, with connections up, what it
    leaves is marked deleted. It never answers 409: a well-formed request for a valid
    name whose directory is a repository already is answered with 500. *)
Theorem repo_Create_row_and_directory u r w res w' :
  Integrity (db w) → r_userID r = Some u → repos.Create reposDir NewResponseWriter r w = (res, w') →
  ∃ resp, res = Ok resp ∧ Integrity (db w') ∧ (∀ x, repo_row (db w) x → repo_row (db w') x) ∧
  status resp ≠ Some StatusConflict ∧
  (∀ req, Decode_body r = Ok req → let name := TrimSpace (repo_Name req) in
     ValidateRepoName name = Ok tt → is_repo (disk w) (Service.RepoPath reposDir (named name)) →
     status resp = Some StatusInternalServerError) ∧
  ((∃ req g, let name := TrimSpace (repo_Name req) in
      let path := Service.RepoPath reposDir (named name) in
      Decode_body r = Ok req ∧ ValidateRepoName name = Ok tt ∧ pg_varchar 100 name = Some (Name g) ∧
      answered StatusCreated (toRepositoryResponse g) resp ∧
      OwnerID g = u ∧ IsDeleted g = false ∧ IsPrivate g = repo_IsPrivate req ∧
      (∀ x, repo_row (db w') x ↔ repo_row (db w) x ∨ x = g) ∧
      is_repo (disk w') path ∧ ¬ is_repo (disk w) path) ∨
   (status resp ≠ Some StatusCreated ∧
    (FaultFree → ∀ x, repo_row (db w') x → repo_row (db w) x ∨ IsDeleted x = true))).
Proof.
  intros Hi Hu Hr. unfold repos.Create, UserIDFromContext in Hr. rewrite Hu in Hr.
  destruct (Decode_body r) as [req|e]; [|injection Hr as <- <-; eexists; split_and!; [done..|right; auto]].
  cbv zeta in Hr. set (name := TrimSpace (repo_Name req)) in *.
  destruct (is_empty name) eqn:Hempty.
  { injection Hr as <- <-; eexists; split_and!; [done..| |right; auto]. intros req' [= <-]. fold name. cbv zeta.
    destruct name; [|done]. intros Hv. by destruct ValidateRepoName_nonempty. }
  destruct (ValidateRepoName name) as [[]|e] eqn:Hvalid; cbn [is_Ok negb] in Hr;
    [|injection Hr as <- <-; eexists; split_and!; [done..| |right; auto];
      intros req' [= <-]; fold name; cbv zeta; by rewrite Hvalid].
  apply M_bind_inv in Hr as [(id & w1 & Hid & Hr)|(e & Hid & _)]; [|done]. injection Hid as _ <-.
  apply M_bind_attempt_inv in Hr as (made & w1 & Hmake & Hr).
  pose proof Hmake as Hrow. apply Create_inv in Hrow as (Hi1 & Hd1 & Hrow); [|exact Hi].
  cbn [create_Id create_Name create_IsPrivate create_OwnerID tick db disk] in *.
  destruct made as [g|e].
  2:{ assert (is_fault e) as [text ->].
      { destruct Hrow as [(e' & [= ->] & Hf & _)|(g & _ & [[=]|(e' & [= ->] & Hf)] & _)]; done. }
      injection Hr as <- <-. eexists. split; [done|]. split; [done|].
      split; [|split; [done|split; [done|right; split; [done|]]]].
      - intros x Hx. destruct Hrow as [(? & _ & _ & ->)|(g & _ & _ & _ & Hrow)]; [done|]. apply Hrow. by left.
      - intros up x Hx. left. by rewrite (repo_Create_up _ _ _ _ Hmake) in Hx. }
  destruct Hrow as [(? & [=] & _)|(g' & Hg & [[= <-]|(? & [=] & _)] & Hfresh & Hrow)].
  destruct Hg as (Hid & Hname & _ & Hpriv & Hlive & _ & _ & Howner & _). cbn in Hid, Hname, Hpriv, Howner.
  apply M_bind_attempt_inv in Hr as (init & w2 & Hinit & Hr).
  apply Service_Create_inv in Hinit as (Hdb2 & Hdisk). cbn [create_Name] in Hdisk.
  destruct init as [g2|e].
  { injection Hr as <- <-. destruct (Hdisk g2 eq_refl) as [Hnew Hold]. rewrite Hd1 in Hold.
    eexists. rewrite Hdb2. split; [done|]. split; [done|]. split; [intros x Hx; apply Hrow; by left|].
    split; [done|]. split; [|left; exists req, g; by split_and!].
    intros req' [= <-] _ Hthere. by destruct Hold. }
  apply (rollback_inv (repo_row (db w)) g) in Hr as (-> & Hi3 & Hsame & Hdel).
  - eexists. do 5 (split; [done|]). by right.
  - by rewrite Hdb2.
  - by rewrite Hdb2.
  - intros x Hx. rewrite Hid. by apply Hfresh.
Qed.

(** C11: Deleting a repository changes at most one row, marking it deleted, only if the
    authenticated user owns it, and nothing on disk; with connections up it answers 204
    to the owner and 403 to anybody else. *)
Theorem repo_Delete_by_owner_only u r w res w' :
  Integrity (db w) → r_userID r = Some u → repos.Delete NewResponseWriter r w = (res, w') →
  ∃ resp, res = Ok resp ∧ Integrity (db w') ∧ disk w' = disk w ∧
  ((∃ g t, uuid_Parse (TrimSpace (r_PathValue r "id")) = Ok (ID g) ∧
      repo_row (db w) g ∧ OwnerID g = u ∧
      (∀ x, repo_row (db w') x ↔ (repo_row (db w) x ∧ ID x ≠ ID g) ∨ x = deleted_at t g)) ∨
   (status resp ≠ Some StatusNoContent ∧ db w' = db w)) ∧
  (FaultFree → ∀ g, uuid_Parse (TrimSpace (r_PathValue r "id")) = Ok (ID g) → repo_row (db w) g →
     status resp = Some (if bool_decide (OwnerID g = u) then StatusNoContent else StatusForbidden)).
Proof.
  intros Hi Hu Hr. unfold repos.Delete, UserIDFromContext in Hr. rewrite Hu in Hr.
  destruct (uuid_Parse _) as [id|e];
    [|injection Hr as <- <-; eexists; split_and!; [done..|by right|done]].
  apply M_bind_attempt_inv in Hr as (got & w1 & Hget & Hr).
  pose proof (λ (up : FaultFree) e, GetByID_up id w e w1) as Hup.
  pose proof Hget as Hgot. apply (GetByID_inv id w) in Hgot as [-> Hgot]; [|done].
  destruct got as [g|e].
  2:{ injection Hr as <- <-. eexists. do 3 (split; [done|]). split.
      - right. split; [|done]. by destruct (errors_Is e _).
      - intros up g [= ->] Hg. specialize (Hup up e Hget) as ->.
        destruct Hgot as [(? & ? & _)|[[_ Hno]|(e & [text ->] & ?)]]; [done| |done].
        by destruct (Hno g Hg). }
  destruct Hgot as [(g' & [= <-] & Hg & <-)|[[? _]|(? & _ & ?)]]; [|done..].
  destruct (decide (OwnerID g = u)) as [Ho|Ho].
  2:{ rewrite bool_decide_false in Hr by done. injection Hr as <- <-. eexists. do 3 (split; [done|]).
      split; [by right|]. intros _ x [= Hx] Hrow. rewrite bool_decide_false; [done|].
      by rewrite (repo_row_unique _ x g Hi Hrow Hg). }
  rewrite bool_decide_true in Hr by done. cbn [negb] in Hr.
  apply M_bind_attempt_inv in Hr as (deleted & w2 & Hdel & Hr). injection Hr as <- <-.
  pose proof (SoftDelete_inv _ (tick w) _ _ Hi Hdel) as (Hi' & Hd & Hrows).
  eexists. do 2 (split; [done|]). split; [exact Hd|]. split.
  - destruct Hrows as [[Hdb Hf]|(g' & t & Hg' & Hid & Hx)].
    + right. split; [|done]. destruct deleted as [|e]; [done|]. by destruct (errors_Is e _).
    + left. rewrite (repo_row_unique _ g' g Hi Hg' Hg Hid) in Hx. by exists g, t.
  - intros up x [= Hx] Hrow. rewrite (repo_row_unique _ x g Hi Hrow Hg) by done.
    rewrite bool_decide_true by done. by rewrite (SoftDelete_up g (tick w) _ _ Hi Hg Hdel).
Qed.
End repositories.

Module Demo.
Import Sim SimDisk Example_.

Abbreviation W := (World (gmap string (string * Z)) (gset (list ascii))).
#[export] Existing Instance git.Demo.demo_quoting.

Definition ada_id : UUID := Vector.const (byte_of 1) 16.
Definition bob_id : UUID := Vector.const (byte_of 2) 16.

(** The body is the name, and bob is the user to add. *)
#[export] Instance demo_create_org : JsonDecode createOrganizationRequest := λ b,
  Ok {| org_Name := str (lb_bytes b); org_Description := EmptyString |}.
#[export] Instance demo_add_user : JsonDecode addOrganizationUserRequest := λ _,
  Ok {| add_UserID := uuid_String bob_id |}.
#[export] Instance demo_create_repo : JsonDecode createRepositoryRequest := λ b,
  Ok {| repo_Name := str (lb_bytes b); repo_Description := EmptyString;
        repo_IsPrivate := true; repo_DefaultRef := EmptyString |}.

Definition as_user (u : UUID) (body value : string) : Request := {|
  r_Method := "POST"; r_Path := "/"; r_PathValue _ := value; r_Query _ := EmptyString;
  r_Header _ := EmptyString; r_Cookies := []; r_Body := unstr body;
  r_RemoteAddr := EmptyString; r_ProtoAtLeast11 := true; r_userID := Some u |}.

Definition w0 : W := mkWorld ada_db ∅ ∅ 0 0.
Definition new_org : Request := as_user ada_id " team " EmptyString.
Definition w1 : W := (orgs.Create NewResponseWriter new_org w0).2.
Definition team : UUID := Vector.const (byte_of 0) 16.

(** The status of the answer of a run. *)
Definition code {S} (out : result ResponseWriter * S) : option Z :=
  match out.1 with Ok resp => status resp | Err _ => None end.

Lemma org_Create_all_or_nothing_witness :
  ∃ o, organization.is_org (db w1) o ∧ organization.member (db w1) (organization.ID o) ada_id.
Proof.
  destruct (org_Create_all_or_nothing ada_id new_org w0 (orgs.Create NewResponseWriter new_org w0).1 w1
    git.Demo.ada_db_inv eq_refl (run_eq _ _ _ eq_refl)) as (resp & Hres & _ & [(o & _ & _ & Ho & Hm)|(Hs & _)]).
  - exists o. split; [apply Ho; by right|]. apply Hm. right. split; reflexivity.
  - exfalso. apply Hs. vm_compute in Hres. injection Hres as <-. reflexivity.
Defined.

(** Bob cannot join by himself. *)
Definition join : Request := as_user bob_id EmptyString (uuid_String team).

Lemma org_AddUser_by_members_only_witness :
  code (orgs.AddUser NewResponseWriter join w0) = Some StatusForbidden.
Proof.
  destruct (orgs.AddUser NewResponseWriter join w0) as [res w] eqn:Hr.
  destruct (org_AddUser_by_members_only bob_id join w0 res w git.Demo.ada_db_inv eq_refl Hr)
    as (resp & -> & _ & _ & _ & Hno).
  destruct (Hno sim_fault_free team bob_id) as [-> _].
  - exists {| add_UserID := uuid_String bob_id |}. split; [vm_compute; reflexivity|].
    split; [reflexivity|vm_compute; reflexivity].
  - intros Hm. by apply elem_of_nil in Hm.
  - reflexivity.
Defined.

Definition new_repo : Request := as_user ada_id "hello" EmptyString.
Definition w2 : W := (repos.Create "/srv/repos" NewResponseWriter new_repo w0).2.

Lemma repo_Create_row_and_directory_witness :
  ∃ g, git.repo_row (db w2) g ∧ git.OwnerID g = ada_id ∧
    is_repo (disk w2) (unstr "/srv/repos/hello") ∧
    code (repos.Create "/srv/repos" NewResponseWriter new_repo w2) = Some StatusInternalServerError.
Proof.
  destruct (repo_Create_row_and_directory "/srv/repos" ada_id new_repo w0
    (repos.Create "/srv/repos" NewResponseWriter new_repo w0).1 w2 git.Demo.ada_db_inv eq_refl
    (run_eq _ _ _ eq_refl)) as (resp & Hres & Hi & _ & _ & _ & [(req & g & Hreq & _ & _ & _ & Ho & _ & _ & Hg & Hd & _)|(Hs & _)]).
  - exists g. injection Hreq as Hreq. subst req. split; [apply Hg; by right|]. split; [exact Ho|]. split; [exact Hd|].
    destruct (repos.Create "/srv/repos" NewResponseWriter new_repo w2) as [res w] eqn:Hr.
    destruct (repo_Create_row_and_directory "/srv/repos" ada_id new_repo w2 res w Hi eq_refl Hr)
      as (resp' & -> & _ & _ & _ & Hthere & _). exact (Hthere _ eq_refl eq_refl Hd).
  - exfalso. apply Hs. vm_compute in Hres. injection Hres as <-. reflexivity.
Defined.

(** Only ada can delete the repository of [git.Demo]. *)
Definition delete_as (u : UUID) : Request := as_user u EmptyString (uuid_String git.Demo.hello_id).

Lemma repo_Delete_by_owner_only_witness :
  code (repos.Delete NewResponseWriter (delete_as bob_id) git.Demo.w1) = Some StatusForbidden ∧
  code (repos.Delete NewResponseWriter (delete_as ada_id) git.Demo.w1) = Some StatusNoContent.
Proof.
  destruct git.Demo.hello_created as (Hi & g & Hg & Hid).
  assert (Hp : ∀ u, uuid_Parse (TrimSpace (r_PathValue (delete_as u) "id")) = Ok (git.ID g)).
  { intros u. rewrite Hid. vm_compute. reflexivity. }
  assert (Ho : git.OwnerID g = ada_id).
  { destruct Hg as (row & Hin & <-). apply list_elem_of_singleton in Hin as ->. reflexivity. }
  assert (Hcode : ∀ u, code (repos.Delete NewResponseWriter (delete_as u) git.Demo.w1) =
    Some (if bool_decide (git.OwnerID g = u) then StatusNoContent else StatusForbidden)).
  { intros u. destruct (repos.Delete NewResponseWriter (delete_as u) git.Demo.w1) as [res w] eqn:Hr.
    destruct (repo_Delete_by_owner_only u (delete_as u) git.Demo.w1 res w Hi eq_refl Hr)
      as (resp & -> & _ & _ & _ & Hs). exact (Hs sim_fault_free g (Hp u) Hg). }
  rewrite !Hcode, Ho. split; reflexivity.
Defined.
End Demo.
End forge.
