(* ===== verification/HttpGit.v ===== *)
(** The git routes and the health check: [internal/api/http/http.go], and the
    handlers of [git_presenter.go], which the server does not register.

    The pack protocol is go-git's: its backend is a parameter that acts on the
    disk.  Log lines are left out. *)

From S2P Require Import Prelude.
From S2P Require Import Platform.
From S2P Require Import World.
From S2P Require Import Filepath.
From S2P Require Import Disk.
From S2P Require Import Sso.
From S2P Require Import Repos.
From S2P Require Import Http.
From S2P Require Import GoStrings.

(** [githttp.Backend], over [osfs.New(reposDir)]. *)
Class GitBackend (S : Type) := gitHandler_ServeHTTP : Handler S.

Class Backend (D : Type) :=
  backend_ServeHTTP : nat → ResponseWriter → Request → D → ResponseWriter * D.

#[export] Instance World_GitBackend {R D} `{Oracle} `{Backend D} : GitBackend (World R D) :=
  λ wr r w, let '(wr, k) := backend_ServeHTTP (calls w) wr r (disk w) in (Ok wr, set_disk k (tick w)).

(** [filepath.Abs] *)
Definition filepath_Abs {S} `{Filesystem S} (path : bytes) : M S bytes :=
  if IsAbs path then mret (Clean path)
  else wd ← os_Getwd; mret (Join [wd; path]).

(** [strings.HasPrefix] on a path *)
Definition has_prefix (s p : bytes) : bool := bool_decide (is_Some (strip_prefix p s)).

Module gitroutes.
Import http.

Definition not_found (w : ResponseWriter) : ResponseWriter :=
  http_Error w "Not Found" StatusNotFound.
Definition repository_not_found (w : ResponseWriter) : ResponseWriter :=
  http_Error w "Repository Not Found" StatusNotFound.

(** The path without its suffix, for a git service. *)
Definition post_repo (path : string) : string :=
  if HasSuffix path "/git-upload-pack" then (CutSuffix path "/git-upload-pack").1
  else if HasSuffix path "/git-receive-pack" then (CutSuffix path "/git-receive-pack").1
  else EmptyString.

(** ** http.go *)

(** The services hold no state of their own: that of [SSOService] and
    [TOTPService] is their configuration, and the address is not used here. *)
Record Config (S : Type) := {
  ReposDir : string;
  SSOService : sso.oauth2_Config;
  TOTPService : string;
  Secure : bool;
  IPRateLimit : option (Handler S → Handler S);
  UserRateLimit : option (Handler S → Handler S);
  AppVersion : string;
  DBHealth : option (Z → M S unit);
  RedisHealth : option (Z → M S unit);
  HealthcheckTimeout : Z;
}.
Arguments ReposDir {S}.
Arguments SSOService {S}.
Arguments TOTPService {S}.
Arguments Secure {S}.
Arguments IPRateLimit {S}.
Arguments UserRateLimit {S}.
Arguments AppVersion {S}.
Arguments DBHealth {S}.
Arguments RedisHealth {S}.
Arguments HealthcheckTimeout {S}.

Section server.
Context {S : Type} `{Filesystem S} `{OsErrors} `{GitBackend S}.
Context (config : Config S).

(** A check that is nil passes; the deadline is the check's own. *)
Definition healthy (timeout : Z) (check : option (Z → M S unit)) : M S bool :=
  match check with
  | None => mret true
  | Some health => r ← attempt (health timeout); mret (is_Ok r)
  end.

Definition health_body (status : string) (database redis : bool) : json :=
  let word (ok : bool) := JString (if ok then "ok" else "down")%string in
  JObject [("components", JObject [("database", word database); ("redis", word redis)]);
           ("status", JString status); ("version", JString (AppVersion config))]%string.

Definition handleHealthz : Handler S := λ w r,
  let timeout := if HealthcheckTimeout config <=? 0 then 2 * Second else HealthcheckTimeout config in
  database ← healthy timeout (DBHealth config);
  redis ← healthy timeout (RedisHealth config);
  let degraded := negb database || negb redis in
  let w := Header_Set "Content-Type" "application/json" w in
  if degraded then
    mret (Write (JsonLine (health_body "degraded" database redis))
            (WriteHeader StatusServiceUnavailable w))
  else
    mret (Write (JsonLine (health_body "ok" database redis)) (WriteHeader StatusOK w)).

Definition secureRepoPath (reposDir repo : bytes) : M S (option bytes) :=
  if bool_decide (repo = []) || IsAbs repo then mret None
  else
    let cleanRepo := Clean repo in
    if bool_decide (cleanRepo = dot) || bool_decide (cleanRepo = dotdot) ||
       has_prefix cleanRepo (dotdot ++ [slash]) then mret None
    else
      base ← attempt (filepath_Abs reposDir);
      match base with
      | Err _ => mret None
      | Ok baseAbs =>
          real ← attempt (filepath_EvalSymlinks baseAbs);
          match real with
          | Err _ => mret None
          | Ok baseReal =>
              path ← attempt (filepath_Abs (Join [baseAbs; cleanRepo]));
              match path with
              | Err _ => mret None
              | Ok repoAbs =>
                  if negb (bool_decide (repoAbs = baseAbs)) &&
                     negb (has_prefix repoAbs (baseAbs ++ [slash])) then mret None
                  else
                    real ← attempt (filepath_EvalSymlinks repoAbs);
                    mret (match real with
                    | Ok repoReal =>
                        if negb (bool_decide (repoReal = baseReal)) &&
                           negb (has_prefix repoReal (baseReal ++ [slash])) then None
                        else Some repoAbs
                    | Err err => if negb (os_IsNotExist err) then None else Some repoAbs
                    end)
              end
          end
      end.

Definition serveGit (repo : string) : Handler S := λ w r,
  path ← secureRepoPath (unstr (ReposDir config)) (unstr repo);
  match path with
  | None => mret (repository_not_found w)
  | Some repoPath =>
      stat ← attempt (os_Stat repoPath);
      match stat with
      | Err err => if os_IsNotExist err then mret (repository_not_found w)
                   else gitHandler_ServeHTTP w r
      | Ok _ => gitHandler_ServeHTTP w r
      end
  end.

Definition handleGitGet : Handler S := λ w r,
  let path := r_PathValue r "path" in
  let '(repo, ok) := CutSuffix path "/info/refs" in
  if negb ok || is_empty repo then mret (not_found w)
  else if negb (HasPrefix (r_Query r "service") "git-") then mret (not_found w)
  else serveGit repo w r.

Definition handleGitPost : Handler S := λ w r,
  let path := r_PathValue r "path" in
  let repo := post_repo path in
  if is_empty repo then mret (not_found w) else serveGit repo w r.
End server.

(** ** git_presenter.go *)

Module GitPresenter.
Section git_presenter.
Context {S : Type} `{Quoting} `{Entropy S} `{Filesystem S} `{Storer S}.
Context (reposDir : string).

Definition repoNameFromPath (path : string) : string :=
  match last (split_byte slash (unstr path)) with
  | Some part => str part
  | None => path
  end.

(** What a pack operation wrote to the response. *)
Definition wrote (b : bytes) (w : ResponseWriter) : ResponseWriter :=
  match b with [] => w | _ => Write (Raw b) w end.

(** The answer after a pack operation: an error is appended to what was written. *)
Definition packed (failed : string) (r : result (bytes * option error)) (w : ResponseWriter) : ResponseWriter :=
  match r with
  | Ok (b, None) => wrote b w
  | Ok (b, Some _) => writeJSON (wrote b w) StatusInternalServerError (error_body failed)
  | Err _ => writeJSON w StatusInternalServerError (error_body failed)
  end.

Definition handleGitGet : Handler S := λ w r,
  let path := r_PathValue r "path" in
  let '(repo, ok) := CutSuffix path "/info/refs" in
  if negb ok || is_empty repo then
    mret (writeJSON w StatusNotFound (error_body "not found"))
  else
    let svc := r_Query r "service" in
    if negb (bool_decide (svc = "git-upload-pack"%string)) &&
       negb (bool_decide (svc = "git-receive-pack"%string)) then
      mret (writeJSON w StatusNotFound (error_body "not found"))
    else
      found ← git.Service.Exists reposDir (git.named (repoNameFromPath repo));
      if negb found then mret (writeJSON w StatusNotFound (error_body "repository not found"))
      else
        let w := Header_Set "Content-Type" ("application/x-" +:+ svc +:+ "-advertisement") w in
        let w := Header_Set "Cache-Control" "no-cache" w in
        out ← attempt (git.Service.UploadPack reposDir {|
          git.upload_RepoPath := repo; git.upload_Adverts := true;
          git.upload_StatelessRPC := true |} []);
        mret (packed "upload-pack failed" out w).

Definition handleGitPost : Handler S := λ w r,
  let path := r_PathValue r "path" in
  if negb (HasSuffix path "/git-upload-pack") && negb (HasSuffix path "/git-receive-pack") then
    mret (writeJSON w StatusNotFound (error_body "not found"))
  else
    let repo := post_repo path in
    if is_empty repo then mret (writeJSON w StatusNotFound (error_body "not found"))
    else
      found ← git.Service.Exists reposDir (git.named (repoNameFromPath repo));
      if negb found then mret (writeJSON w StatusNotFound (error_body "repository not found"))
      else if HasSuffix path "/git-upload-pack" then
        if negb (bool_decide (r_Header r "Content-Type" = "application/x-git-upload-pack-request"%string))
        then mret (writeJSON w StatusBadRequest (error_body "invalid content-type"))
        else
          let w := Header_Set "Content-Type" "application/x-git-upload-pack-result" w in
          out ← attempt (git.Service.UploadPack reposDir {|
            git.upload_RepoPath := repo; git.upload_Adverts := false;
            git.upload_StatelessRPC := true |} (r_Body r));
          mret (packed "upload-pack failed" out w)
      else
        if negb (bool_decide (r_Header r "Content-Type" = "application/x-git-receive-pack-request"%string))
        then mret (writeJSON w StatusBadRequest (error_body "invalid content-type"))
        else
          let w := Header_Set "Content-Type" "application/x-git-receive-pack-result" w in
          out ← attempt (git.Service.ReceivePack reposDir {|
            git.receive_RepoPath := repo; git.receive_StatelessRPC := true |} (r_Body r));
          mret (packed "receive-pack failed" out w).
End git_presenter.
End GitPresenter.

(** ** Paths *)

Lemma has_prefix_spec s p : has_prefix s p = true ↔ ∃ rest, s = p ++ rest.
Proof.
  unfold has_prefix. rewrite bool_decide_eq_true. unfold is_Some. by setoid_rewrite strip_prefix_Some.
Qed.

(** A clean relative path that does not climb. *)
Lemma relative_refused repo :
  bool_decide (repo = []) || IsAbs repo ||
  (bool_decide (Clean repo = dot) || bool_decide (Clean repo = dotdot) ||
   has_prefix (Clean repo) (dotdot ++ [slash])) = false ↔
  IsAbs repo = false ∧ elements repo ≠ [] ∧ dotdot ∉ elements repo.
Proof.
  rewrite !orb_false_iff, !bool_decide_eq_false, <- (not_true_iff_false (has_prefix _ _)), has_prefix_spec.
  split.
  - intros [[Hne Habs] [[Hdot Hdd] Hpre]].
    rewrite Clean_render, Habs in *. cbn [render] in *.
    split; [done|]. split; [by intros He; rewrite He in Hdot|].
    destruct (elements_canonical repo) as (n & names & Hes & Hn & _).
    apply (f_equal reverse) in Hes.
    rewrite reverse_involutive, reverse_app, reverse_replicate in Hes. destruct n as [|n].
    + cbn in Hes. rewrite Hes, elem_of_reverse. intros Hin. rewrite Forall_forall in Hn.
      by destruct (Hn _ Hin) as (_ & _ & ? & _).
    + exfalso. cbn in Hes. rewrite Hes in *. destruct (replicate n dotdot ++ reverse names) as [|e es] eqn:Hrest.
      * by destruct Hdd.
      * destruct Hpre. exists (join [slash] (e :: es)). done.
  - intros (Habs & Hne & Hno). rewrite !Clean_render, Habs. cbn [render].
    destruct (elements repo) as [|e es] eqn:He; [done|].
    assert (Hc : canonical false (reverse (e :: es))) by (rewrite <- He, <- Habs; apply elements_canonical).
    pose proof (elements_render false (e :: es) Hc) as [_ Hr]. cbn [render] in Hr.
    assert (Hjoin : ∀ x, join [slash] (e :: es) = x → elements x = e :: es) by (by intros x <-).
    assert (Hsplit : split_byte slash (join [slash] (e :: es)) = e :: es).
    { apply split_byte_join; [done|]. apply Forall_forall. intros x Hx.
      by destruct (canonical_component false _ x Hc Hx) as (_ & _ & ?). }
    split; [split; [by intros ->|done]|]. split; [split|].
    + by intros Hx%Hjoin.
    + intros Hx%Hjoin. rewrite <- Hx in Hno. apply Hno. cbv. by left.
    + intros (rest & Hx). rewrite Hx, <- app_assoc in Hsplit. cbn [app] in Hsplit.
      rewrite (split_byte_app slash dotdot rest) in Hsplit. injection Hsplit as <- _.
      apply Hno. apply list_elem_of_here.
Qed.

Lemma has_prefix_below base p :
  bool_decide (p = base) || has_prefix p (base ++ [slash]) = true ↔ below base p.
Proof.
  rewrite orb_true_iff, bool_decide_eq_true, has_prefix_spec. unfold below.
  by setoid_rewrite <- app_assoc.
Qed.

(** ** What the git routes serve, on a world *)

Section theorems.
Context {R D : Type} `{Oracle} `{DiskLaws D} `{OsErrors} `{Backend D}.
Implicit Types (w : World R D) (r : Request) (d : D).

(** A call that asks the disk and changes nothing. *)
Definition quiet w w' : Prop := db w' = db w ∧ redis w' = redis w ∧ disk w' = disk w.

#[local] Instance quiet_preorder : PreOrder quiet.
Proof. split; [done|]. intros w1 w2 w3 (? & ? & ?) (? & ? & ?). split_and!; by etrans. Qed.

Definition abs_of d path base : Prop :=
  if IsAbs path then base = Clean path
  else ∃ wd, disk_Getwd d = Ok wd ∧ base = Join [wd; path].

Lemma filepath_Abs_run path w res w' :
  filepath_Abs path w = (res, w') →
  quiet w w' ∧ ∀ base, res = Ok base ↔ abs_of (disk w) path base.
Proof.
  unfold filepath_Abs, abs_of. destruct (IsAbs path).
  - intros [= <- <-]. split; [done|]. naive_solver.
  - intros Hr. apply M_bind_inv in Hr as [(wd & w1 & Hwd & Hr)|(e & Hwd & ->)]; injection Hwd as Hwd <-.
    + injection Hr as <- <-. split; [done|]. rewrite Hwd. naive_solver.
    + split; [done|]. rewrite Hwd. naive_solver.
Qed.

Lemma abs_of_clean d path base : abs_of d path base → clean_abs base.
Proof.
  unfold abs_of. destruct (IsAbs path) eqn:Ha.
  - intros ->. by apply clean_abs_Clean.
  - intros (wd & Hwd & ->). by eapply clean_abs_Join, disk_Getwd_abs.
Qed.

(** Where a repository of that name is served from. *)
Definition located d (reposDir repo p : bytes) : Prop :=
  IsAbs repo = false ∧ elements repo ≠ [] ∧ (dotdot ∉ elements repo) ∧
  ∃ base real, abs_of d reposDir base ∧ elements base ≠ [] ∧ disk_EvalSymlinks d base = Ok real ∧
    clean_abs p ∧ elements p = elements base ++ elements repo ∧
    match disk_EvalSymlinks d p with
    | Ok q => below real q
    | Err e => os_IsNotExist e = true
    end.

Lemma secureRepoPath_run reposDir repo w res w' :
  secureRepoPath reposDir repo w = (res, w') →
  quiet w w' ∧ ∃ o, res = Ok o ∧ ∀ p, o = Some p ↔ located (disk w) reposDir repo p.
Proof.
  intros Hr. unfold secureRepoPath in Hr. pose proof (relative_refused repo) as Href.
  destruct (bool_decide (repo = []) || IsAbs repo) eqn:Hrel; cbn [orb] in Href.
  { injection Hr as <- <-. split; [done|]. eexists. split; [done|]. intros p. split; [done|].
    intros (? & ? & ? & _). by assert (true = false) by (by apply Href). }
  cbv zeta in Hr. destruct (_ || _ || has_prefix _ _); cbn [orb] in Href.
  { injection Hr as <- <-. split; [done|]. eexists. split; [done|]. intros p. split; [done|].
    intros (? & ? & ? & _). by assert (true = false) by (by apply Href). }
  destruct (proj1 Href eq_refl) as (Habs & Hne & Hno). clear Href Hrel.
  assert (Hloc : ∀ p, located (disk w) reposDir repo p ↔ ∃ base real,
    abs_of (disk w) reposDir base ∧ elements base ≠ [] ∧ disk_EvalSymlinks (disk w) base = Ok real ∧
    clean_abs p ∧ elements p = elements base ++ elements repo ∧
    match disk_EvalSymlinks (disk w) p with Ok q => below real q | Err e => os_IsNotExist e = true end).
  { intros p. unfold located. naive_solver. }
  apply M_bind_attempt_inv in Hr as (base & w1 & Hbase & Hr).
  apply filepath_Abs_run in Hbase as [Hq Hbase]. destruct base as [base|e].
  2:{ injection Hr as <- <-. split; [done|]. eexists. split; [done|]. intros p. split; [done|].
      intros (base & real & Hb%Hbase & _)%Hloc. done. }
  apply M_bind_attempt_inv in Hr as (real & w2 & Hreal & Hr). injection Hreal as Hreal <-.
  destruct Hq as (Hdb & Hredis & Hdisk). rewrite Hdisk in Hreal. destruct real as [real|e].
  2:{ injection Hr as <- <-. split; [done|]. eexists. split; [done|]. intros p. split; [done|].
      intros (base' & real & Hb%Hbase & _ & Hreal' & _)%Hloc. congruence. }
  assert (Hb : abs_of (disk w) reposDir base) by (by apply Hbase).
  pose proof (abs_of_clean _ _ _ Hb) as Hclean.
  assert (Hp : clean_abs (Join [base; Clean repo]) ∧
    elements (Join [base; Clean repo]) = elements base ++ elements repo).
  { destruct Hclean as [Hba _]. destruct (Clean_elements repo) as [Hca Hce].
    split; [by apply clean_abs_Join|]. rewrite <- Hce. apply Join_below; [by intros ->|congruence|by rewrite Hce]. }
  set (path := Join [base; Clean repo]) in *. destruct Hp as [Hp Hpe].
  assert (Habsp : filepath_Abs path = mret (M := M (World R D)) path).
  { unfold filepath_Abs. destruct Hp as [-> Hc]. by rewrite Hc. }
  rewrite Habsp in Hr. apply M_bind_attempt_inv in Hr as (path' & w3 & Hpath & Hr). injection Hpath as <- <-.
  rewrite <- negb_orb in Hr.
  assert (Hfin : ∀ p, located (disk w) reposDir repo p ↔ p = path ∧ below base path ∧
    match disk_EvalSymlinks (disk w) path with Ok q => below real q | Err e => os_IsNotExist e = true end).
  { intros p. rewrite Hloc, (below_elements base path (elements repo)) by done. split.
    - intros (base' & real' & Hb' & Hbe & Hr' & Hcp & Hep & Hm). apply Hbase in Hb'. simplify_eq.
      assert (p = path) as -> by (apply clean_abs_inj; [done..|congruence]). assert (real' = real) as -> by congruence. by split_and!.
    - intros (-> & Hbe & Hm). by exists base, real. }
  destruct (bool_decide (path = base) || _) eqn:Hbelow; cbn [negb] in Hr.
  - apply has_prefix_below in Hbelow. apply M_bind_attempt_inv in Hr as (real' & w4 & Hreal' & Hr).
    injection Hreal' as <- <-. injection Hr as <- <-. split; [done|]. eexists. split; [done|].
    intros p. rewrite Hfin. cbn [disk tick]. rewrite Hdisk.
    destruct (disk_EvalSymlinks (disk w) path) as [q|e].
    + rewrite <- negb_orb. destruct (bool_decide (q = real) || _) eqn:Hq; cbn [negb].
      * apply has_prefix_below in Hq. naive_solver.
      * split; [done|]. intros (_ & _ & Hq'%has_prefix_below). congruence.
    + destruct (os_IsNotExist e); cbn [negb]; naive_solver.
  - injection Hr as <- <-. split; [done|]. eexists. split; [done|]. intros p. rewrite Hfin.
    split; [done|]. intros (_ & Hb'%has_prefix_below & _). congruence.
Qed.

(** C9: secureRepoPath always returns, changes nothing, and accepts a repository path
    exactly when it is relative, names something, and does not climb, the working
    directory is known where reposDir is relative, and reposDir is not the root and
    resolves; the path it gives is then the clean absolute one below reposDir, not the
    root, which when its symbolic links resolve is reposDir resolved or below it, and
    which otherwise does not exist (any other failure to resolve it refuses). *)
Theorem secureRepoPath_confines reposDir repo w :
  ∃ o w', secureRepoPath reposDir repo w = (Ok o, w') ∧ quiet w w' ∧
  ∀ p, o = Some p ↔ located (disk w) reposDir repo p.
Proof.
  destruct (secureRepoPath reposDir repo w) as [res w'] eqn:Hr.
  apply secureRepoPath_run in Hr as (Hq & o & -> & Ho). by exists o, w'.
Qed.

Context (config : Config (World R D)).

(** The repository a request names. *)
Definition wanted_get r repo : Prop :=
  r_PathValue r "path" = repo +:+ "/info/refs" ∧ repo ≠ EmptyString ∧
  HasPrefix (r_Query r "service") "git-" = true.

Definition wanted_post r repo : Prop :=
  repo ≠ EmptyString ∧ (r_PathValue r "path" = repo +:+ "/git-upload-pack" ∨
                        r_PathValue r "path" = repo +:+ "/git-receive-pack").

(** It is served from [p]: a place below [reposDir] that is not missing. *)
Definition served d repo p : Prop :=
  located d (unstr (ReposDir config)) (unstr repo) p ∧
  ∀ e, disk_Stat d p = Err e → os_IsNotExist e = false.

(** The backend runs on a served repository, or the answer is 404. *)
Definition guarded (wanted : Request → string → Prop) (h : Handler (World R D)) : Prop :=
  ∀ r w, 
  (∃ repo p w1, wanted r repo ∧ served (disk w) repo p ∧ quiet w w1 ∧
     h NewResponseWriter r w = gitHandler_ServeHTTP NewResponseWriter r w1) ∨
  ((∀ repo p, wanted r repo → ¬ served (disk w) repo p) ∧
   ∃ text w', h NewResponseWriter r w = (Ok (http_Error NewResponseWriter text StatusNotFound), w') ∧
     quiet w w').

Lemma serveGit_guarded repo r w :
  (∃ p w1, served (disk w) repo p ∧ quiet w w1 ∧
     serveGit config repo NewResponseWriter r w = gitHandler_ServeHTTP NewResponseWriter r w1) ∨
  ((∀ p, ¬ served (disk w) repo p) ∧
   ∃ w', serveGit config repo NewResponseWriter r w = (Ok (repository_not_found NewResponseWriter), w') ∧
     quiet w w').
Proof.
  unfold serveGit, served.
  destruct (secureRepoPath (unstr (ReposDir config)) (unstr repo) w) as [res w1] eqn:Hp.
  pose proof Hp as Hrun. apply secureRepoPath_run in Hrun as (Hq & o & -> & Ho).
  rewrite (M_bind_run _ _ _ _ _ Hp). destruct o as [p|].
  2:{ right. split; [|by exists w1]. intros p [Hl _]. by apply Ho in Hl. }
  assert (Hl : located (disk w) (unstr (ReposDir config)) (unstr repo) p) by (by apply Ho).
  assert (Hstat : os_Stat p w1 = (disk_Stat (disk w) p, tick w1)).
  { destruct Hq as (_ & _ & <-). done. }
  rewrite (M_bind_attempt_run _ _ _ _ _ Hstat). assert (Hq' : quiet w (tick w1)) by exact Hq.
  destruct (disk_Stat (disk w) p) as [[]|e] eqn:Hs; [left; exists p, (tick w1); split_and!; [done| |done..]; intros e He; congruence|].
  destruct (os_IsNotExist e) eqn:He.
  - right. split; [|by exists (tick w1)]. intros p' [Hp' Hno]. apply Ho in Hp'. injection Hp' as ->.
    by rewrite (Hno e Hs) in He.
  - left. exists p, (tick w1). split; [|done]. split; [done|]. intros e' Hs'; congruence.
Qed.

Lemma wanted_get_inv r repo ok :
  CutSuffix (r_PathValue r "path") "/info/refs" = (repo, ok) →
  ∀ repo', wanted_get r repo' ↔ repo' = repo ∧ ok = true ∧ repo ≠ EmptyString ∧
    HasPrefix (r_Query r "service") "git-" = true.
Proof.
  intros Hcut repo'. unfold wanted_get. split.
  - intros (Hp & Hne & Hs). apply CutSuffix_true in Hp. rewrite Hp in Hcut. by injection Hcut as -> <-.
  - intros (-> & -> & Hne & Hs). by apply CutSuffix_true in Hcut.
Qed.

Lemma HasSuffix_spec s p : HasSuffix s p = true ↔ ∃ rest, s = rest +:+ p.
Proof.
  unfold HasSuffix. rewrite bool_decide_eq_true. split.
  - intros [r Hr%strip_suffix_Some]. exists (str r). apply (inj unstr). by rewrite unstr_app, unstr_str.
  - intros [r ->]. exists (unstr r). by rewrite strip_suffix_Some, unstr_app.
Qed.

Lemma post_repo_spec path repo :
  repo ≠ EmptyString →
  post_repo path = repo ↔ path = repo +:+ "/git-upload-pack" ∨ path = repo +:+ "/git-receive-pack".
Proof.
  intros Hne. unfold post_repo.
  assert (Hcut : ∀ p rest, (CutSuffix (rest +:+ p) p).1 = rest).
  { intros p rest. by rewrite (proj2 (CutSuffix_true (rest +:+ p) p rest) eq_refl). }
  assert (Hclash : ∀ a b, a +:+ "/git-upload-pack" ≠ b +:+ "/git-receive-pack").
  { intros a b Heq%(f_equal (λ s, reverse (unstr s))). rewrite !unstr_app, !reverse_app in Heq.
    discriminate Heq. }
  assert (Hinj : ∀ p a b : string, a +:+ p = b +:+ p → a = b).
  { intros p a b Heq%(f_equal unstr). rewrite !unstr_app in Heq. by apply app_inv_tail, (inj unstr) in Heq. }
  destruct (HasSuffix path "/git-upload-pack") eqn:Hu.
  { apply HasSuffix_spec in Hu as [rest ->]. rewrite Hcut. split; [intros ->; by left|].
    intros [Heq|Heq]; [by apply Hinj in Heq|by apply Hclash in Heq]. }
  destruct (HasSuffix path "/git-receive-pack") eqn:Hv.
  { apply HasSuffix_spec in Hv as [rest ->]. rewrite Hcut. split; [intros ->; by right|].
    intros [Heq|Heq]; [by apply eq_sym, Hclash in Heq|by apply Hinj in Heq]. }
  split; [intros <-; done|]. rewrite <- not_true_iff_false, HasSuffix_spec in Hu, Hv.
  intros [Heq|Heq]; [destruct Hu|destruct Hv]; by exists repo.
Qed.

(** C21: A git request runs the backend exactly when its path names a repository that
    secureRepoPath locates below reposDir and that is not missing; every other one is
    answered 404, and nothing is changed before the backend runs. *)
Theorem git_requests_confined :
  guarded wanted_get (handleGitGet config) ∧ guarded wanted_post (handleGitPost config).
Proof.
  split; intros r w.
  - unfold handleGitGet. destruct (CutSuffix _ _) as [repo ok] eqn:Hcut.
    pose proof (wanted_get_inv _ _ _ Hcut) as Hw.
    destruct (negb ok || is_empty repo) eqn:Hrefuse.
    { right. split; [|by eexists _, w]. intros repo' p (-> & -> & Hne & _)%Hw _.
      apply bool_decide_eq_true in Hrefuse. done. }
    apply orb_false_elim in Hrefuse as [Hok%negb_false_iff Hne%bool_decide_eq_false].
    destruct (HasPrefix _ _) eqn:Hs; cbn [negb].
    2:{ right. split; [|by eexists _, w]. intros repo' p (_ & _ & _ & ?)%Hw. done. }
    destruct (serveGit_guarded repo r w) as [(p & w1 & Hp & Hq & Hr)|(Hno & w' & Hr & Hq)].
    + left. exists repo, p, w1. split; [by apply Hw|done].
    + right. split; [intros repo' p (-> & _)%Hw; apply Hno|]. by eexists _, w'.
  - unfold handleGitPost. destruct (is_empty _) eqn:Hempty.
    + right. split; [|by eexists _, w]. intros repo p [Hne Hp] _. apply post_repo_spec in Hp; [|done].
      apply bool_decide_eq_true in Hempty. congruence.
    + apply bool_decide_eq_false in Hempty.
      assert (Hw : ∀ repo, wanted_post r repo ↔ repo = post_repo (r_PathValue r "path")).
      { intros repo. unfold wanted_post. split.
        - intros [Hne Hp]. by apply post_repo_spec in Hp.
        - intros ->. split; [done|]. by apply post_repo_spec. }
      destruct (serveGit_guarded (post_repo (r_PathValue r "path")) r w)
        as [(p & w1 & Hp & Hq & Hr)|(Hno & w' & Hr & Hq)].
      * left. eexists _, p, w1. split; [by apply Hw|done].
      * right. split; [intros repo p ->%Hw; apply Hno|]. by eexists _, w'.
Qed.

(** *** A computation that does not look at the database *)

Definition db_blind {A} (m : M (World R D) A) : Prop :=
  ∀ k w, m (set_db k w) = ((m w).1, set_db k (m w).2) ∧ db (m w).2 = db w.

Lemma blind_ret {A} (a : A) : db_blind (mret a).
Proof. done. Qed.

Lemma blind_bind {A B} (m : M (World R D) A) (f : A → M (World R D) B) :
  db_blind m → (∀ a, db_blind (f a)) → db_blind (m ≫= f).
Proof.
  intros Hm Hf k w. destruct (Hm k w) as [Hk Hdb]. unfold mbind, M_bind. rewrite Hk.
  destruct (m w) as [[a|e] w1]; cbn in *; [|done]. destruct (Hf a k w1) as [Hk' Hdb']. by rewrite Hdb'.
Qed.

Lemma blind_attempt {A} (m : M (World R D) A) : db_blind m → db_blind (attempt m).
Proof.
  intros Hm k w. destruct (Hm k w) as [Hk Hdb]. unfold attempt. rewrite Hk. by destruct (m w).
Qed.

Lemma blind_backend wr r : db_blind (gitHandler_ServeHTTP wr r).
Proof. intros k w. cbn. unfold gitHandler_ServeHTTP, World_GitBackend. cbn. by destruct (backend_ServeHTTP _ _ _ _). Qed.

Lemma blind_disk :
  db_blind os_Getwd ∧ (∀ p, db_blind (os_Stat p)) ∧ (∀ p, db_blind (filepath_EvalSymlinks p)).
Proof. done. Qed.

Ltac blind :=
  repeat first
    [ apply blind_ret | apply blind_backend | apply blind_attempt | apply blind_disk
    | apply blind_bind; [|intros ?]
    | progress cbv zeta
    | match goal with |- db_blind (match ?x with _ => _ end) => destruct x end ].

Lemma serveGit_blind repo wr r : db_blind (serveGit config repo wr r).
Proof. unfold serveGit, secureRepoPath, filepath_Abs. blind. Qed.

(** C22: The git routes do the same whatever the database holds, and leave it as it is:
    privacy, owner and deletion of a repository have no influence on who may fetch from
    it or push to it. *)
Theorem git_routes_ignore_the_database wr r :
  db_blind (handleGitGet config wr r) ∧ db_blind (handleGitPost config wr r).
Proof.
  unfold handleGitGet, handleGitPost. split; cbv zeta.
  - destruct (CutSuffix _ _) as [repo ok]. destruct (_ || _); [apply blind_ret|].
    destruct (negb _); [apply blind_ret|apply serveGit_blind].
  - destruct (is_empty _); [apply blind_ret|apply serveGit_blind].
Qed.
End theorems.
End gitroutes.
