(* ===== verification/Config.v ===== *)
(** Configuration: [pkg/env/env.go], [internal/config/config.go], and the
    addresses of the database and of Redis ([internal/database/database.go],
    [internal/store/redis.go]).

    The environment is a function, empty where a variable is not set.  Parsing a
    duration and resolving an address are parameters. *)

From S2P Require Import Prelude.
From S2P Require Import Bytes.
From S2P Require Import Platform.
From S2P Require Import Sso.
From S2P Require Import GoStrings.
From stdpp Require Import pretty.
#[local] Open Scope Z_scope.

(** [os.Getenv] *)
Class Environment := os_Getenv : string → string.

(** ** [strconv] *)

Definition digit (c : byte) : option Z :=
  let n := byte_val c in if (48 <=? n) && (n <=? 57) then Some (n - 48) else None.

Fixpoint digits (acc : Z) (s : bytes) : option Z :=
  match s with
  | [] => Some acc
  | c :: s' => match digit c with Some d => digits (10 * acc + d) s' | None => None end
  end.

Definition max_int : Z := 2 ^ 63 - 1.

Definition strconv_Atoi (s : string) : option Z :=
  let '(neg, ds) := match unstr s with
    | c :: s' => if bool_decide (c = "-"%char) then (true, s')
                 else if bool_decide (c = "+"%char) then (false, s') else (false, c :: s')
    | [] => (false, [])
    end in
  match ds with
  | [] => None
  | _ =>
      match digits 0 ds with
      | None => None
      | Some n =>
          let v := if (neg : bool) then - n else n in
          if (- max_int - 1 <=? v) && (v <=? max_int) then Some v else None
      end
  end.

Definition strconv_ParseBool (s : string) : option bool :=
  if bool_decide (s ∈ ["1"; "t"; "T"; "true"; "TRUE"; "True"]%string) then Some true
  else if bool_decide (s ∈ ["0"; "f"; "F"; "false"; "FALSE"; "False"]%string) then Some false
  else None.

(** [strings.ToLower], on ASCII: the text it is compared with is ASCII and has
    no letter that another script maps to. *)
Definition lower (c : byte) : byte :=
  let n := byte_val c in if (65 <=? n) && (n <=? 90) then byte_of (n + 32) else c.
Definition ToLower (s : string) : string := str (lower <$> unstr s).

(** ** env.go *)

Module env.
Section env.
Context `{Environment}.

Definition Or (key fallback : string) : string :=
  let v := os_Getenv key in if negb (bool_decide (v = EmptyString)) then v else fallback.

Definition Int (key : string) (fallback : Z) : Z :=
  let v := os_Getenv key in
  if bool_decide (v = EmptyString) then fallback
  else match strconv_Atoi v with Some n => n | None => fallback end.

Definition Bool (key : string) (fallback : bool) : bool :=
  let v := os_Getenv key in
  if bool_decide (v = EmptyString) then fallback
  else match strconv_ParseBool v with Some b => b | None => fallback end.
End env.
End env.

(** ** database.go *)

Module database.
Record Config := {
  Host : string;
  Port : Z;
  User : string;
  Password : string;
  DBName : string;
  SSLMode : string;
}.

Definition DSN (c : Config) : string :=
  let sslMode := if bool_decide (SSLMode c = EmptyString) then "disable"%string else SSLMode c in
  "postgres://" +:+ User c +:+ ":" +:+ Password c +:+ "@" +:+ Host c +:+ ":" +:+ pretty (Port c) +:+
  "/" +:+ DBName c +:+ "?sslmode=" +:+ sslMode.
End database.

(** ** redis.go *)

Record RedisConfig := { redis_Host : string; redis_Port : Z; redis_Password : string; redis_DB : Z }.

Definition Addr (c : RedisConfig) : string := redis_Host c +:+ ":" +:+ pretty (redis_Port c).

(** ** config.go *)

(** [time.ParseDuration] and [net.ResolveTCPAddr("tcp", _)], with the text of
    its error. *)
Class NetTime := {
  time_ParseDuration : string → option Z;
  net_ResolveTCPAddr : string → option string;
}.

Module config.

Record RateLimitConfig := { IPRate : Z; IPBurst : Z; UserRate : Z; UserBurst : Z }.

(** [logger.Config] *)
Record LogConfig := { log_Env : string; log_Level : string }.

Record Config := {
  Database : database.Config;
  Redis : RedisConfig;
  Google : sso.GoogleConfig;
  RateLimit : RateLimitConfig;
  Log : LogConfig;
  HTTPAddr : string;
  ReposDir : string;
  AppVersion : string;
  TOTPIssuer : string;
  SecureCookies : bool;
  ShutdownTimeout : Z;
  HealthcheckTimeout : Z;
  SeedAdminName : string;
  SeedAdminUsername : string;
  SeedAdminEmail : string;
  SeedAdminPassword : string;
}.

Record ValidationError := { MissingVars : list string; InvalidVars : gmap string string }.

Section config.
Context `{Environment} `{NetTime}.

Definition parseDuration (key : string) (fallback : Z) : Z :=
  let v := os_Getenv key in
  if bool_decide (v = EmptyString) then fallback
  else match time_ParseDuration v with Some d => d | None => fallback end.

Definition Load : Config := {|
  Database := {|
    database.Host := env.Or "DB_HOST" "localhost"; database.Port := env.Int "DB_PORT" 5432;
    database.User := env.Or "DB_USER" "postgres"; database.Password := env.Or "DB_PASSWORD" "postgres";
    database.DBName := env.Or "DB_NAME" "gitfed"; database.SSLMode := env.Or "DB_SSLMODE" "disable" |};
  Redis := {|
    redis_Host := env.Or "REDIS_HOST" "localhost"; redis_Port := env.Int "REDIS_PORT" 6379;
    redis_Password := env.Or "REDIS_PASSWORD" EmptyString; redis_DB := env.Int "REDIS_DB" 0 |};
  Google := {|
    sso.ClientID := env.Or "GOOGLE_CLIENT_ID" EmptyString;
    sso.ClientSecret := env.Or "GOOGLE_CLIENT_SECRET" EmptyString;
    sso.RedirectURL := env.Or "GOOGLE_REDIRECT_URL" "http://localhost:8080/auth/google/callback" |};
  RateLimit := {|
    IPRate := env.Int "RATE_LIMIT_IP_RATE" 100; IPBurst := env.Int "RATE_LIMIT_IP_BURST" 20;
    UserRate := env.Int "RATE_LIMIT_USER_RATE" 200; UserBurst := env.Int "RATE_LIMIT_USER_BURST" 40 |};
  Log := {| log_Env := env.Or "ENV" "DEV"; log_Level := env.Or "LOG_LEVEL" "info" |};
  HTTPAddr := env.Or "HTTP_ADDR" "0.0.0.0:8080";
  ReposDir := env.Or "REPOS_DIR" EmptyString;
  AppVersion := env.Or "APP_VERSION" "dev";
  TOTPIssuer := env.Or "TOTP_ISSUER" "gitfed";
  SecureCookies := env.Bool "SECURE_COOKIES" false;
  ShutdownTimeout := parseDuration "SHUTDOWN_TIMEOUT" (15 * Second);
  HealthcheckTimeout := parseDuration "HEALTHCHECK_TIMEOUT" (2 * Second);
  SeedAdminName := env.Or "SEED_ADMIN_NAME" EmptyString;
  SeedAdminUsername := env.Or "SEED_ADMIN_USERNAME" EmptyString;
  SeedAdminEmail := env.Or "SEED_ADMIN_EMAIL" EmptyString;
  SeedAdminPassword := env.Or "SEED_ADMIN_PASSWORD" EmptyString;
|}.

(** The variables of the list that are blank, in order. *)
Definition missing_of (required : list string) : list string :=
  filter (λ key, TrimSpace (os_Getenv key) = EmptyString) required.

Definition required_vars : list string :=
  let envName := ToLower (os_Getenv "ENV") in
  let envName := if bool_decide (envName = EmptyString) then "dev"%string else envName in
  let required := ["REPOS_DIR"%string] in
  if negb (bool_decide (envName = "dev"%string)) then
    required ++ ["DB_HOST"; "DB_PORT"; "DB_USER"; "DB_PASSWORD"; "DB_NAME"; "DB_SSLMODE";
                 "REDIS_HOST"; "REDIS_PORT"; "HTTP_ADDR"]%string
  else required.

(** [if b { invalid[key] = text }] *)
Definition flag (b : bool) (key text : string) (invalid : gmap string string) : gmap string string :=
  if b then <[key := text]> invalid else invalid.

Definition invalid_of (c : Config) : gmap string string :=
  let invalid := ∅ in
  let invalid := flag ((database.Port (Database c) <? 1) || (65535 <? database.Port (Database c)))
    "DB_PORT" "must be between 1 and 65535" invalid in
  let invalid := flag ((redis_Port (Redis c) <? 1) || (65535 <? redis_Port (Redis c)))
    "REDIS_PORT" "must be between 1 and 65535" invalid in
  let invalid :=
    if bool_decide (HTTPAddr c = EmptyString) then <["HTTP_ADDR" := "must not be empty"]> invalid
    else match net_ResolveTCPAddr (HTTPAddr c) with
         | Some err => <["HTTP_ADDR" := "invalid TCP address: " +:+ err]> invalid
         | None => invalid
         end in
  let invalid := flag (bool_decide (ReposDir c = EmptyString)) "REPOS_DIR" "must not be empty" invalid in
  let invalid := flag (ShutdownTimeout c <=? 0) "SHUTDOWN_TIMEOUT" "must be > 0" invalid in
  flag (HealthcheckTimeout c <=? 0) "HEALTHCHECK_TIMEOUT" "must be > 0" invalid.

Definition report (missing : list string) (invalid : gmap string string) : option ValidationError :=
  if bool_decide (missing = []) && bool_decide (invalid = ∅) then None
  else Some {| MissingVars := missing; InvalidVars := invalid |}.

Definition Validate (c : Config) : option ValidationError :=
  report (missing_of required_vars) (invalid_of c).

Definition ValidateSeed (c : Config) : option ValidationError :=
  let missing := missing_of
    ["SEED_ADMIN_NAME"; "SEED_ADMIN_USERNAME"; "SEED_ADMIN_EMAIL"; "SEED_ADMIN_PASSWORD"]%string in
  if bool_decide (missing = []) then None
  else Some {| MissingVars := missing; InvalidVars := ∅ |}.
End config.

(** ** What is reported *)

Section theorems.
Context `{Environment} `{NetTime}.

Lemma flag_lookup b key text invalid k :
  is_Some (flag b key text invalid !! k) ↔ (b = true ∧ k = key) ∨ is_Some (invalid !! k).
Proof.
  unfold flag. destruct b; [|naive_solver]. destruct (decide (k = key)) as [->|Hne].
  - rewrite lookup_insert_eq. naive_solver.
  - rewrite lookup_insert_ne by done. naive_solver.
Qed.

(** The reason a variable is invalid. *)
Definition invalid_reason (c : Config) (k : string) : Prop :=
  (k = "DB_PORT" ∧ ¬ 1 ≤ database.Port (Database c) ≤ 65535) ∨
  (k = "REDIS_PORT" ∧ ¬ 1 ≤ redis_Port (Redis c) ≤ 65535) ∨
  (k = "HTTP_ADDR" ∧ (HTTPAddr c = EmptyString ∨ net_ResolveTCPAddr (HTTPAddr c) ≠ None)) ∨
  (k = "REPOS_DIR" ∧ ReposDir c = EmptyString) ∨
  (k = "SHUTDOWN_TIMEOUT" ∧ ShutdownTimeout c ≤ 0) ∨
  (k = "HEALTHCHECK_TIMEOUT" ∧ HealthcheckTimeout c ≤ 0).

Lemma port_range p : (p <? 1) || (65535 <? p) = true ↔ ¬ 1 ≤ p ≤ 65535.
Proof. rewrite orb_true_iff, !Z.ltb_lt. lia. Qed.

Lemma invalid_of_spec c k : is_Some (invalid_of c !! k) ↔ invalid_reason c k.
Proof.
  unfold invalid_of, invalid_reason. rewrite !flag_lookup, bool_decide_eq_true, !Z.leb_le.
  assert (Haddr : ∀ m, is_Some ((if bool_decide (HTTPAddr c = EmptyString)
      then <["HTTP_ADDR" := "must not be empty"]> m
      else match net_ResolveTCPAddr (HTTPAddr c) with
           | Some err => <["HTTP_ADDR" := "invalid TCP address: " +:+ err]> m
           | None => m
           end : gmap string string) !! k) ↔
    (k = "HTTP_ADDR" ∧ (HTTPAddr c = EmptyString ∨ net_ResolveTCPAddr (HTTPAddr c) ≠ None)) ∨
    is_Some (m !! k)).
  { intros m. assert (Hins : ∀ text, is_Some (<["HTTP_ADDR"%string := text]> m !! k) ↔
      k = "HTTP_ADDR" ∨ is_Some (m !! k)).
    { intros text. rewrite (flag_lookup true "HTTP_ADDR" text m k). naive_solver. }
    case_bool_decide; [rewrite Hins; naive_solver|].
    destruct (net_ResolveTCPAddr _); [rewrite Hins|]; naive_solver. }
  rewrite Haddr, !flag_lookup, !port_range, lookup_empty, is_Some_alt. tauto.
Qed.

(** What is required, and when. *)
Lemma required_vars_spec k :
  k ∈ required_vars ↔
  k = "REPOS_DIR"%string ∨
  (¬ (ToLower (os_Getenv "ENV") = EmptyString ∨ ToLower (os_Getenv "ENV") = "dev"%string) ∧
   k ∈ ["DB_HOST"; "DB_PORT"; "DB_USER"; "DB_PASSWORD"; "DB_NAME"; "DB_SSLMODE";
        "REDIS_HOST"; "REDIS_PORT"; "HTTP_ADDR"]%string).
Proof.
  unfold required_vars. cbv zeta. set (name := ToLower (os_Getenv "ENV")).
  destruct (decide (name = EmptyString)) as [Hempty|Hempty].
  - rewrite (bool_decide_eq_true_2 _ Hempty), (bool_decide_eq_true_2 _ eq_refl). cbn [negb]. rewrite list_elem_of_singleton. tauto.
  - rewrite (bool_decide_eq_false_2 _ Hempty). destruct (decide (name = "dev"%string)) as [Hdev|Hdev].
    + rewrite (bool_decide_eq_true_2 _ Hdev). cbn [negb]. rewrite list_elem_of_singleton. tauto.
    + rewrite (bool_decide_eq_false_2 _ Hdev). cbn [negb]. rewrite elem_of_app, list_elem_of_singleton. tauto.
Qed.

(** C33: Validate reports exactly the required variables that are blank and the settings
    that are out of range, each under its name, and nothing only when there are none.
    REPOS_DIR is always required; unless ENV is empty or, in any case of its letters,
    dev, so are DB_HOST, DB_PORT, DB_USER, DB_PASSWORD, DB_NAME, DB_SSLMODE, REDIS_HOST,
    REDIS_PORT and HTTP_ADDR. *)
Theorem Validate_reports_exactly c :
  let dev := ToLower (os_Getenv "ENV") = EmptyString ∨ ToLower (os_Getenv "ENV") = "dev"%string in
  let missing key := TrimSpace (os_Getenv key) = EmptyString ∧
    (key = "REPOS_DIR"%string ∨
     (¬ dev ∧ key ∈ ["DB_HOST"; "DB_PORT"; "DB_USER"; "DB_PASSWORD"; "DB_NAME"; "DB_SSLMODE";
                     "REDIS_HOST"; "REDIS_PORT"; "HTTP_ADDR"]%string)) in
  match Validate c with
  | None => ∀ k, ¬ missing k ∧ ¬ invalid_reason c k
  | Some e =>
      ((∃ k, missing k) ∨ ∃ k, invalid_reason c k) ∧
      ∀ k, (k ∈ MissingVars e ↔ missing k) ∧ (is_Some (InvalidVars e !! k) ↔ invalid_reason c k)
  end.
Proof.
  intros dev missing. unfold Validate, report.
  assert (Hm : ∀ k, k ∈ missing_of required_vars ↔ missing k).
  { intros k. unfold missing_of, missing. by rewrite list_elem_of_filter, required_vars_spec. }
  destruct (bool_decide (missing_of required_vars = []) && _) eqn:Hnone.
  - apply andb_prop in Hnone as [Hl%bool_decide_eq_true Hi%bool_decide_eq_true].
    intros k. rewrite <- Hm, <- invalid_of_spec, Hl, Hi, lookup_empty.
    split; [apply not_elem_of_nil|by intros []].
  - split; [|intros k; cbn [MissingVars InvalidVars]; by rewrite Hm, invalid_of_spec].
    apply andb_false_iff in Hnone as [Hl%bool_decide_eq_false|Hi%bool_decide_eq_false].
    + left. destruct (missing_of required_vars) as [|k ks]; [done|]. exists k. apply Hm, list_elem_of_here.
    + right. apply map_choose in Hi as (k & text & Hk). exists k. apply invalid_of_spec. by exists text.
Qed.

(** A number that does not parse is replaced by the default, before Validate can
    see it. *)
Theorem malformed_port_is_default :
  strconv_Atoi (os_Getenv "DB_PORT") = None →
  database.Port (Database Load) = 5432 ∧ ¬ invalid_reason Load "DB_PORT".
Proof.
  intros Hp. cbn. unfold env.Int. rewrite Hp. case_bool_decide.
  all: split; [done|]. all: intros [[_ Hr]|[[? _]|[[? _]|[[? _]|[[? _]|[? _]]]]]]; try discriminate.
  all: apply Hr; cbn; unfold env.Int; rewrite Hp; case_bool_decide; lia.
Qed.

(** So is a timeout that does not parse. *)
Theorem malformed_timeout_is_default :
  time_ParseDuration (os_Getenv "SHUTDOWN_TIMEOUT") = None →
  ShutdownTimeout Load = 15 * Second ∧ ¬ invalid_reason Load "SHUTDOWN_TIMEOUT".
Proof.
  intros Hp. assert (Hd : ShutdownTimeout Load = 15 * Second).
  { cbn. unfold parseDuration. rewrite Hp. by case_bool_decide. }
  split; [exact Hd|]. intros [[? _]|[[? _]|[[? _]|[[? _]|[[_ Hr]|[? _]]]]]]; try discriminate.
  by rewrite Hd in Hr.
Qed.
End theorems.
End config.
