(* ===== verification/Mux.v ===== *)
(** [http.ServeMux]: patterns with a method, literal segments, single wildcards
    and a rest wildcard, matched against the escaped path.

    A node of the routing tree is the list of what is left of the patterns below
    it.  No pattern of the program ends in a slash, so a match never redirects to
    one. *)

From S2P Require Import Prelude.
From S2P Require Import Bytes.
From S2P Require Import Encoding.
From S2P Require Import Filepath.
From S2P Require Import Http.
From S2P Require Import GoStrings.

Module mux.
Import http.

Inductive segment :=
  | Lit (s : bytes)
  | Wild (name : string).

(** [p_rest] is the name of a final [{name...}]. *)
Record pattern := {
  p_method : string;
  p_segs : list segment;
  p_rest : option string;
}.

(** ** Escapes *)

Definition unhex (c : byte) : option Z :=
  let n := byte_val c in
  if (48 <=? n) && (n <=? 57) then Some (n - 48)
  else if (97 <=? n) && (n <=? 102) then Some (n - 97 + 10)
  else if (65 <=? n) && (n <=? 70) then Some (n - 65 + 10)
  else None.

(** [url.PathUnescape] *)
Fixpoint unescape (s : bytes) : option bytes :=
  match s with
  | [] => Some []
  | c :: s1 =>
      if bool_decide (c = "%"%char) then
        match s1 with
        | a :: b :: s2 =>
            match unhex a, unhex b with
            | Some x, Some y => cons (byte_of (16 * x + y)) <$> unescape s2
            | _, _ => None
            end
        | _ => None
        end
      else cons c <$> unescape s1
  end.

Definition pathUnescape (s : bytes) : bytes := default s (unescape s).

(** ** Paths *)

Definition cleanPath (p : bytes) : bytes :=
  match p with
  | [] => [slash]
  | c :: _ =>
      let p := if bool_decide (c = slash) then p else slash :: p in
      let np := Clean p in
      if bool_decide (last p = Some slash) && negb (bool_decide (np = [slash])) then np ++ [slash]
      else np
  end.

(** The segments of a path that begins with a slash, each with the text from
    its slash on; a final slash alone is a segment. *)
Fixpoint segments_of (ps : list bytes) : list (bytes * bytes) :=
  match ps with
  | [] => []
  | [[]] => [([slash], [slash])]
  | p :: ps' => (pathUnescape p, slash :: join [slash] ps) :: segments_of ps'
  end.

Definition segments (path : bytes) : list (bytes * bytes) := segments_of (split_byte slash (tail path)).

(** ** Matching *)

Section match_.
Context {A : Type}.

(** What is left of a pattern, and the route. *)
Definition node : Type := list (list segment * option string * A).

Definition step_lit (seg : bytes) (n : node) : node :=
  omap (λ '(segs, rest, a),
    match segs with
    | Lit s :: segs' => if bool_decide (s = seg) then Some (segs', rest, a) else None
    | _ => None
    end) n.

Definition step_wild (n : node) : node :=
  omap (λ '(segs, rest, a), match segs with Wild _ :: segs' => Some (segs', rest, a) | _ => None end) n.

(** The pattern that ends here, and the one whose rest begins here. *)
Definition leaf (n : node) : option A :=
  head (omap (λ '(segs, rest, a), match segs, rest with [], None => Some a | _, _ => None end) n).
Definition multi (n : node) : option A :=
  head (omap (λ '(segs, rest, a), match segs, rest with [], Some _ => Some a | _, _ => None end) n).

Fixpoint matchPath (n : node) (path : list (bytes * bytes)) (matches : list bytes) : option (A * list bytes) :=
  match path with
  | [] => (λ a, (a, matches)) <$> leaf n
  | (seg, raw) :: path' =>
      match matchPath (step_lit seg n) path' matches with
      | Some m => Some m
      | None =>
          let wild := if bool_decide (seg = [slash]) then None
                      else matchPath (step_wild n) path' (matches ++ [seg]) in
          match wild with
          | Some m => Some m
          | None => (λ a, (a, matches ++ [pathUnescape (tail raw)])) <$> multi n
          end
      end
  end.

(** The tree of a method. *)
Definition tree (method : string) (routes : list (pattern * A)) : node :=
  omap (λ '(p, a), if bool_decide (p_method p = method) then Some (p_segs p, p_rest p, a) else None) routes.

Definition match_method (routes : list (pattern * A)) (method : string) (path : bytes) :
    option (A * list bytes) :=
  match matchPath (tree method routes) (segments path) [] with
  | Some m => Some m
  | None => if bool_decide (method = "HEAD"%string) then matchPath (tree "GET" routes) (segments path) []
            else None
  end.

(** A match is one of the routes. *)
Lemma leaf_elem n a : leaf n = Some a → ∃ x, x ∈ n ∧ x.2 = a.
Proof.
  unfold leaf. intros Hh%head_Some_elem_of. apply list_elem_of_omap in Hh as ([[segs rest] b] & Hin & Hx).
  exists (segs, rest, b). split; [done|]. destruct segs, rest; naive_solver.
Qed.

Lemma multi_elem n a : multi n = Some a → ∃ x, x ∈ n ∧ x.2 = a.
Proof.
  unfold multi. intros Hh%head_Some_elem_of. apply list_elem_of_omap in Hh as ([[segs rest] b] & Hin & Hx).
  exists (segs, rest, b). split; [done|]. destruct segs, rest; naive_solver.
Qed.

Lemma step_lit_elem seg n x : x ∈ step_lit seg n → ∃ y, y ∈ n ∧ y.2 = x.2.
Proof.
  unfold step_lit. intros ([[segs rest] b] & Hin & Hx)%list_elem_of_omap.
  exists (segs, rest, b). split; [done|]. destruct segs as [|[s|s] segs]; try done.
  case_bool_decide; naive_solver.
Qed.

Lemma step_wild_elem n x : x ∈ step_wild n → ∃ y, y ∈ n ∧ y.2 = x.2.
Proof.
  unfold step_wild. intros ([[segs rest] b] & Hin & Hx)%list_elem_of_omap.
  exists (segs, rest, b). split; [done|]. destruct segs as [|[s|s] segs]; naive_solver.
Qed.

Lemma matchPath_elem n path matches a ms :
  matchPath n path matches = Some (a, ms) → ∃ x, x ∈ n ∧ x.2 = a.
Proof.
  revert n matches. induction path as [|[seg raw] path IH]; intros n matches; cbn.
  { intros (b & Hb & [= -> ->])%fmap_Some. by apply leaf_elem. }
  destruct (matchPath (step_lit seg n) path matches) as [[b ms']|] eqn:Hlit.
  { intros [= -> ->]. apply IH in Hlit as (x & Hx & <-). by apply step_lit_elem in Hx. }
  case_bool_decide; [|destruct (matchPath (step_wild n) path _) as [[b ms']|] eqn:Hwild].
  - intros (b & Hb & [= -> ->])%fmap_Some. by apply multi_elem.
  - intros [= -> ->]. apply IH in Hwild as (x & Hx & <-). by apply step_wild_elem in Hx.
  - intros (b & Hb & [= -> ->])%fmap_Some. by apply multi_elem.
Qed.
End match_.

Lemma match_method_elem {A} (routes : list (pattern * A)) method path a ms :
  match_method routes method path = Some (a, ms) → ∃ p, (p, a) ∈ routes.
Proof.
  assert (Htree : ∀ m x, x ∈ tree m routes → ∃ p, (p, x.2) ∈ routes).
  { intros m x ([p b] & Hin & Hx)%list_elem_of_omap. exists p. case_bool_decide; naive_solver. }
  unfold match_method. destruct (matchPath (tree method routes) _ _) as [[b ms']|] eqn:Hm.
  - intros [= -> ->]. apply matchPath_elem in Hm as (x & Hx%Htree & <-). done.
  - case_bool_decide; [|done]. intros Hg. apply matchPath_elem in Hg as (x & Hx%Htree & <-). done.
Qed.

(** ** Matching in order

    A route fits a path when its pattern alone matches it; where more specific
    patterns come first, the tree finds the first route that fits. *)

Section first_fit.
Context {A : Type}.
Implicit Types (x y : list segment * option string * A) (n : list (list segment * option string * A)).

(** What the wildcards of a pattern that fits stand for. *)
Fixpoint captures (segs : list segment) (rest : option string) (path : list (bytes * bytes)) : option (list bytes) :=
  match segs, path with
  | [], [] => if rest is Some _ then None else Some []
  | [], (_, raw) :: _ => if rest is Some _ then Some [pathUnescape (tail raw)] else None
  | Lit s :: segs', (seg, _) :: path' => if bool_decide (s = seg) then captures segs' rest path' else None
  | Wild _ :: segs', (seg, _) :: path' =>
      if bool_decide (seg = [slash]) then None else cons seg <$> captures segs' rest path'
  | _ :: _, [] => None
  end.

Fixpoint first_fit n (path : list (bytes * bytes)) (matches : list bytes) : option (A * list bytes) :=
  match n with
  | [] => None
  | (segs, rest, a) :: n' =>
      match captures segs rest path with
      | Some ms => Some (a, matches ++ ms)
      | None => first_fit n' path matches
      end
  end.

(** The first pattern may come before the second: they fit no path in common, or
    the first is more specific. *)
Fixpoint before (p q : list segment) (restp restq : option string) : bool :=
  match p, q with
  | Lit s :: p', Lit s' :: q' => if bool_decide (s = s') then before p' q' restp restq else true
  | Wild _ :: p', Wild _ :: q' => before p' q' restp restq
  | Lit _ :: _, _ => true
  | Wild _ :: _, Lit _ :: _ => false
  | Wild _ :: _, [] => true
  | [], [] => true
  | [], _ :: _ => if restp is Some _ then false else true
  end.

Definition before_route (x y : list segment * option string * A) : bool := before x.1.1 y.1.1 x.1.2 y.1.2.

Fixpoint ordered n : bool :=
  match n with [] => true | x :: n' => forallb (before_route x) n' && ordered n' end.

Lemma ordered_cons x n : ordered (x :: n) = true ↔ (∀ y, y ∈ n → before_route x y = true) ∧ ordered n = true.
Proof.
  cbn. rewrite andb_true_iff, forallb_forall. split; intros [Hx Hn]; (split; [|done]); intros y Hy; apply Hx;
    by apply list_elem_of_In.
Qed.

(** A step keeps the order, since the heads it removes are alike. *)
Lemma ordered_omap (f : list segment * option string * A → option (list segment * option string * A)) n :
  (∀ x y x' y', f x = Some x' → f y = Some y' → before_route x y = true → before_route x' y' = true) →
  ordered n = true → ordered (omap f n) = true.
Proof.
  intros Hf. induction n as [|x n IH]; [done|]. intros [Hx Hn]%ordered_cons. cbn.
  destruct (f x) as [x'|] eqn:Hfx; [|by apply IH]. apply ordered_cons. split; [|by apply IH].
  intros y' (y & Hy & Hfy)%list_elem_of_omap. eapply Hf; eauto.
Qed.

Lemma ordered_step_lit seg n : ordered n = true → ordered (step_lit seg n) = true.
Proof.
  apply ordered_omap. intros [[[|[s|?] p] rp] a] [[[|[s'|?] q] rq] b] x' y'; try done.
  repeat case_bool_decide; try done. intros [= <-] [= <-]. subst. cbn. by rewrite bool_decide_eq_true_2.
Qed.

Lemma ordered_step_wild n : ordered n = true → ordered (step_wild n) = true.
Proof.
  apply ordered_omap. intros [[[|[s|?] p] rp] a] [[[|[s'|?] q] rq] b] x' y'; try done. by intros [= <-] [= <-].
Qed.

(** After a wildcard come no literals, and after a rest nothing but rests. *)
Lemma step_lit_nil seg n : (∀ y, y ∈ n → match y.1.1 with Lit _ :: _ => False | _ => True end) → step_lit seg n = [].
Proof.
  induction n as [|[[[|[s|?] p] rp] a] n IH]; intros Hn; [done|..].
  2: by specialize (Hn _ (list_elem_of_here _ _)).
  all: cbn; apply IH; intros y Hy; apply Hn; by apply list_elem_of_further.
Qed.

Lemma step_wild_nil n : (∀ y, y ∈ n → match y.1.1 with Wild _ :: _ => False | _ => True end) → step_wild n = [].
Proof.
  induction n as [|[[[|[s|?] p] rp] a] n IH]; intros Hn; [done|..].
  3: by specialize (Hn _ (list_elem_of_here _ _)).
  all: cbn; apply IH; intros y Hy; apply Hn; by apply list_elem_of_further.
Qed.

Lemma steps_cons seg segs rest a n :
  step_lit seg ((segs, rest, a) :: n) =
    match segs with
    | Lit s :: segs' => if bool_decide (s = seg) then (segs', rest, a) :: step_lit seg n else step_lit seg n
    | _ => step_lit seg n
    end ∧
  step_wild ((segs, rest, a) :: n) =
    match segs with Wild _ :: segs' => (segs', rest, a) :: step_wild n | _ => step_wild n end ∧
  multi ((segs, rest, a) :: n) = match segs, rest with [], Some _ => Some a | _, _ => multi n end.
Proof.
  unfold step_lit, step_wild, multi. cbn. split_and!.
  - destruct segs as [|[s|?] segs]; try done. by case_bool_decide.
  - by destruct segs as [|[s|?] segs].
  - by destruct segs as [|[s|?] segs], rest.
Qed.

Lemma first_fit_step n seg raw path matches :
  ordered n = true →
  first_fit n ((seg, raw) :: path) matches =
  match first_fit (step_lit seg n) path matches with
  | Some m => Some m
  | None =>
      match (if bool_decide (seg = [slash]) then None else first_fit (step_wild n) path (matches ++ [seg])) with
      | Some m => Some m
      | None => (λ a, (a, matches ++ [pathUnescape (tail raw)])) <$> multi n
      end
  end.
Proof.
  induction n as [|[[segs rest] a] n IH]; [by case_bool_decide|]. intros [Hx Hn]%ordered_cons.
  specialize (IH Hn). destruct (steps_cons seg segs rest a n) as (-> & -> & ->). cbn [first_fit].
  destruct segs as [|[s|name] segs]; cbn [captures].
  - destruct rest as [r|]; [|exact IH].
    rewrite (step_lit_nil seg n), (step_wild_nil n).
    + by case_bool_decide.
    + intros y Hy. specialize (Hx y Hy). destruct y as [[[|[?|?] ?] ?] ?]; done.
    + intros y Hy. specialize (Hx y Hy). destruct y as [[[|[?|?] ?] ?] ?]; done.
  - destruct (bool_decide (s = seg)); [|exact IH]. cbn [first_fit].
    destruct (captures segs rest path); [done|exact IH].
  - cbn [first_fit]. case_bool_decide; [exact IH|].
    destruct (captures segs rest path) as [ms|] eqn:Hms; [|exact IH]. cbn.
    rewrite (step_lit_nil seg n); [cbn; by rewrite <- app_assoc|].
    intros y Hy. specialize (Hx y Hy). destruct y as [[[|[?|?] ?] ?] ?]; done.
Qed.

Lemma first_fit_leaf n matches : first_fit n [] matches = (λ a, (a, matches)) <$> leaf n.
Proof.
  unfold leaf. induction n as [|[[[|s segs] [r|]] a] n IH]; cbn; rewrite ?app_nil_r; try done.
  all: by destruct s.
Qed.

Lemma matchPath_first_fit n path matches :
  ordered n = true → matchPath n path matches = first_fit n path matches.
Proof.
  revert n matches. induction path as [|[seg raw] path IH]; intros n matches Hn; [by rewrite first_fit_leaf|].
  rewrite first_fit_step by done. cbn [matchPath].
  by rewrite !IH by first [apply ordered_step_lit; exact Hn | apply ordered_step_wild; exact Hn].
Qed.

Lemma ordered_tree method (routes : list (pattern * A)) :
  ordered ((λ '(p, a), (p_segs p, p_rest p, a)) <$> routes) = true → ordered (tree method routes) = true.
Proof.
  induction routes as [|[p a] routes IH]; [done|]. rewrite fmap_cons. intros [Hx Hn]%ordered_cons.
  unfold tree. cbn. case_bool_decide; [|by apply IH]. apply ordered_cons. split; [|by apply IH].
  intros y ([q b] & Hq & Hy)%list_elem_of_omap. apply Hx, list_elem_of_fmap. exists (q, b).
  case_bool_decide; [|done]. by injection Hy as <-.
Qed.
End first_fit.

(** The names of the wildcards of a pattern, in order. *)
Definition names (p : pattern) : list string :=
  omap (λ s, match s with Wild name => Some name | Lit _ => None end) (p_segs p) ++
  option_list (p_rest p).

Definition with_PathValue (bindings : list (string * bytes)) (r : Request) : Request := {|
  r_Method := r_Method r; r_Path := r_Path r;
  r_PathValue name := str (default [] (snd <$> find (λ b, bool_decide (b.1 = name)) bindings));
  r_Query := r_Query r; r_Header := r_Header r; r_Cookies := r_Cookies r; r_Body := r_Body r;
  r_RemoteAddr := r_RemoteAddr r; r_ProtoAtLeast11 := r_ProtoAtLeast11 r; r_userID := r_userID r |}.

Definition StatusMovedPermanently : Z := 301.
Definition StatusMethodNotAllowed : Z := 405.

(** The URL of a redirect to a clean path, which keeps the query. *)
Class RedirectURL := url_of : bytes → Request → string.

Section serve.
Context {S : Type} `{RedirectURL} (routes : list (pattern * Handler S)).

(** The routes with their patterns, so that a match names its wildcards. *)
Definition table : list (pattern * (pattern * Handler S)) := (λ '(p, h), (p, (p, h))) <$> routes.

(** The methods that would match, in order. *)
Definition matchingMethods (path : bytes) : list string :=
  filter (λ m, is_Some (match_method table m path))
    ["CONNECT"; "DELETE"; "GET"; "HEAD"; "OPTIONS"; "PATCH"; "POST"; "PUT"; "TRACE"]%string.

(** The [RequestURI] of a request is [*] when its path is. *)
Definition ServeHTTP : Handler S := λ w r,
  if bool_decide (r_Path r = "*"%string) then
    let w := if r_ProtoAtLeast11 r then Header_Set "Connection" "close" w else w in
    mret (WriteHeader StatusBadRequest w)
  else
  let escaped := unstr (r_Path r) in
  let path := if bool_decide (r_Method r = "CONNECT"%string) then escaped else cleanPath escaped in
  if negb (bool_decide (path = escaped)) then
    mret (http_Redirect w r (url_of path r) StatusMovedPermanently)
  else match match_method table (r_Method r) path with
  | Some ((p, h), matches) => h w (with_PathValue (zip (names p) matches) r)
  | None =>
      match matchingMethods path with
      | [] => mret (http_Error w "404 page not found" StatusNotFound)
      | allowed =>
          let w := Header_Set "Allow" (str (join (unstr ", ") (unstr <$> allowed))) w in
          mret (http_Error w "Method Not Allowed" StatusMethodNotAllowed)
      end
  end.
End serve.
End mux.
