(* ===== verification/RateLimit.v ===== *)
(** Rate limiting: [internal/ratelimit/], the middlewares, the limiter and its
    token bucket, [rate_limit.lua].

    Floating-point numbers are a class: the operations the code uses, with laws
    that hold of doubles as well as of exact numbers.  Redis runs the script
    atomically; the script itself is a function of the bucket's hash. *)

From S2P Require Import Prelude.
From S2P Require Import Bytes.
From S2P Require Import Platform.
From S2P Require Import World.
From S2P Require Import Http.
From S2P Require Import GoStrings.
From Stdlib Require Import QArith Qround Qcanon.
#[local] Open Scope Z_scope.

(** ** Numbers *)

(** [format6] is the verb [%.6f] and [format3] is [%.3f]; [tonumber] reads them
    back.  [n_le] is the comparison, [n_floor] and [n_ceil] give integers. *)
Class Number := {
  num : Type;
  of_Z : Z → num;
  n_add : num → num → num;
  n_sub : num → num → num;
  n_mul : num → num → num;
  n_div : num → num → num;
  n_le : num → num → bool;
  n_floor : num → Z;
  n_ceil : num → Z;
  format6 : num → string;
  format3 : num → string;
  tonumber : string → num;
}.

(** Integers of this size are exact in a double. *)
Definition exact (n : Z) : Prop := 0 ≤ n ≤ 2 ^ 53.

Class NumberLaws `{Number} : Prop := {
  n_le_refl x : n_le x x = true;
  n_le_exact a b : exact a → exact b → n_le (of_Z a) (of_Z b) = (a <=? b);
  n_sub_self x : n_sub x x = of_Z 0;
  n_sub_exact a b : exact a → exact b → b ≤ a → n_sub (of_Z a) (of_Z b) = of_Z (a - b);
  n_mul_0 x : n_mul (of_Z 0) x = of_Z 0;
  n_add_0 x : n_add x (of_Z 0) = x;
  n_floor_exact a : exact a → n_floor (of_Z a) = a;
}.

Module ratelimit.
Import http.

(** ** rate_limit.lua *)

Section script.
Context `{Number}.

Definition math_max (a b : num) : num := if n_le b a then a else b.
Definition math_min (a b : num) : num := if n_le a b then a else b.

(** The hash under the key. *)
Record bucket := { b_tokens : num; b_last : num }.

(** [allowed], the tokens left, and the seconds to wait, as text. *)
Record reply := { re_allowed : Z; re_remaining : Z; re_retry_after : string }.

(** [rate == 0] *)
Definition is_zero (x : num) : bool := n_le x (of_Z 0) && n_le (of_Z 0) x.

(** The reply to [EXPIRE] with infinity, which aborts the script; what it did before stays. *)
Definition err_expire : error := errors_New "redis" "ERR value is not an integer or out of range".

(** The arguments after [tonumber]; the hash may be absent.  The result is the reply, the
    new hash and its time to live in seconds.  A division by a rate of zero is infinite
    or not a number, so that the script fails at [EXPIRE], with the hash written to stay
    for ever.  (Times that leave 64 bits fail there too; a rate in the text [%.6f] makes
    none for a burst below ten to the twelfth.) *)
Definition rate_limit (data : option bucket) (rate : num) (burst : num) (now : num) :
    result reply * bucket * option Z :=
  let '(tokens, last) := match data with
    | Some b => (b_tokens b, b_last b)
    | None => (burst, now)
    end in
  let elapsed := math_max (of_Z 0) (n_sub now last) in
  let tokens := math_min burst (n_add tokens (n_mul elapsed rate)) in
  let '(tokens, allowed, retry_after) :=
    if n_le (of_Z 1) tokens then (n_sub tokens (of_Z 1), 1, of_Z 0)
    else (tokens, 0, n_div (n_sub (of_Z 1) tokens) rate) in
  let hash := {| b_tokens := tokens; b_last := now |} in
  if is_zero rate then (Err err_expire, hash, None)
  else
    let ttl := n_ceil (n_div burst rate) + 1 in
    (Ok {| re_allowed := allowed; re_remaining := n_floor tokens; re_retry_after := format3 retry_after |},
     hash, Some ttl).

(** The script on its arguments. *)
Definition script (data : option bucket) (ARGV1 : string) (ARGV2 : Z) (ARGV3 : string) :
    result reply * bucket * option Z :=
  rate_limit data (tonumber ARGV1) (of_Z ARGV2) (tonumber ARGV3).

(** Whether the reply allows the request; nothing where the script fails. *)
Definition answer (r : result reply) : option Z := match r with Ok r => Some (re_allowed r) | Err _ => None end.

(** Requests one after the other, by the times they are made at; the answers in
    order. *)
Fixpoint run_script (data : option bucket) (rate burst : num) (times : list num) :
    list (option Z) * option bucket :=
  match times with
  | [] => ([], data)
  | now :: times' =>
      let '(r, b, _) := rate_limit data rate burst now in
      let '(rs, data') := run_script (Some b) rate burst times' in
      (answer r :: rs, data')
  end.
End script.

(** ** limiter.go *)

(** [l.script.Run]: the key and the three arguments, as text. *)
Class ScriptRunner (S : Type) := script_Run : string → string → Z → string → M S reply.

(** [time.Duration(f * float64(time.Second))] and [strconv.ParseFloat], whose
    error the code ignores; [now] is [float64(time.Now().UnixNano()) / 1e9]. *)
Class FloatTime `{Number} := {
  strconv_ParseFloat : string → num;
  to_Duration : num → Z;
}.

Section limiter.
Context {S : Type} `{FloatTime} `{Clock S} `{ScriptRunner S}.

Definition UnixNano_seconds (t : Z) : num := n_div (of_Z t) (of_Z 1000000000).

Definition Allow (key : string) (rate : num) (burst : Z) : M S (bool * Z * Z) :=
  t ← time_Now;
  let now := UnixNano_seconds t in
  res ← mwrap "ratelimit script: " (script_Run key (format6 rate) burst (format6 now));
  let allowed := re_allowed res =? 1 in
  let remaining := re_remaining res in
  let retryAfter := strconv_ParseFloat (re_retry_after res) in
  mret (allowed, remaining, to_Duration (n_mul retryAfter (of_Z Second))).
End limiter.

(** ** middleware.go *)

(** [AllowFunc]: allowed, remaining, and the time to wait. *)
Definition AllowFunc `{Number} (S : Type) : Type := string → num → Z → M S (bool * Z * Z).

(** [int(math.Ceil(retryAfter.Seconds()))], a float computation of the standard
    library, and [strconv.Itoa] and [net.SplitHostPort]. *)
Class NetText := {
  ceil_Seconds : Z → Z;
  strconv_Itoa : Z → string;
  net_SplitHostPort : string → result (string * string);
}.

Section middleware.
Context {S : Type} `{Number} `{NetText}.

Definition writeRateLimitHeaders (limit remaining : Z) (w : ResponseWriter) : ResponseWriter :=
  let w := Header_Set "X-RateLimit-Limit" (strconv_Itoa limit) w in
  Header_Set "X-RateLimit-Remaining" (strconv_Itoa remaining) w.

Definition writeLimited (retryAfter : Z) (w : ResponseWriter) : ResponseWriter :=
  let secs := ceil_Seconds retryAfter in
  let secs := if secs <? 1 then 1 else secs in
  let w := Header_Set "Retry-After" (strconv_Itoa secs) w in
  let w := Header_Set "Content-Type" "application/json" w in
  let w := WriteHeader StatusTooManyRequests w in
  Write (JsonLine (error_body "rate limit exceeded")) w.

(** [strings.IndexByte(s, c)] *)
Fixpoint IndexByte (c : byte) (s : bytes) : Z :=
  match s with
  | [] => -1
  | b :: s' =>
      if bool_decide (b = c) then 0
      else let i := IndexByte c s' in if i <? 0 then -1 else i + 1
  end.

Definition clientIP (r : Request) : string :=
  let xff := r_Header r "X-Forwarded-For" in
  if negb (is_empty xff) then
    let i := IndexByte ","%char (unstr xff) in
    if 0 <? i then TrimSpace (str (take (Z.to_nat i) (unstr xff)))
    else TrimSpace xff
  else match net_SplitHostPort (r_RemoteAddr r) with
       | Err _ => r_RemoteAddr r
       | Ok (host, _) => host
       end.

Definition limited (allow : AllowFunc S) (key : string) (rate : num) (burst : Z) (next : Handler S) :
    Handler S := λ w r,
  res ← attempt (allow key rate burst);
  match res with
  | Err _ => next w r
  | Ok (allowed, remaining, retryAfter) =>
      let w := writeRateLimitHeaders burst remaining w in
      if negb allowed then mret (writeLimited retryAfter w) else next w r
  end.

Definition IPMiddleware (allow : AllowFunc S) (ratePerMin burst : Z) (next : Handler S) : Handler S :=
  let ratePerSec := n_div (of_Z ratePerMin) (of_Z 60) in
  λ w r, limited allow ("rl:ip:" +:+ clientIP r) ratePerSec burst next w r.

Definition UserMiddleware (allow : AllowFunc S) (extract : Request → option string)
    (ratePerMin burst : Z) (next : Handler S) : Handler S :=
  let ratePerSec := n_div (of_Z ratePerMin) (of_Z 60) in
  λ w r,
    match extract r with
    | None => next w r
    | Some uid =>
        if is_empty uid then next w r
        else limited allow ("rl:user:" +:+ uid) ratePerSec burst next w r
    end.
End middleware.

(** ** The token bucket *)

Section bucket_laws.
Context `{NumberLaws}.
Implicit Types (rate now : num).

Lemma n_le_exact_true a b : exact a → exact b → a ≤ b → n_le (of_Z a) (of_Z b) = true.
Proof. intros Ha Hb Hle. rewrite n_le_exact by done. by apply Z.leb_le. Qed.

Lemma exact_0 : exact 0.
Proof. unfold exact. lia. Qed.

(** At the instant of the last request nothing is refilled. *)
Lemma rate_limit_same_instant m n rate now :
  is_zero rate = false → exact n → 0 ≤ m ≤ n →
  ∃ r ttl, rate_limit (Some {| b_tokens := of_Z m; b_last := now |}) rate (of_Z n) now =
    (Ok r, {| b_tokens := of_Z (Z.max 0 (m - 1)); b_last := now |}, Some ttl) ∧
    re_allowed r = (if 1 <=? m then 1 else 0) ∧ re_remaining r = Z.max 0 (m - 1).
Proof.
  intros Hz Hn Hm. unfold rate_limit. rewrite Hz. cbn [b_tokens b_last].
  assert (Hem : exact m) by (unfold exact in *; lia).
  assert (He1 : exact 1) by (unfold exact; lia).
  assert (Htok : math_min (of_Z n) (n_add (of_Z m) (n_mul (math_max (of_Z 0) (n_sub now now)) rate)) = of_Z m).
  { rewrite n_sub_self. unfold math_max. rewrite n_le_refl, n_mul_0, n_add_0. unfold math_min.
    rewrite n_le_exact by done. destruct (Z.leb_spec n m); [|done]. f_equal. lia. }
  rewrite Htok. cbv zeta.
  rewrite n_le_exact by done. destruct (Z.leb_spec 1 m) as [Hle|Hgt].
  - rewrite n_sub_exact by done. rewrite Z.max_r by lia. eexists _, _. split; [done|]. split; [done|].
    cbn. apply n_floor_exact. unfold exact in *. lia.
  - assert (m = 0) as -> by lia. rewrite Z.max_l by lia. eexists _, _. split; [done|]. split; [done|].
    cbn. by apply n_floor_exact.
Qed.

Lemma run_script_same_instant k m n rate now :
  is_zero rate = false → exact n → 0 ≤ m ≤ n →
  (run_script (Some {| b_tokens := of_Z m; b_last := now |}) rate (of_Z n) (replicate k now)).1 =
  replicate (k `min` Z.to_nat m) (Some 1) ++ replicate (k - Z.to_nat m) (Some 0).
Proof.
  intros Hz Hn. revert m. induction k as [|k IH]; intros m Hm; [done|].
  cbn [replicate run_script].
  destruct (rate_limit_same_instant m n rate now Hz Hn Hm) as (r & ttl & -> & Ha & _).
  specialize (IH (Z.max 0 (m - 1)) ltac:(lia)).
  destruct (run_script _ _ _ _) as [rs data]. cbn [fst answer] in *. rewrite Ha, IH.
  destruct (Z.leb_spec 1 m).
  - replace (Z.to_nat m) with (S (Z.to_nat (Z.max 0 (m - 1)))) by lia. done.
  - replace m with 0 by lia. cbn. by rewrite Nat.min_0_r, Nat.sub_0_r.
Qed.

(** From a new or expired bucket, of any number of requests at one instant exactly the
    first burst are allowed and every later one is refused, whatever the rate but zero. *)
Theorem bucket_serves_its_burst k n rate now :
  is_zero rate = false → exact n →
  (run_script None rate (of_Z n) (replicate k now)).1 =
  replicate (k `min` Z.to_nat n) (Some 1) ++ replicate (k - Z.to_nat n) (Some 0).
Proof.
  intros Hz Hn. pose proof (run_script_same_instant k n n rate now Hz Hn) as Hfull.
  destruct k as [|k]; [done|]. cbn [replicate run_script] in *.
  change (rate_limit None rate (of_Z n) now) with
    (rate_limit (Some {| b_tokens := of_Z n; b_last := now |}) rate (of_Z n) now).
  apply Hfull. unfold exact in Hn. lia.
Qed.
End bucket_laws.

(** ** The key of a client *)

Lemma IndexByte_absent c s : c ∉ s → IndexByte c s = -1.
Proof.
  induction s as [|b s IH]; [done|]. intros [Hb Hs]%not_elem_of_cons. cbn.
  rewrite bool_decide_false by congruence. by rewrite IH.
Qed.

Section keys.
Context {S : Type} `{Number} `{NetText}.

(** The request with another forwarded address. *)
Definition forwarded (ip : string) (r : Request) : Request := {|
  r_Method := r_Method r; r_Path := r_Path r; r_PathValue := r_PathValue r;
  r_Query := r_Query r;
  r_Header k := if bool_decide (k = "X-Forwarded-For"%string) then ip else r_Header r k;
  r_Cookies := r_Cookies r; r_Body := r_Body r; r_RemoteAddr := r_RemoteAddr r; r_ProtoAtLeast11 := r_ProtoAtLeast11 r;
  r_userID := r_userID r |}.

Lemma clientIP_forwarded ip r :
  ip ≠ EmptyString → TrimSpace ip = ip → ","%char ∉ unstr ip → clientIP (forwarded ip r) = ip.
Proof.
  intros Hne Ht Hc. unfold clientIP, is_empty. cbn.
  rewrite bool_decide_false by done. cbn. rewrite IndexByte_absent by done. done.
Qed.

(** A client picks the bucket it is counted in: with an X-Forwarded-For header of its
    choice the limiter is asked about that text, whatever the address of the connection,
    so a request passes whenever the limiter allows, or cannot be asked about, any key
    the client can name. *)
Theorem client_chooses_its_bucket (allow : AllowFunc S) ratePerMin burst next ip w r s :
  ip ≠ EmptyString → TrimSpace ip = ip → ","%char ∉ unstr ip →
  IPMiddleware allow ratePerMin burst next w (forwarded ip r) s =
  match allow ("rl:ip:" +:+ ip) (n_div (of_Z ratePerMin) (of_Z 60)) burst s with
  | (Err _, s1) => next w (forwarded ip r) s1
  | (Ok (true, remaining, _), s1) => next (writeRateLimitHeaders burst remaining w) (forwarded ip r) s1
  | (Ok (false, remaining, d), s1) =>
      (Ok (writeLimited d (writeRateLimitHeaders burst remaining w)), s1)
  end.
Proof.
  intros Hne Ht Hc. unfold IPMiddleware, limited. rewrite clientIP_forwarded by done.
  unfold mbind, M_bind, attempt. destruct (allow _ _ _ s) as [[[[[] n] d]|e] s1]; done.
Qed.
End keys.

(** ** Exact numbers *)

Module Demo.

Definition q_text (q : Q) : string := str (if Qle_bool 1 q then [byte_of 1] else []).

(** Rationals; their texts are enough for zero. *)
#[export] Instance exact_numbers : Number := {|
  num := Qc;
  of_Z z := Q2Qc (inject_Z z);
  n_add := Qcplus;
  n_sub := Qcminus;
  n_mul := Qcmult;
  n_div := Qcdiv;
  n_le x y := Qle_bool x y;
  n_floor x := Qfloor x;
  n_ceil x := Qceiling x;
  format6 q := q_text q;
  format3 q := q_text q;
  tonumber s := match unstr s with [] => Q2Qc 0 | _ => Q2Qc 1 end;
|}.

Lemma inject_Z_red z : Qred (inject_Z z) = inject_Z z.
Proof. apply Qred_identity. cbn. apply Z.gcd_1_r. Qed.

#[export] Instance exact_numbers_laws : NumberLaws.
Proof.
  split; cbn [num of_Z n_le n_sub n_mul n_add n_floor exact_numbers].
  - intros x. apply Qle_bool_iff, Qle_refl.
  - intros a b _ _. cbn. rewrite !inject_Z_red. unfold Qle_bool. cbn. by rewrite !Z.mul_1_r.
  - intros x. apply Qc_is_canon. unfold Qcminus. rewrite Qcplus_opp_r. reflexivity.
  - intros a b _ _ _. apply Qc_is_canon. cbn. rewrite !Qred_correct. unfold Qeq. cbn. lia.
  - intros x. apply Qcmult_0_l.
  - intros x. apply Qcplus_0_r.
  - intros a _. cbn. rewrite inject_Z_red. apply Qfloor_Z.
Qed.

Definition slow : num := Qcdiv (Q2Qc 1) (Q2Qc 2).

Lemma bucket_serves_its_burst_witness :
  (run_script None slow (of_Z 2) (replicate 3 (of_Z 7))).1 = [Some 1; Some 1; Some 0].
Proof. apply (bucket_serves_its_burst 3 2 slow (of_Z 7)); [reflexivity|]. unfold exact. lia. Defined.

#[export] Instance demo_text : NetText := {|
  ceil_Seconds d := (d + Second - 1) / Second;
  strconv_Itoa n := str (replicate (Z.to_nat n) "1"%char);
  net_SplitHostPort _ := Ok ("192.0.2.1", "1")%string;
|}.

(** A limiter that has had enough of one address. *)
Definition blocks_one : AllowFunc unit := λ key _ _,
  mret (negb (bool_decide (key = "rl:ip:192.0.2.1"%string)), 0, Second).

Definition request : Request := {|
  r_Method := "GET"; r_Path := "/"; r_PathValue _ := EmptyString; r_Query _ := EmptyString;
  r_Header _ := EmptyString; r_Cookies := []; r_Body := []; r_RemoteAddr := "192.0.2.1:1"; r_ProtoAtLeast11 := true;
  r_userID := None |}.

Definition next : Handler unit := λ w _, mret (WriteHeader StatusOK w).

Lemma client_chooses_its_bucket_witness :
  (∃ resp, (IPMiddleware blocks_one 60 1 next NewResponseWriter request tt).1 = Ok resp ∧
     status resp = Some StatusTooManyRequests) ∧
  ∃ resp, (IPMiddleware blocks_one 60 1 next NewResponseWriter (forwarded "192.0.2.2" request) tt).1 =
     Ok resp ∧ status resp = Some StatusOK.
Proof.
  split; [eexists; split; reflexivity|].
  rewrite (client_chooses_its_bucket blocks_one 60 1 next "192.0.2.2"); [|done|reflexivity|].
  - eexists. split; reflexivity.
  - vm_compute. intros Hin. repeat (apply elem_of_cons in Hin as [Hc|Hin]; [discriminate Hc|]).
    by apply elem_of_nil in Hin.
Defined.
End Demo.
End ratelimit.
