(* ===== verification/RateBound.v ===== *)
(** How much a rate limit lets through over time: [internal/ratelimit/rate_limit.lua]
    in exact arithmetic, with the time to live that Redis gives the bucket. *)

From Stdlib Require Import QArith Qround Qcanon Lqa Sorting.Sorted.
From S2P Require Import Prelude.
From S2P Require Import RateLimit.
#[local] Open Scope Z_scope.

Module ratebound.
Import ratelimit.

(** ** Exact arithmetic *)

(** The operations give what they give on rationals; doubles round. *)
Class ExactNumber `{Number} := {
  val : num → Q;
  val_Z z : (val (of_Z z) == inject_Z z)%Q;
  val_add x y : (val (n_add x y) == val x + val y)%Q;
  val_sub x y : (val (n_sub x y) == val x - val y)%Q;
  val_mul x y : (val (n_mul x y) == val x * val y)%Q;
  val_div x y : (val (n_div x y) == val x / val y)%Q;
  val_le x y : n_le x y = Qle_bool (val x) (val y);
  val_ceil x : n_ceil x = Qceiling (val x);
}.

Section exact.
Context `{ExactNumber}.
Implicit Types (rate burst now : num) (b : bucket) (times : list num) (n : Z).

(** Minima and maxima by cases, and everything in rationals. *)
Ltac by_value :=
  repeat match goal with
  | |- context [n_le ?x ?y] =>
      let Hle := fresh "Hle" in destruct (n_le x y) eqn:Hle; rewrite val_le in Hle;
      [apply Qle_bool_iff in Hle|apply not_true_iff_false in Hle; rewrite Qle_bool_iff in Hle]
  end;
  rewrite ?val_Z, ?val_add, ?val_sub, ?val_mul, ?val_div in *.

(** The seconds that a request finds passed. *)
Definition elapsed (last now : num) : Q := val (math_max (of_Z 0) (n_sub now last)).

Lemma elapsed_spec last now : (0 <= elapsed last now)%Q ∧ (val now - val last <= elapsed last now)%Q ∧
  ((val last <= val now)%Q → (elapsed last now == val now - val last)%Q).
Proof. unfold elapsed, math_max. by_value; unfold inject_Z in *; repeat split; intros; lra. Qed.

(** What a request takes is what was there and came in since. *)
Lemma rate_limit_spends b rate n now r b' ttl :
  (0 <= val rate)%Q → (0 <= val (b_tokens b))%Q → 0 ≤ n →
  rate_limit (Some b) rate (of_Z n) now = (r, b', ttl) →
  (0 <= val (b_tokens b'))%Q ∧ b_last b' = now ∧
  (inject_Z (default 0%Z (answer r)) + val (b_tokens b') <= val (b_tokens b) + val rate * elapsed (b_last b) now)%Q.
Proof.
  intros Hrate Htok Hn. unfold rate_limit. cbv zeta.
  pose proof (elapsed_spec (b_last b) now) as (He & _ & _).
  assert (Hin : (0 <= val rate * elapsed (b_last b) now)%Q) by (by apply Qmult_le_0_compat).
  unfold elapsed in *. set (e := math_max _ _) in *. set (t := math_min _ _).
  assert (Ht : (0 <= val t)%Q ∧ (val t <= val (b_tokens b) + val rate * val e)%Q).
  { unfold t, math_min. assert (0 <= inject_Z n)%Q by (unfold Qle; cbn; lia). by_value; split; lra. }
  clearbody t. destruct Ht as [Ht0 Ht]. destruct (n_le (of_Z 1) t) eqn:Hle; destruct (is_zero rate); intros [= <- <- _]; cbn.
  1,2: rewrite val_le in Hle; apply Qle_bool_iff in Hle; rewrite val_Z in Hle;
    rewrite val_sub, val_Z; unfold inject_Z in *; split; [lra|]; split; [done|lra].
  all: unfold inject_Z; split; [lra|]; split; [done|lra].
Qed.

(** An absent bucket is a full one. *)
Lemma rate_limit_new rate burst now :
  rate_limit None rate burst now = rate_limit (Some {| b_tokens := burst; b_last := now |}) rate burst now.
Proof. done. Qed.

(** ** Traffic *)

Definition allowed (answers : list (option Z)) : Z := foldr (λ a n, default 0 a + n) 0 answers.

(** The seconds that pass from request to request, in the order of their runs. *)
Fixpoint passed (last : num) (times : list num) : Q :=
  match times with
  | [] => 0%Q
  | now :: times' => (elapsed last now + passed now times')%Q
  end.

Lemma run_script_spends b rate n times :
  (0 <= val rate)%Q → (0 <= val (b_tokens b))%Q → 0 ≤ n →
  (inject_Z (allowed (run_script (Some b) rate (of_Z n) times).1) <=
   val (b_tokens b) + val rate * passed (b_last b) times)%Q.
Proof.
  intros Hrate Htok Hn. revert b Htok. induction times as [|now times IH]; intros b Htok; cbn [run_script passed].
  { cbn. unfold inject_Z. lra. }
  destruct (rate_limit _ _ _ _) as [[r b'] ttl] eqn:Hr.
  apply rate_limit_spends in Hr as (Htok' & Hlast & Hspend); [|done..].
  specialize (IH b' Htok'). destruct (run_script (Some b') _ _ _) as [rs data]. cbn [fst allowed foldr] in *. rewrite inject_Z_plus. rewrite Hlast in IH. lra.
Qed.

Lemma passed_in_order (t0 : num) times :
  Sorted (λ t t', n_le t t' = true) (t0 :: times) →
  (passed t0 times == val (List.last times t0) - val t0)%Q.
Proof.
  revert t0. induction times as [|now times IH]; intros t0 Hs; [cbn; lra|].
  apply Sorted_inv in Hs as [Hs Hle%HdRel_inv]. rewrite val_le, Qle_bool_iff in Hle.
  cbn [passed]. rewrite (IH _ Hs). destruct (elapsed_spec t0 now) as (_ & _ & ->); [|done].
  assert (List.last (now :: times) t0 = List.last times now) as ->; [|lra].
  clear. revert now. by induction times as [|t [|] IH].
Qed.

Lemma new_bucket_spends rate n (t0 : num) times :
  (0 <= val rate)%Q → 0 ≤ n →
  (inject_Z (allowed (run_script None rate (of_Z n) (t0 :: times)).1) <=
   inject_Z n + val rate * passed t0 times)%Q.
Proof.
  intros Hrate Hn.
  pose proof (run_script_spends {| b_tokens := of_Z n; b_last := t0 |} rate n (t0 :: times) Hrate) as Hs.
  cbn [b_tokens b_last passed] in Hs. destruct (elapsed_spec t0 t0) as (_ & _ & He).
  rewrite He, val_Z in Hs by apply Qle_refl. assert (Hz : (val t0 - val t0 == 0)%Q) by ring.
  rewrite Hz, Qplus_0_l in Hs. apply Hs; [unfold Qle; cbn; lia|done].
Qed.

(** C29: In exact arithmetic, of requests counted in one new bucket at most the burst
    and the rate times the seconds that passed from run to run are allowed, in whatever
    order of their times they run; in the order of their times, the seconds that passed
    are those from the first to the last. *)
Theorem bucket_bounds_traffic rate n (t0 : num) times :
  (0 <= val rate)%Q → 0 ≤ n →
  (inject_Z (allowed (run_script None rate (of_Z n) (t0 :: times)).1) <=
   inject_Z n + val rate * passed t0 times)%Q ∧
  (Sorted (λ t t', n_le t t' = true) (t0 :: times) →
   (passed t0 times == val (List.last times t0) - val t0)%Q).
Proof. intros Hrate Hn. split; [by apply new_bucket_spends|apply passed_in_order]. Qed.

(** ** The time to live *)

(** A hash with the time it is dropped at, if it is, and what is there of it later. *)
Definition live (now : num) (h : option (bucket * option num)) : option bucket :=
  match h with
  | Some (b, Some dies) => if n_le dies now then None else Some b
  | Some (b, None) => Some b
  | None => None
  end.

Definition dies_at (now : num) (ttl : option Z) : option num := (λ t, n_add now (of_Z t)) <$> ttl.

(** Requests one after the other, where Redis drops the bucket when its time to live
    has passed, by the clock of the requests. *)
Fixpoint run_expiring (data : option (bucket * option num)) (rate burst : num) (times : list num) : list (option Z) :=
  match times with
  | [] => []
  | now :: times' =>
      let '(r, b, ttl) := rate_limit (live now data) rate burst now in
      answer r :: run_expiring (Some (b, dies_at now ttl)) rate burst times'
  end.

Lemma math_min_full burst x : (val burst <= val x)%Q → math_min burst x = burst.
Proof. intros Hle. unfold math_min. rewrite val_le, (proj2 (Qle_bool_iff _ _) Hle). done. Qed.

Lemma positive_not_zero rate : (0 < val rate)%Q → is_zero rate = false.
Proof.
  intros Hrate. unfold is_zero. rewrite !val_le, !val_Z. apply andb_false_iff. left. apply not_true_iff_false.
  rewrite Qle_bool_iff. unfold inject_Z. lra.
Qed.

Lemma rate_limit_ttl data rate burst now r b ttl :
  (0 < val rate)%Q → rate_limit data rate burst now = (r, b, ttl) → ttl = Some (n_ceil (n_div burst rate) + 1).
Proof.
  intros Hz%positive_not_zero. unfold rate_limit. rewrite Hz. cbv zeta.
  destruct (match data with Some _ => _ | None => _ end) as [tokens last].
  by destruct (n_le (of_Z 1) _); intros [= _ _ <-].
Qed.

(** A bucket whose time to live has passed would be full again. *)
Lemma expired_is_full b rate burst now :
  (0 < val rate)%Q → (0 <= val (b_tokens b))%Q →
  (val (b_last b) + (inject_Z (n_ceil (n_div burst rate) + 1)) <= val now)%Q →
  rate_limit (Some b) rate burst now = rate_limit None rate burst now.
Proof.
  intros Hrate Htok Hdead. rewrite rate_limit_new. unfold rate_limit. cbn [b_tokens b_last].
  assert (Hlast : ∀ x, math_min burst (n_add burst (n_mul (math_max (of_Z 0) (n_sub x x)) rate)) = burst).
  { intros x. apply math_min_full. rewrite val_add, val_mul.
    destruct (elapsed_spec x x) as (_ & _ & He). unfold elapsed in He. rewrite He by apply Qle_refl. lra. }
  rewrite Hlast. assert (Hfull : math_min burst
    (n_add (b_tokens b) (n_mul (math_max (of_Z 0) (n_sub now (b_last b))) rate)) = burst); [|by rewrite Hfull].
  apply math_min_full. rewrite val_add, val_mul. destruct (elapsed_spec (b_last b) now) as (_ & He & _).
  unfold elapsed in He. rewrite val_ceil, inject_Z_plus in Hdead.
  assert (Hc : (val burst / val rate <= inject_Z (Qceiling (val (n_div burst rate))))%Q).
  { rewrite <- val_div. apply Qle_ceiling. }
  assert (Hq : (val burst / val rate <= val (math_max (of_Z 0) (n_sub now (b_last b))))%Q).
  { change (inject_Z 1) with 1%Q in Hdead. lra. }
  apply (Qmult_le_r _ _ (val rate)) in Hq; [|done].
  assert (Hd : (val burst / val rate * val rate == val burst)%Q) by (field; lra). rewrite Hd in Hq. lra.
Qed.

Lemma expiring_same b dies rate n times :
  (0 < val rate)%Q → (0 <= val (b_tokens b))%Q → 0 ≤ n →
  (val dies == val (b_last b) + inject_Z (n_ceil (n_div (of_Z n) rate) + 1))%Q →
  run_expiring (Some (b, Some dies)) rate (of_Z n) times = (run_script (Some b) rate (of_Z n) times).1.
Proof.
  intros Hrate Htok Hn. revert b dies Htok. induction times as [|now times IH]; intros b dies Htok Hdies; [done|].
  cbn [run_expiring run_script].
  assert (rate_limit (live now (Some (b, Some dies))) rate (of_Z n) now =
    rate_limit (Some b) rate (of_Z n) now) as ->.
  { unfold live. destruct (n_le dies now) eqn:Hle; [|done]. rewrite val_le, Qle_bool_iff, Hdies in Hle.
    symmetry. by apply expired_is_full. }
  destruct (rate_limit _ _ _ _) as [[r b'] ttl] eqn:Hr.
  pose proof (rate_limit_spends _ _ _ _ _ _ _ (Qlt_le_weak _ _ Hrate) Htok Hn Hr) as (Htok' & Hlast & _).
  apply rate_limit_ttl in Hr as ->; [|done].
  change (dies_at now (Some ?t)) with (Some (n_add now (of_Z t))).
  rewrite (IH b'); [by destruct (run_script (Some b') _ _ _)|done|]. by rewrite Hlast, val_add, val_Z.
Qed.

(** In exact arithmetic, the time to live of the bucket changes no answer: requests get
    the same whether Redis drops a bucket that nobody used for that time or keeps it for
    ever. *)
Theorem expiry_changes_no_answer rate n times :
  (0 < val rate)%Q → 0 ≤ n →
  run_expiring None rate (of_Z n) times = (run_script None rate (of_Z n) times).1.
Proof.
  intros Hrate Hn. destruct times as [|now times]; [done|]. cbn [run_expiring run_script live].
  destruct (rate_limit None _ _ _) as [[r b'] ttl] eqn:Hr. rewrite rate_limit_new in Hr.
  pose proof Hr as (Htok' & Hlast & _)%rate_limit_spends;
    [|by apply Qlt_le_weak|cbn; rewrite val_Z; unfold Qle; cbn; lia|done].
  apply rate_limit_ttl in Hr as ->; [|done].
  change (dies_at now (Some ?t)) with (Some (n_add now (of_Z t))).
  rewrite expiring_same; [by destruct (run_script (Some b') _ _ _)|done..|]. by rewrite Hlast, val_add, val_Z.
Qed.
End exact.

(** ** One request a second *)

Module Demo.
Import ratelimit.Demo.

#[export] Instance exact_rationals : @ExactNumber exact_numbers.
Proof.
  refine (@Build_ExactNumber exact_numbers this _ _ _ _ _ _ _).
  - intros z. apply Qred_correct.
  - intros x y. apply Qred_correct.
  - intros x y. unfold n_sub, exact_numbers. cbn. rewrite !Qred_correct. reflexivity.
  - intros x y. apply Qred_correct.
  - intros x y. unfold n_div, exact_numbers. cbn. rewrite !Qred_correct. reflexivity.
  - done.
  - done.
Defined.

Definition seconds (l : list Z) : list num := of_Z <$> l.

Lemma bucket_bounds_traffic_witness :
  (inject_Z (allowed (run_script None (of_Z 1) (of_Z 2) (seconds [0; 0; 0; 3; 3; 3]%Z)).1) <= inject_Z 2 + 3)%Q.
Proof.
  destruct (bucket_bounds_traffic (of_Z 1) 2 (of_Z 0) (seconds [0; 0; 3; 3; 3]%Z)) as [Hb _];
    [vm_compute; discriminate|lia|].
  apply (Qle_trans _ _ _ Hb). vm_compute. discriminate.
Defined.

Lemma expiry_changes_no_answer_witness :
  run_expiring None (of_Z 1) (of_Z 2) (seconds [0; 0; 0; 100; 100; 100]%Z) = Some <$> [1; 1; 0; 1; 1; 0].
Proof.
  rewrite (expiry_changes_no_answer (of_Z 1) 2); [vm_compute; reflexivity|vm_compute; reflexivity|lia].
Defined.

(** Runs that come out of the order of their times move [last] back, so that the second
    from 0 to 1 fills the bucket three times. *)
Lemma out_of_order :
  allowed (run_script None (of_Z 1) (of_Z 1) (seconds [0; 1; 0; 1; 0; 1]%Z)).1 = 4.
Proof. vm_compute. reflexivity. Qed.
End Demo.
End ratebound.
