(* ===== verification/Limits.v ===== *)
(** The rate limit as a whole: [IPMiddleware] of [internal/ratelimit/middleware.go] over
    the limiter of [limiter.go], over a Redis that runs [rate_limit.lua] on the hash of
    the key, each with its time to live.  In exact arithmetic it lets through what one
    bucket for every client would, kept for ever. *)

From Stdlib Require Import QArith Sorting.Sorted.
From S2P Require Import Prelude.
From S2P Require Import Bytes.
From S2P Require Import Platform.
From S2P Require Import World.
From S2P Require Import Http.
From S2P Require Import GoStrings.
From S2P Require Import RateLimit.
From S2P Require Import RateBound.
#[local] Open Scope Z_scope.

Module limits.
Import http ratelimit ratebound.

Section limits.
Context `{ExactNumber} `{!FloatTime} `{NetText}.

(** ** Redis with the script, a clock, and what was served *)

(** The hash of every key, with the time it is dropped at, if it is; [served]: the requests that
    the handler behind the limit got, the first one first. *)
Record Limited := mkLimited {
  clock : Z;
  hashes : gmap string (bucket * option num);
  served : list Request;
}.

#[export] Instance Limited_Clock : Clock Limited := λ s, (Ok (clock s), s).

(** [script.Run]: the script on the hash of the key, and [EXPIRE] by the time it is given. *)
#[export] Instance Limited_ScriptRunner : ScriptRunner Limited := λ key rate burst now s,
  let '(reply, b, ttl) := script (live (tonumber now) (hashes s !! key)) rate burst now in
  (reply, mkLimited (clock s) (<[key := (b, dies_at (tonumber now) ttl)]> (hashes s)) (served s)).

(** The handler behind the limit. *)
Definition behind : Handler Limited := λ w r s, (Ok w, mkLimited (clock s) (hashes s) (served s ++ [r])).

Context (ratePerMin burst : Z).

(** One request at a time, each at its time. *)
Fixpoint serve_all (visits : list (Z * Request)) (s : Limited) : Limited :=
  match visits with
  | [] => s
  | (t, r) :: visits' =>
      let s := mkLimited t (hashes s) (served s) in
      serve_all visits' (IPMiddleware Allow ratePerMin burst behind NewResponseWriter r s).2
  end.

(** ** One bucket for every client *)

(** The numbers that the script gets. *)
Definition rate : num := tonumber (format6 (n_div (of_Z ratePerMin) (of_Z 60))).
Definition seconds (t : Z) : num := tonumber (format6 (UnixNano_seconds t)).

Definition visits_of (ip : string) (visits : list (Z * Request)) : list (Z * Request) :=
  filter (λ v, clientIP v.2 = ip) visits.

Definition times_of (ip : string) (visits : list (Z * Request)) : list num :=
  (λ v, seconds v.1) <$> visits_of ip visits.

(** The limiter lets through what the script answers with 1, and all when it fails. *)
Definition passes (a : option Z) : bool := match a with Some a => a =? 1 | None => true end.

Fixpoint let_through (answers : list (option Z)) (rs : list Request) : list Request :=
  match answers, rs with
  | a :: answers', r :: rs' => (if passes a then [r] else []) ++ let_through answers' rs'
  | _, _ => []
  end.

(** What the script answers to the client at one visit, and what it leaves. *)
Lemma visit_run t r s :
  ∃ reply b ttl,
    rate_limit (live (seconds t) (hashes s !! ("rl:ip:" +:+ clientIP r)%string)) rate (of_Z burst) (seconds t)
      = (reply, b, ttl) ∧
    (IPMiddleware Allow ratePerMin burst behind NewResponseWriter r (mkLimited t (hashes s) (served s))).2 =
    mkLimited t (<[("rl:ip:" +:+ clientIP r)%string := (b, dies_at (seconds t) ttl)]> (hashes s))
      (served s ++ if passes (answer reply) then [r] else []).
Proof.
  unfold IPMiddleware, limited, Allow. cbv zeta.
  unfold mbind at 1, M_bind at 1, attempt at 1. unfold mbind at 1, M_bind at 1, time_Now, Limited_Clock.
  unfold mbind at 1, M_bind at 1, mwrap at 1, script_Run, Limited_ScriptRunner, script. cbn [clock hashes served].
  fold rate. fold (seconds t).
  destruct (rate_limit _ _ _ _) as [[reply b] ttl]. exists reply, b, ttl. split; [done|].
  destruct reply as [reply|e]; [|done]. cbn [wrap_err answer passes].
  unfold mret, M_ret. destruct (re_allowed reply =? 1); cbn [negb]; [done|]. by rewrite app_nil_r.
Qed.

Lemma app_inj_prefix p s s' : (p +:+ s)%string = (p +:+ s')%string → s = s'.
Proof. induction p as [|c p IH]; [done|]. intros [= Hs]. by apply IH. Qed.

(** Clients do not share their buckets. *)
Lemma serve_all_client ip visits s :
  filter (λ r, clientIP r = ip) (served (serve_all visits s)) =
  filter (λ r, clientIP r = ip) (served s) ++
  let_through (run_expiring (hashes s !! ("rl:ip:" +:+ ip)%string) rate (of_Z burst) (times_of ip visits))
    (snd <$> visits_of ip visits).
Proof.
  revert s. induction visits as [|[t r] visits IH]; intros s; [by rewrite app_nil_r|].
  cbn [serve_all]. destruct (visit_run t r s) as (reply & b & ttl & Hrun & ->). rewrite IH.
  cbn [hashes served]. rewrite filter_app.
  unfold times_of, visits_of in *. rewrite filter_cons. cbn [snd].
  destruct (decide (clientIP r = ip)) as [<-|Hne].
  - rewrite lookup_insert_eq, !fmap_cons. cbn [fst snd run_expiring]. rewrite Hrun.
    cbn [let_through]. rewrite (assoc_L (++)). f_equal. f_equal.
    destruct (passes _); [|done]. rewrite filter_cons_True by done. done.
  - rewrite lookup_insert_ne by (intros Heq; by apply app_inj_prefix in Heq). f_equal.
    destruct (passes _); [|by rewrite app_nil_r]. rewrite filter_cons_False by done. by rewrite app_nil_r.
Qed.

Lemma rate_limit_allowed data rate n now r b ttl :
  is_zero rate = false → rate_limit data rate n now = (r, b, ttl) → answer r = Some 0 ∨ answer r = Some 1.
Proof.
  intros Hz. unfold rate_limit. rewrite Hz. cbv zeta. destruct (match data with Some _ => _ | None => _ end) as [tokens last].
  destruct (n_le (of_Z 1) _); intros [= <- _ _]; cbn; auto.
Qed.

Lemma let_through_allowed rate n data times rs :
  is_zero rate = false →
  Z.of_nat (length (let_through (run_script data rate n times).1 rs)) ≤ allowed (run_script data rate n times).1.
Proof.
  intros Hz. revert data rs. induction times as [|now times IH]; intros data rs; [by destruct rs|].
  cbn [run_script]. destruct (rate_limit _ _ _ _) as [[r b] ttl] eqn:Hr. apply rate_limit_allowed in Hr; [|done].
  specialize (IH (Some b)). destruct (run_script (Some b) _ _ _) as [answers data'] eqn:Hrun. cbn [fst allowed foldr] in *.
  pose proof (IH []) as Hpos. destruct rs as [|r0 rs]; cbn [let_through] in *.
  - assert (let_through answers [] = []) as Hnil by (by destruct answers). rewrite Hnil in Hpos. unfold allowed in *.
    destruct Hr as [-> | ->]; cbn in *; lia.
  - specialize (IH rs). rewrite length_app. unfold allowed in *.
    destruct Hr as [-> | ->]; cbn [passes Z.eqb Pos.eqb length default from_option id]; cbn; lia.
Qed.

(** C30: In exact arithmetic, with Redis up, a positive rate and keys that expire by the
    clock of the requests, the requests of a client that the limit per address lets
    through, among any requests of any clients, are those that one bucket of the client
    alone, kept for ever, would allow: at most the burst and the rate times the seconds
    that passed between its requests. *)
Theorem limiter_is_a_bucket_per_client ip visits now :
  (0 < val rate)%Q → 0 ≤ burst →
  let got := filter (λ r, clientIP r = ip) (served (serve_all visits (mkLimited now ∅ []))) in
  got = let_through (run_script None rate (of_Z burst) (times_of ip visits)).1 (snd <$> visits_of ip visits) ∧
  match times_of ip visits with
  | [] => got = []
  | first :: rest =>
      (inject_Z (Z.of_nat (length got)) <= inject_Z burst + val rate * passed first rest)%Q
  end.
Proof.
  intros Hrate Hburst. cbv zeta. rewrite serve_all_client. cbn [served hashes]. rewrite lookup_empty.
  rewrite expiry_changes_no_answer by done. split; [done|].
  destruct (times_of ip visits) as [|first rest]; [done|].
  eapply Qle_trans; [|apply new_bucket_spends; [by apply Qlt_le_weak|done]].
  rewrite <- Zle_Qle. by apply let_through_allowed, positive_not_zero.
Qed.

End limits.

(** ** Two clients, one request a minute each *)

Module Demo.
Import ratelimit.Demo ratebound.Demo.

#[export] Instance demo_time : FloatTime := {| strconv_ParseFloat _ := of_Z 0; to_Duration _ := 0 |}.

Definition from (ip : string) : Request := forwarded ip request.

(** The first client comes twice, the second once, at one time. *)
Definition visits : list (Z * Request) :=
  [(0, from "192.0.2.7"); (0, from "192.0.2.8"); (0, from "192.0.2.7")]%string.

Lemma limiter_is_a_bucket_per_client_witness :
  filter (λ r, clientIP r = "192.0.2.7"%string) (served (serve_all 60 1 visits (mkLimited 0 ∅ []))) =
  [from "192.0.2.7"].
Proof.
  destruct (limiter_is_a_bucket_per_client 60 1 "192.0.2.7" visits 0) as [Hgot _].
  - vm_compute. reflexivity.
  - lia.
  - rewrite Hgot. reflexivity.
Defined.

End Demo.
End limits.
