(* ===== verification/Tls.v ===== *)
(** [pkg/tls] and [pkg/tls/transport]: where certificates come from, the profiles
    that combine them, and the two configurations of a transport.

    Reading a file, the clock, drawing keys and signing are calls on a state; parsing PEM and
    X.509 are parameters, and so is the manager of autocert.  A pool is the list of
    its certificates in DER. *)

From S2P Require Import Prelude.
#[local] Open Scope Z_scope.

(** ** crypto/tls, crypto/x509 and autocert *)

(** Keys, and what the packages do with them. *)
Class Keys := {
  PrivateKey : Type;
  PublicKey : Type;
  Public : PrivateKey → PublicKey;
}.

(** [tls.Certificate] *)
Record Certificate `{Keys} := { cert_DER : list bytes; cert_PrivateKey : PrivateKey }.

(** [x509.Certificate], as a template and as a parsed certificate. *)
Record x509_Certificate := {
  Raw : bytes;
  SerialNumber : Z;
  CommonName : string;
  NotBefore : Z;
  NotAfter : Z;
  KeyUsage : Z;
  ExtKeyUsage : list Z;
  IsCA : bool;
  BasicConstraintsValid : bool;
  IPAddresses : list bytes;
  DNSNames : list string;
}.

Definition x509_KeyUsageDigitalSignature : Z := 1.
Definition x509_KeyUsageKeyEncipherment : Z := 4.
Definition x509_ExtKeyUsageServerAuth : Z := 1.
Definition x509_ExtKeyUsageClientAuth : Z := 2.

(** [x509.CertPool] *)
Abbreviation CertPool := (list bytes) (only parsing).

Definition x509_NewCertPool : CertPool := [].

(** A certificate is in a pool once. *)
Definition AddRaw (pool : CertPool) (der : bytes) : CertPool :=
  if bool_decide (der ∈ pool) then pool else pool ++ [der].
Definition AddCert (pool : CertPool) (c : x509_Certificate) : CertPool := AddRaw pool (Raw c).

(** [pem_certificates] are the certificates of a PEM text that parse. *)
Class Parsing `{Keys} := {
  tls_X509KeyPair : bytes → bytes → result Certificate;
  pem_certificates : bytes → list bytes;
  x509_ParseCertificate : bytes → result x509_Certificate;
  net_ParseIP : string → option bytes;
}.

(** "It appends any certificates found to s and reports whether any certificates
    were successfully parsed." *)
Definition AppendCertsFromPEM `{Parsing} (pool : CertPool) (pem : bytes) : CertPool * bool :=
  (foldl AddRaw pool (pem_certificates pem), negb (bool_decide (pem_certificates pem = []))).

Class Files (S : Type) := os_ReadFile : string → M S bytes.

Class Signing (S : Type) `{Keys} := {
  signing_Now : M S Z;
  ecdsa_GenerateKey : M S PrivateKey;
  rand_Int : Z → M S Z;
  x509_CreateCertificate : x509_Certificate → x509_Certificate → PublicKey → PrivateKey → M S bytes;
}.

Definition tls_LoadX509KeyPair `{Parsing} {S} `{Files S} (certFile keyFile : string) : M S Certificate :=
  certPEMBlock ← os_ReadFile certFile;
  keyPEMBlock ← os_ReadFile keyFile;
  lift (tls_X509KeyPair certPEMBlock keyPEMBlock).

(** [autocert.Manager]: the fields that are set. *)
Record Manager := { m_Email : string; m_HostWhitelist : list string; m_DirCache : option string }.

Inductive ClientAuthType := NoClientCert | RequireAndVerifyClientCert.

(** [tls.Config]: the fields that are set, here or by autocert. *)
Record tls_Config `{Keys} := {
  Certificates : list Certificate;
  cfg_GetCertificate : option Manager;
  NextProtos : list string;
  cfg_MinVersion : Z;
  ClientAuth : ClientAuthType;
  ClientCAs : option CertPool;
  RootCAs : option CertPool;
}.

(** [Manager.TLSConfig] *)
Class Autocert `{Keys} := autocert_TLSConfig : Manager → tls_Config.

Definition set_MinVersion `{Keys} (v : Z) (c : tls_Config) : tls_Config := {|
  Certificates := Certificates c; cfg_GetCertificate := cfg_GetCertificate c; NextProtos := NextProtos c;
  cfg_MinVersion := v; ClientAuth := ClientAuth c; ClientCAs := ClientCAs c; RootCAs := RootCAs c |}.
Definition set_ClientAuth `{Keys} (auth : ClientAuthType) (pool : option CertPool) (c : tls_Config) : tls_Config := {|
  Certificates := Certificates c; cfg_GetCertificate := cfg_GetCertificate c; NextProtos := NextProtos c;
  cfg_MinVersion := cfg_MinVersion c; ClientAuth := auth; ClientCAs := pool; RootCAs := RootCAs c |}.
Definition set_RootCAs `{Keys} (pool : option CertPool) (c : tls_Config) : tls_Config := {|
  Certificates := Certificates c; cfg_GetCertificate := cfg_GetCertificate c; NextProtos := NextProtos c;
  cfg_MinVersion := cfg_MinVersion c; ClientAuth := ClientAuth c; ClientCAs := ClientCAs c; RootCAs := pool |}.
Definition set_Certificates `{Keys} (certs : list Certificate) (c : tls_Config) : tls_Config := {|
  Certificates := certs; cfg_GetCertificate := cfg_GetCertificate c; NextProtos := NextProtos c;
  cfg_MinVersion := cfg_MinVersion c; ClientAuth := ClientAuth c; ClientCAs := ClientCAs c; RootCAs := RootCAs c |}.

(** [&tls.Config{MinVersion: v}] *)
Definition tls_Config_of `{Keys} (certs : list Certificate) (v : Z) : tls_Config := {|
  Certificates := certs; cfg_GetCertificate := None; NextProtos := [];
  cfg_MinVersion := v; ClientAuth := NoClientCert; ClientCAs := None; RootCAs := None |}.

Module tls.

(** ** errors.go *)

Definition ErrCertNotFound : error := errors_New "tls" "tls: certificate or key file not found".
Definition ErrCertExpired : error := errors_New "tls" "tls: certificate has expired".
Definition ErrCertInvalid : error := errors_New "tls" "tls: certificate is invalid".
Definition ErrACMEChallenge : error := errors_New "tls" "tls: ACME challenge failed".

(** [fmt.Errorf("%w: %v", sentinel, err)] *)
Definition because {A} (sentinel err : error) : result A :=
  Err (fmt_Errorf_w EmptyString sentinel (": " +:+ error_text err)).

Section tls.
Context `{Parsing} `{!Autocert} {S : Type} `{Files S} `{!Signing S}.

(** ** cert_store.go

    A value of the interface: its two methods, and [TLSConfig] for a store that
    has it. *)
Record CertStore := {
  GetCertificate : M S Certificate;
  GetCACertPool : M S (option CertPool);
  TLSConfigProvider : option (M S tls_Config);
}.

(** ** file_store.go *)

Record FileCertStoreConfig := { CertPath : string; KeyPath : string; CAPath : string }.
Record FileCertStore := { certPath : string; keyPath : string; caPath : string }.

Definition NewFileCertStore (cfg : FileCertStoreConfig) : M S FileCertStore :=
  loaded ← attempt (tls_LoadX509KeyPair (CertPath cfg) (KeyPath cfg));
  match loaded with
  | Err err => lift (because ErrCertNotFound err)
  | Ok _ => mret {| certPath := CertPath cfg; keyPath := KeyPath cfg; caPath := CAPath cfg |}
  end.

Definition file_GetCertificate (s : FileCertStore) : M S Certificate :=
  cert ← attempt (tls_LoadX509KeyPair (certPath s) (keyPath s));
  lift (match cert with Err err => because ErrCertInvalid err | Ok cert => Ok cert end).

Definition file_GetCACertPool (s : FileCertStore) : M S (option CertPool) :=
  if bool_decide (caPath s = EmptyString) then mret None
  else
    caPEM ← attempt (os_ReadFile (caPath s));
    lift (match caPEM with
    | Err err => because ErrCertNotFound err
    | Ok caPEM =>
        let '(pool, ok) := AppendCertsFromPEM x509_NewCertPool caPEM in
        if negb ok then Err (fmt_Errorf_w EmptyString ErrCertInvalid ": failed to parse CA certificate")
        else Ok (Some pool)
    end).

Definition FileCertStore_CertStore (s : FileCertStore) : CertStore := {|
  GetCertificate := file_GetCertificate s;
  GetCACertPool := file_GetCACertPool s;
  TLSConfigProvider := None |}.

(** ** self_signed_store.go *)

Record SelfSignedConfig := { Hosts : list string; Duration : Z }.
Record SelfSignedStore := { cert : Certificate; caPool : CertPool }.

(** The loop over the hosts: addresses and names, in order. *)
Fixpoint add_hosts (hosts : list string) (ips : list bytes) (names : list string) : list bytes * list string :=
  match hosts with
  | [] => (ips, names)
  | h :: hosts' =>
      match net_ParseIP h with
      | Some ip => add_hosts hosts' (ips ++ [ip]) names
      | None => add_hosts hosts' ips (names ++ [h])
      end
  end.

Definition NewSelfSignedStore (cfg : SelfSignedConfig) : M S SelfSignedStore :=
  key ← ecdsa_GenerateKey;
  serial ← rand_Int (Z.shiftl 1 128);
  notBefore ← signing_Now;
  notAfter ← signing_Now;
  let '(ips, names) := add_hosts (Hosts cfg) [] [] in
  let tmpl := {|
    Raw := [];
    SerialNumber := serial; CommonName := "self-signed";
    NotBefore := notBefore; NotAfter := notAfter + Duration cfg;
    KeyUsage := Z.lor x509_KeyUsageDigitalSignature x509_KeyUsageKeyEncipherment;
    ExtKeyUsage := [x509_ExtKeyUsageServerAuth; x509_ExtKeyUsageClientAuth];
    IsCA := true; BasicConstraintsValid := true;
    IPAddresses := ips; DNSNames := names |} in
  certDER ← x509_CreateCertificate tmpl tmpl (Public key) key;
  parsed ← lift (x509_ParseCertificate certDER);
  mret {| cert := {| cert_DER := [certDER]; cert_PrivateKey := key |};
          caPool := AddCert x509_NewCertPool parsed |}.

Definition SelfSignedStore_CertStore (s : SelfSignedStore) : CertStore := {|
  GetCertificate := mret (cert s);
  GetCACertPool := mret (Some (caPool s));
  TLSConfigProvider := None |}.

(** ** acme_store.go *)

Record ACMEConfig := { Email : string; Domains : list string; CacheDir : string }.

Definition NewACMEStore (cfg : ACMEConfig) : result Manager :=
  if (length (Domains cfg) =? 0)%nat then Err (fmt_Errorf "tls: ACME requires at least one domain")
  else Ok {|
    m_Email := Email cfg; m_HostWhitelist := Domains cfg;
    m_DirCache := if bool_decide (CacheDir cfg = EmptyString) then None else Some (CacheDir cfg) |}.

Definition ACMEStore_CertStore (m : Manager) : CertStore := {|
  GetCertificate := fail (fmt_Errorf
    "tls: ACME certificates are served via TLS handshake callback; use TLSProfile.ServerTLSConfig()");
  GetCACertPool := mret None;
  TLSConfigProvider := Some (mret (autocert_TLSConfig m)) |}.

(** ** profile.go *)

Record TLSProfile := {
  ServerCert : option CertStore;
  ClientCA : option CertStore;
  ClientCert : option CertStore;
  MinVersion : Z;
  VerifyPeer : bool;
}.

(** The configuration that the server certificate gives. *)
Definition base_config (store : CertStore) (v : Z) : M S tls_Config :=
  match TLSConfigProvider store with
  | Some provide => cfg ← provide; mret (set_MinVersion v cfg)
  | None => cert ← GetCertificate store; mret (tls_Config_of [cert] v)
  end.

Definition ServerTLSConfig (p : TLSProfile) : M S tls_Config :=
  match ServerCert p with
  | None => fail (fmt_Errorf "tls: ServerCert is required")
  | Some store =>
      cfg ← base_config store (MinVersion p);
      match VerifyPeer p, ClientCA p with
      | true, Some ca =>
          pool ← GetCACertPool ca;
          mret (set_ClientAuth RequireAndVerifyClientCert pool cfg)
      | _, _ => mret cfg
      end
  end.

Definition ClientTLSConfig (p : TLSProfile) : M S tls_Config :=
  let cfg := tls_Config_of [] (MinVersion p) in
  cfg ← match ServerCert p with
        | Some store => pool ← GetCACertPool store; mret (set_RootCAs pool cfg)
        | None => mret cfg
        end;
  match ClientCert p with
  | Some store => cert ← GetCertificate store; mret (set_Certificates [cert] cfg)
  | None => mret cfg
  end.

(** ** transport.go *)

Record transport := { serverCfg : tls_Config; clientCfg : tls_Config }.

Definition NewTransport (profile : TLSProfile) : M S transport :=
  serverCfg ← mwrap "transport: " (ServerTLSConfig profile);
  clientCfg ← mwrap "transport: " (ClientTLSConfig profile);
  mret {| serverCfg := serverCfg; clientCfg := clientCfg |}.

Definition transport_ServerTLSConfig (t : transport) : tls_Config := serverCfg t.
Definition transport_ClientTLSConfig (t : transport) : tls_Config := clientCfg t.

(** [tls.Dialer.DialContext] and [tls.Listen]. *)
Class Network := {
  net_Conn : Type;
  net_Listener : Type;
  tls_DialContext : tls_Config → string → string → M S net_Conn;
  tls_Listen : string → string → tls_Config → M S net_Listener;
}.

Definition Dial `{Network} (t : transport) (addr : string) : M S net_Conn :=
  mwrap "transport: " (tls_DialContext (clientCfg t) "tcp" addr).

Definition Listen `{Network} (t : transport) (addr : string) : M S net_Listener :=
  mwrap "transport: " (tls_Listen "tcp" addr (serverCfg t)).

End tls.

(** ** Who trusts whom

    A server that asks for a client certificate verifies it against [ClientCAs], a
    client the server's against [RootCAs]: the system's roots where they are nil. *)

Section trust.
Context `{Parsing} `{!Autocert} {S : Type} `{Files S} `{!Signing S}.
Context (system : list bytes).

Definition trusted_clients (cfg : tls_Config) : option (list bytes) :=
  match ClientAuth cfg with
  | NoClientCert => None
  | RequireAndVerifyClientCert => Some (default system (ClientCAs cfg))
  end.

Definition trusted_servers (cfg : tls_Config) : list bytes := default system (RootCAs cfg).

(** What a peer is shown. *)
Definition presents (cfg : tls_Config) : list (list bytes) := cert_DER <$> Certificates cfg.

(** The stores of the package. *)
Inductive store_kind : CertStore (S := S) → Prop :=
  | file_kind f : store_kind (FileCertStore_CertStore f)
  | self_signed_kind x : store_kind (SelfSignedStore_CertStore x)
  | acme_kind m : store_kind (ACMEStore_CertStore m).

(** The configuration of autocert asks for no client certificate; a parsed
    certificate is the one of its bytes. *)
Class AutocertLaws : Prop := autocert_server m : ClientAuth (autocert_TLSConfig m) = NoClientCert.
Class ParsingLaws : Prop := Parse_Raw der c : x509_ParseCertificate der = Ok c → Raw c = der.

Lemma base_config_inv store v s cfg s' `{!AutocertLaws} :
  store_kind store → base_config store v s = (Ok cfg, s') →
  ClientAuth cfg = NoClientCert ∧ cfg_MinVersion cfg = v.
Proof.
  intros Hk Hb. unfold base_config in Hb. destruct Hk as [f|x|m]; cbn in Hb.
  - apply M_bind_inv in Hb as [(c & s1 & _ & Hr)|(e & _ & ?)]; [|done]. by injection Hr as <- <-.
  - by injection Hb as <- <-.
  - injection Hb as <- <-. split; [apply autocert_server|done].
Qed.

(** The roots a store answers with. *)
Definition roots_of (r : result (option CertPool)) : list bytes :=
  match r with Ok pool => default system pool | Err _ => [] end.

(** C34: A server configuration asks for client certificates exactly when the profile
    has both VerifyPeer and a ClientCA; it then trusts what that store gives as its
    pool, and where the store has none, as a file store without a CA file or an ACME
    store, every authority of the system. The minimum version is that of the profile. *)
Theorem who_may_connect `{!AutocertLaws} p store s cfg s' :
  ServerCert p = Some store → store_kind store → ServerTLSConfig p s = (Ok cfg, s') →
  cfg_MinVersion cfg = MinVersion p ∧
  (trusted_clients cfg = None ↔ VerifyPeer p = false ∨ ClientCA p = None) ∧
  (∀ ca, VerifyPeer p = true → ClientCA p = Some ca →
    ∃ s1, trusted_clients cfg = Some (roots_of (GetCACertPool ca s1).1)) ∧
  (∀ f, VerifyPeer p = true → ClientCA p = Some (FileCertStore_CertStore f) → caPath f = EmptyString →
    trusted_clients cfg = Some system) ∧
  (∀ m, VerifyPeer p = true → ClientCA p = Some (ACMEStore_CertStore m) → trusted_clients cfg = Some system).
Proof.
  intros Hs Hk Hr. unfold ServerTLSConfig in Hr. rewrite Hs in Hr.
  apply M_bind_inv in Hr as [(base & s1 & Hb & Hr)|(e & _ & ?)]; [|done].
  destruct (base_config_inv _ _ _ _ _ Hk Hb) as [Hauth Hv].
  assert (Hno : trusted_clients base = None) by (unfold trusted_clients; by rewrite Hauth).
  destruct (VerifyPeer p) eqn:Hverify; [|injection Hr as <- <-; split_and!; [done|naive_solver|done..]].
  destruct (ClientCA p) as [ca|] eqn:Hca; [|injection Hr as <- <-; split_and!; [done|naive_solver|done..]].
  apply M_bind_inv in Hr as [(pool & s2 & Hpool & Hr)|(e & _ & ?)]; [|done]. injection Hr as <- <-.
  split; [exact Hv|]. split; [split; [done|by intros [?|?]]|].
  split; [|split].
  - intros ca' _ [= <-]. exists s1. by rewrite Hpool.
  - intros f _ [= ->] Hf. cbn in Hpool. unfold file_GetCACertPool in Hpool.
    rewrite bool_decide_eq_true_2 in Hpool by done. by injection Hpool as <- <-.
  - intros m _ [= ->]. by injection Hpool as <- <-.
Qed.

Lemma NewSelfSignedStore_inv `{!ParsingLaws} cfg s x s' :
  NewSelfSignedStore cfg s = (Ok x, s') → ∃ der, cert_DER (cert x) = [der] ∧ caPool x = [der].
Proof.
  intros Hr. unfold NewSelfSignedStore in Hr.
  do 4 (apply M_bind_inv in Hr as [(? & ? & _ & Hr)|(? & _ & ?)]; [|done]).
  destruct (add_hosts _ _ _) as [ips names].
  apply M_bind_inv in Hr as [(der & ? & _ & Hr)|(? & _ & ?)]; [|done].
  apply M_bind_inv in Hr as [(c & ? & Hc & Hr)|(? & _ & ?)]; [|done].
  injection Hc as Hc _. injection Hr as <- _. exists der. split; [done|]. cbn.
  unfold AddCert. by rewrite (Parse_Raw _ _ Hc).
Qed.

(** A transport of two self-signed stores, one as the server certificate and one as
    client authority and certificate, is always made; each side presents its own
    certificate, and each trusts exactly the certificate the other presents. *)
Theorem mutual_tls `{!ParsingLaws} ca s1 a s1' cb s2 b s2' v s :
  NewSelfSignedStore ca s1 = (Ok a, s1') → NewSelfSignedStore cb s2 = (Ok b, s2') →
  ∃ server client da db,
    NewTransport (S := S) {| ServerCert := Some (SelfSignedStore_CertStore a);
                    ClientCA := Some (SelfSignedStore_CertStore b);
                    ClientCert := Some (SelfSignedStore_CertStore b);
                    MinVersion := v; VerifyPeer := true |} s =
      (Ok {| serverCfg := server; clientCfg := client |}, s) ∧
    presents server = [[da]] ∧ trusted_servers client = [da] ∧
    presents client = [[db]] ∧ trusted_clients server = Some [db] ∧
    cfg_MinVersion server = v ∧ cfg_MinVersion client = v.
Proof.
  intros (da & Hca & Hpa)%NewSelfSignedStore_inv (db & Hcb & Hpb)%NewSelfSignedStore_inv.
  eexists _, _, da, db. split; [reflexivity|]. unfold presents, trusted_servers, trusted_clients. cbn.
  by rewrite Hca, Hpa, Hcb, Hpb.
Qed.

(** A key pair that is there but does not parse is reported as not found. *)
Lemma NewFileCertStore_error cfg s e s' :
  NewFileCertStore cfg s = (Err e, s') →
  errors_Is e ErrCertNotFound = true ∧ errors_Is e ErrCertInvalid = false.
Proof.
  intros Hr. unfold NewFileCertStore in Hr. apply M_bind_attempt_inv in Hr as (loaded & s1 & _ & Hr).
  destruct loaded as [c|e0]; [done|]. injection Hr as <- _. cbn. split; [apply orb_true_r|reflexivity].
Qed.
End trust.

(** ** Concrete stores *)

Module Demo.
#[export] Instance demo_keys : Keys := {| PrivateKey := nat; PublicKey := nat; Public := id |}.
#[export] Instance demo_parsing : Parsing := {|
  tls_X509KeyPair cert key := if bool_decide (cert = []) then Err (fmt_Errorf "no PEM data")
                              else Ok {| cert_DER := [cert]; cert_PrivateKey := length key |};
  pem_certificates pem := if bool_decide (pem = []) then [] else [pem];
  x509_ParseCertificate der := Ok {| Raw := der; SerialNumber := 0; CommonName := EmptyString;
    NotBefore := 0; NotAfter := 0; KeyUsage := 0; ExtKeyUsage := []; IsCA := true;
    BasicConstraintsValid := true; IPAddresses := []; DNSNames := [] |};
  net_ParseIP h := if bool_decide (h = "127.0.0.1"%string) then Some (unstr h) else None |}.
#[export] Instance demo_autocert : Autocert := λ m, {|
  Certificates := []; cfg_GetCertificate := Some m; NextProtos := ["h2"; "http/1.1"; "acme-tls/1"]%string;
  cfg_MinVersion := 0; ClientAuth := NoClientCert; ClientCAs := None; RootCAs := None |}.

(** The state counts the draws; there are two files. *)
#[export] Instance demo_files : Files nat := λ path,
  if bool_decide (path = "cert.pem"%string) then mret (unstr "certificate")
  else if bool_decide (path = "key.pem"%string) then mret (unstr "key")
  else fail (fmt_Errorf "no such file").
#[export] Instance demo_signing : Signing nat := {|
  signing_Now := λ n, (Ok (Z.of_nat n), S n);
  ecdsa_GenerateKey := λ n, (Ok n, S n);
  rand_Int := λ _ n, (Ok (Z.of_nat n), S n);
  x509_CreateCertificate := λ tmpl _ pub _ n, (Ok (unstr (CommonName tmpl) ++ repeat "."%char n), S n) |}.

#[export] Instance demo_autocert_laws : AutocertLaws.
Proof. done. Defined.
#[export] Instance demo_parsing_laws : ParsingLaws.
Proof. by intros der c [= <-]. Defined.

(** A file store without a CA file, as the authority of the clients. *)
Definition files : FileCertStore := {| certPath := "cert.pem"; keyPath := "key.pem"; caPath := EmptyString |}.
Definition open_profile : TLSProfile (S := nat) := {|
  ServerCert := Some (FileCertStore_CertStore files); ClientCA := Some (FileCertStore_CertStore files);
  ClientCert := None; MinVersion := 772; VerifyPeer := true |}.

Lemma who_may_connect_witness :
  ∃ cfg, (ServerTLSConfig open_profile 0%nat).1 = Ok cfg ∧ trusted_clients [unstr "public CA"] cfg = Some [unstr "public CA"].
Proof.
  destruct (ServerTLSConfig open_profile 0%nat) as [[cfg|e] s'] eqn:Hr; [|by vm_compute in Hr].
  exists cfg. split; [reflexivity|].
  destruct (who_may_connect [unstr "public CA"] open_profile _ _ _ _ eq_refl (file_kind files) Hr)
    as (_ & _ & _ & Hopen & _).
  exact (Hopen files eq_refl eq_refl eq_refl).
Defined.

Definition hosts (h : string) : SelfSignedConfig := {| Hosts := [h; "127.0.0.1"%string]; Duration := 3600 |}.
Definition made (h : string) (n : nat) : result (SelfSignedStore) * nat := NewSelfSignedStore (hosts h) n.

Lemma mutual_tls_witness :
  ∃ a b s1 s2 t s da db, made "server"%string 0 = (Ok a, s1) ∧ made "client"%string 9 = (Ok b, s2) ∧
    NewTransport {| ServerCert := Some (SelfSignedStore_CertStore a);
      ClientCA := Some (SelfSignedStore_CertStore b); ClientCert := Some (SelfSignedStore_CertStore b);
      MinVersion := 772; VerifyPeer := true |} 0%nat = (Ok t, s) ∧
    trusted_servers [] (clientCfg t) = [da] ∧ trusted_clients [] (serverCfg t) = Some [db].
Proof.
  destruct (made "server" 0) as [[a|] s1] eqn:Ha; [|by vm_compute in Ha].
  destruct (made "client" 9) as [[b|] s2] eqn:Hb; [|by vm_compute in Hb].
  unfold made in Ha, Hb.
  destruct (mutual_tls [] _ _ _ _ _ _ _ _ 772 0%nat Ha Hb)
    as (server & client & da & db & Ht & _ & Htr & _ & Htc & _).
  exists a, b, s1, s2, {| serverCfg := server; clientCfg := client |}, 0%nat, da, db.
  split; [reflexivity|]. split; [reflexivity|]. split; [exact Ht|]. split; [exact Htr|exact Htc].
Defined.
End Demo.
End tls.
