(* ===== verification/Seed.v ===== *)
(** Seeding: [internal/admin/seed/seed.go], which [cmd/admin] runs. *)

From S2P Require Import Prelude.
From S2P Require Import Bytes.
From S2P Require Import Platform.
From S2P Require Import Database.
From S2P Require Import Integrity.
From S2P Require Import World.
From S2P Require Import Users.
From S2P Require Import Orgs.
From S2P Require Import Repos.
From S2P Require Import GoStrings.

Module seed.

Record Input := {
  AdminName : string;
  AdminUsername : string;
  AdminEmail : string;
  AdminPassword : string;
}.

Definition team_name : string := "Gitfed Team".
Definition repo_name : string := "hello-gitfed".

Section seed.
Context {S : Type} `{user.Repository S} `{organization.Repository S} `{git.Repository S}
  `{Entropy S} `{Hasher S}.

Definition ensureOrganization (userID : UUID) : M S UUID :=
  orgs ← mwrap "list user organizations: " (organization.GetByUserID userID);
  match find (λ org, bool_decide (organization.Name org = team_name)) orgs with
  | Some org => mret (organization.ID org)
  | None =>
      org ← mwrap "create organization: " (organization.Create {|
        organization.in_Name := team_name;
        organization.in_Description := "Default seeded organization" |});
      mwrap "add user to organization: " (organization.AddUser (organization.ID org) userID);;
      mret (organization.ID org)
  end.

Definition ensureRepository (ownerID : UUID) : M S unit :=
  r ← attempt (git.repo_GetByName ownerID repo_name);
  match r with
  | Ok _ => mret tt
  | Err err =>
      if negb (bool_decide (err = git.ErrRepoNotFound)) then
        fail (fmt_Errorf_w "get repository: " err EmptyString)
      else
        repoID ← mwrap "generate repository id: " uuid_NewV7;
        mwrap "create repository: " (git.repo_Create {|
          git.create_Id := repoID; git.create_Name := repo_name;
          git.create_Description := "Default seeded repository"; git.create_IsPrivate := false;
          git.create_OwnerID := ownerID; git.create_DefaultRef := "refs/heads/main" |});;
        mret tt
  end.

Definition ensureAdmin (i : Input) : M S user.User :=
  r ← attempt (user.repo_GetByUsername (AdminUsername i));
  match r with
  | Ok u => mret u
  | Err err =>
      if negb (bool_decide (err = user.ErrNotFound)) then
        fail (fmt_Errorf_w "get admin user: " err EmptyString)
      else
        mwrap "register admin user: " (user.Register {|
          user.in_Name := AdminName i; user.in_Username := AdminUsername i;
          user.in_Password := AdminPassword i; user.in_Email := AdminEmail i |})
  end.

Definition blank (i : Input) : bool :=
  bool_decide (AdminName i = EmptyString) || bool_decide (AdminUsername i = EmptyString) ||
  bool_decide (AdminEmail i = EmptyString) || bool_decide (AdminPassword i = EmptyString).

Definition Run (i : Input) : M S unit :=
  if blank i then
    fail (fmt_Errorf "seed input must include admin name, username, email and password")
  else
    adminUser ← ensureAdmin i;
    orgID ← ensureOrganization (user.ID adminUser);
    ensureRepository (user.ID adminUser).
End seed.

#[export] Existing Instances user.Store_Repository user.World_View user.World_Directory
  organization.Store_Repository git.Store_Repository.

(** ** On a world *)

Section theorems.
Context {R D : Type} `{PostgresLaws} `{OracleLaws} `{BcryptLaws}.
Implicit Types (w : World R D) (d : Database) (u : user.User) (i : Input).

(** What a seeded database has. *)
Definition is_admin d i u : Prop :=
  user.accounts d !! user.ID u = Some u ∧ user.Username u = AdminUsername i ∧ user.IsDeleted u = false.
Definition has_team d u : Prop :=
  ∃ o, organization.is_org d o ∧ organization.Name o = team_name ∧
       organization.member d (organization.ID o) (user.ID u).
Definition has_repo d u : Prop :=
  ∃ g, git.repo_row d g ∧ git.OwnerID g = user.ID u ∧ git.Name g = repo_name ∧ git.IsDeleted g = false.

Lemma accounts_username_unique d u1 u2 :
  Integrity d → user.accounts d !! user.ID u1 = Some u1 → user.accounts d !! user.ID u2 = Some u2 →
  user.Username u1 = user.Username u2 → u1 = u2.
Proof.
  intros Hi (r1 & Hr1 & _ & <-)%user.accounts_Some (r2 & Hr2 & _ & <-)%user.accounts_Some Heq; [|done..].
  by rewrite (NoDup_key sqlc.User_Username _ _ _ (users_username_key _ Hi) Hr1 Hr2 Heq).
Qed.

Lemma team_name_stored : pg_varchar 255 team_name = Some team_name.
Proof. apply pg_varchar_fits; [apply pg_text_ascii; cbn; repeat constructor|done]. Qed.

Lemma repo_name_stored : pg_varchar 100 repo_name = Some repo_name.
Proof. apply pg_varchar_fits; [apply pg_text_ascii; cbn; repeat constructor|done]. Qed.

Lemma repo_name_text : pg_text repo_name = true.
Proof. eapply pg_varchar_text, repo_name_stored. Qed.

Lemma ensureAdmin_Ok i w u w' :
  Integrity (db w) → pg_varchar 255 (AdminUsername i) = Some (AdminUsername i) →
  ensureAdmin i w = (Ok u, w') → Integrity (db w') ∧ is_admin (db w') i u.
Proof.
  intros Hi Hname Hr. unfold ensureAdmin in Hr. apply M_bind_attempt_inv in Hr as (r0 & w1 & Hget & Hr).
  apply user.law_GetByUsername in Hget as (Hi1 & _ & Hd & Hfound); [|exact Hi].
  destruct r0 as [u0|e].
  - injection Hr as -> <-. split; [exact Hi1|].
    destruct Hfound as [[(u' & [= <-] & Hu & Hn & Hdel)|[? _]]|(e & ? & _)]; [|done..].
    unfold is_admin. cbn in Hd. rewrite Hd. done.
  - destruct (negb _); [done|]. apply M_mwrap_inv in Hr as (r1 & Hr & Heq). symmetry in Heq.
    apply wrap_err_Ok in Heq. subst r1.
    apply user.Register_inv in Hr as (Hi' & _ & (_ & Hu & _ & _ & Hdel & _ & _ & Hd')); [|exact Hi1].
    split; [exact Hi'|]. unfold is_admin. cbn in Hd', Hu. rewrite Hd'. rewrite Hname in Hu. injection Hu as Hu.
    split; [apply lookup_insert_eq|done].
Qed.

Lemma ensureOrganization_Ok u w id w' :
  Integrity (db w) → ensureOrganization (user.ID u) w = (Ok id, w') →
  Integrity (db w') ∧ users (db w') = users (db w) ∧ has_team (db w') u.
Proof.
  intros Hi Hr. unfold ensureOrganization in Hr.
  apply M_bind_inv in Hr as [(os & w1 & Hget & Hr)|(e & _ & ?)]; [|done].
  apply M_mwrap_inv in Hget as (r0 & Hget & Heq). symmetry in Heq. apply wrap_err_Ok in Heq. subst r0.
  apply organization.GetByUserID_inv in Hget as [-> Hget]; [|done].
  destruct Hget as [(os' & [= <-] & _ & Hos)|(e & _ & ?)]; [|done].
  destruct (find _ os) as [o|] eqn:Hfind.
  - apply find_some in Hfind as [Hin%list_elem_of_In Hn%bool_decide_eq_true].
    injection Hr as <- <-. split; [done|]. split; [done|]. apply Hos in Hin as [Ho Hm]. by exists o.
  - apply M_bind_inv in Hr as [(o & w2 & Hmake & Hr)|(e & _ & ?)]; [|done].
    apply M_mwrap_inv in Hmake as (r0 & Hmake & Heq). symmetry in Heq. apply wrap_err_Ok in Heq. subst r0.
    apply organization.Create_Ok in Hmake as (Hi2 & Hu2 & Ho & Hname); [|done].
    apply M_bind_inv in Hr as [([] & w3 & Hadd & Hr)|(e & _ & ?)]; [|done]. injection Hr as <- <-.
    apply M_mwrap_inv in Hadd as (r0 & Hadd & Heq). symmetry in Heq. apply wrap_err_Ok in Heq. subst r0.
    apply organization.AddUser_inv in Hadd as (Hi3 & Horgs & Hu3 & [[? _]|(_ & _ & Hou)]); [done| |done].
    split; [done|]. split; [by rewrite Hu3, Hu2|]. exists o. split.
    + unfold organization.is_org. by rewrite Horgs.
    + cbn in Hname. rewrite team_name_stored in Hname. injection Hname as Hname. split; [done|].
      eapply organization.member_snoc; [exact Hou|]. by right.
Qed.

Lemma ensureRepository_Ok u w w' :
  Integrity (db w) → ensureRepository (user.ID u) w = (Ok tt, w') →
  Integrity (db w') ∧ has_repo (db w') u ∧ users (db w') = users (db w) ∧
  organizations (db w') = organizations (db w) ∧ organization_users (db w') = organization_users (db w).
Proof.
  intros Hi Hr. unfold ensureRepository in Hr. apply M_bind_attempt_inv in Hr as (r0 & w1 & Hget & Hr).
  apply (git.GetByName_inv (user.ID u)) in Hget as [-> Hget]; [|done].
  destruct r0 as [g|e].
  - injection Hr as <-. split; [done|]. split; [|done].
    destruct Hget as [(g' & _ & Hg & Ho & Hn & Hl)|[[? _]|(e & _ & ?)]]; [|done..]. by exists g'.
  - destruct (negb _); [done|].
    apply M_bind_inv in Hr as [(id & w2 & Hid & Hr)|(e' & _ & ?)]; [|done].
    apply M_mwrap_inv in Hid as (rid & Hid & _). injection Hid as _ <-.
    apply M_bind_inv in Hr as [(g & w3 & Hmake & Hr)|(e' & _ & ?)]; [|done]. injection Hr as <-.
    apply M_mwrap_inv in Hmake as (r1 & Hmake & Heq). symmetry in Heq. apply wrap_err_Ok in Heq. subst r1.
    pose proof (git.Create_frame _ _ _ _ Hmake) as Hframe.
    apply git.Create_inv in Hmake as (Hi' & _ & Hres); [|done]. split; [done|]. split; [|exact Hframe].
    destruct Hres as [(? & ? & _)|(g' & (_ & Hname & _ & _ & Hl & _ & _ & Ho & _) & _ & _ & Hx)]; [done|].
    cbn in Hname, Ho. rewrite repo_name_stored in Hname. injection Hname as Hname.
    exists g'. split; [apply Hx; by right|done].
Qed.

(** *** Again, with connections up *)

Lemma GetByUsername_tick name w r w' : user.repo_GetByUsername name w = (r, w') → w' = tick w.
Proof.
  intros Hr. cbn in Hr. unfold user.Store.GetByUsername in Hr.
  apply M_bind_attempt_inv in Hr as (r0 & w1 & Hrun & Hr).
  apply read_inv in Hrun as [-> _]; [|apply reads_GetUserByUsername].
  unfold lift in Hr. by destruct (no_rows _ _); injection Hr as _ <-.
Qed.

Lemma GetByUsername_up `{!FaultFree} name w e w' :
  pg_text name = true → user.repo_GetByUsername name w = (Err e, w') → e = user.ErrNotFound.
Proof.
  intros Ht Hr. cbn in Hr. unfold user.Store.GetByUsername, Queries.GetUserByUsername in Hr.
  apply M_bind_attempt_inv in Hr as (r0 & w1 & Hrun & Hr). rewrite run_sql_FaultFree in Hrun.
  unfold Queries.sql_GetUserByUsername, text_param in Hrun. rewrite Ht in Hrun. cbn in Hrun.
  destruct (one _) as [row|e0] eqn:Hone; cbn in Hrun; injection Hrun as <- <-; [done|].
  apply one_select_Err in Hone as [-> _]. by injection Hr as <- _.
Qed.

Lemma ensureAdmin_again `{!FaultFree} i u w :
  Integrity (db w) → pg_text (AdminUsername i) = true → is_admin (db w) i u →
  ensureAdmin i w = (Ok u, tick w).
Proof.
  intros Hi Ht (Hu & Hn & Hl). unfold ensureAdmin.
  destruct (user.repo_GetByUsername (AdminUsername i) w) as [r w1] eqn:Hget.
  rewrite (M_bind_attempt_run _ _ _ _ _ Hget). pose proof (GetByUsername_tick _ _ _ _ Hget) as ->.
  pose proof (user.law_GetByUsername _ _ _ _ Hi Hget) as (_ & _ & _ & Hfound). destruct r as [u'|e].
  - destruct Hfound as [[(v & [= <-] & Hv & Hvn & _)|[? _]]|(e & ? & _)]; [|done..].
    rewrite (accounts_username_unique (db w) u' u Hi Hv Hu) by congruence. done.
  - pose proof (GetByUsername_up _ _ _ _ Ht Hget) as ->.
    destruct Hfound as [[(v & ? & _)|[_ Hno]]|(e & [= <-] & [text ?])]; [done| |done].
    by rewrite (Hno _ u Hu Hn) in Hl.
Qed.

Lemma ensureOrganization_again `{!FaultFree} u w :
  Integrity (db w) → has_team (db w) u → ∃ id, ensureOrganization (user.ID u) w = (Ok id, tick w).
Proof.
  intros Hi (o & Ho & Hn & Hm). unfold ensureOrganization.
  destruct (organization.GetByUserID (user.ID u) w) as [r w1] eqn:Hget.
  pose proof (organization.GetByUserID_up _ _ _ _ Hget) as Hup. pose proof Hget as Hinv.
  apply organization.GetByUserID_inv in Hinv as [-> Hgot]; [|done].
  destruct r as [os|e]; [|done]. destruct Hgot as [(os' & [= <-] & _ & Hos)|(e & _ & ?)]; [|done].
  assert (Hw : mwrap "list user organizations: " (organization.GetByUserID (user.ID u)) w = (Ok os, tick w)).
  { unfold mwrap. by rewrite Hget. }
  rewrite (M_bind_run _ _ _ _ _ Hw). destruct (find _ os) as [o'|] eqn:Hfind; [by eexists|].
  assert (Hin : In o os) by (by apply list_elem_of_In, Hos).
  apply (find_none _ _ Hfind) in Hin. by rewrite Hn, bool_decide_true in Hin.
Qed.

Lemma ensureRepository_again `{!FaultFree} u w :
  Integrity (db w) → has_repo (db w) u → ensureRepository (user.ID u) w = (Ok tt, tick w).
Proof.
  intros Hi (g & Hg & Ho & Hn & Hl). unfold ensureRepository.
  destruct (git.repo_GetByName (user.ID u) repo_name w) as [r w1] eqn:Hget.
  rewrite (M_bind_attempt_run _ _ _ _ _ Hget). pose proof Hget as Hinv.
  apply (git.GetByName_inv (user.ID u)) in Hinv as [-> Hgot]; [|done]. destruct r as [g'|e]; [done|].
  pose proof (git.GetByName_up _ _ _ _ _ repo_name_text Hget) as ->.
  destruct Hgot as [(? & ? & _)|[[_ Hno]|(e & [text ->] & ?)]]; [done| |done].
  by destruct (Hno g).
Qed.

(** A seed of a seeded database. *)
Lemma Run_again `{!FaultFree} i u w :
  blank i = false → Integrity (db w) → pg_varchar 255 (AdminUsername i) = Some (AdminUsername i) →
  is_admin (db w) i u → has_team (db w) u → has_repo (db w) u →
  ∃ w'', Run i w = (Ok tt, w'') ∧ db w'' = db w.
Proof.
  intros Hfields Hi Hname Hadmin Hteam Hrepo.
  unfold Run. rewrite Hfields. pose proof (pg_varchar_text _ _ _ Hname) as Ht.
  rewrite (M_bind_run _ _ _ _ _ (ensureAdmin_again i u w Hi Ht Hadmin)).
  destruct (ensureOrganization_again u (tick w) Hi Hteam) as [id Hid].
  rewrite (M_bind_run _ _ _ _ _ Hid).
  exists (tick (tick (tick w))). split; [|done]. by apply ensureRepository_again.
Qed.

Lemma Run_Ok_fields i w w' : Run i w = (Ok tt, w') → blank i = false.
Proof. unfold Run. by destruct (blank i). Qed.

(** A run of the seed that succeeds leaves a live user of the given username who is a
    member of an organization Gitfed Team and owns a live repository hello-gitfed, and
    with connections up a second run succeeds and changes nothing. *)
Theorem Run_seeds_once i w w' :
  Integrity (db w) → pg_varchar 255 (AdminUsername i) = Some (AdminUsername i) →
  Run i w = (Ok tt, w') →
  Integrity (db w') ∧ (∃ u, is_admin (db w') i u ∧ has_team (db w') u ∧ has_repo (db w') u) ∧
  (FaultFree → ∃ w'', Run i w' = (Ok tt, w'') ∧ db w'' = db w').
Proof.
  intros Hi Hname Hr. pose proof (Run_Ok_fields _ _ _ Hr) as Hfields. unfold Run in Hr. rewrite Hfields in Hr.
  apply M_bind_inv in Hr as [(u & w1 & Hadmin & Hr)|(e & _ & ?)]; [|done].
  apply ensureAdmin_Ok in Hadmin as [Hi1 Hu]; [|done..].
  apply M_bind_inv in Hr as [(id & w2 & Horg & Hr)|(e & _ & ?)]; [|done].
  apply ensureOrganization_Ok in Horg as (Hi2 & Hu2 & o & Ho & Hon & Hm); [|done].
  apply ensureRepository_Ok in Hr as (Hi3 & Hrepo & Hu3 & Ho3 & Hm3); [|done].
  assert (Hadmin : is_admin (db w') i u).
  { unfold is_admin, user.accounts. rewrite Hu3, Hu2. exact Hu. }
  assert (Hteam : has_team (db w') u).
  { exists o. unfold organization.is_org, organization.member. by rewrite Ho3, Hm3. }
  split; [done|]. split; [by exists u|]. intros up. by apply (Run_again i u).
Qed.
End theorems.

Module Demo.
Import Sim.

Abbreviation W := (World (gmap string (string * Z)) unit).
#[export] Existing Instances user.Demo.demo_bcrypt user.Demo.demo_bcrypt_laws.

Definition input : Input := {|
  AdminName := "Ada"; AdminUsername := "ada"; AdminEmail := "ada@example.org"; AdminPassword := "secret12" |}.

Definition w0 : W := mkWorld empty_Database ∅ tt 0 0.
Definition w1 : W := (Run input w0).2.

Lemma seeded : Run input w0 = (Ok tt, w1).
Proof.
  assert (Hr : (Run input w0).1 = Ok tt) by (vm_compute; reflexivity).
  exact (run_eq _ _ _ Hr).
Qed.

Lemma Run_seeds_once_witness :
  ∃ u w2, is_admin (db w1) input u ∧ has_repo (db w1) u ∧ Run input w1 = (Ok tt, w2) ∧ db w2 = db w1.
Proof.
  destruct (Run_seeds_once input w0 w1 Integrity_empty) as (_ & (u & Hu & _ & Hg) & Hagain).
  - reflexivity.
  - exact seeded.
  - destruct (Hagain sim_fault_free) as (w2 & Hr & Hd). exists u, w2.
    split; [exact Hu|]. split; [exact Hg|]. split; [exact Hr|exact Hd].
Defined.
End Demo.
End seed.
