(* ===== verification/Preserves.v ===== *)
(** Invariants of the database, through the monad: [preserves P m] says that [m]
    keeps [P], whatever it returns.  The rules follow the structure of the code,
    and [keep] applies them. *)

From S2P Require Import Prelude.
From S2P Require Import Platform.
From S2P Require Import Database.
From S2P Require Import Integrity.
From S2P Require Import World.
From S2P Require Import RedisStore.
From S2P Require Import Users.
From S2P Require Import Totp.
From S2P Require Import Sso.
From S2P Require Import Disk.
From S2P Require Import HttpGit.

#[export] Existing Instances totp.World_TotpLib sso.World_OAuthClient.

Section preserves.
Context {R D : Type}.
Implicit Types (P : Database → Prop).

Definition preserves {A} P (m : M (World R D) A) : Prop := ∀ w, P (db w) → P (db (m w).2).

(** ** Rules *)

Lemma preserves_ret {A} P (a : A) : preserves P (mret a).
Proof. by intros w Hw. Qed.

Lemma preserves_fail {A} P e : preserves P (fail (A := A) e).
Proof. by intros w Hw. Qed.

Lemma preserves_lift {A} P (r : result A) : preserves P (lift r).
Proof. by intros w Hw. Qed.

Lemma preserves_bind {A B} P (m : M (World R D) A) (f : A → M (World R D) B) :
  preserves P m → (∀ a, preserves P (f a)) → preserves P (m ≫= f).
Proof.
  intros Hm Hf w Hw. specialize (Hm w Hw). unfold mbind, M_bind.
  destruct (m w) as [[a|e] w1]; [by apply Hf|done].
Qed.

Lemma preserves_attempt {A} P (m : M (World R D) A) : preserves P m → preserves P (attempt m).
Proof. intros Hm w Hw. specialize (Hm w Hw). unfold attempt. by destruct (m w). Qed.

Lemma preserves_mwrap {A} P before (m : M (World R D) A) : preserves P m → preserves P (mwrap before m).
Proof. intros Hm w Hw. specialize (Hm w Hw). unfold mwrap. by destruct (m w). Qed.

(** A call that does not touch the database. *)
Definition db_free {A} (m : M (World R D) A) : Prop := ∀ w, db (m w).2 = db w.

Lemma db_free_preserves {A} P (m : M (World R D) A) : db_free m → preserves P m.
Proof. intros Hm w. by rewrite Hm. Qed.

Context `{Oracle}.

Lemma preserves_sql {A} P (s : statement A) :
  (∀ t n d a d', s t n d = Ok (a, d') → P d → P d') → preserves P (run_sql s).
Proof.
  intros Hs w Hw. destruct (run_sql s w) as [r w'] eqn:Hr. cbn.
  apply run_sql_inv in Hr as (_ & _ & _ & Hres).
  destruct Hres as [(a & _ & Ha)|[(e & _ & _ & ->)|(e & _ & _ & [->|(a & Ha)])]]; eauto.
Qed.

Lemma call_db_free {A} (act : M (World R D) A) : db_free act → db_free (call act).
Proof.
  intros Hact w. unfold call. destruct (fault _) as [[text []]|]; [cbn|done|]; by rewrite Hact.
Qed.

Lemma Set_db_free `{Redis R} k v ttl : db_free (client_Set k v ttl).
Proof. by apply call_db_free. Qed.
Lemma Get_db_free `{Redis R} k : db_free (client_Get k).
Proof. by apply call_db_free. Qed.
Lemma Del_db_free `{Redis R} k : db_free (client_Del k).
Proof. by apply call_db_free. Qed.

Lemma rand_db_free n : db_free (rand_bytes n).
Proof. done. Qed.
Lemma uuid_db_free : db_free uuid_NewV7 ∧ db_free uuid_New.
Proof. done. Qed.

Lemma GetOAuthState_db_free `{Redis R} s : db_free (store.GetOAuthState s).
Proof.
  intros w. unfold store.GetOAuthState. pose proof (Get_db_free (store.oauthStateKey s) w) as Hget.
  by destruct (client_Get _ w).
Qed.

Lemma Getwd_db_free `{Disk D} : db_free os_Getwd.
Proof. done. Qed.
Lemma Stat_db_free `{Disk D} p : db_free (os_Stat p) ∧ db_free (filepath_EvalSymlinks p).
Proof. done. Qed.
Lemma osfs_Stat_db_free `{Disk D} p q : db_free (osfs_Stat p q).
Proof. done. Qed.
Lemma PlainInit_db_free `{Disk D} p b : db_free (git_PlainInit p b).
Proof. intros w. cbn. by destruct (disk_PlainInit _ _ _ _). Qed.

Lemma backend_db_free `{Backend D} wr r : db_free (gitHandler_ServeHTTP wr r).
Proof. intros w. unfold gitHandler_ServeHTTP, World_GitBackend. by destruct (backend_ServeHTTP _ _ _ _). Qed.

Lemma hasher_db_free `{Bcrypt} p : db_free (bcrypt_GenerateFromPassword p).
Proof. done. Qed.

Lemma totp_db_free `{Totp.Totp} x y :
  db_free (totp.lib_Generate x y) ∧ db_free (totp.lib_Validate x y).
Proof. done. Qed.

Lemma oauth_db_free `{sso.OAuth} cfg code :
  db_free (sso.client_Exchange cfg code) ∧ db_free (sso.client_Userinfo cfg code).
Proof. done. Qed.
End preserves.

(** ** Automation

    [keep leaf] walks through a computation: it applies the rules, opens
    definitions and operations of the interfaces, and leaves the statements to
    [leaf]. *)

Ltac db_free_call :=
  apply db_free_preserves;
  first
    [ apply Set_db_free | apply Get_db_free | apply Del_db_free | apply GetOAuthState_db_free
    | apply rand_db_free | apply uuid_db_free | apply Getwd_db_free | apply Stat_db_free
    | apply osfs_Stat_db_free | apply PlainInit_db_free | apply backend_db_free
    | apply hasher_db_free | apply totp_db_free | apply oauth_db_free ].

Ltac keep_head m := match m with ?f _ => keep_head f | _ => m end.

Ltac keep_step leaf :=
  lazymatch goal with
  | |- preserves _ (mret _) => apply preserves_ret
  | |- preserves _ (fail _) => apply preserves_fail
  | |- preserves _ (lift _) => apply preserves_lift
  | |- preserves _ (attempt _) => apply preserves_attempt
  | |- preserves _ (mwrap _ _) => apply preserves_mwrap
  | |- preserves _ (mbind _ _) => apply preserves_bind; [|intros ?]
  | |- preserves _ (run_sql _) => apply preserves_sql; leaf
  | |- preserves _ (let '(_, _) := ?x in _) => destruct x
  | |- preserves _ (match ?x with _ => _ end) => destruct x
  | |- preserves _ ?m =>
      first [ db_free_call
            | progress cbv beta zeta
            | progress cbn
            | let h := keep_head m in unfold h ]
  end.

Ltac keep leaf := repeat keep_step leaf.
