(* ===== verification/Logger.v ===== *)
(** [pkg/logger]: levels, the handler of development logs, the logger in a context,
    and the middleware that logs each request.

    A value in an attribute is the text that [%v] gives for it.  The JSON handler of
    [log/slog] is a parameter, a handler like the other. *)

From S2P Require Import Prelude.
From S2P Require Import Bytes.
From S2P Require Import Platform.
From S2P Require Import World.
From S2P Require Import Http.
From S2P Require Import Mux.
From S2P Require Import RateLimit.
From S2P Require Import Config.
From S2P Require Import GoStrings.
From stdpp Require Import pretty.
#[local] Open Scope Z_scope.

(** ** [log/slog] *)

Definition slog_LevelDebug : Z := -4.
Definition slog_LevelInfo : Z := 0.
Definition slog_LevelWarn : Z := 4.
Definition slog_LevelError : Z := 8.

Record Attr := { a_Key : string; a_Value : string }.

(** [rec_Time] is [r.Time.Format(time.DateTime)]. *)
Record slog_Record := { rec_Time : string; rec_Level : Z; rec_Message : string; rec_Attrs : list Attr }.

(** An [io.Writer], and one [Write] of it. *)
Definition Writer : Type := nat.
Definition os_Stdout : Writer := 1%nat.
Class Sink (S : Type) := sink_Write : Writer → bytes → M S unit.

(** A [*sync.Mutex] is where it was made. *)
Definition Mutex : Type := nat.
Class Mutexes (S : Type) := { mutex_Lock : Mutex → M S unit; mutex_Unlock : Mutex → M S unit }.

(** The time of a record, as text. *)
Class LogTime (S : Type) := log_Time : S → string.

Class slog_Handler (S H : Type) := {
  Enabled : H → Z → bool;
  Handle : H → slog_Record → M S unit;
  WithAttrs : list Attr → H → H;
}.

Module logger.

(** ** dev_handler.go *)

Definition escape : string := str [ascii_of_nat 27].
Definition newline : ascii := ascii_of_nat 10.

Definition colorReset : string := escape +:+ "[0m".
Definition colorCyan : string := escape +:+ "[36m".
Definition colorGreen : string := escape +:+ "[32m".
Definition colorYellow : string := escape +:+ "[33m".
Definition colorRed : string := escape +:+ "[31m".
Definition colorGray : string := escape +:+ "[90m".

Record levelStyle := { color : string; label : string }.

Definition levelColor (l : Z) : levelStyle :=
  if l <? slog_LevelInfo then {| color := colorCyan; label := "DEBUG" |}
  else if l <? slog_LevelWarn then {| color := colorGreen; label := "INFO" |}
  else if l <? slog_LevelError then {| color := colorYellow; label := "WARN" |}
  else {| color := colorRed; label := "ERROR" |}.

Record devHandler := { dev_w : Writer; mu : Mutex; level : Z; attrs : list Attr }.

(** [new]: where the [&sync.Mutex{}] is. *)
Definition newDevHandler (new : Mutex) (w : Writer) (level : Z) : devHandler :=
  {| dev_w := w; mu := new; level := level; attrs := [] |}.

(** [%-5s] *)
Definition pad5 (s : string) : string := s +:+ str (replicate (5 - String.length s) " "%char).

(** The text of one attribute. *)
Definition attr_text (a : Attr) : string :=
  " " +:+ colorCyan +:+ a_Key a +:+ "=" +:+ a_Value a +:+ colorReset.

Definition head_text (r : slog_Record) : string :=
  let lvl := levelColor (rec_Level r) in
  colorGray +:+ rec_Time r +:+ colorReset +:+ " " +:+
  color lvl +:+ pad5 (label lvl) +:+ colorReset +:+ " " +:+ rec_Message r.

Section handlers.
Context {S : Type} `{Sink S} `{Mutexes S}.

(** [fmt.Fprintf] to the writer; the error is dropped. *)
Definition Fprint (w : Writer) (text : string) : M S unit := attempt (sink_Write w (unstr text));; mret tt.

Fixpoint print_attrs (w : Writer) (l : list Attr) : M S unit :=
  match l with
  | [] => mret tt
  | a :: l' => Fprint w (attr_text a);; print_attrs w l'
  end.

Definition dev_Enabled (h : devHandler) (l : Z) : bool := level h <=? l.

Definition dev_Handle (h : devHandler) (r : slog_Record) : M S unit :=
  if negb (dev_Enabled h (rec_Level r)) then mret tt
  else
    mutex_Lock (mu h);;
    Fprint (dev_w h) (head_text r);;
    print_attrs (dev_w h) (attrs h);;
    print_attrs (dev_w h) (rec_Attrs r);;
    Fprint (dev_w h) (str [newline]);;
    mutex_Unlock (mu h).

Definition dev_WithAttrs (l : list Attr) (h : devHandler) : devHandler :=
  {| dev_w := dev_w h; mu := mu h; level := level h; attrs := attrs h ++ l |}.

#[export] Instance devHandler_Handler : slog_Handler S devHandler := {|
  Enabled := dev_Enabled; Handle := dev_Handle; WithAttrs := dev_WithAttrs |}.

(** ** default.go *)

Definition parseLevel (s : string) : Z :=
  let s := ToLower s in
  if bool_decide (s = "debug"%string) then slog_LevelDebug
  else if bool_decide (s = "warn"%string) then slog_LevelWarn
  else if bool_decide (s = "error"%string) then slog_LevelError
  else slog_LevelInfo.

(** [slog.NewJSONHandler(w, &slog.HandlerOptions{Level: level})] *)
Context {J : Type} `{!slog_Handler S J} (NewJSONHandler : Writer → Z → J) `{LogTime S}.

Definition handler : Type := devHandler + J.

#[export] Instance handler_Handler : slog_Handler S handler := {|
  Enabled h l := match h with inl h => Enabled (S := S) h l | inr h => Enabled (S := S) h l end;
  Handle h r := match h with inl h => Handle h r | inr h => Handle h r end;
  WithAttrs l h := match h with inl h => inl (WithAttrs (S := S) l h) | inr h => inr (WithAttrs (S := S) l h) end |}.

(** A [defaultLogger] is its handler.  [strings.EqualFold] with DEV, whose letters
    have no other case. *)
Definition NewWithWriter (new : Mutex) (w : Writer) (cfg : config.LogConfig) : handler :=
  let level := parseLevel (config.log_Level cfg) in
  if bool_decide (ToLower (config.log_Env cfg) = "dev"%string) then inl (newDevHandler new w level)
  else inr (NewJSONHandler w level).

(** [slog.Logger.log], for arguments that are pairs; it ignores the error of the handler. *)
Definition log (l : Z) (h : handler) (msg : string) (args : list Attr) : M S unit :=
  if negb (Enabled (S := S) h l) then mret tt
  else
    t ← (λ s, (Ok (log_Time s), s));
    attempt (Handle h {| rec_Time := t; rec_Level := l; rec_Message := msg; rec_Attrs := args |});;
    mret tt.

Definition Debug := log slog_LevelDebug.
Definition Info := log slog_LevelInfo.
Definition Warn := log slog_LevelWarn.
Definition Error := log slog_LevelError.

(** [os.Exit(1)]: the status the process ends with. *)
Definition Fatal (h : handler) (msg : string) (args : list Attr) : M S Z :=
  Error h msg args;;
  mret 1.

Definition New (new : Mutex) (cfg : config.LogConfig) : handler := NewWithWriter new os_Stdout cfg.

Definition With (h : handler) (key value : string) : handler :=
  WithAttrs (S := S) [{| a_Key := key; a_Value := value |}] h.

(** ** context.go: the logger in a context, and the default *)

Definition WithContext (ctx : option handler) (l : handler) : option handler := Some l.
Definition FromContext (globalDefault : handler) (ctx : option handler) : handler :=
  match ctx with Some l => l | None => globalDefault end.

(** ** middleware.go *)

(** [statusWriter], around the writer of the response. *)
Record statusWriter := { inner : ResponseWriter; sw_status : Z; bytesOut : Z }.

Context (chunk_len : chunk → Z).

Definition sw_WriteHeader (code : Z) (sw : statusWriter) : statusWriter :=
  {| inner := WriteHeader code (inner sw); sw_status := code; bytesOut := bytesOut sw |}.

Definition sw_Write (b : chunk) (sw : statusWriter) : statusWriter := {|
  inner := Write b (inner sw);
  sw_status := if sw_status sw =? 0 then StatusOK else sw_status sw;
  bytesOut := bytesOut sw + chunk_len b |}.

(** The writer a handler leaves has its status and its body; the status is 0 when
    nothing was written. *)
Definition statusWriter_of (w : ResponseWriter) : statusWriter := {|
  inner := w; sw_status := default 0 (status w); bytesOut := foldr (λ b n, chunk_len b + n) 0 (w_Body w) |}.

Context `{ratelimit.NetText} `{Entropy S} `{Uuid} (Milliseconds : S → S → Z).

Definition completed (r : Request) (sw : statusWriter) (duration : Z) : list Attr := [
  {| a_Key := "method"; a_Value := r_Method r |};
  {| a_Key := "path"; a_Value := str (mux.pathUnescape (unstr (r_Path r))) |};
  {| a_Key := "status"; a_Value := pretty (sw_status sw) |};
  {| a_Key := "duration_ms"; a_Value := pretty duration |};
  {| a_Key := "remote_ip"; a_Value := ratelimit.clientIP r |};
  {| a_Key := "user_agent"; a_Value := r_Header r "User-Agent" |};
  {| a_Key := "bytes_out"; a_Value := pretty (bytesOut sw) |}].

Definition request_id (r : Request) : M S string :=
  let requestID := TrimSpace (r_Header r "X-Request-Id") in
  if http.is_empty requestID then id ← uuid_New; mret (uuid_String id) else mret requestID.

Definition Middleware (log : handler) (next : option handler → Handler S) : Handler S := λ w r,
  requestID ← request_id r;
  let reqLog := With log "request_id" requestID in
  let ctx := WithContext None reqLog in
  start ← (λ s, (Ok s, s));
  w ← next ctx w r;
  finish ← (λ s, (Ok s, s));
  Info reqLog "request completed" (completed r (statusWriter_of w) (Milliseconds start finish));;
  mret w.
End handlers.

(** Where the writer of the log has no effect on the state, the middleware draws an
    identifier and runs the handler under the logger that carries it. *)
Section quiet.
Context {S J : Type} `{Sink S} `{Mutexes S} `{!slog_Handler S J} `{LogTime S} (chunk_len : chunk → Z)
  `{ratelimit.NetText} `{Entropy S} `{Uuid} (Milliseconds : S → S → Z).
Context (Hquiet : ∀ w b s, sink_Write w b s = (Ok tt, s)).
Context (Hlock : ∀ m s, mutex_Lock m s = (Ok tt, s)) (Hunlock : ∀ m s, mutex_Unlock m s = (Ok tt, s)).

Lemma print_attrs_quiet w l s : print_attrs w l s = (Ok tt, s).
Proof using Hquiet.
  assert (Hp : ∀ text s, Fprint w text s = (Ok tt, s)).
  { intros text s0. unfold Fprint. by rewrite (M_bind_attempt_run _ _ _ _ _ (Hquiet _ _ _)). }
  revert s. induction l as [|a l IH]; intros s; [done|]. cbn. by rewrite (M_bind_run _ _ _ _ _ (Hp _ _)).
Qed.

Lemma dev_Handle_quiet h r s : dev_Handle h r s = (Ok tt, s).
Proof using Hquiet Hlock Hunlock.
  assert (Hp : ∀ text s, Fprint (dev_w h) text s = (Ok tt, s)).
  { intros text s0. unfold Fprint. by rewrite (M_bind_attempt_run _ _ _ _ _ (Hquiet _ _ _)). }
  unfold dev_Handle. destruct (negb _); [done|].
  rewrite (M_bind_run _ _ _ _ _ (Hlock _ _)), (M_bind_run _ _ _ _ _ (Hp _ _)).
  rewrite !(M_bind_run _ _ _ _ _ (print_attrs_quiet _ _ _)), (M_bind_run _ _ _ _ _ (Hp _ _)). apply Hunlock.
Qed.

Lemma Middleware_quiet h (next : option (handler (J := J)) → Handler S) w r s :
  Middleware chunk_len Milliseconds (inl h) next w r s =
  (id ← request_id r; next (Some (With (S := S) (inl h) "request_id" id)) w r) s.
Proof using Hquiet Hlock Hunlock.
  unfold Middleware, WithContext, mbind, M_bind. destruct (request_id r s) as [[id|e] s1]; [|done]. cbv zeta.
  destruct (next _ w r s1) as [[resp|e] s2]; [|done].
  assert (Hi : ∀ args, Info (S := S) (J := J) (With (S := S) (J := J) (inl h) "request_id" id)
    "request completed" args s2 = (Ok tt, s2)).
  { intros args. unfold Info, log. destruct (negb _); [done|].
    unfold mbind, M_bind, attempt. cbn. by rewrite dev_Handle_quiet. }
  by rewrite Hi.
Qed.
End quiet.

(** ** What a writer sees of the response

    Where the status is written at most once, before the body, the wrapper has the
    status that was sent and the length of the body. *)

Section status_writer.
Context (chunk_len : chunk → Z).

Inductive response_op :=
  | CallWriteHeader (code : Z)
  | CallWrite (b : chunk).

Definition run_op (sw : statusWriter) (o : response_op) : statusWriter :=
  match o with
  | CallWriteHeader code => sw_WriteHeader code sw
  | CallWrite b => sw_Write chunk_len b sw
  end.

Definition fresh : statusWriter := {| inner := NewResponseWriter; sw_status := 0; bytesOut := 0 |}.

Lemma total_len_snoc l b n :
  foldr (λ b n, chunk_len b + n) n (l ++ [b]) = foldr (λ b n, chunk_len b + n) n l + chunk_len b.
Proof. induction l as [|c l IH]; cbn; lia. Qed.

Lemma writes_tracked bs sw :
  sw = statusWriter_of chunk_len (inner sw) → status (inner sw) ≠ Some 0 →
  foldl run_op sw (CallWrite <$> bs) = statusWriter_of chunk_len (inner (foldl run_op sw (CallWrite <$> bs))).
Proof.
  revert sw. induction bs as [|b bs IH]; intros [w st n] Hsw H0; [exact Hsw|]. injection Hsw as -> ->. apply IH.
  - cbn. unfold sw_Write, statusWriter_of, status in *. cbn in *.
    destruct (w_Sent w) as [[[code h] c]|]; cbn in *; rewrite total_len_snoc; [|done].
    by destruct (Z.eqb_spec code 0) as [->|].
  - unfold status in *. cbn in *. by destruct (w_Sent w) as [[[code h] c]|].
Qed.

Lemma statusWriter_tracks code bs :
  code ≠ 0 →
  let ops := CallWriteHeader code :: (CallWrite <$> bs) in
  foldl run_op fresh ops = statusWriter_of chunk_len (inner (foldl run_op fresh ops)).
Proof. intros Hc. cbn. apply writes_tracked; [reflexivity|]. cbn. congruence. Qed.
End status_writer.

(** ** Lines of the log *)

(** The lines of a text that end. *)
Definition lines (b : bytes) : nat := length (filter (λ c, c = newline) b).
Definition nl (s : string) : nat := lines (unstr s).

Lemma lines_app a b : lines (a ++ b) = (lines a + lines b)%nat.
Proof. unfold lines. by rewrite filter_app, length_app. Qed.

Lemma nl_app a b : nl (a +:+ b) = (nl a + nl b)%nat.
Proof. unfold nl. by rewrite unstr_app, lines_app. Qed.

Lemma nl_pretty_N (n : N) : nl (pretty n) = 0%nat.
Proof.
  assert (Hgo : ∀ s, nl s = 0%nat → nl (pretty_N_go n s) = 0%nat).
  { induction (N.lt_wf_0 n) as [x _ IH]; intros s Hs.
    assert (x = 0 ∨ 0 < x)%N as [->|Hx] by lia; [done|]. rewrite pretty_N_go_step by done.
    apply IH; [by apply N.div_lt|]. rewrite <- Hs. change (String ?c s) with (String c EmptyString +:+ s).
    rewrite nl_app. unfold pretty_N_char. by repeat case_match. }
  unfold pretty, pretty_N. case_decide; [done|by apply Hgo].
Qed.

Lemma nl_pretty (z : Z) : nl (pretty z) = 0%nat.
Proof.
  destruct z as [|p|p]; [done|exact (nl_pretty_N (N.pos p))|].
  change (pretty (Z.neg p)) with ("-" +:+ pretty (N.pos p)). rewrite nl_app. exact (nl_pretty_N (N.pos p)).
Qed.

Lemma nl_pad5 s : nl (pad5 s) = nl s.
Proof.
  unfold pad5. rewrite nl_app. unfold nl at 2. rewrite unstr_str.
  assert (Hn : ∀ n, lines (replicate n " "%char) = 0%nat) by (induction n as [|n IH]; [done|exact IH]).
  rewrite Hn. lia.
Qed.

Section lines.
Context {S J : Type} `{Sink S} `{Mutexes S} `{!slog_Handler S J} `{LogTime S} (chunk_len : chunk → Z)
  `{ratelimit.NetText} `{Entropy S} `{Uuid} (Milliseconds : S → S → Z).

(** The sink keeps what is written, and neither the clock, the generator of identifiers
    nor a mutex, which is free, writes to it; a time is one line. *)
Class Logged := {
  logged : S → bytes;
  sink_appends w b s : ∃ s', sink_Write w b s = (Ok tt, s') ∧ logged s' = logged s ++ b;
  lock_unlogged m s : ∃ s', mutex_Lock m s = (Ok tt, s') ∧ logged s' = logged s;
  unlock_unlogged m s : ∃ s', mutex_Unlock m s = (Ok tt, s') ∧ logged s' = logged s;
  uuid_unlogged s : ∃ id s', uuid_New s = (Ok id, s') ∧ logged s' = logged s;
  time_one_line s : nl (log_Time s) = 0%nat;
}.
Context `{!Logged}.

Definition attr_lines (a : Attr) : nat := (nl (a_Key a) + nl (a_Value a))%nat.

Lemma nl_attr a : nl (attr_text a) = attr_lines a.
Proof.
  unfold attr_text, attr_lines. rewrite !nl_app. change (nl " ") with 0%nat. change (nl colorCyan) with 0%nat.
  change (nl "=") with 0%nat. change (nl colorReset) with 0%nat. lia.
Qed.

Lemma Fprint_run w text s : ∃ s', Fprint w text s = (Ok tt, s') ∧ lines (logged s') = (lines (logged s) + nl text)%nat.
Proof.
  destruct (sink_appends w (unstr text) s) as (s' & Hw & Hl). exists s'. unfold Fprint.
  rewrite (M_bind_attempt_run _ _ _ _ _ Hw). by rewrite Hl, lines_app.
Qed.

Lemma print_attrs_run w l s :
  ∃ s', print_attrs w l s = (Ok tt, s') ∧ lines (logged s') = (lines (logged s) + sum_list_with attr_lines l)%nat.
Proof.
  revert s. induction l as [|a l IH]; intros s; cbn [print_attrs sum_list_with]; [exists s; split; [done|lia]|].
  destruct (Fprint_run w (attr_text a) s) as (s1 & Hp & Hl). destruct (IH s1) as (s2 & Hr & Hl2).
  exists s2. rewrite (M_bind_run _ _ _ _ _ Hp). split; [exact Hr|]. rewrite Hl2, Hl.
  rewrite nl_attr. lia.
Qed.

Lemma nl_head r : nl (rec_Time r) = 0%nat → nl (head_text r) = nl (rec_Message r).
Proof.
  intros Ht. unfold head_text. cbv zeta. rewrite !nl_app, Ht, nl_pad5. unfold levelColor.
  by repeat case_match.
Qed.

(** One record is one line, and one more for each line its texts hold. *)
Lemma dev_Handle_run h r s :
  dev_Enabled h (rec_Level r) = true → nl (rec_Time r) = 0%nat →
  ∃ s', dev_Handle h r s = (Ok tt, s') ∧
    lines (logged s') = (lines (logged s) + 1 + nl (rec_Message r) + sum_list_with attr_lines (attrs h)
      + sum_list_with attr_lines (rec_Attrs r))%nat.
Proof.
  intros He Ht. unfold dev_Handle. rewrite He. cbn [negb].
  destruct (lock_unlogged (mu h) s) as (s0 & H0' & L0). rewrite (M_bind_run _ _ _ _ _ H0').
  destruct (Fprint_run (dev_w h) (head_text r) s0) as (s1 & H1' & L1). rewrite (M_bind_run _ _ _ _ _ H1').
  destruct (print_attrs_run (dev_w h) (attrs h) s1) as (s2 & H2' & L2). rewrite (M_bind_run _ _ _ _ _ H2').
  destruct (print_attrs_run (dev_w h) (rec_Attrs r) s2) as (s3 & H3' & L3). rewrite (M_bind_run _ _ _ _ _ H3').
  destruct (Fprint_run (dev_w h) (str [newline]) s3) as (s4 & H4' & L4). rewrite (M_bind_run _ _ _ _ _ H4').
  destruct (unlock_unlogged (mu h) s4) as (s5 & H5' & L5). exists s5. split; [exact H5'|].
  rewrite L5, L4, L3, L2, L1, L0, nl_head by done. change (nl (str [newline])) with 1%nat. lia.
Qed.

Lemma request_id_run r s : ∃ id s', request_id r s = (Ok id, s') ∧ logged s' = logged s.
Proof.
  unfold request_id. destruct (http.is_empty _); [|by eexists _, s].
  destruct (uuid_unlogged s) as (id & s' & Hid & Hl). exists (uuid_String id), s'.
  by rewrite (M_bind_run _ _ _ _ _ Hid).
Qed.

(** C35: With development logs at a level of at most info, and a handler that logs
    nothing itself, a request is answered as the handler does and logged as one line,
    and one more for every newline in its identifier, method, path, address and user
    agent: the path is logged unescaped, so %0a in it starts a line of the log with a
    text the client chooses. *)
Theorem request_log_lines h next w r s resp s' :
  level h ≤ slog_LevelInfo → (∀ ctx s1, logged (next ctx w r s1).2 = logged s1) →
  Middleware chunk_len Milliseconds (inl h) next w r s = (Ok resp, s') →
  ∃ id s1, (request_id r s).1 = Ok id ∧ next (Some (With (S := S) (J := J) (inl h) "request_id" id)) w r s1 =
      (Ok resp, (next (Some (With (S := S) (J := J) (inl h) "request_id" id)) w r s1).2) ∧
    lines (logged s') = (lines (logged s) + 1 + sum_list_with attr_lines (attrs h) + nl id +
      nl (r_Method r) + nl (str (mux.pathUnescape (unstr (r_Path r)))) + nl (ratelimit.clientIP r) +
      nl (r_Header r "User-Agent"))%nat.
Proof.
  intros Hlevel Hnext Hr. unfold Middleware in Hr.
  destruct (request_id_run r s) as (id & s1 & Hid & Hs1). rewrite (M_bind_run _ _ _ _ _ Hid) in Hr. cbv zeta in Hr.
  apply M_bind_inv in Hr as [(start & s2 & Hstart & Hr)|(e & ? & ?)]; [|done]. injection Hstart as <- <-.
  apply M_bind_inv in Hr as [(resp' & s2 & Hn & Hr)|(e & ? & ?)]; [|done].
  pose proof (Hnext (WithContext None (With (S := S) (J := J) (inl h) "request_id" id)) s1) as Hs2.
  rewrite Hn in Hs2. cbn [snd] in Hs2.
  apply M_bind_inv in Hr as [(finish & s3 & Hfinish & Hr)|(e & ? & ?)]; [|done]. injection Hfinish as <- <-.
  set (args := completed _ _ _) in Hr.
  destruct (dev_Handle_run (dev_WithAttrs [{| a_Key := "request_id"; a_Value := id |}] h)
    {| rec_Time := log_Time s2; rec_Level := slog_LevelInfo; rec_Message := "request completed"; rec_Attrs := args |} s2)
    as (s4 & Hh & Hl); [by apply Z.leb_le|apply time_one_line|].
  assert (Hi : Info (S := S) (J := J) (With (S := S) (J := J) (inl h) "request_id" id) "request completed" args s2 = (Ok tt, s4)).
  { unfold Info, log. cbn. unfold dev_Enabled. cbn. rewrite (proj2 (Z.leb_le _ _) Hlevel). cbn.
    unfold mbind, M_bind, attempt. by rewrite Hh. }
  rewrite (M_bind_run _ _ _ _ _ Hi) in Hr. injection Hr as <- <-.
  exists id, s1. rewrite Hid. split; [done|]. unfold WithContext in Hn. split; [by rewrite Hn|].
  rewrite Hl, Hs2, Hs1. cbn [attrs dev_WithAttrs rec_Message rec_Attrs].
  rewrite sum_list_with_app. unfold args, completed. cbn [sum_list_with attr_lines a_Key a_Value].
  unfold attr_lines. cbn [a_Key a_Value]. rewrite !nl_pretty.
  change (nl "request completed") with 0%nat. change (nl "request_id") with 0%nat. change (nl "method") with 0%nat.
  change (nl "path") with 0%nat. change (nl "status") with 0%nat. change (nl "duration_ms") with 0%nat.
  change (nl "remote_ip") with 0%nat. change (nl "user_agent") with 0%nat. change (nl "bytes_out") with 0%nat.
  lia.
Qed.
End lines.

(** ** A request whose path holds a line *)

Module Demo.
Import Sim ratelimit.Demo.
#[export] Existing Instances ratelimit.Demo.demo_text.

(** The state is what was logged; JSON logs are dropped. *)
#[export] Instance demo_sink : Sink bytes := λ _ b s, (Ok tt, s ++ b).
#[export] Instance demo_mutexes : Mutexes bytes := {| mutex_Lock _ := mret tt; mutex_Unlock _ := mret tt |}.
#[export] Instance demo_time : LogTime bytes := λ _, "2026-01-02 15:04:05"%string.
#[export] Instance demo_entropy : Entropy bytes := {|
  rand_bytes n := mret (replicate n "0"%char); uuid_NewV7 := mret uuid_Nil; uuid_New := mret uuid_Nil |}.
#[export] Instance demo_json : slog_Handler bytes unit := {|
  Enabled _ _ := false; Handle _ _ := mret tt; WithAttrs _ h := h |}.

#[export] Instance demo_logged : Logged (S := bytes).
Proof.
  refine {| logged := id |}.
  - intros w b s. by eexists.
  - intros m s. by eexists.
  - intros m s. by eexists.
  - intros s. by eexists _, _.
  - intros s. vm_compute. reflexivity.
Defined.

Definition forged : Request := {|
  r_Method := "GET"; r_Path := "/x%0a2026-01-02%20INFO%20admin%20logged%20in"; r_PathValue _ := EmptyString;
  r_Query _ := EmptyString; r_Header _ := EmptyString; r_Cookies := []; r_Body := []; r_RemoteAddr := "192.0.2.1:1"; r_ProtoAtLeast11 := true;
  r_userID := None |}.

Definition not_found : option (handler (J := unit)) → Handler bytes := λ _ w _,
  mret (http_Error w "404 page not found" StatusNotFound).

Definition served : result ResponseWriter * bytes :=
  Middleware (λ _, 19) (λ _ _, 0) (inl (newDevHandler 0%nat os_Stdout slog_LevelInfo)) not_found NewResponseWriter forged [].

Lemma request_log_lines_witness :
  ∃ resp log, served = (Ok resp, log) ∧ lines log = 2%nat.
Proof.
  destruct served as [[resp|e] log] eqn:Hs; [|by vm_compute in Hs].
  exists resp, log. split; [reflexivity|]. unfold served in Hs.
  destruct (request_log_lines _ _ (newDevHandler 0%nat os_Stdout slog_LevelInfo) not_found NewResponseWriter forged [] resp log ltac:(discriminate) (λ _ _, eq_refl) Hs)
    as (id & s1 & Hid & _ & Hl).
  cbn [logged demo_logged] in Hl. unfold Datatypes.id in Hl. rewrite Hl. vm_compute in Hid. injection Hid as <-.
  vm_compute. reflexivity.
Defined.
End Demo.
End logger.
