(* ===== verification/Server.v ===== *)
(** The server: [NewServer] and the routes of [internal/api/http/http.go], the
    [RegisterRoutes] of the presenters, and the middleware chain of
    [pkg/logger/middleware.go], rate limits and authentication. *)

From S2P Require Import Prelude.
From S2P Require Import Bytes.
From S2P Require Import Platform.
From S2P Require Import Database.
From S2P Require Import Integrity.
From S2P Require Import World.
From S2P Require Import RedisStore.
From S2P Require Import Session.
From S2P Require Import Users.
From S2P Require Import Totp.
From S2P Require Import Sso.
From S2P Require Import Orgs.
From S2P Require Import Filepath.
From S2P Require Import Disk.
From S2P Require Import Repos.
From S2P Require Import Http.
From S2P Require Import HttpAuth.
From S2P Require Import HttpForge.
From S2P Require Import HttpGit.
From S2P Require Import Mux.
From S2P Require Import RateLimit.
From S2P Require Import Config.
From S2P Require Import Logger.
From S2P Require Import Preserves.
From S2P Require Import GoStrings.

Module server.
Import http mux gitroutes.

(** A pattern of literals, from its text. *)
Definition lits (path : string) : list segment := Lit <$> split_byte slash (tail (unstr path)).

Definition route (method path : string) : pattern :=
  {| p_method := method; p_segs := lits path; p_rest := None |}.

Section server.
Context {S : Type} `{user.Repository S} `{session.Repository S} `{session.TokenStore S}
  `{totp.TOTPStore S} `{totp.TotpLib S} `{sso.Repository S} `{sso.StateStore S} `{sso.OAuth}
  `{sso.OAuthClient S} `{organization.Repository S} `{git.Repository S} `{Filesystem S} `{OsErrors}
  `{GitBackend S} `{Entropy S} `{Hasher S} `{Bcrypt} `{Uuid} `{Quoting} `{RedirectURL}.
Context `{JsonDecode accounts.registerRequest} `{JsonDecode accounts.loginRequest}
  `{JsonDecode accounts.totpVerifyRequest} `{JsonDecode forge.createOrganizationRequest}
  `{JsonDecode forge.addOrganizationUserRequest} `{JsonDecode forge.createRepositoryRequest}.

#[export] Instance SessionService_TokenValidator : TokenValidator S := session.Validate.

Context (config : Config S).

(** ** The presenters' routes *)

Definition Routes : Type := list (pattern * Handler S).
Definition Middleware : Type := Handler S → Handler S.

Definition user_RegisterRoutes : Routes := [(route "POST" "/auth/register", accounts.Register)].

Definition session_RegisterRoutes : Routes := [
  (route "POST" "/auth/login", accounts.Login (Secure config));
  (route "POST" "/auth/logout", accounts.Logout (Secure config));
  (route "POST" "/auth/refresh", accounts.Refresh (Secure config))].

Definition sso_RegisterRoutes : Routes := [
  (route "GET" "/auth/google", accounts.GoogleRedirect (SSOService config));
  (route "GET" "/auth/google/callback", accounts.GoogleCallback (SSOService config) (Secure config))].

Definition totp_RegisterRoutes (authMw : Middleware) : Routes := [
  (route "POST" "/auth/totp/setup", authMw (accounts.Setup (TOTPService config)));
  (route "POST" "/auth/totp/verify", authMw accounts.Verify)].

Definition org_RegisterRoutes (authMw : Middleware) : Routes := [
  (route "POST" "/orgs", authMw forge.orgs.Create);
  (route "GET" "/orgs", authMw forge.orgs.List);
  ({| p_method := "POST"; p_segs := [Lit (unstr "orgs"); Wild "orgID"; Lit (unstr "users")]; p_rest := None |},
   authMw forge.orgs.AddUser)].

Definition repo_RegisterRoutes (authMw : Middleware) : Routes := [
  (route "POST" "/repos", authMw (forge.repos.Create (ReposDir config)));
  (route "GET" "/repos", authMw forge.repos.List);
  ({| p_method := "DELETE"; p_segs := [Lit (unstr "repos"); Wild "id"]; p_rest := None |},
   authMw forge.repos.Delete)].

(** ** http.go *)

Definition authChain : Middleware := λ next,
  let h := match UserRateLimit config with Some limit => limit next | None => next end in
  Auth h.

Definition registerAuthRoutes : Routes :=
  user_RegisterRoutes ++ session_RegisterRoutes ++ sso_RegisterRoutes ++
  totp_RegisterRoutes authChain ++ org_RegisterRoutes Auth ++ repo_RegisterRoutes Auth.

Definition registerGitRoutes : Routes := [
  (route "GET" "/healthz", handleHealthz config);
  ({| p_method := "GET"; p_segs := []; p_rest := Some "path"%string |}, handleGitGet config);
  ({| p_method := "POST"; p_segs := []; p_rest := Some "path"%string |}, handleGitPost config)].

Definition routes : Routes := registerAuthRoutes ++ registerGitRoutes.

(** [logger.Middleware] without its log: the writer of the log and its mutex have no
    effect on the state of a server ([Middleware_quiet] of Logger.v), and no handler uses
    the logger of its context but to log. *)
Definition logger_Middleware : Middleware := λ next w r,
  logger.request_id r;;
  next w r.

(** logger, then the limit per address, then the routes. *)
Definition NewServer : Handler S :=
  let h := mux.ServeHTTP routes in
  let h := match IPRateLimit config with Some limit => limit h | None => h end in
  logger_Middleware h.
End server.

(** ** cmd/http-api/main.go: the server of a configuration *)

Section main.
Context {S : Type} `{ratelimit.FloatTime} `{Clock S} `{ratelimit.ScriptRunner S} `{ratelimit.NetText} `{Uuid}.

(** The user of the context, as text. *)
Definition extractUser (r : Request) : option string :=
  match UserIDFromContext r with
  | None => None
  | Some uid => Some (uuid_String uid)
  end.

(** [dbPool.Ping] and [redisStore.Client().Ping], with a deadline. *)
Context (db_Ping redis_Ping : Z → M S unit).

Definition main_Config (cfg : config.Config) : Config S := {|
  ReposDir := config.ReposDir cfg;
  SSOService := sso.NewService (config.Google cfg);
  TOTPService := config.TOTPIssuer cfg;
  Secure := config.SecureCookies cfg;
  IPRateLimit := Some (ratelimit.IPMiddleware ratelimit.Allow
    (config.IPRate (config.RateLimit cfg)) (config.IPBurst (config.RateLimit cfg)));
  UserRateLimit := Some (ratelimit.UserMiddleware ratelimit.Allow extractUser
    (config.UserRate (config.RateLimit cfg)) (config.UserBurst (config.RateLimit cfg)));
  AppVersion := config.AppVersion cfg;
  DBHealth := Some db_Ping;
  RedisHealth := Some redis_Ping;
  HealthcheckTimeout := config.HealthcheckTimeout cfg;
|}.
End main.

(** ** The database under requests *)

#[export] Existing Instances user.Store_Repository session.PGStore_Repository session.RedisTokenStore
  session.World_View session.World_Backend
  totp.RedisStore_TOTPStore totp.World_TotpLib sso.PGStore_Repository sso.RedisStateStore
  sso.World_OAuthClient organization.Store_Repository git.Store_Repository.

Section invariants.
Context {R D : Type} `{RedisLaws R} `{PostgresLaws} `{OracleLaws} `{Bcrypt} `{Uuid} `{Totp.Totp} `{sso.OAuth}
  `{Disk D} `{OsErrors} `{Backend D} `{Quoting} `{RedirectURL}.
Context `{JsonDecode accounts.registerRequest} `{JsonDecode accounts.loginRequest}
  `{JsonDecode accounts.totpVerifyRequest} `{JsonDecode forge.createOrganizationRequest}
  `{JsonDecode forge.addOrganizationUserRequest} `{JsonDecode forge.createRepositoryRequest}.
Implicit Types (w : World R D) (r : Request).

Ltac schema :=
  let Hd := fresh in let Hst := fresh in
  intros ? ? ? ? ? Hst Hd; refine (sql_statement_keeps _ _ _ _ _ _ _ Hd Hst); constructor.

Definition forge_tables d := (organizations d, organization_users d, git_repository d).

(** The organizations, members and repositories are those of [d0]. *)
Definition forge_is (d0 d : Database) : Prop := forge_tables d = forge_tables d0.

Ltac frame :=
  let Hst := fresh in let Hd := fresh in
  intros ? ? ? ? ? Hst Hd; unfold_statement Hst; statement_inv Hst; exact Hd.

(** The Redis script and the pings leave the database alone, and the script the
    access tokens: its keys begin with [rl:]. *)
Class Outside (runner : ratelimit.ScriptRunner (World R D)) (db_Ping redis_Ping : Z → M (World R D) unit) : Prop := {
  script_outside key rate burst now w :
    let w' := (ratelimit.script_Run key rate burst now w).2 in
    db w' = db w ∧ clock w ≤ clock w' ∧ ∀ τ t, session.access w' τ t = session.access w τ t;
  db_Ping_outside d : db_free (db_Ping d);
  redis_Ping_outside d : db_free (redis_Ping d);
}.

Context `{ratelimit.FloatTime} `{!ratelimit.ScriptRunner (World R D)} `{ratelimit.NetText}.
Context {db_Ping redis_Ping : Z → M (World R D) unit} `{!Outside _ db_Ping redis_Ping}.
Context (cfg : config.Config).

Abbreviation srv := (main_Config db_Ping redis_Ping cfg).

(** What a handler does to the database. *)
Definition handler_preserves (P : Database → Prop) (h : Handler (World R D)) : Prop :=
  ∀ wr r, preserves P (h wr r).

Ltac each_route leaf :=
  cbn [app user_RegisterRoutes session_RegisterRoutes sso_RegisterRoutes];
  repeat (apply Forall_cons_2; [intros wr r; cbn [snd]; keep leaf|]); apply Forall_nil_2.

Lemma account_handlers_schema :
  Forall (λ x, handler_preserves Integrity x.2)
    (user_RegisterRoutes ++ session_RegisterRoutes srv ++ sso_RegisterRoutes srv).
Proof. each_route schema. Qed.

Lemma account_handlers_frame d0 :
  Forall (λ x, handler_preserves (forge_is d0) x.2)
    (user_RegisterRoutes ++ session_RegisterRoutes srv ++ sso_RegisterRoutes srv).
Proof. each_route frame. Qed.

Lemma Allow_db_free key rate burst : db_free (ratelimit.Allow (S := World R D) key rate burst).
Proof.
  intros w. unfold ratelimit.Allow. cbv zeta. unfold mbind, M_bind, mwrap, time_Now, World_Clock.
  match goal with |- context [ratelimit.script_Run ?k ?x ?b ?now w] =>
    pose proof (script_outside k x b now w) as (Hd & _) end.
  destruct (ratelimit.script_Run _ _ _ _ w) as [[res|e] w1]; exact Hd.
Qed.

Lemma limited_preserves P key rate burst next :
  handler_preserves P next → handler_preserves P (ratelimit.limited ratelimit.Allow key rate burst next).
Proof.
  intros Hn wr r. unfold ratelimit.limited.
  apply preserves_bind; [apply preserves_attempt, db_free_preserves, Allow_db_free|].
  intros [[[[] n] d]|e]; cbn [negb]; [apply Hn|apply preserves_ret|apply Hn].
Qed.

Lemma IPMiddleware_preserves P n b next :
  handler_preserves P next → handler_preserves P (ratelimit.IPMiddleware ratelimit.Allow n b next).
Proof. intros Hn wr r. by apply limited_preserves. Qed.

Lemma UserMiddleware_preserves P n b next :
  handler_preserves P next →
  handler_preserves P (ratelimit.UserMiddleware ratelimit.Allow extractUser n b next).
Proof.
  intros Hn wr r. unfold ratelimit.UserMiddleware. destruct (extractUser r) as [uid|]; [|apply Hn].
  destruct (is_empty uid); [apply Hn|by apply limited_preserves].
Qed.

Lemma Auth_preserves P next : handler_preserves P next → handler_preserves P (Auth next).
Proof.
  intros Hn wr r. unfold Auth, validator_Validate, SessionService_TokenValidator. cbv zeta.
  destruct (bool_decide _); [apply preserves_ret|].
  apply preserves_bind; [|intros [u|e]; [apply Hn|apply preserves_ret]]. keep idtac.
Qed.

Lemma forge_handlers_schema :
  Forall (λ x, handler_preserves Integrity x.2)
    (totp_RegisterRoutes srv (authChain srv) ++ org_RegisterRoutes Auth ++ repo_RegisterRoutes srv Auth).
Proof.
  cbn [app totp_RegisterRoutes org_RegisterRoutes repo_RegisterRoutes]. unfold authChain.
  repeat (apply Forall_cons_2; [cbn [snd]; apply Auth_preserves; first [apply UserMiddleware_preserves|idtac];
    intros wr r; keep schema|]). apply Forall_nil_2.
Qed.

Lemma git_handlers_preserve P : Forall (λ x, handler_preserves P x.2) (registerGitRoutes srv).
Proof.
  assert (Hping : ∀ d, db_free (db_Ping d) ∧ db_free (redis_Ping d)).
  { intros d. split; [apply db_Ping_outside|apply redis_Ping_outside]. }
  apply Forall_cons_2; [|apply Forall_cons_2; [|apply Forall_cons_2; [|apply Forall_nil_2]]];
    intros wr r; cbn [snd].
  - unfold handleHealthz, healthy. cbn [main_Config DBHealth RedisHealth].
    repeat first [apply preserves_ret | apply preserves_attempt | apply db_free_preserves; apply Hping
                 | apply preserves_bind; [|intros ?] | progress cbv zeta
                 | match goal with |- preserves _ (if ?b then _ else _) => destruct b end].
  - keep idtac.
  - keep idtac.
Qed.

Lemma routes_schema : Forall (λ x, handler_preserves Integrity x.2) (routes srv).
Proof.
  unfold routes, registerAuthRoutes.
  pose proof account_handlers_schema as Ha. pose proof forge_handlers_schema as Hf.
  pose proof (git_handlers_preserve Integrity) as Hg. rewrite !Forall_app in *. tauto.
Qed.

Lemma ServeHTTP_preserves P routes :
  Forall (λ x, handler_preserves P x.2) routes → handler_preserves P (mux.ServeHTTP routes).
Proof.
  intros Hr wr r. unfold mux.ServeHTTP. cbv zeta. destruct (bool_decide (r_Path r = _)); [apply preserves_ret|]. destruct (negb _); [apply preserves_ret|].
  destruct (match_method _ _ _) as [[[p h] ms]|] eqn:Hm.
  - apply match_method_elem in Hm as [p' Hin]. apply list_elem_of_fmap in Hin as ([p0 h0] & [= -> -> ->] & Hin).
    rewrite Forall_forall in Hr. exact (Hr _ Hin wr _).
  - destruct (matchingMethods _ _); apply preserves_ret.
Qed.

Lemma NewServer_preserves P :
  Forall (λ x, handler_preserves P x.2) (routes srv) → handler_preserves P (NewServer srv).
Proof.
  intros Hr wr r. unfold NewServer, logger_Middleware, logger.request_id. cbn [main_Config IPRateLimit]. cbv zeta.
  apply preserves_bind.
  - destruct (is_empty _); [|apply preserves_ret]. apply preserves_bind; [|intros ?; apply preserves_ret].
    apply db_free_preserves, uuid_db_free.
  - intros _. by apply IPMiddleware_preserves, ServeHTTP_preserves.
Qed.

Lemma request_schema wr r w : Integrity (db w) → Integrity (db (NewServer srv wr r w).2).
Proof. apply (NewServer_preserves Integrity routes_schema). Qed.

(** Requests one after the other. *)
Definition serve_all (rs : list Request) w : World R D :=
  foldl (λ w r, (NewServer srv NewResponseWriter r w).2) w rs.

(** Served one after the other, requests of any kind leave a database that satisfies the
    schema when it did before: the tables reachable through the server are those the
    constraints allow. *)
Theorem requests_keep_schema rs w : Integrity (db w) → Integrity (db (serve_all rs w)).
Proof.
  revert w. induction rs as [|r rs IH]; intros w Hi; [done|]. apply IH.
  by apply request_schema.
Qed.

(** *** Who changes organizations, members and repositories *)

Definition unchanged w w' : Prop :=
  db w' = db w ∧ clock w ≤ clock w' ∧ ∀ τ t, session.access w' τ t = session.access w τ t.

#[local] Instance unchanged_preorder : PreOrder unchanged.
Proof.
  split; [done|]. intros w1 w2 w3 (Hd1 & Hc1 & Ha1) (Hd2 & Hc2 & Ha2).
  split_and!; [by rewrite Hd2|lia|]. intros τ t. by rewrite Ha2.
Qed.

Lemma unchanged_tick w : unchanged w (tick w).
Proof. split; [done|]. split; [apply tick_clock|done]. Qed.

Lemma Allow_unchanged key rate burst w : unchanged w (ratelimit.Allow key rate burst w).2.
Proof.
  unfold ratelimit.Allow. cbv zeta. unfold mbind, M_bind, mwrap, time_Now, World_Clock.
  match goal with |- context [ratelimit.script_Run ?k ?x ?b ?now w] =>
    pose proof (script_outside k x b now w) as Hw end.
  destruct (ratelimit.script_Run _ _ _ _ w) as [[res|e] w1]; exact Hw.
Qed.

Lemma routes_guarded d0 :
  Forall (λ x, handler_preserves (forge_is d0) x.2 ∨ ∃ h, x.2 = Auth h) (routes srv).
Proof.
  unfold routes, registerAuthRoutes.
  pose proof (account_handlers_frame d0) as Ha. pose proof (git_handlers_preserve (forge_is d0)) as Hg.
  assert (Hf : Forall (λ x, ∃ h, x.2 = Auth h)
    (totp_RegisterRoutes srv (authChain srv) ++ org_RegisterRoutes Auth ++ repo_RegisterRoutes srv Auth)).
  { repeat (apply Forall_cons_2; [by eexists|]). apply Forall_nil_2. }
  rewrite !Forall_app in *. destruct Ha as (Ha1 & Ha2 & Ha3), Hf as (Hf1 & Hf2 & Hf3).
  assert (Hl : ∀ l, Forall (λ x, handler_preserves (forge_is d0) x.2) l →
    Forall (λ x : pattern * Handler (World R D), handler_preserves (forge_is d0) x.2 ∨ ∃ h, x.2 = Auth h) l).
  { intros l Hx. eapply Forall_impl; [exact Hx|]. auto. }
  assert (Hr : ∀ l, Forall (λ x, ∃ h, x.2 = Auth h) l →
    Forall (λ x : pattern * Handler (World R D), handler_preserves (forge_is d0) x.2 ∨ ∃ h, x.2 = Auth h) l).
  { intros l Hx. eapply Forall_impl; [exact Hx|]. auto. }
  auto 10.
Qed.

(** A handler behind [Auth] runs as the user of a valid token, or not at all. *)
Lemma Auth_run next wr r w :
  Integrity (db w) →
  (∃ τ v u w1, clock w ≤ τ ∧ session.access w τ (extractAccessToken r) = Some v ∧ uuid_Parse v = Ok u ∧
     Auth next wr r w = next wr (with_userID u r) w1) ∨
  unchanged w (Auth next wr r w).2.
Proof.
  intros Hi. unfold Auth. destruct (bool_decide _); [by right|].
  destruct (validator_Validate (extractAccessToken r) w) as [v w1] eqn:Hv.
  rewrite (M_bind_attempt_run _ _ _ _ _ Hv).
  unfold validator_Validate, SessionService_TokenValidator, session.Validate in Hv.
  assert (Hdb : db w1 = db w).
  { assert (Hk : preserves (λ d, d = db w) (session.ValidateAccess (S := World R D) (extractAccessToken r)))
      by keep idtac.
    specialize (Hk w eq_refl). by rewrite Hv in Hk. }
  apply session.ValidateAccess_inv in Hv as ((Hl & _ & Ha & _) & Hv); [|exact Hi].
  assert (Hu : unchanged w w1) by (split; [done|]; split; [apply Hl|exact Ha]).
  destruct v as [u|e]; [left|by right].
  destruct Hv as [(t & Ht & _ & Hp)|?]; [|done]. exists (session.now w1), t, u, w1.
  split; [apply Hu|]. split; [exact Ht|]. split; [by symmetry|done].
Qed.

Lemma ServeHTTP_guarded wr r w :
  Integrity (db w) →
  (∃ p next ms τ v u w1, (p, Auth next) ∈ routes srv ∧ clock w ≤ τ ∧
     session.access w τ (extractAccessToken r) = Some v ∧ uuid_Parse v = Ok u ∧
     mux.ServeHTTP (routes srv) wr r w = next wr (with_userID u (with_PathValue ms r)) w1) ∨
  forge_tables (db (mux.ServeHTTP (routes srv) wr r w).2) = forge_tables (db w).
Proof.
  intros Hi. unfold mux.ServeHTTP. cbv zeta. destruct (bool_decide (r_Path r = _)); [by right|]. destruct (negb _); [by right|].
  destruct (match_method _ _ _) as [[[p h] ms]|] eqn:Hm; [|right; by destruct (matchingMethods _ _)].
  apply match_method_elem in Hm as [p' Hin]. apply list_elem_of_fmap in Hin as ([p0 h0] & [= -> -> ->] & Hin).
  pose proof (routes_guarded (db w)) as Hr. rewrite Forall_forall in Hr.
  destruct (Hr _ Hin) as [Hp|[next Hh]]; [right; by apply Hp|]. cbn in Hh. subst h0.
  destruct (Auth_run next wr (with_PathValue (zip (names p0) ms) r) w Hi)
    as [(τ & v & u & w1 & Hτ & Hv & Hu & Hrun)|(Hdb & _)].
  - left. exists p0, next, (zip (names p0) ms), τ, v, u, w1. done.
  - right. by rewrite Hdb.
Qed.

(** Whatever the request, if serving it changes an organization, a membership or a
    repository, then its access token named a user when it was checked, and all the rest
    was done by a handler registered behind Auth, run as that user. *)
Theorem forge_changes_authenticated wr r w :
  Integrity (db w) →
  forge_tables (db (NewServer srv wr r w).2) ≠ forge_tables (db w) →
  ∃ p next ms τ v u wr1 w1, (p, Auth next) ∈ routes srv ∧ clock w ≤ τ ∧
    session.access w τ (extractAccessToken r) = Some v ∧ uuid_Parse v = Ok u ∧
    NewServer srv wr r w = next wr1 (with_userID u (with_PathValue ms r)) w1.
Proof.
  intros Hi Hne. unfold NewServer, logger_Middleware, logger.request_id in *. cbn [main_Config IPRateLimit] in *. cbv zeta in *.
  set (requestID := if is_empty _ then _ else _) in *.
  assert (Hid : ∃ id w1, requestID w = (Ok id, w1) ∧ unchanged w w1).
  { subst requestID. destruct (is_empty _); [|by eexists _, w].
    eexists _, (tick w). split; [done|apply unchanged_tick]. }
  destruct Hid as (id & w1 & Hid & Hu1). rewrite (M_bind_run _ _ _ _ _ Hid) in *.
  unfold ratelimit.IPMiddleware, ratelimit.limited in *.
  match type of Hne with context [attempt ?allow] => destruct (allow w1) as [res w2] eqn:Hallow end.
  rewrite (M_bind_attempt_run _ _ _ _ _ Hallow) in *.
  assert (Hu : unchanged w w2).
  { etrans; [exact Hu1|]. replace w2 with (ratelimit.Allow (S := World R D) ("rl:ip:" +:+ ratelimit.clientIP r)
      (n_div (of_Z (config.IPRate (config.RateLimit cfg))) (of_Z 60))
      (config.IPBurst (config.RateLimit cfg)) w1).2 by by rewrite Hallow.
    apply Allow_unchanged. }
  destruct Hu as (Hdb & Hc & Ha). rewrite <- Hdb in Hne, Hi.
  assert (Hserve : ∀ wr', forge_tables (db (mux.ServeHTTP (routes srv) wr' r w2).2) ≠ forge_tables (db w2) →
    ∃ p next ms τ v u wr1 w1, (p, Auth next) ∈ routes srv ∧ clock w ≤ τ ∧
    session.access w τ (extractAccessToken r) = Some v ∧ uuid_Parse v = Ok u ∧
    mux.ServeHTTP (routes srv) wr' r w2 = next wr1 (with_userID u (with_PathValue ms r)) w1).
  { intros wr' Hx. destruct (ServeHTTP_guarded wr' r w2 Hi) as [(p & next & ms & τ & v & u & w3 & Hin & Hτ & Hv & Hp & Hrun)|?]; [|done].
    exists p, next, ms, τ, v, u, wr', w3. split_and!; [done|lia| |done|done]. by rewrite <- Ha. }
  destruct res as [[[[] n] d]|e]; cbn [negb] in *; [by apply Hserve|by destruct Hne|by apply Hserve].
Qed.


End invariants.

(** ** A registration, a login, and an organization *)

Module Demo.
Import Sim SimDisk.
#[export] Existing Instances user.Demo.demo_bcrypt accounts.Demo.demo_login accounts.Demo.demo_register
  forge.Demo.demo_create_org forge.Demo.demo_add_user forge.Demo.demo_create_repo git.Demo.demo_quoting
  ratelimit.Demo.exact_numbers ratelimit.Demo.demo_text totp.Demo.demo_totp sso.Demo.demo_oauth.

Abbreviation W := (World (gmap string (string * Z)) (gset (list ascii))).

#[export] Instance demo_verify : JsonDecode accounts.totpVerifyRequest := λ b,
  Ok {| accounts.totp_Code := str (lb_bytes b) |}.
#[export] Instance demo_redirect : RedirectURL := λ path _, str path.
#[export] Instance demo_backend : Backend (gset (list ascii)) := λ _ w _ d, (WriteHeader StatusOK w, d).
#[export] Instance demo_time : ratelimit.FloatTime := {|
  ratelimit.strconv_ParseFloat _ := of_Z 0; ratelimit.to_Duration _ := 0 |}.

(** Every key has a bucket that is full. *)
#[export] Instance demo_runner : ratelimit.ScriptRunner W := λ _ rate burst now,
  lift (ratelimit.script None rate burst now).1.1.

Definition ping : Z → M W unit := λ _, mret tt.

#[export] Instance demo_outside : Outside demo_runner ping ping.
Proof. split; [intros key rate burst now w; split_and!; [done|cbn; lia|done]|done|done]. Defined.

#[export] Instance demo_env : Environment := λ key,
  if bool_decide (key = "REPOS_DIR"%string) then "/srv/repos"%string else EmptyString.
#[export] Instance demo_net : NetTime := {|
  time_ParseDuration _ := None; net_ResolveTCPAddr _ := None |}.

Abbreviation srv := (main_Config ping ping config.Load).

Definition post (path body token : string) : Request := {|
  r_Method := "POST"; r_Path := path; r_PathValue _ := EmptyString; r_Query _ := EmptyString;
  r_Header _ := EmptyString;
  r_Cookies := if is_empty token then [] else [(AccessCookieName, token)];
  r_Body := unstr body; r_RemoteAddr := "192.0.2.1:1"; r_ProtoAtLeast11 := true; r_userID := None |}.

Definition w0 : W := mkWorld empty_Database ∅ ∅ 0 0.
Definition register : Request := post "/auth/register" "correct horse" EmptyString.
Definition login : Request := post "/auth/login" "correct horse" EmptyString.

Abbreviation serve := (serve_all (db_Ping := ping) (redis_Ping := ping) config.Load).

Definition w1 : W := (NewServer srv NewResponseWriter register w0).2.
Definition w2 : W := (NewServer srv NewResponseWriter login w1).2.

(** The token of the login is in its first cookie. *)
Definition token : string :=
  match (NewServer srv NewResponseWriter login w1).1 with
  | Ok resp => match w_Cookies resp with c :: _ => cookie_Value c | [] => EmptyString end
  | Err _ => EmptyString
  end.

Definition new_org : Request := post "/orgs" "team" token.

Lemma requests_keep_schema_witness : Integrity (db (serve [register; login; new_org] w0)).
Proof. apply requests_keep_schema. exact Integrity_empty. Defined.

Definition w3 : W := (NewServer srv NewResponseWriter new_org w2).2.

#[local] Strategy expand [w1 w2 w3].

Lemma w3_eq : (NewServer srv NewResponseWriter new_org w2).2 = w3.
Proof. reflexivity. Qed.

Lemma w3_orgs : length (organizations (db w3)) = 1%nat ∧ length (organizations (db w2)) = 0%nat.
Proof. vm_compute. split; reflexivity. Qed.

Lemma tables_differ d d' :
  length (organizations d') = 1%nat ∧ length (organizations d) = 0%nat → forge_tables d' ≠ forge_tables d.
Proof. intros [H1 H0] He. injection He as He _ _. rewrite He, H0 in H1. discriminate H1. Qed.

Lemma w3_changed : forge_tables (db w3) ≠ forge_tables (db w2).
Proof. exact (tables_differ _ _ w3_orgs). Qed.

Lemma w1_eq : (NewServer srv NewResponseWriter register w0).2 = w1.
Proof. reflexivity. Qed.
Lemma w2_eq : (NewServer srv NewResponseWriter login w1).2 = w2.
Proof. reflexivity. Qed.

Lemma w2_schema : Integrity (db w2).
Proof.
  pose proof (request_schema config.Load NewResponseWriter register w0 Integrity_empty) as Hi. rewrite w1_eq in Hi.
  apply (request_schema config.Load NewResponseWriter login w1) in Hi. rewrite w2_eq in Hi. exact Hi.
Qed.

Lemma token_sent : extractAccessToken new_org = token.
Proof. vm_compute. reflexivity. Qed.

Lemma forge_changes_authenticated_witness :
  forge_tables (db w3) ≠ forge_tables (db w2) ∧
  ∃ τ v u, session.access w2 τ token = Some v ∧ uuid_Parse v = Ok u.
Proof.
  split; [exact w3_changed|].
  pose proof (forge_changes_authenticated config.Load NewResponseWriter new_org w2 w2_schema) as Hf.
  rewrite w3_eq in Hf.
  destruct (Hf w3_changed) as (p & next & ms & τ & v & u & wr & w & _ & _ & Hv & Hu & _).
  exists τ, v, u. rewrite token_sent in Hv. split; [exact Hv|exact Hu].
Defined.
End Demo.
End server.
