(* ===== verification/Dispatch.v ===== *)
(** Which handler a request reaches: the routing tree against a scan of the routes
    in the order the server registers them. *)

From S2P Require Import Prelude.
From S2P Require Import Bytes.
From S2P Require Import Platform.
From S2P Require Import World.
From S2P Require Import Session.
From S2P Require Import Users.
From S2P Require Import Totp.
From S2P Require Import Sso.
From S2P Require Import Orgs.
From S2P Require Import Filepath.
From S2P Require Import Disk.
From S2P Require Import Repos.
From S2P Require Import Http.
From S2P Require Import HttpAuth.
From S2P Require Import HttpForge.
From S2P Require Import HttpGit.
From S2P Require Import Mux.
From S2P Require Import Server.
From S2P Require Import GoStrings.

Module dispatch.
Import http mux gitroutes server.

(** ** A reference router *)

Section scan.
Context {S : Type} `{RedirectURL} (routes : list (pattern * Handler S)).

(** The first route of the method that fits. *)
Fixpoint first_route (rs : list (pattern * Handler S)) (method : string) (path : list (bytes * bytes)) :
    option (pattern * Handler S * list bytes) :=
  match rs with
  | [] => None
  | (p, h) :: rs' =>
      match (if bool_decide (p_method p = method) then captures (p_segs p) (p_rest p) path else None) with
      | Some ms => Some (p, h, ms)
      | None => first_route rs' method path
      end
  end.

(** A request for [*] is refused.  A request for a path that is not clean is redirected.  HEAD falls back to GET.
    The git routes catch every path, so the only requests that no route takes are
    those of other methods, answered with the ones that would do. *)
Definition scan : Handler S := λ w r,
  let escaped := unstr (r_Path r) in
  let path := if bool_decide (r_Method r = "CONNECT"%string) then escaped else cleanPath escaped in
  if bool_decide (r_Path r = "*"%string) then
    mret (WriteHeader StatusBadRequest (if r_ProtoAtLeast11 r then Header_Set "Connection" "close" w else w))
  else if negb (bool_decide (path = escaped)) then
    mret (http_Redirect w r (url_of path r) StatusMovedPermanently)
  else
    let segs := segments path in
    let found :=
      match first_route routes (r_Method r) segs with
      | None => if bool_decide (r_Method r = "HEAD"%string) then first_route routes "GET" segs else None
      | m => m
      end in
    match found with
    | Some (p, h, ms) => h w (with_PathValue (zip (names p) ms) r)
    | None =>
        let allowed := if first_route routes "DELETE" segs is Some _ then "DELETE, GET, HEAD, POST"
                       else "GET, HEAD, POST" in
        mret (http_Error (Header_Set "Allow" allowed w) "Method Not Allowed" StatusMethodNotAllowed)
    end.

(** ** The tree finds the first route *)

Lemma first_route_tree rs method path :
  first_fit (tree method ((λ '(p, h), (p, (p, h))) <$> rs)) path [] = first_route rs method path.
Proof.
  induction rs as [|[p h] rs IH]; [done|]. cbn [first_route]. rewrite fmap_cons. unfold tree in *. cbn.
  case_bool_decide; [|exact IH]. cbn. by destruct (captures _ _ _).
Qed.

Definition by_order : Prop :=
  ordered ((λ '(p, a), (p_segs p, p_rest p, a)) <$> table routes) = true.

Lemma match_method_first method path :
  by_order →
  match_method (table routes) method path =
  match first_route routes method (segments path) with
  | None => if bool_decide (method = "HEAD"%string) then first_route routes "GET" (segments path) else None
  | m => m
  end.
Proof.
  intros Ho. unfold match_method. rewrite !matchPath_first_fit by by apply ordered_tree.
  unfold table. by rewrite !first_route_tree.
Qed.

(** A request is for a pattern: of its method, or HEAD for GET, and with a path that
    the pattern fits. *)
Definition addressed r (p : pattern) : Prop :=
  (r_Method r = p_method p ∨ (r_Method r = "HEAD"%string ∧ p_method p = "GET"%string)) ∧
  is_Some (captures (p_segs p) (p_rest p) (segments (unstr (r_Path r)))).

Lemma first_route_fits rs method path p h ms :
  first_route rs method path = Some (p, h, ms) →
  (p, h) ∈ rs ∧ p_method p = method ∧ captures (p_segs p) (p_rest p) path = Some ms.
Proof.
  induction rs as [|[q k] rs IH]; [done|]. cbn. case_bool_decide as Hq.
  - destruct (captures (p_segs q) (p_rest q) path) as [ms'|] eqn:Hc.
    + intros [= <- <- <-]. split; [by left|done].
    + intros (? & ? & ?)%IH. split; [by right|done].
  - intros (? & ? & ?)%IH. split; [by right|done].
Qed.

(** A request that makes a call has come to a handler: one of a pattern that it is for. *)
Lemma ServeHTTP_route wr r :
  by_order →
  (∃ wr', mux.ServeHTTP routes wr r = mret wr') ∨
  ∃ p h ms, (p, h) ∈ routes ∧ addressed r p ∧ mux.ServeHTTP routes wr r = h wr (with_PathValue ms r).
Proof.
  intros Ho. unfold mux.ServeHTTP. cbv zeta. destruct (bool_decide (r_Path r = _)); [left; by eexists|].
  set (path := if bool_decide (r_Method r = "CONNECT"%string) then _ else _).
  destruct (negb _) eqn:Hclean; [left; by eexists|]. apply negb_false_iff, bool_decide_eq_true in Hclean.
  rewrite match_method_first by done. rewrite Hclean.
  destruct (first_route routes (r_Method r) _) as [[[p h] ms]|] eqn:Hf.
  - apply first_route_fits in Hf as (Hin & Hm & Hc). right. exists p, h, (zip (names p) ms).
    split; [done|]. split; [|done]. split; [by left|by exists ms].
  - case_bool_decide as Hhead; [|left; destruct (matchingMethods _ _); by eexists].
    destruct (first_route routes "GET" _) as [[[p h] ms]|] eqn:Hg; [|left; destruct (matchingMethods _ _); by eexists].
    apply first_route_fits in Hg as (Hin & Hm & Hc). right. exists p, h, (zip (names p) ms).
    split; [done|]. split; [|done]. split; [by right|by exists ms].
Qed.
End scan.

(** A pattern of literals fits the one path with those segments. *)
Lemma captures_literal (texts : list bytes) path :
  is_Some (captures (Lit <$> texts) None path) → path.*1 = texts.
Proof.
  revert path. induction texts as [|s texts IH]; intros [|[seg raw] path] [ms Hms]; cbn in Hms; try done.
  case_bool_decide; [|done]. subst. cbn. f_equal. by eapply IH.
Qed.

(** ** The routes of the server *)

Section routes.
Context {S : Type} `{user.Repository S} `{session.Repository S} `{session.TokenStore S}
  `{totp.TOTPStore S} `{totp.TotpLib S} `{sso.Repository S} `{sso.StateStore S} `{sso.OAuth}
  `{sso.OAuthClient S} `{organization.Repository S} `{git.Repository S} `{Filesystem S} `{OsErrors}
  `{GitBackend S} `{Entropy S} `{Hasher S} `{Bcrypt} `{Uuid} `{Quoting} `{RedirectURL}.
Context `{JsonDecode accounts.registerRequest} `{JsonDecode accounts.loginRequest}
  `{JsonDecode accounts.totpVerifyRequest} `{JsonDecode forge.createOrganizationRequest}
  `{JsonDecode forge.addOrganizationUserRequest} `{JsonDecode forge.createRepositoryRequest}.
Context (config : Config S).

(** More specific routes are registered first. *)
Lemma routes_by_order : by_order (routes config).
Proof. vm_compute. reflexivity. Qed.

Lemma segments_cons path : ∃ seg raw segs, segments path = (seg, raw) :: segs.
Proof.
  unfold segments. destruct (split_byte_cons slash (tail path)) as (p & ps & ->).
  destruct p, ps; cbn; eauto.
Qed.

Lemma first_route_elem (rs : list (pattern * Handler S)) p h method path ms :
  (p, h) ∈ rs → p_method p = method → captures (p_segs p) (p_rest p) path = Some ms →
  is_Some (first_route rs method path).
Proof.
  intros Hin Hm Hc. induction rs as [|[p' h'] rs IH]; [by apply not_elem_of_nil in Hin|]. cbn.
  apply elem_of_cons in Hin as [[= <- <-]|Hin].
  - rewrite bool_decide_eq_true_2, Hc by done. by eexists.
  - destruct (if bool_decide (p_method p' = method) then _ else None); [by eexists|by apply IH].
Qed.

(** The git routes take every path. *)
Lemma caught method path :
  method = "GET"%string ∨ method = "POST"%string → is_Some (first_route (routes config) method (segments path)).
Proof.
  intros Hm. destruct (segments_cons path) as (seg & raw & segs & ->).
  destruct Hm as [-> | ->];
    [eapply (first_route_elem _ {| p_method := "GET"; p_segs := []; p_rest := Some "path"%string |} (handleGitGet config))
    |eapply (first_route_elem _ {| p_method := "POST"; p_segs := []; p_rest := Some "path"%string |} (handleGitPost config))];
    try done; unfold routes; apply elem_of_app; right.
  - apply list_elem_of_further, list_elem_of_here.
  - do 2 apply list_elem_of_further. apply list_elem_of_here.
Qed.

Lemma no_route path :
  Forall (λ m, first_route (routes config) m path = None) ["CONNECT"; "OPTIONS"; "PATCH"; "PUT"; "TRACE"; "HEAD"]%string.
Proof. repeat (apply Forall_cons_2; [vm_compute; reflexivity|]). apply Forall_nil_2. Qed.

Lemma matchingMethods_routes path :
  matchingMethods (routes config) path =
  if first_route (routes config) "DELETE" (segments path) is Some _ then ["DELETE"; "GET"; "HEAD"; "POST"]%string
  else ["GET"; "HEAD"; "POST"]%string.
Proof.
  pose proof (no_route (segments path)) as Hno. rewrite !Forall_cons in Hno.
  destruct Hno as (Hc & Ho & Hpa & Hpu & Ht & Hh & _).
  destruct (caught "GET" path) as [g Hg]; [by left|]. destruct (caught "POST" path) as [p Hp]; [by right|].
  unfold matchingMethods.
  assert (Hm := λ m, match_method_first (routes config) m path routes_by_order).
  assert (Hnone : ∀ m l, m ≠ "HEAD"%string → first_route (routes config) m (segments path) = None →
    filter (λ m, is_Some (match_method (table (routes config)) m path)) (m :: l) =
    filter (λ m, is_Some (match_method (table (routes config)) m path)) l).
  { intros m l Hne Hn. apply filter_cons_False. rewrite Hm, Hn, bool_decide_eq_false_2 by done. by intros []. }
  assert (Hsome : ∀ m l, is_Some (match_method (table (routes config)) m path) →
    filter (λ m, is_Some (match_method (table (routes config)) m path)) (m :: l) =
    m :: filter (λ m, is_Some (match_method (table (routes config)) m path)) l).
  { intros m l Hn. by apply filter_cons_True. }
  rewrite Hnone by done.
  assert (Hrest : filter (λ m, is_Some (match_method (table (routes config)) m path))
    ["GET"; "HEAD"; "OPTIONS"; "PATCH"; "POST"; "PUT"; "TRACE"]%string = ["GET"; "HEAD"; "POST"]%string).
  { rewrite (Hsome "GET"%string) by (rewrite Hm, Hg; by eexists).
    rewrite (Hsome "HEAD"%string) by (rewrite Hm, Hh, bool_decide_eq_true_2 by done; rewrite Hg; by eexists).
    rewrite !Hnone by done. rewrite (Hsome "POST"%string) by (rewrite Hm, Hp; by eexists).
    by rewrite !Hnone by done. }
  destruct (first_route (routes config) "DELETE" (segments path)) as [d|] eqn:Hd.
  - by rewrite Hsome, Hrest by (rewrite Hm, Hd; by eexists).
  - by rewrite Hnone, Hrest by done.
Qed.

(** C5: The server answers every request as a router would that scans its routes in the
    order they are registered and takes the first that fits: specific routes win over
    the git routes, which catch every other GET, HEAD and POST, and the rest gets 405
    with the methods that would do, never 404; a request for * is refused with 400, and
    one whose path is not clean is redirected. *)
Theorem mux_scans_routes wr r w : mux.ServeHTTP (routes config) wr r w = scan (routes config) wr r w.
Proof.
  unfold mux.ServeHTTP, scan. cbv zeta.
  set (path := if bool_decide (r_Method r = "CONNECT"%string) then _ else _).
  destruct (negb _); [done|]. rewrite match_method_first by apply routes_by_order.
  destruct (match first_route _ _ _ with Some _ => _ | None => _ end) as [[[p h] ms]|]; [done|].
  rewrite matchingMethods_routes. by destruct (first_route (routes config) "DELETE" (segments path)).
Qed.
End routes.
End dispatch.
