(* ===== verification/Answers.v ===== *)
(** The answers of the server: every request gets one, of a form that depends on its
    status, whatever the services, the stores and the limiter do. *)

From S2P Require Import Prelude.
From S2P Require Import Bytes.
From S2P Require Import Platform.
From S2P Require Import World.
From S2P Require Import Session.
From S2P Require Import Users.
From S2P Require Import Totp.
From S2P Require Import Sso.
From S2P Require Import Orgs.
From S2P Require Import Filepath.
From S2P Require Import Disk.
From S2P Require Import Repos.
From S2P Require Import Http.
From S2P Require Import HttpAuth.
From S2P Require Import HttpForge.
From S2P Require Import HttpGit.
From S2P Require Import Mux.
From S2P Require Import RateLimit.
From S2P Require Import Config.
From S2P Require Import Logger.
From S2P Require Import Server.
From S2P Require Import GoStrings.

Module answers.
Import http mux gitroutes server.

(** ** The form of an answer *)

Definition json_type : string := "application/json".
Definition redirects : list Z := [StatusMovedPermanently; StatusTemporaryRedirect].
Definition text_type : string := "text/plain; charset=utf-8".

(** JSON with one of the statuses of the handlers, where an error says so in its
    body, except that of the health check; a line of text for what no handler takes; a
    redirect to the URL in its header, with a link to it or, as for HEAD, no body; and
    nothing, for what is done and for a request for [*]. *)
Definition well_formed (w : ResponseWriter) : Prop :=
  ∃ code header cookies, w_Sent w = Some (code, header, cookies) ∧
  match w_Body w with
  | [] => code ∈ [StatusNoContent; StatusBadRequest] ∨
      code ∈ redirects ∧ ∃ url, header !! "Location" = Some (hexEscapeNonASCII url)
  | [JsonLine v] =>
      header !! "Content-Type" = Some json_type ∧
      (code ∈ [StatusOK; StatusCreated; StatusServiceUnavailable] ∨
       (∃ text, v = error_body text) ∧
       code ∈ [StatusBadRequest; StatusUnauthorized; StatusForbidden; StatusNotFound; StatusConflict;
               StatusTooManyRequests; StatusInternalServerError])
  | [TextLine text] =>
      header !! "Content-Type" = Some text_type ∧ code ∈ [StatusNotFound; StatusMethodNotAllowed] ∨
      header !! "Content-Type" = Some html_type ∧ code ∈ redirects ∧
        ∃ url, header !! "Location" = Some (hexEscapeNonASCII url) ∧ text = redirect_link url code
  | _ => False
  end.

(** A writer to which nothing was written. *)
Definition fresh (w : ResponseWriter) : Prop := w_Sent w = None ∧ w_Body w = [].

Lemma fresh_Header_Set k v w : fresh w → fresh (Header_Set k v w).
Proof. done. Qed.
Lemma fresh_SetCookie w c : fresh w → fresh (SetCookie w c).
Proof. done. Qed.

Lemma well_formed_ok w code v :
  fresh w → code = StatusOK ∨ code = StatusCreated → well_formed (writeJSON w code v).
Proof.
  intros [Hs Hb] Hc. unfold well_formed. cbn. rewrite Hs, Hb. eexists _, _, _. split; [done|].
  split; [by rewrite lookup_insert_eq|left]. rewrite !elem_of_cons. tauto.
Qed.

Lemma well_formed_error w code text :
  fresh w → code ∈ [StatusBadRequest; StatusUnauthorized; StatusForbidden; StatusNotFound; StatusConflict;
    StatusTooManyRequests; StatusInternalServerError] →
  well_formed (writeJSON w code (error_body text)).
Proof.
  intros [Hs Hb] Hc. unfold well_formed. cbn. rewrite Hs, Hb. eexists _, _, _. split; [done|].
  split; [by rewrite lookup_insert_eq|right]. split; [by eexists|done].
Qed.

Lemma well_formed_http_Error w text code :
  fresh w → code = StatusNotFound ∨ code = StatusMethodNotAllowed → well_formed (http_Error w text code).
Proof.
  intros [Hs Hb] Hc. unfold well_formed, http_Error. cbn. rewrite Hs, Hb. eexists _, _, _. split; [done|].
  left. split; [by rewrite lookup_insert_ne, lookup_insert_eq by done|]. rewrite !elem_of_cons. tauto.
Qed.

Lemma well_formed_empty w code :
  fresh w → code ∈ [StatusNoContent; StatusBadRequest] → well_formed (WriteHeader code w).
Proof.
  intros [Hs Hb] Hc. unfold well_formed. cbn. rewrite Hs, Hb. eexists _, _, _. split; [done|]. by left.
Qed.

Lemma well_formed_redirect w r url code :
  fresh w → code ∈ redirects → well_formed (http_Redirect w r url code).
Proof.
  intros [Hs Hb] Hc. unfold well_formed, http_Redirect. cbv zeta.
  destruct (bool_decide (is_Some _)), (bool_decide (r_Method r = "GET"%string)), (bool_decide (r_Method r = "HEAD"%string));
    cbn; rewrite Hs, ?Hb; (eexists _, _, _; split; [done|]); right.
  all: repeat first [split | by rewrite lookup_insert_eq | by rewrite lookup_insert_ne, lookup_insert_eq by done | done | eexists].
Qed.

(** ** Computations that answer, within a budget of calls

    [budget s n]: the state [s] can take [n] more calls.  On a shared state there
    is no limit; a request on its own goes as far as what it has seen. *)

Class Budget (S : Type) := {
  budget : S → nat → Prop;
  budget_le s m n : (m ≤ n)%nat → budget s n → budget s m;
}.

Definition unlimited S : Budget S := {| budget _ _ := True; budget_le _ _ _ _ H := H |}.

Section answers.
Context {S : Type} `{GitBackend S} `{Entropy S} `{Budget S}.
Implicit Types (c n : nat).

(** A well-formed answer, or one of go-git's backend. *)
Definition answer (w : ResponseWriter) : Prop :=
  well_formed w ∨ ∃ wr r s s', gitHandler_ServeHTTP wr r s = (Ok w, s').

(** [m] takes at most [c] calls; and it does not fail. *)
Definition within {A} c (m : M S A) : Prop := ∀ s n, budget s (c + n) → budget (m s).2 n.
Definition yields {A} c (m : M S A) : Prop :=
  ∀ s n, budget s (c + n) → ∃ a s', m s = (Ok a, s') ∧ budget s' n.

Definition answers n (m : M S ResponseWriter) : Prop :=
  ∀ s, budget s n → ∃ w s', m s = (Ok w, s') ∧ budget s' 0 ∧ answer w.

Definition handler_answers n (h : Handler S) : Prop := ∀ w r, fresh w → answers n (h w r).

Lemma answers_weaken m n x : (m ≤ n)%nat → answers m x → answers n x.
Proof. intros Hle Hm s Hs. by eapply Hm, budget_le. Qed.

Lemma handler_answers_weaken m n h : (m ≤ n)%nat → handler_answers m h → handler_answers n h.
Proof. intros Hle Hh w r Hw. by eapply answers_weaken; [|apply Hh]. Qed.

Lemma answers_ret n w : well_formed w → answers n (mret w).
Proof. intros Hw s Hs. exists w, s. split; [done|]. split; [eapply budget_le, Hs; lia|by left]. Qed.

Lemma answers_bind {A} c n (m : M S A) (f : A → M S ResponseWriter) :
  yields c m → (c ≤ n)%nat → (∀ a, answers (n - c) (f a)) → answers n (m ≫= f).
Proof.
  intros Hm Hle Hf s Hs. replace n with (c + (n - c))%nat in Hs by lia.
  destruct (Hm s _ Hs) as (a & s1 & Hr & Hs1). destruct (Hf a s1 Hs1) as (w & s2 & Hw & Ha).
  exists w, s2. by rewrite (M_bind_run _ _ _ _ _ Hr).
Qed.

Lemma yields_attempt {A} c (m : M S A) : within c m → yields c (attempt m).
Proof.
  intros Hm s n Hs. specialize (Hm s n Hs). unfold attempt. destruct (m s) as [r s']. by eexists _, _.
Qed.

Lemma yields_ret {A} (a : A) : yields 0 (mret a).
Proof. intros s n Hs. by eexists _, _. Qed.

Lemma yields_bind {A B} c c' (m : M S A) (f : A → M S B) :
  yields c m → (∀ a, yields c' (f a)) → yields (c + c') (m ≫= f).
Proof.
  intros Hm Hf s n Hs. rewrite <- Nat.add_assoc in Hs.
  destruct (Hm s _ Hs) as (a & s1 & Hr & Hs1). destruct (Hf a s1 n Hs1) as (b & s2 & Hb & Hs2).
  exists b, s2. by rewrite (M_bind_run _ _ _ _ _ Hr).
Qed.

Lemma yields_weaken {A} c c' (m : M S A) : (c ≤ c')%nat → yields c m → yields c' m.
Proof.
  intros Hle Hm s n Hs. apply (budget_le _ (c + n)) in Hs; [by apply Hm|lia].
Qed.

Lemma within_weaken {A} c c' (m : M S A) : (c ≤ c')%nat → within c m → within c' m.
Proof.
  intros Hle Hm s n Hs. apply (budget_le _ (c + n)) in Hs; [by apply Hm|lia].
Qed.

Lemma within_ret {A} c (a : A) : within c (mret a).
Proof. intros s n Hs. eapply budget_le; [|exact Hs]. lia. Qed.

Lemma within_fail {A} c e : within c (fail (A := A) e).
Proof. intros s n Hs. eapply budget_le; [|exact Hs]. lia. Qed.

Lemma within_attempt {A} c (m : M S A) : within c m → within c (attempt m).
Proof. intros Hm s n Hs. specialize (Hm s n Hs). unfold attempt. by destruct (m s). Qed.

Lemma within_bind {A B} c c' (m : M S A) (f : A → M S B) :
  within c m → (∀ a, within c' (f a)) → within (c + c') (m ≫= f).
Proof.
  intros Hm Hf s n Hs. rewrite <- Nat.add_assoc in Hs. specialize (Hm s _ Hs).
  unfold mbind, M_bind. destruct (m s) as [[a|e] s']; [by apply Hf|].
  eapply budget_le; [|exact Hm]. lia.
Qed.

Lemma answers_backend n w r :
  yields 1 (gitHandler_ServeHTTP w r) → (1 ≤ n)%nat → answers n (gitHandler_ServeHTTP w r).
Proof.
  intros Hb Hn s Hs. replace n with (1 + (n - 1))%nat in Hs by lia.
  destruct (Hb s _ Hs) as (resp & s' & Hr & Hs'). exists resp, s'. split; [done|].
  split; [eapply budget_le, Hs'; lia|]. right. by eexists _, _, _, _.
Qed.
End answers.

(** The randomness of an identifier does not fail, and the backend returns. *)
Definition total {S A} (m : M S A) : Prop := ∀ s, ∃ a s', m s = (Ok a, s').

Class Total {S} `{GitBackend S} `{Entropy S} : Prop := {
  uuid_New_total : total uuid_New;
  backend_total w r : total (gitHandler_ServeHTTP w r);
}.

Create HintDb calls.

(** [well] closes the form of one answer; [reply] walks through a handler. *)
Ltac well :=
  lazymatch goal with
  | |- well_formed (writeJSON _ _ (error_body _)) =>
      apply well_formed_error; [assumption || (repeat apply fresh_SetCookie; assumption) | by apply (bool_decide_unpack _)]
  | |- well_formed (writeJSON _ _ _) =>
      apply well_formed_ok; [repeat apply fresh_SetCookie; assumption | (left; reflexivity) || (right; reflexivity)]
  | |- well_formed (http_Error _ _ _) =>
      apply well_formed_http_Error; [assumption | (left; reflexivity) || (right; reflexivity)]
  | |- well_formed (http_Redirect _ _ _ _) =>
      apply well_formed_redirect; [assumption | by apply (bool_decide_unpack _)]
  | |- well_formed (WriteHeader _ _) => apply well_formed_empty; [assumption | by apply (bool_decide_unpack _)]
  end.

Ltac reply_head m := match m with ?f _ => reply_head f | _ => m end.

(** ** Every handler answers *)

Section handlers.
Context {S : Type} `{user.Repository S} `{session.Repository S} `{session.TokenStore S}
  `{totp.TOTPStore S} `{totp.TotpLib S} `{sso.Repository S} `{sso.StateStore S} `{sso.OAuth}
  `{sso.OAuthClient S} `{organization.Repository S} `{git.Repository S} `{Filesystem S} `{OsErrors}
  `{GitBackend S} `{Entropy S} `{Hasher S} `{Bcrypt} `{Uuid} `{Quoting} `{RedirectURL}.
Context `{JsonDecode accounts.registerRequest} `{JsonDecode accounts.loginRequest}
  `{JsonDecode accounts.totpVerifyRequest} `{JsonDecode forge.createOrganizationRequest}
  `{JsonDecode forge.addOrganizationUserRequest} `{JsonDecode forge.createRepositoryRequest}.
Context `{!Budget S}.

(** How many calls the operations take that the handlers use. *)
Class Prompt : Prop := {
  New_yields : yields 1 uuid_New;
  backend_yields w r : yields 1 (gitHandler_ServeHTTP w r);
  Register_within input : within 5 (user.Register input);
  GetByEmail_within email : within 1 (user.GetByEmail email);
  session_Create_within u : within 6 (session.Create u);
  Validate_within t : within 1 (session.Validate t);
  Refresh_within t : within 5 (session.Refresh t);
  Revoke_within t : within 3 (session.Revoke t);
  Setup_within issuer u account : within 2 (totp.Setup issuer u account);
  Verify_within u code : within 3 (totp.Verify u code);
  GoogleAuthURL_within oauth : within 2 (sso.GoogleAuthURL oauth);
  GoogleCallback_within oauth state code : within 4 (sso.GoogleCallback oauth state code);
  FindOrCreateSSO_within u p name username : within 3 (sso.FindOrCreateSSO u p name username);
  org_Create_within input : within 2 (organization.Create input);
  AddUser_within o u : within 2 (organization.AddUser o u);
  DeleteByID_within o : within 1 (organization.DeleteByID o);
  GetByUserID_within u : within 1 (organization.GetByUserID u);
  repo_Create_within input : within 2 (git.repo_Create input);
  Service_Create_within reposDir input : within 2 (git.Service.Create reposDir input);
  repo_SoftDelete_within id : within 1 (git.repo_SoftDelete id);
  repo_Delete_within id : within 1 (git.repo_Delete id);
  ListByOwner_within u : within 1 (git.repo_ListByOwner u);
  GetByID_within id : within 1 (git.repo_GetByID id);
  Abs_within p : within 1 (filepath_Abs p);
  EvalSymlinks_within p : within 1 (filepath_EvalSymlinks p);
  Stat_within p : within 1 (os_Stat p);
}.
Context `{!Prompt}.

#[local] Hint Resolve Register_within GetByEmail_within session_Create_within Validate_within Refresh_within
  Revoke_within Setup_within Verify_within GoogleAuthURL_within GoogleCallback_within FindOrCreateSSO_within
  org_Create_within AddUser_within DeleteByID_within GetByUserID_within repo_Create_within Service_Create_within
  repo_SoftDelete_within repo_Delete_within ListByOwner_within GetByID_within Abs_within EvalSymlinks_within
  Stat_within : calls.

Lemma find_or_register_within info : within 6 (accounts.find_or_register (S := S) info).
Proof.
  apply (within_bind 1 5); [by apply within_attempt, GetByEmail_within|]. intros [u|e]; [apply within_ret|].
  destruct (errors_Is _ _); [apply Register_within|apply within_fail].
Qed.

Lemma ensureCreatorMembership_within o u : within 3 (forge.orgs.ensureCreatorMembership (S := S) o u).
Proof.
  apply (within_bind 2 1); [by apply within_attempt, AddUser_within|]. intros [u'|e]; [apply within_ret|].
  apply (within_bind 1 0); [by apply within_attempt, DeleteByID_within|]. intros r. apply within_fail.
Qed.

#[local] Hint Resolve find_or_register_within ensureCreatorMembership_within : calls.

Ltac reply_step :=
  lazymatch goal with
  | |- answers _ (mbind _ (attempt _)) =>
      eapply answers_bind; [apply yields_attempt; solve [eauto with calls] | by apply Nat.leb_le | intros ?; cbn [Nat.sub]]
  | |- answers _ (mbind _ uuid_New) =>
      eapply answers_bind; [apply New_yields | by apply Nat.leb_le | intros ?; cbn [Nat.sub]]
  | |- answers _ (gitHandler_ServeHTTP _ _) => apply answers_backend; [apply backend_yields | by apply Nat.leb_le]
  | |- answers _ (mret (match ?x with _ => _ end)) => destruct x
  | |- answers _ (mret (let _ := _ in _)) => cbv zeta
  | |- answers _ (mret ?w) =>
      first [ apply answers_ret; well
            | let h := reply_head w in unfold h; cbv beta zeta ]
  | |- answers _ (match ?x with _ => _ end) => destruct x
  | |- answers _ ?m => first [progress cbv beta zeta | let h := reply_head m in unfold h]
  end.

Ltac reply := let w := fresh "w" in let r := fresh "r" in let Hw := fresh "Hw" in
  intros w r Hw; repeat reply_step.

Lemma account_answers secure issuer oauth :
  handler_answers (S := S) 20 accounts.Register ∧ handler_answers (S := S) 20 (accounts.Login secure) ∧
  handler_answers (S := S) 20 (accounts.Logout secure) ∧ handler_answers (S := S) 20 (accounts.Refresh secure) ∧
  handler_answers (S := S) 20 (accounts.GoogleRedirect oauth) ∧
  handler_answers (S := S) 20 (accounts.GoogleCallback oauth secure) ∧
  handler_answers (S := S) 20 (accounts.Setup issuer) ∧ handler_answers (S := S) 20 accounts.Verify.
Proof. split_and!; reply. Qed.

Lemma forge_answers reposDir :
  handler_answers (S := S) 20 forge.orgs.Create ∧ handler_answers (S := S) 20 forge.orgs.List ∧
  handler_answers (S := S) 20 forge.orgs.AddUser ∧ handler_answers (S := S) 20 (forge.repos.Create reposDir) ∧
  handler_answers (S := S) 20 forge.repos.List ∧ handler_answers (S := S) 20 forge.repos.Delete.
Proof. split_and!; reply. Qed.

(** ** The git routes and the health check *)

Lemma secureRepoPath_yields reposDir repo : yields (S := S) 4 (secureRepoPath reposDir repo).
Proof.
  assert (Hret : ∀ c (o : option bytes), yields (S := S) c (mret o)).
  { intros c o. eapply yields_weaken; [|apply yields_ret]. lia. }
  unfold secureRepoPath. destruct (_ || _); [apply Hret|]. cbv zeta. destruct (_ || _); [apply Hret|].
  apply (yields_bind 1 3); [apply yields_attempt, Abs_within|]. intros [baseAbs|e]; [|apply Hret].
  apply (yields_bind 1 2); [apply yields_attempt, EvalSymlinks_within|]. intros [baseReal|e]; [|apply Hret].
  apply (yields_bind 1 1); [apply yields_attempt, Abs_within|]. intros [repoAbs|e]; [|apply Hret].
  destruct (_ && _); [apply Hret|]. apply (yields_bind 1 0); [apply yields_attempt, EvalSymlinks_within|].
  intros real. apply Hret.
Qed.

(** A check of the health takes one call. *)
Definition prompt_check (check : option (Z → M S unit)) : Prop :=
  match check with None => True | Some health => ∀ timeout, within 1 (health timeout) end.

Lemma healthy_yields timeout check : prompt_check check → yields (S := S) 1 (healthy timeout check).
Proof.
  intros Hc. unfold healthy. destruct check as [health|]; [|eapply yields_weaken; [|apply yields_ret]; lia].
  apply (yields_bind 1 0); [apply yields_attempt, Hc|]. intros r. apply yields_ret.
Qed.

Lemma serveGit_answers config repo : handler_answers (S := S) 20 (serveGit config repo).
Proof.
  intros w r Hw. unfold serveGit. apply (answers_bind 4); [apply secureRepoPath_yields|lia|].
  intros [p|]; [|by apply answers_ret, well_formed_http_Error; [|left]].
  apply (answers_bind 1); [apply yields_attempt, Stat_within|lia|].
  assert (Hb : answers (20 - 4 - 1) (gitHandler_ServeHTTP w r)) by (apply answers_backend; [apply backend_yields|lia]).
  intros [u|e]; [exact Hb|]. destruct (os_IsNotExist e); [|exact Hb].
  by apply answers_ret, well_formed_http_Error; [|left].
Qed.

Lemma git_answers config :
  prompt_check (DBHealth config) → prompt_check (RedisHealth config) →
  handler_answers (S := S) 20 (handleHealthz config) ∧ handler_answers (S := S) 20 (handleGitGet config) ∧
  handler_answers (S := S) 20 (handleGitPost config).
Proof.
  intros Hdb Hredis. split_and!; intros w r Hw.
  - unfold handleHealthz. apply (answers_bind 1); [by apply healthy_yields|lia|]. intros database.
    apply (answers_bind 1); [by apply healthy_yields|lia|]. intros redis. cbv zeta. destruct Hw as [Hs Hb].
    destruct (negb database || negb redis); apply answers_ret; unfold well_formed; cbn; rewrite Hs, Hb;
      (eexists _, _, _; split; [done|]; split; [by rewrite lookup_insert_eq|left]); by apply (bool_decide_unpack _).
  - unfold handleGitGet. cbv zeta. destruct (CutSuffix _ _) as [repo ok].
    destruct (_ || _); [by apply answers_ret, well_formed_http_Error; [|left]|].
    destruct (negb _); [by apply answers_ret, well_formed_http_Error; [|left]|]. by apply serveGit_answers.
  - unfold handleGitPost. cbv zeta.
    destruct (is_empty _); [by apply answers_ret, well_formed_http_Error; [|left]|]. by apply serveGit_answers.
Qed.

(** ** Around the handlers *)

Lemma limited_answers `{Number} `{ratelimit.NetText} n allow key rate burst next :
  within 2 (allow key rate burst) → handler_answers n next →
  handler_answers (S := S) (2 + n) (ratelimit.limited allow key rate burst next).
Proof.
  intros Ha Hn w r Hw. unfold ratelimit.limited.
  apply (answers_bind 2); [by apply yields_attempt|lia|]. replace (2 + n - 2)%nat with n by lia.
  intros [[[allowed k] d]|e]; [|by apply Hn]. cbv zeta. destruct (negb allowed).
  - apply answers_ret. unfold ratelimit.writeLimited. cbv zeta.
    change (Write (JsonLine ?v) (WriteHeader ?c (Header_Set "Content-Type" "application/json" ?x)))
      with (writeJSON x c v). apply well_formed_error; [done|by apply (bool_decide_unpack _)].
  - by apply Hn.
Qed.

Lemma Auth_answers n next : handler_answers n next → handler_answers (S := S) (1 + n) (Auth next).
Proof.
  intros Hn w r Hw. unfold Auth. cbv zeta. destruct (bool_decide _).
  { apply answers_ret, well_formed_error; [done|by apply (bool_decide_unpack _)]. }
  apply (answers_bind 1); [apply yields_attempt, Validate_within|lia|]. replace (1 + n - 1)%nat with n by lia.
  intros [u|e]; [by apply Hn|].
  apply answers_ret, well_formed_error; [done|by apply (bool_decide_unpack _)].
Qed.

Lemma mux_answers n rs :
  Forall (λ x, handler_answers n x.2) rs → handler_answers (S := S) n (mux.ServeHTTP rs).
Proof.
  intros Hr w r Hw. unfold mux.ServeHTTP. cbv zeta. destruct (bool_decide (r_Path r = _)).
  { apply answers_ret, well_formed_empty; [by destruct (r_ProtoAtLeast11 r)|by apply (bool_decide_unpack _)]. }
  destruct (negb _).
  { apply answers_ret, well_formed_redirect; [done|by apply (bool_decide_unpack _)]. }
  destruct (match_method _ _ _) as [[[p h] ms]|] eqn:Hm.
  - apply match_method_elem in Hm as [p' Hin].
    apply list_elem_of_fmap in Hin as ([p0 h0] & [= -> -> ->] & Hin). rewrite Forall_forall in Hr.
    exact (Hr _ Hin w _ Hw).
  - destruct (matchingMethods _ _); apply answers_ret, well_formed_http_Error; auto.
Qed.

(** The limits are absent, or the middlewares of the package over any limiter. *)
Context (config : Config S).
Definition keeps_answers (m : option (Handler S → Handler S)) : Prop :=
  match m with
  | None => True
  | Some limit => ∀ n next, handler_answers n next → handler_answers (2 + n) (limit next)
  end.

Class PromptConfig : Prop := {
  prompt_IP : keeps_answers (IPRateLimit config);
  prompt_User : keeps_answers (UserRateLimit config);
  prompt_DB : prompt_check (DBHealth config);
  prompt_Redis : prompt_check (RedisHealth config);
}.
Context `{!PromptConfig}.

Lemma limit_answers m n next :
  keeps_answers m → handler_answers n next →
  handler_answers (2 + n) (match m with Some limit => limit next | None => next end).
Proof.
  intros Hm Hn. destruct m as [limit|]; [by apply Hm|]. by eapply handler_answers_weaken; [|exact Hn]; lia.
Qed.

Lemma routes_answer : Forall (λ x, handler_answers 23 x.2) (routes config).
Proof.
  unfold routes, registerAuthRoutes.
  destruct (account_answers (Secure config) (TOTPService config) (SSOService config))
    as (Hreg & Hlogin & Hout & Href & Hg & Hcb & Hset & Hver).
  destruct (forge_answers (ReposDir config)) as (Hoc & Hol & Hoa & Hrc & Hrl & Hrd).
  destruct (git_answers config prompt_DB prompt_Redis) as (Hh & Hgg & Hgp).
  assert (Hchain : ∀ next, handler_answers 20 next → handler_answers 23 (authChain config next)).
  { intros next Hn. apply (Auth_answers 22). by apply (limit_answers _ 20); [apply prompt_User|]. }
  assert (Hauth : ∀ next, handler_answers 20 next → handler_answers 23 (Auth next)).
  { intros next Hn. eapply handler_answers_weaken; [|by apply (Auth_answers 20)]. lia. }
  assert (Hplain : ∀ h, handler_answers (S := S) 20 h → handler_answers 23 h).
  { intros h. apply handler_answers_weaken. lia. }
  rewrite !Forall_app. split_and!; unfold user_RegisterRoutes, session_RegisterRoutes, sso_RegisterRoutes,
    totp_RegisterRoutes, org_RegisterRoutes, repo_RegisterRoutes, registerGitRoutes;
    repeat (apply Forall_cons_2; [cbn [snd]; first [by apply Hauth | by apply Hchain | by apply Hplain]|]);
    apply Forall_nil_2.
Qed.

Lemma request_id_yields r : yields (S := S) 1 (logger.request_id r).
Proof.
  unfold logger.request_id. cbv zeta. destruct (is_empty _); [|eapply yields_weaken; [|apply yields_ret]; lia].
  apply (yields_bind 1 0); [apply New_yields|]. intros id. apply yields_ret.
Qed.

(** Twenty calls for a handler, one for the token, two for each of the limits, and the
    identifier of the request. *)
Lemma NewServer_answers : handler_answers 26 (NewServer config).
Proof.
  intros w r Hw. unfold NewServer, logger_Middleware. cbv zeta.
  apply (answers_bind 1); [apply request_id_yields|lia|]. intros _.
  by apply (limit_answers _ 23); [apply prompt_IP|apply mux_answers, routes_answer|].
Qed.
End handlers.

(** ** The server of a configuration *)

Section server.
Context {S : Type} `{user.Repository S} `{session.Repository S} `{session.TokenStore S}
  `{totp.TOTPStore S} `{totp.TotpLib S} `{sso.Repository S} `{sso.StateStore S} `{sso.OAuth}
  `{sso.OAuthClient S} `{organization.Repository S} `{git.Repository S} `{Filesystem S} `{OsErrors}
  `{GitBackend S} `{Entropy S} `{Hasher S} `{Bcrypt} `{Uuid} `{Quoting} `{RedirectURL}.
Context `{JsonDecode accounts.registerRequest} `{JsonDecode accounts.loginRequest}
  `{JsonDecode accounts.totpVerifyRequest} `{JsonDecode forge.createOrganizationRequest}
  `{JsonDecode forge.addOrganizationUserRequest} `{JsonDecode forge.createRepositoryRequest}.
Context `{ratelimit.FloatTime} `{Clock S} `{ratelimit.ScriptRunner S} `{ratelimit.NetText}.
Context (db_Ping redis_Ping : Z → M S unit).

(** On a shared state the calls are not counted. *)
#[local] Instance no_limit : Budget S := unlimited S.

Lemma unlimited_prompt `{!Total (S := S)} : Prompt (S := S).
Proof.
  split; try done.
  - intros s n _. destruct (uuid_New_total s) as (a & s' & Hr). by exists a, s'.
  - intros w r s n _. destruct (backend_total w r s) as (a & s' & Hr). by exists a, s'.
Qed.

(** The server of [main], where the limiter and the pings take no more than two calls and one. *)
Lemma main_prompt `{!Budget S} cfg :
  (∀ key rate burst, within 2 (ratelimit.Allow (S := S) key rate burst)) →
  (∀ d, within 1 (db_Ping d)) → (∀ d, within 1 (redis_Ping d)) →
  PromptConfig (main_Config db_Ping redis_Ping cfg).
Proof.
  intros Hallow Hdb Hredis. split; cbn [IPRateLimit UserRateLimit DBHealth RedisHealth main_Config]; [| |done..].
  - intros n next Hn w r Hw. by apply limited_answers.
  - intros n next Hn w r Hw. unfold ratelimit.UserMiddleware. cbv zeta.
    assert (Hnext : answers (2 + n) (next w r)) by (by eapply answers_weaken; [|by apply Hn]; lia).
    destruct (extractUser r) as [uid|]; [|done]. destruct (is_empty uid); [done|by apply limited_answers].
Qed.

End server.

(** ** On a world *)

#[export] Instance World_Total {R D} `{Oracle} `{Backend D} : Total (S := World R D).
Proof.
  split.
  - intros w. by eexists _, _.
  - intros wr r w. unfold gitHandler_ServeHTTP, World_GitBackend.
    destruct (backend_ServeHTTP _ _ _ _) as [wr' k]. by eexists _, _.
Defined.

Module Demo.
Import Sim SimDisk server.Demo.
#[export] Existing Instances user.Demo.demo_bcrypt accounts.Demo.demo_login accounts.Demo.demo_register
  forge.Demo.demo_create_org forge.Demo.demo_add_user forge.Demo.demo_create_repo git.Demo.demo_quoting
  ratelimit.Demo.exact_numbers ratelimit.Demo.demo_text totp.Demo.demo_totp sso.Demo.demo_oauth.
#[export] Existing Instances server.Demo.demo_verify server.Demo.demo_redirect server.Demo.demo_backend
  server.Demo.demo_time server.Demo.demo_runner server.Demo.demo_env server.Demo.demo_net.

End Demo.
End answers.
