(* ===== verification/Threads.v ===== *)
(** Concurrent requests: [net/http] serves every request in a goroutine of its
    own, so the calls two requests make to PostgreSQL, Redis and the disk
    interleave.

    A service is written against classes of calls, for any state.  [Alone] is
    the state of a request on its own: what its calls have seen so far, and the
    call it is waiting to have served.  Running the same service on [Alone]
    finds the next call of a request from what it has seen ([next]), so that a
    pool of requests takes steps, one call at a time and in any order, on the
    state they share ([step]).  [served_alone] shows that a request that nobody
    disturbs does what its definition says. *)

From S2P Require Import Prelude.

Module threads.

(** ** A request on its own *)

Section alone.
Context {S : Type}.

(** [seen]: the shared states that its calls met, of which it knows the
    results of the calls; [pending]: what the call it waits for does. *)
Record Alone := mkAlone { seen : list S; pending : option (S → S) }.

Definition no_reply : error := errors_New "threads" "no reply yet".

(** Make a call: its result on the next state seen, or else wait.  A waiting
    request stays so, whatever it would go on to do. *)
Definition atomically {A} (m : M S A) : M Alone A := λ p,
  match pending p, seen p with
  | None, s :: l => ((m s).1, mkAlone l None)
  | None, [] => (Err no_reply, mkAlone [] (Some (λ s, (m s).2)))
  | Some _, _ => (Err no_reply, p)
  end.

(** What a request does after its calls have seen [l]: a call, or its answer. *)
Definition next {A} (m : M Alone A) (l : list S) : (S → S) + result A :=
  let '(r, p) := m (mkAlone l None) in
  match pending p with Some c => inl c | None => inr r end.

(** *** A request as a predicate on its calls

    [fine p]: the states seen are [good], and the call it waits for is [safe]. *)
Section fine.
Context (good : S → Prop) (safe : (S → S) → Prop).

Definition fine (p : Alone) : Prop :=
  Forall good (seen p) ∧ ∀ c, pending p = Some c → safe c.

(** [keeps m Q]: from a fine state [m] goes to a fine one, and a result
    satisfies [Q]. *)
Definition keeps {A} (m : M Alone A) (Q : A → Prop) : Prop :=
  ∀ p r p', fine p → m p = (r, p') → fine p' ∧ ∀ a, r = Ok a → Q a.

Lemma keeps_atomically {A} (m : M S A) (Q : A → Prop) :
  safe (λ s, (m s).2) → (∀ s a, good s → (m s).1 = Ok a → Q a) → keeps (atomically m) Q.
Proof.
  intros Hc HQ p r p' [Hr Hp] Hask. unfold atomically in Hask.
  destruct p as [[|s l] [c|]]; cbn in *; injection Hask as <- <-.
  - by split.
  - split; [split; [constructor|cbn; congruence]|done].
  - by split.
  - apply Forall_cons_1 in Hr as [Hs Hl]. split; [by split|]. intros a. by apply HQ.
Qed.

Lemma keeps_lift {A} (r : result A) (Q : A → Prop) : (∀ a, r = Ok a → Q a) → keeps (lift r) Q.
Proof. intros HQ p r' p' Hp [= <- <-]. by split. Qed.

Lemma keeps_ret {A} (a : A) (Q : A → Prop) : Q a → keeps (mret a) Q.
Proof. intros HQ p r p' Hp [= <- <-]. split; [done|]. by intros ? [= <-]. Qed.

Lemma keeps_fail {A} e (Q : A → Prop) : keeps (fail e) Q.
Proof. intros p r p' Hp [= <- <-]. by split. Qed.

Lemma keeps_bind {A B} (m : M Alone A) (f : A → M Alone B) P Q :
  keeps m P → (∀ a, P a → keeps (f a) Q) → keeps (m ≫= f) Q.
Proof.
  intros Hm Hf p r p' Hp [(a & p1 & H1 & H2)|(e & H1 & ->)]%M_bind_inv.
  - destruct (Hm _ _ _ Hp H1) as [Hp1 Ha]. eapply Hf; [by apply Ha|done..].
  - destruct (Hm _ _ _ Hp H1). by split.
Qed.

Lemma keeps_attempt {A} (m : M Alone A) P :
  keeps m P → keeps (attempt m) (λ r, ∀ a, r = Ok a → P a).
Proof.
  intros Hm p r p' Hp (r0 & H0 & ->)%M_attempt_inv. destruct (Hm _ _ _ Hp H0) as [? HP].
  split; [done|]. by intros ? [= <-].
Qed.

Lemma keeps_mwrap {A} before (m : M Alone A) P : keeps m P → keeps (mwrap before m) P.
Proof.
  intros Hm p r p' Hp (r0 & H0 & ->)%M_mwrap_inv. destruct (Hm _ _ _ Hp H0) as [? HP].
  split; [done|]. intros a Ha. apply HP. by destruct r0; simplify_eq/=.
Qed.

Lemma keeps_weaken {A} (m : M Alone A) (P Q : A → Prop) :
  keeps m P → (∀ a, P a → Q a) → keeps m Q.
Proof. intros Hm HQ p r p' Hp Hr. destruct (Hm _ _ _ Hp Hr). split; eauto. Qed.

(** What a request does next, when it has seen good states. *)
Lemma keeps_next {A} (m : M Alone A) Q l :
  keeps m Q → Forall good l →
  match next m l with
  | inl c => safe c
  | inr r => ∀ a, r = Ok a → Q a
  end.
Proof.
  intros Hm Hl. unfold next. destruct (m _) as [r p'] eqn:Hr.
  destruct (Hm (mkAlone l None) r p') as [[_ Hc] HQ]; [by split|done|].
  destruct (pending p'); [by apply Hc|done].
Qed.
End fine.

(** ** The calls of a computation

    [simulates m m']: whatever [m] does to the shared state, call by call,
    [m'] makes the same calls when it sees the states they meet, and gives the
    same result. *)

Inductive serves : S → list (S * (S → S)) → S → Prop :=
  | serves_nil s : serves s [] s
  | serves_cons s c tr s' : serves (c s) tr s' → serves s ((s, c) :: tr) s'.

Lemma serves_app s tr1 s1 tr2 s2 :
  serves s tr1 s1 → serves s1 tr2 s2 → serves s (tr1 ++ tr2) s2.
Proof. induction 1; [done|]. intros. cbn. constructor; eauto. Qed.

(** A computation that waits when it has to, looks at what it has seen in order,
    and whose result depends on what it has looked at only. *)
Record patient {A} (m' : M Alone A) : Prop := {
  patient_waits p c : pending p = Some c → pending (m' p).2 = Some c;
  patient_seen p : ∃ used, seen p = used ++ seen (m' p).2;
  patient_more l r l' x :
    m' (mkAlone l None) = (r, mkAlone l' None) → m' (mkAlone (l ++ x) None) = (r, mkAlone (l' ++ x) None);
  patient_less l r l' :
    m' (mkAlone l None) = (r, mkAlone l' None) → ∃ used, l = used ++ l' ∧ m' (mkAlone used None) = (r, mkAlone [] None);
}.

Lemma patient_pure {A} (m' : M Alone A) r : (∀ p, m' p = (r, p)) → patient m'.
Proof.
  intros Hm. split.
  - intros p c. by rewrite Hm.
  - intros p. rewrite Hm. by exists [].
  - intros l r' l' x. rewrite !Hm. by intros [= <- <-].
  - intros l r' l'. rewrite Hm. intros [= <- <-]. exists []. by rewrite Hm.
Qed.

Lemma patient_bind {A B} (m' : M Alone A) (f' : A → M Alone B) :
  patient m' → (∀ a, patient (f' a)) → patient (m' ≫= f').
Proof.
  intros Hm Hf. split.
  - intros p c Hp%(patient_waits _ Hm). unfold mbind, M_bind.
    destruct (m' p) as [[a|e] p1]; [by apply (patient_waits _ (Hf a))|done].
  - intros p. unfold mbind, M_bind. destruct (patient_seen _ Hm p) as [used Hu].
    destruct (m' p) as [[a|e] p1]; cbn in *; [|by eauto].
    destruct (patient_seen _ (Hf a) p1) as [used1 Hu1]. exists (used ++ used1).
    by rewrite Hu, Hu1, (assoc_L (++)).
  - intros l r l' x. unfold mbind, M_bind. destruct (m' (mkAlone l None)) as [[a|e] [l1 [c|]]] eqn:Hr.
    + intros Hf1. pose proof (patient_waits _ (Hf a) (mkAlone l1 (Some c)) c eq_refl) as Hp.
      rewrite Hf1 in Hp. done.
    + rewrite (patient_more _ Hm _ _ _ x Hr). apply (patient_more _ (Hf a)).
    + done.
    + intros [= <- <-]. by rewrite (patient_more _ Hm _ _ _ x Hr).
  - intros l r l'. unfold mbind, M_bind. destruct (m' (mkAlone l None)) as [[a|e] [l1 [c|]]] eqn:Hr; [..|done|].
    + intros Hf1. pose proof (patient_waits _ (Hf a) (mkAlone l1 (Some c)) c eq_refl) as Hp.
      rewrite Hf1 in Hp. done.
    + intros (used2 & -> & Hf2)%(patient_less _ (Hf a)).
      apply (patient_less _ Hm) in Hr as (used1 & -> & Hr). exists (used1 ++ used2).
      rewrite (assoc_L (++)). split; [done|]. by rewrite (patient_more _ Hm _ _ _ used2 Hr).
    + intros [= <- <-]. apply (patient_less _ Hm) in Hr as (used1 & -> & Hr). exists used1. by rewrite Hr.
Qed.

Lemma patient_result {A B} (g : result A → result B) (m' : M Alone A) :
  patient m' → patient (λ p, let '(r, p') := m' p in (g r, p')).
Proof.
  intros Hm. split.
  - intros p c Hp%(patient_waits _ Hm). by destruct (m' p).
  - intros p. destruct (patient_seen _ Hm p) as [used Hu]. destruct (m' p). by exists used.
  - intros l r l' x. destruct (m' (mkAlone l None)) as [r0 p0] eqn:Hr. intros [= <- ->].
    by rewrite (patient_more _ Hm _ _ _ x Hr).
  - intros l r l'. destruct (m' (mkAlone l None)) as [r0 p0] eqn:Hr. intros [= <- ->].
    apply (patient_less _ Hm) in Hr as (used & -> & Hr). exists used. by rewrite Hr.
Qed.

Lemma patient_atomically {A} (m : M S A) : patient (atomically m).
Proof.
  split.
  - intros [[|s l] [c'|]] c; cbn; [by intros [= ->]|done|by intros [= ->]|done].
  - intros [[|s l] [c|]]; cbn; (by exists []) || (by exists [s]).
  - intros [|s l] r l' x; cbn; [done|]. by intros [= <- <-].
  - intros [|s l] r l'; cbn; [done|]. intros [= <- <-]. by exists [s].
Qed.

Record simulates {A} (m : M S A) (m' : M Alone A) : Prop := {
  sim_patient : patient m';
  sim_run s r s' : m s = (r, s') → ∃ tr,
    serves s tr s' ∧
    (∀ rest, m' (mkAlone (tr.*1 ++ rest) None) = (r, mkAlone rest None)) ∧
    (∀ tr1 s1 c tr2, tr = tr1 ++ (s1, c) :: tr2 →
       pending (m' (mkAlone tr1.*1 None)).2 = Some c);
}.

Lemma simulates_pure {A} (m : M S A) m' r :
  (∀ s, m s = (r, s)) → (∀ p, m' p = (r, p)) → simulates m m'.
Proof.
  intros Hm Hm'. split; [by eapply patient_pure|].
  - intros s r0 s'. rewrite Hm. intros [= <- <-]. exists []. split; [constructor|]. split.
    + intros rest. by rewrite Hm'.
    + by intros [].
Qed.

Lemma simulates_bind {A B} (m : M S A) m' (f : A → M S B) f' :
  simulates m m' → (∀ a, simulates (f a) (f' a)) → simulates (m ≫= f) (m' ≫= f').
Proof.
  intros Hm Hf.
  assert (Hpat : ∀ p c, pending (m' p).2 = Some c → pending ((m' ≫= f') p).2 = Some c).
  { intros p c. unfold mbind, M_bind. destruct (m' p) as [[a|e] p'] eqn:Hp; [|done].
    apply (patient_waits _ (sim_patient _ _ (Hf a))). }
  split; [by apply patient_bind; [apply Hm|intros a; apply Hf]|].
  intros s r s' [(a & s1 & H1 & H2)|(e & H1 & ->)]%M_bind_inv;
    apply (sim_run _ _ Hm) in H1 as (tr & Hs & Hrun & Hpre).
  - apply (sim_run _ _ (Hf a)) in H2 as (tr' & Hs' & Hrun' & Hpre').
    exists (tr ++ tr'). split; [by eapply serves_app|]. split.
    + intros rest. rewrite fmap_app, <- (assoc_L (++)). unfold mbind, M_bind. by rewrite Hrun, Hrun'.
    + intros tr1 s2 c tr2 [(k & -> & Hk)|(k & -> & ->)]%app_eq_inv.
      * destruct k as [|[s3 c'] k]; cbn in Hk; simplify_eq.
        -- rewrite app_nil_r in *. unfold mbind, M_bind.
           rewrite <- (app_nil_r tr1.*1), Hrun. cbn. by apply (Hpre' [] s2 c tr2).
        -- by eapply Hpat, Hpre.
      * rewrite fmap_app. unfold mbind, M_bind. rewrite Hrun. by eapply Hpre'.
  - exists tr. split; [done|]. split.
    + intros rest. unfold mbind, M_bind. by rewrite Hrun.
    + intros tr1 s2 c tr2 Htr. by eapply Hpat, Hpre.
Qed.

(** Computations that look at the result of another, which runs unchanged. *)
Lemma simulates_result {A B} (g : result A → result B) (m : M S A) m' :
  simulates m m' →
  simulates (λ s, let '(r, s') := m s in (g r, s')) (λ p, let '(r, p') := m' p in (g r, p')).
Proof.
  intros Hm. split; [by apply patient_result, Hm|].
  - intros s r s' Hr. destruct (m s) as [r0 s0] eqn:H0. simplify_eq.
    apply (sim_run _ _ Hm) in H0 as (tr & Hs & Hrun & Hpre). exists tr. split; [done|]. split.
    + intros rest. by rewrite Hrun.
    + intros tr1 s1 c tr2 Htr. apply Hpre in Htr. by destruct (m' _).
Qed.

Lemma simulates_attempt {A} (m : M S A) m' : simulates m m' → simulates (attempt m) (attempt m').
Proof. apply (simulates_result Ok). Qed.

Lemma simulates_mwrap {A} before (m : M S A) m' :
  simulates m m' → simulates (mwrap before m) (mwrap before m').
Proof. apply (simulates_result (wrap_err before)). Qed.

Lemma simulates_atomically {A} (m : M S A) : simulates m (atomically m).
Proof.
  split; [apply patient_atomically|].
  - intros s r s' Hm. exists [(s, λ s, (m s).2)]. split; [|split].
    + constructor. rewrite Hm. constructor.
    + intros rest. cbn. by rewrite Hm.
    + intros [|? tr1] s1 c tr2 Htr; cbn in Htr; simplify_eq; [done|by destruct tr1].
Qed.

(** A patient computation never sees what was not there. *)
Lemma patient_keeps {A} (good : S → Prop) (m' : M Alone A) :
  patient m' → keeps good (λ _, True) m' (λ _, True).
Proof.
  intros Hm p r p' [Hg _] Hr. destruct (patient_seen _ Hm p) as [used Hu]. rewrite Hr in Hu. cbn in Hu.
  split; [|done]. split; [|done]. rewrite Hu in Hg. by apply Forall_app in Hg as [_ ?].
Qed.

(** A request does what the computation before a [≫=] does next, or that one
    has its result. *)
Lemma next_bind {A B} (m : M Alone A) (f : A → M Alone B) l c :
  patient m → (∀ a, patient (f a)) → next (m ≫= f) l = inl c →
  next m l = inl c ∨
  ∃ a l1 l2, l = l1 ++ l2 ∧ m (mkAlone l None) = (Ok a, mkAlone l2 None) ∧ next (f a) l2 = inl c.
Proof.
  intros Hm Hf. unfold next, mbind, M_bind. destruct (patient_seen _ Hm (mkAlone l None)) as [used Hu].
  destruct (m (mkAlone l None)) as [[a|e] [l2 [c'|]]]; cbn in *; [|..|intros [= ->]; by left|done].
  - pose proof (patient_waits _ (Hf a) (mkAlone l2 (Some c')) c' eq_refl) as Hp.
    destruct (f a _) as [r p]. cbn in Hp. rewrite Hp. intros [= ->]. by left.
  - intros Hn. right. exists a, used, l2. done.
Qed.

Lemma next_pending {A} (m : M Alone A) l c : next m l = inl c ↔ pending (m (mkAlone l None)).2 = Some c.
Proof.
  unfold next. destruct (m _) as [r [l' [c'|]]]; cbn; [|done].
  split; [by intros [= ->]|by intros [= ->]].
Qed.

Lemma next_result {A B} (g : result A → result B) (m : M Alone A) l c :
  next (λ p, let '(r, p') := m p in (g r, p')) l = inl c ↔ next m l = inl c.
Proof. rewrite !next_pending. by destruct (m _). Qed.

Lemma next_bind_l {A B} (m : M Alone A) (f : A → M Alone B) l c :
  (∀ a, patient (f a)) → next m l = inl c → next (m ≫= f) l = inl c.
Proof.
  intros Hf. rewrite !next_pending. unfold mbind, M_bind.
  destruct (m _) as [[a|e] p]; cbn; [apply (patient_waits _ (Hf a))|done].
Qed.

(** After [l1], a computation goes on as another. *)
Definition goes_on {A B} (m : M Alone A) l1 (m2 : M Alone B) : Prop :=
  ∀ k c, next m (l1 ++ k) = inl c ↔ next m2 k = inl c.

Lemma goes_on_refl {A} (m : M Alone A) : goes_on m [] m.
Proof. by intros k c. Qed.

Lemma goes_on_trans {A B C} (m1 : M Alone A) l1 (m2 : M Alone B) l2 (m3 : M Alone C) :
  goes_on m1 l1 m2 → goes_on m2 l2 m3 → goes_on m1 (l1 ++ l2) m3.
Proof. intros H1 H2 k c. rewrite <- (assoc_L (++)), (H1 _ c). apply H2. Qed.

Lemma bind_on {A B} (m : M Alone A) (f : A → M Alone B) l a l2 :
  patient m → m (mkAlone l None) = (Ok a, mkAlone l2 None) →
  ∃ l1, l = l1 ++ l2 ∧ goes_on (m ≫= f) l1 (f a).
Proof.
  intros Hm (used & Hu & Hless)%(patient_less _ Hm). exists used. split; [done|].
  intros k c. pose proof (patient_more _ Hm _ _ _ k Hless) as Hk. cbn in Hk.
  unfold next, mbind, M_bind. by rewrite Hk.
Qed.

(** The first computation of a [≫=] is at its next call, or it has its result and the
    second goes on. *)
Lemma next_bind_on {A B} (m : M Alone A) (f : A → M Alone B) l c :
  patient m → (∀ a, patient (f a)) → next (m ≫= f) l = inl c →
  next m l = inl c ∨
  ∃ a l1 l2, l = l1 ++ l2 ∧ m (mkAlone l None) = (Ok a, mkAlone l2 None) ∧
    goes_on (m ≫= f) l1 (f a) ∧ next (f a) l2 = inl c.
Proof.
  intros Hm Hf [Hn|(a & k1 & l2 & _ & Hr & Hn)]%next_bind; [by left| |done..]. right.
  destruct (bind_on m f l a l2 Hm Hr) as (l1 & Hl & Hon). by exists a, l1, l2.
Qed.

Lemma next_attempt_on {A B} (m : M Alone A) (f : result A → M Alone B) l c :
  patient m → (∀ r, patient (f r)) → next (r ← attempt m; f r) l = inl c →
  next m l = inl c ∨
  ∃ r l1 l2, l = l1 ++ l2 ∧ m (mkAlone l None) = (r, mkAlone l2 None) ∧
    goes_on (r ← attempt m; f r) l1 (f r) ∧ next (f r) l2 = inl c.
Proof.
  intros Hm Hf [Hn|(r & l1 & l2 & Hl & Hr & Hon & Hn)]%next_bind_on; [| |exact (patient_result Ok m Hm)|done].
  - left. exact (proj1 (next_result Ok m l c) Hn).
  - right. apply M_attempt_inv in Hr as (r' & Hr & [= ->]). by exists r', l1, l2.
Qed.

(** The first of two has its result when both have. *)
Lemma run_bind {A B} (m : M Alone A) (f : A → M Alone B) l b l' :
  (∀ a, patient (f a)) → (m ≫= f) (mkAlone l None) = (Ok b, mkAlone l' None) →
  ∃ a l2, m (mkAlone l None) = (Ok a, mkAlone l2 None) ∧ f a (mkAlone l2 None) = (Ok b, mkAlone l' None).
Proof.
  intros Hf [(a & [l2 [c|]] & Hm & Hb)|(e & _ & ?)]%M_bind_inv; [|by exists a, l2|done].
  pose proof (patient_waits _ (Hf a) (mkAlone l2 (Some c)) c eq_refl) as Hp. by rewrite Hb in Hp.
Qed.

(** *** What a computation has done

    It made a call on one of the states it met, and the call did [P]. *)
Definition has_done {A} (m : M Alone A) (l : list S) (P : S → S → Prop) : Prop :=
  ∃ l1 s l2 c, l = l1 ++ s :: l2 ∧ next m l1 = inl c ∧ P s (c s).

Lemma has_done_on {A B} (m : M Alone A) l1 (m2 : M Alone B) l2 P :
  goes_on m l1 m2 → has_done m2 l2 P → has_done m (l1 ++ l2) P.
Proof.
  intros Hon (k1 & s & k2 & c & -> & Hn & HP). exists (l1 ++ k1), s, k2, c.
  rewrite <- (assoc_L (++)). split; [done|]. split; [by apply Hon|done].
Qed.

Lemma has_done_more {A} (m : M Alone A) l1 l2 P : has_done m l1 P → has_done m (l1 ++ l2) P.
Proof.
  intros (k1 & s & k2 & c & -> & Hn & HP). exists k1, s, (k2 ++ l2), c.
  rewrite <- (assoc_L (++)). done.
Qed.

Lemma has_done_result {A B} (g : result A → result B) (m : M Alone A) l P :
  has_done m l P → has_done (λ p, let '(r, p') := m p in (g r, p')) l P.
Proof.
  intros (k1 & s & k2 & c & -> & Hn & HP). exists k1, s, k2, c. by rewrite next_result.
Qed.

Lemma has_done_bind {A B} (m : M Alone A) (f : A → M Alone B) l P :
  (∀ a, patient (f a)) → has_done m l P → has_done (m ≫= f) l P.
Proof.
  intros Hf (k1 & s & k2 & c & -> & Hn & HP). exists k1, s, k2, c. split; [done|].
  split; [by apply next_bind_l|done].
Qed.

Lemma has_done_attempt {A} (m : M Alone A) l P : has_done m l P → has_done (attempt m) l P.
Proof. apply (has_done_result Ok). Qed.

Lemma has_done_mwrap {A} before (m : M Alone A) l P : has_done m l P → has_done (mwrap before m) l P.
Proof. apply (has_done_result (wrap_err before)). Qed.

Lemma has_done_atomically {A} (m : M S A) l r l' (P : S → S → Prop) :
  atomically m (mkAlone l None) = (r, mkAlone l' None) →
  (∀ s, s ∈ l → (m s).1 = r → P s (m s).2) → has_done (atomically m) l P.
Proof.
  destruct l as [|s l]; cbn; [done|]. intros [= Hr ->] HP.
  exists [], s, l', (λ s, (m s).2). split; [done|]. split; [done|]. apply HP; [by left|done].
Qed.

(** The second of two has done it, on what the first left to be seen. *)
Lemma has_done_after {A B} (m : M Alone A) (f : A → M Alone B) l b l' P :
  patient m → (∀ a, patient (f a)) → (m ≫= f) (mkAlone l None) = (Ok b, mkAlone l' None) →
  (∀ a l1 l2, l = l1 ++ l2 → f a (mkAlone l2 None) = (Ok b, mkAlone l' None) → has_done (f a) l2 P) →
  has_done (m ≫= f) l P.
Proof.
  intros Hm Hf Hr Hdone. apply run_bind in Hr as (a & l2 & Ha & Hb); [|done].
  apply (bind_on m f) in Ha as (l1 & -> & Hon); [|done]. eapply has_done_on; [done|]. by eapply Hdone.
Qed.

(** ** A computation and its calls

    [tracks safe m m']: [m'] makes the calls of [m], and they are [safe]. *)
Section tracks.
Context (safe : (S → S) → Prop).

Record tracks {A} (m : M S A) (m' : M Alone A) : Prop := {
  tracks_simulates : simulates m m';
  tracks_keeps : keeps (λ _, True) safe m' (λ _, True);
}.

Lemma tracks_next {A} (m : M S A) m' l c : tracks m m' → next m' l = inl c → safe c.
Proof.
  intros [_ Hk] Hn. pose proof (keeps_next _ _ _ _ l Hk) as Hc. rewrite Hn in Hc.
  apply Hc. by apply Forall_forall.
Qed.

Lemma tracks_patient {A} (m : M S A) m' : tracks m m' → patient m'.
Proof. intros [Hm _]. apply Hm. Qed.

Lemma tracks_ret {A} (a : A) : tracks (mret a) (mret a).
Proof. split; [by eapply simulates_pure|by apply keeps_ret]. Qed.

Lemma tracks_fail {A} e : tracks (fail (A := A) e) (fail e).
Proof. split; [by eapply simulates_pure|apply keeps_fail]. Qed.

Lemma tracks_lift {A} (r : result A) : tracks (lift r) (lift r).
Proof. split; [by eapply simulates_pure|by apply keeps_lift]. Qed.

Lemma tracks_bind {A B} (m : M S A) m' (f : A → M S B) f' :
  tracks m m' → (∀ a, tracks (f a) (f' a)) → tracks (m ≫= f) (m' ≫= f').
Proof.
  intros [Hm Hk] Hf. split; [by apply simulates_bind; [|intros a; apply Hf]|].
  eapply keeps_bind; [exact Hk|]. intros a _. apply Hf.
Qed.

Lemma tracks_attempt {A} (m : M S A) m' : tracks m m' → tracks (attempt m) (attempt m').
Proof.
  intros [Hm Hk]. split; [by apply simulates_attempt|].
  eapply keeps_weaken; [by apply keeps_attempt|done].
Qed.

Lemma tracks_mwrap {A} before (m : M S A) m' : tracks m m' → tracks (mwrap before m) (mwrap before m').
Proof. intros [Hm Hk]. split; [by apply simulates_mwrap|by apply keeps_mwrap]. Qed.

Lemma tracks_result {A B} (g : result A → result B) (m : M S A) m' :
  tracks m m' →
  tracks (λ s, let '(r, s') := m s in (g r, s')) (λ p, let '(r, p') := m' p in (g r, p')).
Proof.
  intros [Hm Hk]. split; [by apply simulates_result|]. intros p r p' Hp Hr.
  destruct (m' p) as [r0 p0] eqn:H0. injection Hr as <- <-. split; [by eapply Hk|done].
Qed.

Lemma tracks_atomically {A} (m : M S A) : safe (λ s, (m s).2) → tracks m (atomically m).
Proof. intros Hc. split; [apply simulates_atomically|by apply keeps_atomically]. Qed.
End tracks.

(** ** The pool *)

Context {op ans : Type} (body : op → M Alone ans) (other : S → S → Prop).

Record thread := mkThread { request : op; got : list S }.

Definition pool : Type := S * list thread.

(** A request arrives; a request has its next call served; or something else
    happens to the shared state. *)
Inductive step : pool → pool → Prop :=
  | step_arrive o s ts : step (s, ts) (s, ts ++ [mkThread o []])
  | step_call i o l c s ts :
      ts !! i = Some (mkThread o l) → next (body o) l = inl c →
      step (s, ts) (c s, <[i := mkThread o (l ++ [s])]> ts)
  | step_other s s' ts : other s s' → step (s, ts) (s', ts).

(** The answer of a request that is done. *)
Definition answered (th : thread) : option (result ans) :=
  match next (body (request th)) (got th) with inl _ => None | inr r => Some r end.

Lemma served_calls i o s tr s' l ts :
  serves s tr s' → ts !! i = Some (mkThread o l) →
  (∀ tr1 s1 c tr2, tr = tr1 ++ (s1, c) :: tr2 → next (body o) (l ++ tr1.*1) = inl c) →
  rtc step (s, ts) (s', <[i := mkThread o (l ++ tr.*1)]> ts).
Proof.
  intros Hs. revert l ts. induction Hs as [s|s c tr s' _ IH]; intros l ts Hi Hnext.
  - cbn. rewrite app_nil_r, list_insert_id; done.
  - eapply rtc_l.
    + eapply step_call; [exact Hi|].
      rewrite <- (app_nil_r l). by eapply (Hnext []).
    + assert (Hgot : l ++ ((s, c) :: tr).*1 = (l ++ [s]) ++ tr.*1) by (cbn; by rewrite <- (assoc_L (++))).
      rewrite Hgot, <- (list_insert_insert_eq ts i (mkThread o ((l ++ [s]) ++ tr.*1)) (mkThread o (l ++ [s]))).
      apply IH; [by eapply list_lookup_insert_eq, lookup_lt_Some|].
      intros tr1 s1 c' tr2 ->. rewrite <- (assoc_L (++)). by eapply (Hnext ((s, c) :: tr1)).
Qed.

(** *** Schedules

    The pool after the requests [turns] have each had their next call served. *)
Definition advance (i : nat) (p : pool) : pool :=
  let '(s, ts) := p in
  match ts !! i with
  | Some th =>
      match next (body (request th)) (got th) with
      | inl c => (c s, <[i := mkThread (request th) (got th ++ [s])]> ts)
      | inr _ => (s, ts)
      end
  | None => (s, ts)
  end.

Definition run_schedule (turns : list nat) (p : pool) : pool := fold_left (λ p i, advance i p) turns p.

Lemma advance_step i p : rtc step p (advance i p).
Proof.
  destruct p as [s ts]. cbn. destruct (ts !! i) as [[o l]|] eqn:Hi; [|done]. cbn.
  destruct (next _ _) as [c|] eqn:Hn; [|done]. apply rtc_once. by eapply step_call.
Qed.

Lemma run_schedule_steps turns p : rtc step p (run_schedule turns p).
Proof.
  revert p. induction turns as [|i turns IH]; intros p; [done|].
  etrans; [apply advance_step|apply IH].
Qed.

(** Requests that arrive and then take turns. *)
Definition arriving (os : list op) : list thread := (λ o, mkThread o []) <$> os.

Lemma arriving_steps turns os s ts : rtc step (s, ts) (run_schedule turns (s, ts ++ arriving os)).
Proof.
  trans (s, ts ++ arriving os); [|apply run_schedule_steps].
  revert ts. induction os as [|o os IH]; intros ts; [by rewrite app_nil_r|].
  eapply rtc_l; [apply (step_arrive o)|].
  assert (Ho : ts ++ arriving (o :: os) = (ts ++ [mkThread o []]) ++ arriving os)
    by (by rewrite <- (assoc_L (++))).
  rewrite Ho. apply IH.
Qed.

(** A request whose calls nobody interrupts runs as its definition says. *)
Lemma served_alone o (m : M S ans) s r s' ts i :
  simulates m (body o) → m s = (r, s') → ts !! i = Some (mkThread o []) →
  ∃ l, rtc step (s, ts) (s', <[i := mkThread o l]> ts) ∧ answered (mkThread o l) = Some r.
Proof.
  intros Hm Hr Hi. apply (sim_run _ _ Hm) in Hr as (tr & Hs & Hrun & Hpre).
  exists tr.*1. split.
  - apply (served_calls i o s tr s' [] ts Hs Hi). intros tr1 s1 c tr2 Htr. cbn.
    apply Hpre in Htr. unfold next. destruct (body o _). cbn in Htr. by rewrite Htr.
  - unfold answered, next. cbn. specialize (Hrun []). rewrite app_nil_r in Hrun. by rewrite Hrun.
Qed.

(** *** Invariants

    [I]: an invariant of the shared state; a request is safe while its calls
    keep the invariant, given that they met states that have it. *)
Lemma pool_invariant (I : S → Prop) :
  (∀ s s', other s s' → I s → I s') →
  (∀ o l c, Forall I l → next (body o) l = inl c → ∀ s, I s → I (c s)) →
  ∀ p p', rtc step p p' → I p.1 → Forall (λ th, Forall I (got th)) p.2 →
  I p'.1 ∧ Forall (λ th, Forall I (got th)) p'.2.
Proof.
  intros Hother Hcall p p'. induction 1 as [|p1 p2 p3 Hstep _ IH]; [done|]. intros Hi Hts.
  apply IH; destruct Hstep as [o s ts|i o l c s ts Hth Hn|s s' ts Ho]; cbn in *; try done.
  - pose proof (proj1 (Forall_lookup _ _) Hts i _ Hth) as Hl. exact (Hcall o l c Hl Hn s Hi).
  - by eapply Hother.
  - apply Forall_app. split; [done|]. apply Forall_singleton. constructor.
  - pose proof (proj1 (Forall_lookup _ _) Hts i _ Hth) as Hl. cbn in Hl.
    apply Forall_insert; [done|]. cbn. apply Forall_app. split; [done|]. by apply Forall_singleton.
Qed.

(** Every state that a request met is in the past of the present one, and so is what its
    call made of it; [P]: how states follow each other, all of them having [I]. *)
Lemma pool_history (I : S → Prop) (P : S → S → Prop) `{!PreOrder P} :
  (∀ s s', other s s' → I s → I s' ∧ P s s') →
  (∀ o l c, next (body o) l = inl c → ∀ s, I s → I (c s) ∧ P s (c s)) →
  ∀ s0 p, I s0 → rtc step (s0, []) p →
  I p.1 ∧ ∀ i o l, p.2 !! i = Some (mkThread o l) → ∀ l1 s l2, l = l1 ++ s :: l2 →
    I s ∧ P s p.1 ∧ ∃ c, next (body o) l1 = inl c ∧ P (c s) p.1.
Proof.
  intros Hother Hcall s0 p Hs0 Hsteps.
  eapply (rtc_ind_r (λ p, I p.1 ∧ ∀ i o l, p.2 !! i = Some (mkThread o l) → ∀ l1 s l2, l = l1 ++ s :: l2 →
    I s ∧ P s p.1 ∧ ∃ c, next (body o) l1 = inl c ∧ P (c s) p.1) (s0, [])); [by split|clear Hsteps p|exact Hsteps].
  intros p p' _ Hstep [Hi Hold]. destruct Hstep as [o s ts|i o l c s ts Hth Hn|s s' ts Ho]; cbn in *.
  - split; [done|]. intros j o' l Hj l1 s1 l2 ->. apply lookup_snoc_Some in Hj as [[_ Hj]|[_ Hj]].
    + by eapply Hold.
    + injection Hj as _ Hl. by destruct l1.
  - destruct (Hcall o l c Hn s Hi) as [Hi' Hp]. split; [done|]. intros j o' l' Hj l1 s1 l2 ->.
    assert (Hkeep : ∀ j o' l', ts !! j = Some (mkThread o' l') → ∀ l1 s1 l2, l' = l1 ++ s1 :: l2 →
      I s1 ∧ P s1 (c s) ∧ ∃ c', next (body o') l1 = inl c' ∧ P (c' s1) (c s)).
    { intros j' o1 l' Hj' k1 s2 k2 Hk. destruct (Hold _ _ _ Hj' _ _ _ Hk) as (? & ? & c' & ? & ?).
      split; [done|]. split; [by etrans|]. exists c'. split; [done|by etrans]. }
    apply list_lookup_insert_Some in Hj as [(<- & Hj & _)|[_ Hj]]; [|by eapply Hkeep].
    injection Hj as <- Hl. symmetry in Hl.
    destruct l2 as [|s2 l2 _] using rev_ind.
    + apply app_inj_tail in Hl as [<- <-]. split; [done|]. split; [done|]. by exists c.
    + rewrite app_comm_cons, (assoc_L (++)) in Hl. apply app_inj_tail in Hl as [<- _]. by eapply Hkeep.
  - destruct (Hother s s' Ho Hi) as [Hi' Hp]. split; [done|]. intros j o' l Hj l1 s1 l2 Hl.
    destruct (Hold _ _ _ Hj _ _ _ Hl) as (? & ? & c' & ? & ?). split; [done|]. split; [by etrans|].
    exists c'. split; [done|by etrans].
Qed.
End alone.
Arguments Alone : clear implicits.
Arguments thread : clear implicits.
Arguments pool : clear implicits.

(** One step of a proof that a service simulates itself. *)
Ltac simulates_step :=
  lazymatch goal with
  | |- simulates (mbind _ _) _ => apply simulates_bind; [|intros ?]
  | |- simulates (attempt _) _ => apply simulates_attempt
  | |- simulates (mwrap _ _) _ => apply simulates_mwrap
  | |- simulates (mret _) _ => by eapply simulates_pure
  | |- simulates (lift _) _ => by eapply simulates_pure
  | |- simulates (fail _) _ => by eapply simulates_pure
  | |- simulates (match ?x with _ => _ end) _ => destruct x
  | |- _ => apply simulates_atomically
  end.
End threads.
