(* ===== verification/LogLock.v ===== *)
(** Concurrent records of the development log: [devHandler.Handle] of
    [pkg/logger/dev_handler.go] writes a record in several pieces, under the mutex of
    its handler.  A mutex is where [newDevHandler] made it, and [WithAttrs] hands it on,
    so that all handlers made from one share it.  Here the calls of any number of
    goroutines interleave, each one piece at a time: a goroutine runs [dev_Handle] as a
    request runs its handler in Threads.v. *)

From S2P Require Import Prelude.
From S2P Require Import Bytes.
From S2P Require Import World.
From S2P Require Import Http.
From S2P Require Import RateLimit.
From S2P Require Import Logger.
From S2P Require Import Threads.

Module loglock.
Import logger threads.

(** ** Writers and mutexes *)

(** What every writer was given, and the mutexes that are held. *)
Record log_state := mkLog { written : gmap Writer bytes; locked : gset Mutex }.

Definition log_of (w : Writer) (s : log_state) : bytes := default [] (written s !! w).

(** A call that cannot be served leaves no state: [Lock] of a mutex that is held waits, and
    [Unlock] of one that is not ends the process. *)
#[export] Instance log_sink : Sink (option log_state) := λ w b s,
  (Ok tt, (λ s, mkLog (<[w := log_of w s ++ b]> (written s)) (locked s)) <$> s).

#[export] Instance log_mutexes : Mutexes (option log_state) := {|
  mutex_Lock m s := (Ok tt, match s with
    | Some s => if decide (m ∈ locked s) then None else Some (mkLog (written s) ({[m]} ∪ locked s))
    | None => None
    end);
  mutex_Unlock m s := (Ok tt, match s with
    | Some s => if decide (m ∈ locked s) then Some (mkLog (written s) (locked s ∖ {[m]})) else None
    | None => None
    end) |}.

#[export] Instance Alone_Sink {S} `{Sink S} : Sink (Alone S) := λ w b, atomically (sink_Write w b).
#[export] Instance Alone_Mutexes {S} `{Mutexes S} : Mutexes (Alone S) := {|
  mutex_Lock m := atomically (mutex_Lock m); mutex_Unlock m := atomically (mutex_Unlock m) |}.

(** ** Computations that make the same calls whatever they see *)

Section scripted.
Context {S : Type}.

Record scripted (m : M (Alone S) unit) (cs : list (S → S)) : Prop := {
  scripted_patient : patient m;
  scripted_done l : (length cs ≤ length l)%nat →
    m (mkAlone l None) = (Ok tt, mkAlone (drop (length cs) l) None);
  scripted_pending l c : cs !! length l = Some c → pending (m (mkAlone l None)).2 = Some c;
}.

Lemma scripted_next m cs l :
  scripted m cs → next m l = match cs !! length l with Some c => inl c | None => inr (Ok tt) end.
Proof.
  intros [_ Hd Hp]. destruct (cs !! length l) as [c|] eqn:Hc.
  - by apply next_pending, Hp.
  - unfold next. by rewrite Hd by by apply lookup_ge_None.
Qed.

Lemma scripted_ret : scripted (mret tt) [].
Proof. split; [by eapply patient_pure|by intros l _|done]. Qed.

Lemma scripted_call (m : M S unit) : (∀ s, (m s).1 = Ok tt) → scripted (atomically m) [λ s, (m s).2].
Proof.
  intros Hm. split; [apply patient_atomically|..].
  - intros [|s l] Hl; [cbn in Hl; lia|]. cbn. by rewrite Hm.
  - intros [|s l] c Hc; [by injection Hc as <-|done].
Qed.

Lemma scripted_seq (m m' : M (Alone S) unit) cs cs' :
  scripted m cs → scripted m' cs' → scripted (m;; m') (cs ++ cs').
Proof.
  intros [Hw Hd Hp] [Hw' Hd' Hp']. split; [by apply patient_bind|..].
  - intros l Hl. rewrite length_app in Hl. unfold mbind, M_bind. rewrite Hd by lia.
    rewrite Hd' by (rewrite length_drop; lia). by rewrite drop_drop, length_app.
  - intros l c Hc. destruct (decide (length l < length cs)%nat) as [Hlt|Hge].
    + rewrite lookup_app_l in Hc by done. apply next_pending, next_bind_l; [done|]. by apply next_pending, Hp.
    + rewrite lookup_app_r in Hc by lia. unfold mbind, M_bind. rewrite Hd by lia. apply Hp'.
      by rewrite length_drop.
Qed.

Lemma scripted_attempt m cs : scripted m cs → scripted (attempt m;; mret tt) cs.
Proof.
  intros [Hw Hd Hp]. split; [apply patient_bind; [by apply (patient_result Ok)|intros ?; by eapply patient_pure]|..].
  - intros l Hl. unfold mbind, M_bind, attempt. by rewrite Hd.
  - intros l c Hc. apply next_pending, next_bind_l; [intros ?; by eapply patient_pure|].
    apply (next_result Ok m l c). by apply next_pending, Hp.
Qed.
End scripted.

(** ** What [Handle] does *)

Abbreviation lock m := (λ s : option log_state, (mutex_Lock m s).2).
Abbreviation unlock m := (λ s : option log_state, (mutex_Unlock m s).2).
Abbreviation put w b := (λ s : option log_state, (sink_Write w b s).2).

(** The pieces that are written, one after the other. *)
Definition pieces (h : devHandler) (r : slog_Record) : list bytes :=
  unstr (head_text r) :: ((λ a, unstr (attr_text a)) <$> attrs h) ++
  ((λ a, unstr (attr_text a)) <$> rec_Attrs r) ++ [[newline]].

Definition script (h : devHandler) (r : slog_Record) : list (option log_state → option log_state) :=
  if dev_Enabled h (rec_Level r)
  then lock (mu h) :: ((λ b, put (dev_w h) b) <$> pieces h r) ++ [unlock (mu h)]
  else [].

Lemma scripted_Fprint w text : scripted (Fprint w text) [put w (unstr text)].
Proof. apply scripted_attempt. by apply (scripted_call (sink_Write w (unstr text))). Qed.

Lemma scripted_print_attrs w l : scripted (print_attrs w l) ((λ a, put w (unstr (attr_text a))) <$> l).
Proof.
  induction l as [|a l IH]; [apply scripted_ret|]. cbn [print_attrs]. rewrite fmap_cons.
  exact (scripted_seq _ _ [_] _ (scripted_Fprint w (attr_text a)) IH).
Qed.

Lemma scripted_Handle h r : scripted (dev_Handle h r) (script h r).
Proof.
  unfold dev_Handle, script, pieces. destruct (dev_Enabled _ _); cbn [negb]; [|apply scripted_ret].
  rewrite fmap_cons, <- app_comm_cons, !fmap_app, <- !list_fmap_compose, <- !(assoc_L (++)).
  apply (scripted_seq _ _ [_] _); [by apply (scripted_call (mutex_Lock (mu h)))|].
  apply (scripted_seq _ _ [_] _ (scripted_Fprint _ _)).
  apply (scripted_seq _ _ _ _ (scripted_print_attrs _ _)), (scripted_seq _ _ _ _ (scripted_print_attrs _ _)).
  rewrite fmap_cons. cbn [app fmap list_fmap].
  apply (scripted_seq _ _ [_] [_]); [|by apply (scripted_call (mutex_Unlock (mu h)))].
  pose proof (scripted_Fprint (dev_w h) (str [newline])) as Hn. by rewrite unstr_str in Hn.
Qed.

(** ** Any number of goroutines *)

(** The handlers that [With] makes of one, and of those. *)
Inductive derived (h0 : devHandler) : devHandler → Prop :=
  | derived_new : derived h0 h0
  | derived_WithAttrs l h : derived h0 h → derived h0 (dev_WithAttrs l h).

Lemma derived_shares h0 h : derived h0 h → mu h = mu h0 ∧ dev_w h = dev_w h0.
Proof. by induction 1. Qed.

(** A call of [Handle], and the states that its calls met. *)
Record goroutine := mkG { g_handler : devHandler; g_record : slog_Record; g_seen : list (option log_state) }.

Definition goes (g : goroutine) : (option log_state → option log_state) + result unit :=
  next (dev_Handle (g_handler g) (g_record g)) (g_seen g).

Definition saw (s : log_state) (g : goroutine) : goroutine :=
  mkG (g_handler g) (g_record g) (g_seen g ++ [Some s]).

(** Somebody calls [Handle] of a handler made from [h0], or the next call of one is served. *)
Inductive handling (h0 : devHandler) : log_state * list goroutine → log_state * list goroutine → Prop :=
  | h_call h r s gs : derived h0 h → handling h0 (s, gs) (s, gs ++ [mkG h r []])
  | h_next i g c s s' gs :
      gs !! i = Some g → goes g = inl c → c (Some s) = Some s' →
      handling h0 (s, gs) (s', <[i := saw s g]> gs).

(** The bytes of a record, in colours: the line with its time, level and message, then
    the attributes of the handler and of the record. *)
Definition line (h : devHandler) (r : slog_Record) : bytes :=
  unstr (head_text r) ++ concat ((λ a, unstr (attr_text a)) <$> attrs h ++ rec_Attrs r) ++ [newline].

Definition enabled (g : goroutine) : bool := dev_Enabled (g_handler g) (rec_Level (g_record g)).
Definition line_of (g : goroutine) : bytes := line (g_handler g) (g_record g).

(** What a call has written that returned. *)
Definition record_of (g : goroutine) : option bytes :=
  match goes g with
  | inl _ => None
  | inr _ => if enabled g then Some (line_of g) else None
  end.

Lemma concat_pieces h r : concat (pieces h r) = line h r.
Proof. unfold pieces, line. cbn [concat]. by rewrite !concat_app, fmap_app, concat_app, <- (assoc_L (++)). Qed.

(** *** How far a call has come *)

Inductive phase :=
  | Waiting
  | Writing (rest : list bytes)
  | Returned.

Definition g_pieces (g : goroutine) : list bytes := pieces (g_handler g) (g_record g).

Definition phase_of (g : goroutine) : phase :=
  if negb (enabled g) then Returned
  else match length (g_seen g) with
  | O => Waiting
  | S n => if decide (n ≤ length (g_pieces g))%nat then Writing (drop n (g_pieces g)) else Returned
  end.

Lemma lookup_cons_S {A} (x : A) l n : (x :: l) !! S n = l !! n.
Proof. done. Qed.

Lemma goes_phase g :
  goes g = match phase_of g with
  | Waiting => inl (lock (mu (g_handler g)))
  | Writing (b :: _) => inl (put (dev_w (g_handler g)) b)
  | Writing [] => inl (unlock (mu (g_handler g)))
  | Returned => inr (Ok tt)
  end.
Proof.
  unfold goes, phase_of, enabled, g_pieces. rewrite (scripted_next _ _ _ (scripted_Handle _ _)). unfold script.
  destruct (dev_Enabled _ _); cbn [negb]; [|done]. set (ps := pieces _ _).
  destruct (length (g_seen g)) as [|n]; [done|]. rewrite lookup_cons_S.
  destruct (decide (n ≤ length ps)%nat) as [Hle|Hgt].
  - destruct (decide (n = length ps)) as [->|Hne].
    + rewrite drop_all, lookup_app_r by (rewrite length_fmap; lia). by rewrite length_fmap, Nat.sub_diag.
    + destruct (lookup_lt_is_Some_2 ps n) as [b Hb]; [lia|]. rewrite (drop_S _ _ _ Hb).
      rewrite lookup_app_l by (rewrite length_fmap; lia). by rewrite list_lookup_fmap, Hb.
  - rewrite lookup_ge_None_2; [done|]. rewrite length_app, length_fmap. cbn [length]. lia.
Qed.

(** The phase after the next call. *)
Lemma phase_saw s g :
  phase_of (saw s g) = match phase_of g with
  | Waiting => Writing (g_pieces g)
  | Writing (_ :: rest) => Writing rest
  | Writing [] | Returned => Returned
  end.
Proof.
  unfold phase_of, saw, enabled, g_pieces. cbn [g_handler g_record g_seen]. destruct (dev_Enabled _ _); cbn [negb]; [|done].
  set (ps := pieces _ _). rewrite length_app. cbn [length]. rewrite Nat.add_1_r.
  destruct (length (g_seen g)) as [|n].
  - rewrite decide_True by lia. by rewrite drop_0.
  - destruct (decide (n ≤ length ps)%nat) as [Hle|Hgt]; [|by rewrite decide_False by lia].
    destruct (decide (n = length ps)) as [->|Hne]; [by rewrite drop_all, decide_False by lia|].
    destruct (lookup_lt_is_Some_2 ps n) as [b Hb]; [lia|]. rewrite (drop_S _ _ _ Hb).
    by rewrite decide_True by lia.
Qed.

Lemma record_phase g :
  record_of g = match phase_of g with Returned => if enabled g then Some (line_of g) else None | _ => None end.
Proof. unfold record_of. rewrite goes_phase. by destruct (phase_of g) as [|[|]|]. Qed.

Lemma writing_enabled g rest : phase_of g = Writing rest → enabled g = true.
Proof. unfold phase_of. by destruct (enabled g). Qed.

(** ** The log *)

Section log.
Context (h0 : devHandler).

(** [holder]: the call that is between [Lock] and [Unlock], if any; what it has written of
    its record is [partial]. *)
Definition begun (holder : option nat) (gs : list goroutine) (partial : bytes) : Prop :=
  match holder with
  | None => partial = []
  | Some i => ∃ g rest, gs !! i = Some g ∧ phase_of g = Writing rest ∧ partial ++ concat rest = line_of g
  end.

Record log_ok (s : log_state) (gs : list goroutine) (holder : option nat) (order : list bytes) (partial : bytes) : Prop := {
  ok_derived i g : gs !! i = Some g → derived h0 (g_handler g);
  ok_locked : mu h0 ∈ locked s ↔ is_Some holder;
  ok_exclusive i g rest : gs !! i = Some g → phase_of g = Writing rest → holder = Some i;
  ok_out : log_of (dev_w h0) s = concat order ++ partial;
  ok_order : order ≡ₚ omap record_of gs;
  ok_begun : begun holder gs partial;
}.

Lemma log_of_put w b s : log_of w (mkLog (<[w := log_of w s ++ b]> (written s)) (locked s)) = log_of w s ++ b.
Proof. unfold log_of. cbn. by rewrite lookup_insert_eq. Qed.

Lemma omap_insert_same (gs : list goroutine) i g g' :
  gs !! i = Some g → record_of g' = record_of g → omap record_of (<[i := g']> gs) = omap record_of gs.
Proof.
  revert i. induction gs as [|g0 gs IH]; intros [|i] Hi Hr; simplify_eq/=; [by rewrite Hr|].
  by rewrite IH.
Qed.

Lemma omap_insert_new (gs : list goroutine) i g g' t :
  gs !! i = Some g → record_of g = None → record_of g' = Some t →
  omap record_of (<[i := g']> gs) ≡ₚ t :: omap record_of gs.
Proof.
  revert i. induction gs as [|g0 gs IH]; intros [|i] Hi Hn Hs; simplify_eq/=; [by rewrite Hs, Hn|].
  destruct (record_of g0); [rewrite IH by done; apply Permutation_swap|by apply IH].
Qed.

Lemma insert_cases (gs : list goroutine) i g g' j x :
  gs !! i = Some g → <[i := g']> gs !! j = Some x → (j = i ∧ x = g') ∨ (j ≠ i ∧ gs !! j = Some x).
Proof.
  intros Hi Hj. destruct (decide (j = i)) as [->|Hne].
  - rewrite list_lookup_insert_eq in Hj by (by eapply lookup_lt_Some). injection Hj as <-. by left.
  - rewrite list_lookup_insert_ne in Hj by done. by right.
Qed.

Lemma record_saw s g rest : phase_of (saw s g) = Writing rest → record_of (saw s g) = None.
Proof. intros Hp. by rewrite record_phase, Hp. Qed.

(** A call arrives. *)
Lemma log_ok_call s gs holder order partial h r :
  derived h0 h → log_ok s gs holder order partial → log_ok s (gs ++ [mkG h r []]) holder order partial.
Proof.
  intros Hh [Hder Hlock Hex Hout Hord Hbeg].
  assert (Hnew : record_of (mkG h r []) = None ∧ ∀ rest, phase_of (mkG h r []) ≠ Writing rest).
  { rewrite record_phase. unfold phase_of. cbn [g_seen length]. by destruct (enabled _). }
  split; try done.
  - intros i g [Hi|[_ Hi]]%lookup_app_Some; [by eapply Hder|]. by apply list_lookup_singleton_Some in Hi as [_ <-].
  - intros i g rest [Hi|[_ Hi]]%lookup_app_Some Hp; [by eapply Hex|].
    apply list_lookup_singleton_Some in Hi as [_ <-]. destruct Hnew as [_ Hnew]. by destruct (Hnew rest).
  - rewrite omap_app. cbn. destruct Hnew as [-> _]. by rewrite app_nil_r.
  - destruct holder as [i|]; [|done]. destruct Hbeg as (g & rest & Hi & Hrest). exists g, rest.
    split; [by apply lookup_app_l_Some|done].
Qed.

Context (s : log_state) (gs : list goroutine) (order : list bytes).
Context (i : nat) (g : goroutine) (Hi : gs !! i = Some g).

(** It takes the mutex, which is free. *)
Lemma log_ok_Lock s' holder partial :
  log_ok s gs holder order partial → phase_of g = Waiting → lock (mu (g_handler g)) (Some s) = Some s' →
  log_ok s' (<[i := saw s g]> gs) (Some i) order [].
Proof using Hi.
  intros [Hder Hlock Hex Hout Hord Hbeg] Hp Hs. destruct (derived_shares _ _ (Hder _ _ Hi)) as [Hmu _].
  rewrite Hmu in Hs. cbn in Hs. destruct (decide _) as [|Hfree]; [done|]. injection Hs as <-.
  destruct holder as [j|]; [by destruct Hfree; apply Hlock|]. cbn in Hbeg. subst partial.
  assert (Hp' : phase_of (saw s g) = Writing (g_pieces g)) by by rewrite phase_saw, Hp.
  split; cbn [locked].
  - intros j x [[-> ->]|[_ Hj]]%(insert_cases _ _ _ _ _ _ Hi); [exact (Hder i g Hi)|by eapply Hder].
  - set_solver.
  - intros j x rest [[-> _]|[_ Hj]]%(insert_cases _ _ _ _ _ _ Hi) Hx; [done|]. by specialize (Hex _ _ _ Hj Hx).
  - exact Hout.
  - rewrite (omap_insert_same _ _ g) by (done || by rewrite (record_saw _ _ _ Hp'), record_phase, Hp). done.
  - exists (saw s g), (g_pieces g). rewrite list_lookup_insert_eq by (by eapply lookup_lt_Some).
    split; [done|]. split; [exact Hp'|]. apply concat_pieces.
Qed.

(** It writes a piece. *)
Lemma log_ok_put s' holder partial b rest :
  log_ok s gs holder order partial → phase_of g = Writing (b :: rest) → put (dev_w (g_handler g)) b (Some s) = Some s' →
  log_ok s' (<[i := saw s g]> gs) (Some i) order (partial ++ b).
Proof using Hi.
  intros [Hder Hlock Hex Hout Hord Hbeg] Hp Hs. destruct (derived_shares _ _ (Hder _ _ Hi)) as [_ Hw].
  rewrite Hw in Hs. injection Hs as <-. pose proof (Hex _ _ _ Hi Hp) as ->.
  destruct Hbeg as (g' & rest' & Hi' & Hp' & Hpart). simplify_eq. rewrite Hp in Hp'. injection Hp' as <-.
  assert (Hp' : phase_of (saw s g) = Writing rest) by by rewrite phase_saw, Hp.
  split; cbn [locked].
  - intros j x [[-> ->]|[_ Hj]]%(insert_cases _ _ _ _ _ _ Hi); [exact (Hder i g Hi)|by eapply Hder].
  - done.
  - intros j x rest' [[-> _]|[_ Hj]]%(insert_cases _ _ _ _ _ _ Hi) Hx; [done|by eapply Hex].
  - by rewrite log_of_put, Hout, (assoc_L (++)).
  - rewrite (omap_insert_same _ _ g) by (done || by rewrite (record_saw _ _ _ Hp'), record_phase, Hp). done.
  - exists (saw s g), rest. rewrite list_lookup_insert_eq by (by eapply lookup_lt_Some).
    split; [done|]. split; [exact Hp'|]. rewrite <- (assoc_L (++)). exact Hpart.
Qed.

(** It gives the mutex back, and returns. *)
Lemma log_ok_Unlock s' holder partial :
  log_ok s gs holder order partial → phase_of g = Writing [] → unlock (mu (g_handler g)) (Some s) = Some s' →
  log_ok s' (<[i := saw s g]> gs) None (order ++ [line_of g]) [].
Proof using Hi.
  intros [Hder Hlock Hex Hout Hord Hbeg] Hp Hs. destruct (derived_shares _ _ (Hder _ _ Hi)) as [Hmu _].
  rewrite Hmu in Hs. cbn in Hs. destruct (decide _) as [_|]; [|done]. injection Hs as <-.
  pose proof (Hex _ _ _ Hi Hp) as ->.
  destruct Hbeg as (g' & rest' & Hi' & Hp' & Hpart). simplify_eq. rewrite Hp in Hp'. injection Hp' as <-.
  cbn in Hpart. rewrite app_nil_r in Hpart. subst partial.
  assert (Hp' : phase_of (saw s g) = Returned) by by rewrite phase_saw, Hp.
  split; cbn [locked].
  - intros j x [[-> ->]|[_ Hj]]%(insert_cases _ _ _ _ _ _ Hi); [exact (Hder i g Hi)|by eapply Hder].
  - split; [set_solver|by intros []].
  - intros j x rest [[-> ->]|[Hne Hj]]%(insert_cases _ _ _ _ _ _ Hi) Hx; [congruence|].
    specialize (Hex _ _ _ Hj Hx). congruence.
  - rewrite concat_app. cbn [concat]. by rewrite !app_nil_r.
  - rewrite (omap_insert_new gs i g _ (line_of g) Hi); [|by rewrite record_phase, Hp|].
    + rewrite Hord. symmetry. apply Permutation_cons_append.
    + rewrite record_phase, Hp'. pose proof (writing_enabled _ _ Hp) as He. unfold enabled, line_of, saw in *.
      cbn [g_handler g_record]. by rewrite He.
  - done.
Qed.
End log.

Lemma log_ok_step h0 s gs s' gs' holder order partial :
  handling h0 (s, gs) (s', gs') → log_ok h0 s gs holder order partial →
  ∃ holder' order' partial', log_ok h0 s' gs' holder' order' partial'.
Proof.
  intros Hstep Hok. inversion Hstep as [h r s0 gs0 Hh|i g c s0 s1 gs0 Hi Hn Hc]; subst.
  - exists holder, order, partial. by apply log_ok_call.
  - rewrite goes_phase in Hn. destruct (phase_of g) as [|[|b rest]|] eqn:Hp; [| | |done]; injection Hn as <-.
    + exists (Some i), order, []. by eapply log_ok_Lock.
    + exists None, (order ++ [line_of g]), []. by eapply log_ok_Unlock.
    + exists (Some i), order, (partial ++ b). by eapply log_ok_put.
Qed.

(** While a call has not returned, the next call of one can be served. *)
Lemma log_ok_goes_on h0 s gs holder order partial i g c :
  log_ok h0 s gs holder order partial → gs !! i = Some g → goes g = inl c →
  ∃ j g' c' s', gs !! j = Some g' ∧ goes g' = inl c' ∧ c' (Some s) = Some s'.
Proof.
  intros [Hder Hlock Hex _ _ Hbeg] Hi Hn. destruct holder as [j|].
  - destruct Hbeg as (g' & rest & Hj & Hp & _). destruct (derived_shares _ _ (Hder _ _ Hj)) as [Hmu _].
    destruct rest as [|b rest].
    + exists j, g', (unlock (mu h0)). eexists. rewrite goes_phase, Hp, Hmu. split; [done|]. split; [done|].
      cbn. rewrite decide_True by by apply Hlock. reflexivity.
    + exists j, g', (put (dev_w (g_handler g')) b). eexists. rewrite goes_phase, Hp. split; [done|]. split; [done|].
      reflexivity.
  - destruct (derived_shares _ _ (Hder _ _ Hi)) as [Hmu _].
    exists i, g, (lock (mu h0)). eexists. split; [done|]. rewrite goes_phase in Hn |- *.
    destruct (phase_of g) as [|rest|] eqn:Hp; [|by specialize (Hex _ _ _ Hi Hp)|done].
    rewrite Hmu. split; [done|]. cbn. rewrite decide_False; [reflexivity|]. rewrite Hlock. by intros [].
Qed.

(** C36: However goroutines that log through one newDevHandler and the handlers that
    WithAttrs makes of it take turns, each at one call of Handle (the Lock, a write of
    one piece, the Unlock) at a time, the bytes written are the lines of the records
    whose calls have returned, each whole with the attributes of its handler and its own
    and a newline, in some order, and then a beginning of the line of one record whose
    call has not; and while a call has not returned, the next call of one can be served.
    They share the mutex because WithAttrs hands it on. *)
Theorem records_are_whole new w level s gs :
  let h0 := newDevHandler new w level in
  rtc (handling h0) (mkLog ∅ ∅, []) (s, gs) →
  (∃ order partial, log_of w s = concat order ++ partial ∧ order ≡ₚ omap record_of gs ∧
     (partial = [] ∨ ∃ g rest, g ∈ gs ∧ enabled g = true ∧ record_of g = None ∧ line_of g = partial ++ rest)) ∧
  (∀ i g c, gs !! i = Some g → goes g = inl c →
     ∃ j g' c' s', gs !! j = Some g' ∧ goes g' = inl c' ∧ c' (Some s) = Some s').
Proof.
  intros h0 Hsteps.
  assert (Hok : ∃ holder order partial, log_ok h0 s gs holder order partial).
  { refine (rtc_ind_r (λ p, ∃ holder order partial, log_ok h0 p.1 p.2 holder order partial) (mkLog ∅ ∅, []) _ _ (s, gs) Hsteps).
    { exists None, [], []. by split. }
    intros [s1 gs1] [s2 gs2] _ Hstep (holder & order & partial & Hok). by eapply log_ok_step. }
  destruct Hok as (holder & order & partial & Hok). split; [|intros i g c; by eapply log_ok_goes_on].
  destruct Hok as [_ _ _ Hout Hord Hbeg]. exists order, partial. split; [exact Hout|]. split; [exact Hord|].
  destruct holder as [i|]; [right|by left]. destruct Hbeg as (g & rest & Hi & Hp & Hpart).
  exists g, (concat rest). split; [by eapply list_elem_of_lookup_2|]. split; [by eapply writing_enabled|].
  split; [by rewrite record_phase, Hp|done].
Qed.

(** ** Two records at once *)

Module Demo.
Definition dev : devHandler := newDevHandler 7%nat os_Stdout slog_LevelInfo.
Definition request_log : devHandler := dev_WithAttrs [{| a_Key := "request_id"; a_Value := "42" |}] dev.
Definition message (text : string) : slog_Record :=
  {| rec_Time := "12:00:00"; rec_Level := slog_LevelInfo; rec_Message := text; rec_Attrs := [] |}.

(** The next call of the first or the second is served. *)
Definition serve (i : nat) (p : log_state * list goroutine) : log_state * list goroutine :=
  match p.2 !! i with
  | Some g =>
      match goes g with
      | inl c => match c (Some p.1) with Some s' => (s', <[i := saw p.1 g]> p.2) | None => p end
      | inr _ => p
      end
  | None => p
  end.

Lemma serve_steps i p : rtc (handling dev) p (serve i p).
Proof.
  destruct p as [s gs]. unfold serve. cbn [fst snd]. destruct (gs !! i) as [g|] eqn:Hi; [|done].
  destruct (goes g) as [c|] eqn:Hn; [|done]. destruct (c (Some s)) as [s'|] eqn:Hc; [|done].
  apply rtc_once. by eapply h_next.
Qed.

(** Two handlers of one log take turns; the second waits until the first has returned. *)
Definition turns (n : nat) : log_state * list goroutine :=
  foldr serve (mkLog ∅ ∅, [mkG dev (message "one") []; mkG request_log (message "two") []])
    (concat (replicate n [1; 0]%nat)).

Lemma log_turns_reached n : rtc (handling dev) (mkLog ∅ ∅, []) (turns n).
Proof.
  unfold turns. induction (concat _) as [|i l IH]; cbn [foldr].
  - eapply rtc_l; [apply (h_call dev dev (message "one")), derived_new|].
    apply rtc_once. apply (h_call dev request_log (message "two") _ [_]), derived_WithAttrs, derived_new.
  - etrans; [exact IH|apply serve_steps].
Qed.

Lemma records_are_whole_witness :
  omap record_of (turns 9).2 = [line dev (message "one"); line request_log (message "two")] ∧
  ∃ order partial, log_of os_Stdout (turns 9).1 = concat order ++ partial ∧
    order ≡ₚ [line dev (message "one"); line request_log (message "two")].
Proof.
  assert (Hdone : omap record_of (turns 9).2 = [line dev (message "one"); line request_log (message "two")])
    by (vm_compute; reflexivity).
  split; [exact Hdone|]. rewrite <- Hdone.
  destruct (records_are_whole 7%nat os_Stdout slog_LevelInfo (turns 9).1 (turns 9).2) as [(order & partial & Ho & Hp & _) _].
  - rewrite <- surjective_pairing. exact (log_turns_reached 9).
  - exists order, partial. split; [exact Ho|exact Hp].
Defined.
End Demo.
End loglock.
