(* ===== verification/Calls.v ===== *)
(** The calls that a request makes, one at a time: the interfaces to what is
    outside the program, on a request on its own ([Alone] of Threads.v).  A
    call is one SQL statement, one Redis command, one operation of the disk or
    the random source, one look at the clock, or one run of the rate limiter's
    script, of bcrypt, of the TOTP and OAuth libraries and of the git backend.

    The repositories and stores are written against [DBTX] and [RedisClient],
    so that they run on [Alone] as they are. *)

From S2P Require Import Prelude.
From S2P Require Import Platform.
From S2P Require Import Database.
From S2P Require Import World.
From S2P Require Import Users.
From S2P Require Import Totp.
From S2P Require Import Sso.
From S2P Require Import Disk.
From S2P Require Import HttpGit.
From S2P Require Import RateLimit.
From S2P Require Import Threads.

Import threads.

(** An instance on [Alone S] asks for one on [S]: the state has to be known. *)
#[export] Hint Mode DBTX ! : typeclass_instances.
#[export] Hint Mode RedisClient ! : typeclass_instances.
#[export] Hint Mode Entropy ! : typeclass_instances.
#[export] Hint Mode Clock ! : typeclass_instances.
#[export] Hint Mode Hasher ! : typeclass_instances.
#[export] Hint Mode Filesystem ! : typeclass_instances.
#[export] Hint Mode totp.TotpLib ! : typeclass_instances.
#[export] Hint Mode sso.OAuthClient ! : typeclass_instances.
#[export] Hint Mode ratelimit.ScriptRunner ! : typeclass_instances.
#[export] Hint Mode GitBackend ! : typeclass_instances.

#[export] Instance Alone_DBTX {S} `{DBTX S} : DBTX (Alone S) := λ A s, atomically (run_sql s).

#[export] Instance Alone_RedisClient {S} `{RedisClient S} : RedisClient (Alone S) := {|
  client_Set k v ttl := atomically (client_Set k v ttl);
  client_Get k := atomically (client_Get k);
  client_Del k := atomically (client_Del k);
|}.

#[export] Instance Alone_Entropy {S} `{Entropy S} : Entropy (Alone S) := {|
  rand_bytes n := atomically (rand_bytes n);
  uuid_NewV7 := atomically uuid_NewV7;
  uuid_New := atomically uuid_New;
|}.

#[export] Instance Alone_Clock {S} `{Clock S} : Clock (Alone S) := atomically time_Now.

#[export] Instance Alone_Hasher {S} `{Hasher S} : Hasher (Alone S) :=
  λ p, atomically (bcrypt_GenerateFromPassword p).

#[export] Instance Alone_Filesystem {S} `{Filesystem S} : Filesystem (Alone S) := {|
  os_Getwd := atomically os_Getwd;
  os_Stat path := atomically (os_Stat path);
  filepath_EvalSymlinks path := atomically (filepath_EvalSymlinks path);
  osfs_Stat root name := atomically (osfs_Stat root name);
  git_PlainInit path branch := atomically (git_PlainInit path branch);
|}.

#[export] Instance Alone_TotpLib {S} `{totp.TotpLib S} : totp.TotpLib (Alone S) := {|
  totp.lib_Generate issuer account := atomically (totp.lib_Generate issuer account);
  totp.lib_Validate code secret := atomically (totp.lib_Validate code secret);
|}.

#[export] Instance Alone_OAuthClient {S} `{sso.OAuthClient S} : sso.OAuthClient (Alone S) := {|
  sso.client_Exchange cfg code := atomically (sso.client_Exchange cfg code);
  sso.client_Userinfo cfg token := atomically (sso.client_Userinfo cfg token);
|}.

#[export] Instance Alone_ScriptRunner {S} `{Number} `{ratelimit.ScriptRunner S} : ratelimit.ScriptRunner (Alone S) :=
  λ key rate burst now, atomically (ratelimit.script_Run key rate burst now).

#[export] Instance Alone_GitBackend {S} `{GitBackend S} : GitBackend (Alone S) :=
  λ w r, atomically (gitHandler_ServeHTTP w r).
