(* ===== verification/Races.v ===== *)
(** Concurrent session requests: [internal/modules/session/service.go] as
    [Threads] has it.  Logins, checks, refreshes and logouts interleave between
    any two calls to the repository, the token store or the random source.  A
    call is one method of those; [PGStore.DeleteByRefreshToken], a SELECT and
    the DELETE of the row it found, counts as one here.

    Whatever the interleaving, a token that validates names a user somebody
    logged in as; but a logout that comes in the middle of a refresh is undone
    by it. *)

From S2P Require Import Prelude.
From S2P Require Import Bytes.
From S2P Require Import Encoding.
From S2P Require Import Platform.
From S2P Require Import Database.
From S2P Require Import Integrity.
From S2P Require Import World.
From S2P Require Import Session.
From S2P Require Import Threads.
From S2P Require Import Calls.

Module races.
Import session threads.

(** ** The calls of a session request *)

#[export] Instance Alone_Repository {S} `{Repository S} : Repository (Alone S) := {|
  repo_Create id u t := atomically (repo_Create id u t);
  repo_GetUserIDByRefreshToken t := atomically (repo_GetUserIDByRefreshToken t);
  repo_DeleteByRefreshToken t := atomically (repo_DeleteByRefreshToken t);
  repo_DeleteByUserID u := atomically (repo_DeleteByUserID u);
|}.

#[export] Instance Alone_TokenStore {S} `{TokenStore S} : TokenStore (Alone S) := {|
  tokens_SetAccessToken t v ttl := atomically (tokens_SetAccessToken t v ttl);
  tokens_GetAccessToken t := atomically (tokens_GetAccessToken t);
  tokens_SetRefreshToken t v ttl := atomically (tokens_SetRefreshToken t v ttl);
  tokens_GetRefreshToken t := atomically (tokens_GetRefreshToken t);
  tokens_DeleteRefreshToken t := atomically (tokens_DeleteRefreshToken t);
|}.

(** ** Requests *)

Inductive request_op :=
  | Login (u : UUID)
  | Check (t : string)
  | Renew (t : string)
  | Logout (t : string)
  | LogoutAll (u : UUID).

Inductive answer :=
  | got_pair (p : TokenPair)
  | got_user (u : UUID)
  | got_token (a : string)
  | got_nothing.

Section requests.
Context {S : Type} `{Repository S} `{TokenStore S} `{Entropy S} `{!Uuid}.

Definition serve (o : request_op) : M S answer :=
  match o with
  | Login u => p ← Create u; mret (got_pair p)
  | Check t => u ← Validate t; mret (got_user u)
  | Renew t => a ← Refresh t; mret (got_token a)
  | Logout t => Revoke t;; mret got_nothing
  | LogoutAll u => RevokeAll u;; mret got_nothing
  end.
End requests.

(** A request is the same code whether it runs on the shared state or on what
    it has seen. *)
Lemma simulates_serve {S} `{Repository S} `{TokenStore S} `{Entropy S} `{!Uuid} o :
  simulates (serve (S := S) o) (serve (S := Alone S) o).
Proof.
  destruct o; unfold serve, Create, Validate, ValidateAccess, Refresh, refresh_uidStr, refresh_slow,
    Revoke, RevokeAll, generateToken; cbv zeta; repeat simulates_step.
Qed.

(** ** Pools of requests *)

Section pools.
Context {S : Type} `{Backend S} `{!Uuid} `{!UuidLaws}.
Implicit Types (s : S) (t : string) (u : UUID).

Abbreviation request := (thread S request_op).
Abbreviation requests := (list request).

Definition handle : request_op → M (Alone S) answer := serve.
Definition racing : S * requests → S * requests → Prop := step handle quiet.

(** A session request that runs while no other does, call by call, ends in the state and
    with the answer that its definition gives, for every request and every store. *)
Theorem undisturbed_request o s :
  ∃ l, rtc racing (s, [mkThread o []]) ((serve o s).2, [mkThread o l]) ∧
       answered handle (mkThread o l) = Some (serve o s).1.
Proof.
  destruct (serve o s) as [r s'] eqn:Hr.
  by apply (served_alone handle quiet o (serve o) s r s' [mkThread o []] 0 (simulates_serve o) Hr).
Qed.

(** *** The users that requests log in *)

Definition logins (ts : requests) : list UUID :=
  omap (λ th, match threads.request th with Login u => Some u | _ => None end) ts.

Definition call_ok (L : list UUID) (c : S → S) : Prop := ∀ s, owned L s → owned L (c s).

Definition op_ok (L : list UUID) (o : request_op) : Prop :=
  match o with Login u => u ∈ L | _ => True end.

Section keeping.
Context (L : list UUID).
Abbreviation keeping := (keeps (owned L) (call_ok L)).

Lemma keeps_call {A} (m : M S A) (Q : A → Prop) :
  (∀ s r s', inv s → owned L s → m s = (r, s') → owned L s' ∧ ∀ a, r = Ok a → Q a) →
  keeping (atomically m) Q.
Proof.
  intros Hm. apply keeps_atomically.
  - intros s Hs. destruct (m s) as [r s'] eqn:Hr. by apply Hm in Hr as [? _]; [|apply Hs|].
  - intros s a Hs Ha. destruct (m s) as [r s'] eqn:Hr. apply Hm in Hr as [_ HQ]; [by apply HQ|apply Hs|done].
Qed.

Lemma keeps_NewV7 : keeping uuid_NewV7 (λ _, True).
Proof. apply keeps_call. intros s r s' _ Hs Hr. split; [by eapply owned_NewV7|done]. Qed.

Lemma keeps_repo_Create id u t : u ∈ L → text_ok t → keeping (repo_Create id u t) (λ _, True).
Proof. intros Hu Ht. apply keeps_call. intros s r s' _ Hs Hr. split; [by eapply owned_repo_Create|done]. Qed.

Lemma keeps_GetUserID t : keeping (repo_GetUserIDByRefreshToken t) (λ u, u ∈ L).
Proof.
  apply keeps_call. intros s r s' Hi Hs Hr. apply law_GetUserID in Hr as [Hq Hu]; [|done].
  split; [by eapply owned_quiet|]. intros u ->. by eapply owned_rows, Hu.
Qed.

Lemma keeps_DeleteByRefreshToken t : keeping (repo_DeleteByRefreshToken t) (λ _, True).
Proof.
  apply keeps_call. intros s r s' Hi Hs Hr. split; [|done].
  apply law_DeleteByRefreshToken in Hr as (Hl & Ha & Hf & Hrows & _); [|done].
  eapply owned_fewer_rows; [done..|]. destruct Hrows as [[_ ->]| ->]; [done|apply delete_subseteq].
Qed.

Lemma keeps_DeleteByUserID u : keeping (repo_DeleteByUserID u) (λ _, True).
Proof.
  apply keeps_call. intros s r s' Hi Hs Hr. split; [|done].
  apply law_DeleteByUserID in Hr as (Hl & Ha & Hf & Hrows); [|done].
  eapply owned_fewer_rows; [done..|]. destruct Hrows as [[_ ->]| ->]; [done|apply map_filter_subseteq].
Qed.

Lemma keeps_SetAccess t v τ : names L v → 0 < τ → keeping (tokens_SetAccessToken t v τ) (λ _, True).
Proof. intros Hv Hτ. apply keeps_call. intros s r s' _ Hs Hr. split; [by eapply owned_SetAccess|done]. Qed.

Lemma keeps_SetRefresh t v τ : names L v → 0 < τ → keeping (tokens_SetRefreshToken t v τ) (λ _, True).
Proof. intros Hv Hτ. apply keeps_call. intros s r s' _ Hs Hr. split; [by eapply owned_SetRefresh|done]. Qed.

Lemma keeps_GetAccess t : keeping (tokens_GetAccessToken t) (names L).
Proof.
  apply keeps_call. intros s r s' Hi Hs Hr. apply law_GetAccess in Hr as [Hq Hv]; [|done].
  split; [by eapply owned_quiet|]. intros v ->. by eapply owned_access, Hv.
Qed.

Lemma keeps_GetRefresh t : keeping (tokens_GetRefreshToken t) (names L).
Proof.
  apply keeps_call. intros s r s' Hi Hs Hr. apply law_GetRefresh in Hr as [Hq Hv]; [|done].
  split; [by eapply owned_quiet|]. intros v ->. by eapply owned_refresh, Hv.
Qed.

Lemma keeps_DeleteRefresh t : keeping (tokens_DeleteRefreshToken t) (λ _, True).
Proof.
  apply keeps_call. intros s r s' Hi Hs Hr. split; [|done].
  apply law_DeleteRefresh in Hr as ([Hi' _] & Hq & Ha & Hf & Hdel); [|done]. split; [done|..].
  - intros t' u. rewrite Hq. by apply owned_rows.
  - intros τ t' v. rewrite Ha. by eapply owned_access.
  - intros τ t' v Hv. destruct (decide (t' = t)) as [->|Ht].
    + destruct Hdel as [[_ Hsame]|Hnone]; [|by rewrite Hnone in Hv].
      rewrite Hsame in Hv. by eapply owned_refresh.
    + rewrite Hf in Hv by done. by eapply owned_refresh.
Qed.

Lemma keeps_token n : n = 32%nat → keeping (generateToken n) text_ok.
Proof.
  intros ->. apply (keeps_bind _ _ _ _ (λ b, length b = 32%nat)).
  - apply keeps_call. intros s r s' Hi Hs Hr. pose proof (law_rand _ _ _ _ Hi Hr) as [Hq Hl].
    split; [by eapply owned_quiet|]. intros b ->. by apply Hl.
  - intros b Hb. by apply keeps_ret, law_text_ok.
Qed.

Lemma names_user u : u ∈ L → names L (uuid_String u).
Proof. intros Hu. by exists u. Qed.

Lemma keeps_Create u : u ∈ L → keeping (Create u) (λ _, True).
Proof.
  intros Hu. unfold Create.
  eapply keeps_bind; [by apply keeps_mwrap, keeps_token|]. intros a Ha.
  eapply keeps_bind; [by apply keeps_mwrap, keeps_token|]. intros t Ht.
  eapply keeps_bind; [by apply keeps_mwrap, keeps_NewV7|]. intros id _.
  eapply keeps_bind; [by apply keeps_mwrap, keeps_repo_Create|]. intros _ _.
  eapply keeps_bind; [by apply keeps_mwrap, keeps_SetAccess; [apply names_user|]|]. intros _ _.
  eapply keeps_bind; [by apply keeps_mwrap, keeps_SetRefresh; [apply names_user|]|]. intros _ _.
  by apply keeps_ret.
Qed.

Lemma keeps_Validate t : keeping (Validate t) (λ u, u ∈ L).
Proof.
  eapply keeps_bind; [by apply keeps_attempt, keeps_GetAccess|]. intros [v|e] Hv; [|apply keeps_fail].
  case_bool_decide; [apply keeps_fail|]. apply keeps_lift. intros u Hu.
  destruct (Hv v eq_refl) as (u' & Hu' & ->). rewrite uuid_Parse_String in Hu. by injection Hu as <-.
Qed.

Lemma keeps_refresh_slow t : keeping (refresh_slow t) (names L).
Proof.
  eapply keeps_bind; [apply keeps_attempt, keeps_GetUserID|]. intros [u|e] Hu.
  - specialize (Hu u eq_refl).
    eapply keeps_bind; [by apply keeps_attempt, keeps_SetRefresh; [apply names_user|]|].
    intros _ _. by apply keeps_ret, names_user.
  - destruct (errors_Is _ _); apply keeps_fail.
Qed.

Lemma keeps_Refresh t : keeping (Refresh t) (λ _, True).
Proof.
  apply (keeps_bind _ _ _ _ (names L)).
  - eapply keeps_bind; [by apply keeps_attempt, keeps_GetRefresh|].
    intros [v|e] Hv; [case_bool_decide|]; try apply keeps_refresh_slow. by apply keeps_ret, Hv.
  - intros v Hv. eapply keeps_bind; [by apply keeps_mwrap, keeps_token|]. intros a Ha.
    eapply keeps_bind; [by apply keeps_mwrap, keeps_SetAccess|]. intros _ _. by apply keeps_ret.
Qed.

Lemma keeps_Revoke t : keeping (Revoke t) (λ _, True).
Proof.
  eapply keeps_bind; [apply keeps_DeleteByRefreshToken|]. intros _ _.
  eapply keeps_bind; [apply keeps_attempt, keeps_DeleteRefresh|]. intros _ _. by apply keeps_ret.
Qed.

Lemma keeps_handle o :
  op_ok L o → keeping (handle o) (λ a, ∀ u, a = got_user u → u ∈ L).
Proof.
  intros Ho. destruct o; cbn [handle serve op_ok] in *.
  - eapply keeps_bind; [by apply keeps_Create|]. intros p _. by apply keeps_ret.
  - eapply keeps_bind; [apply keeps_Validate|]. intros u Hu. apply keeps_ret. by intros ? [= <-].
  - eapply keeps_bind; [apply keeps_Refresh|]. intros a _. by apply keeps_ret.
  - eapply keeps_bind; [apply keeps_Revoke|]. intros a _. by apply keeps_ret.
  - eapply keeps_bind; [apply keeps_DeleteByUserID|]. intros a _. by apply keeps_ret.
Qed.
End keeping.

(** *** The invariant of the pool *)

Definition request_ok (L : list UUID) (th : request) : Prop :=
  op_ok L (threads.request th) ∧ Forall (owned L) (got th).

Record pool_ok (p : S * requests) : Prop := {
  pool_owned : owned (logins p.2) p.1;
  pool_requests : Forall (request_ok (logins p.2)) p.2;
}.

Lemma names_mono L L' v : L ⊆ L' → names L v → names L' v.
Proof. intros HL (u & Hu & ->). exists u. split; [by apply HL|done]. Qed.

Lemma owned_subset L L' s : L ⊆ L' → owned L s → owned L' s.
Proof. intros HL [Hi Hr Ha Hf]. split; [done|..]; eauto using names_mono. Qed.

Lemma request_ok_mono L L' th : L ⊆ L' → request_ok L th → request_ok L' th.
Proof.
  intros HL [Ho Hg]. split.
  - destruct (threads.request th); cbn in *; [by apply HL|done..].
  - eapply Forall_impl; [exact Hg|]. intros s. by apply owned_subset.
Qed.

Lemma logins_insert (ts : requests) i o l l' :
  ts !! i = Some (mkThread o l) → logins (<[i := mkThread o l']> ts) = logins ts.
Proof.
  unfold logins. revert i. induction ts as [|th ts IH]; intros [|i] Hi; simplify_eq/=; [done|].
  by rewrite IH.
Qed.

Lemma pool_ok_step p p' : racing p p' → pool_ok p → pool_ok p'.
Proof.
  intros Hstep [Ho Hr]. destruct Hstep as [o s ts|i o l c s ts Hi Hn|s s' ts Hq]; cbn in *.
  - assert (Hsub : logins ts ⊆ logins (ts ++ [mkThread o []])).
    { unfold logins. rewrite omap_app. set_solver. }
    split; cbn; [by eapply owned_subset|]. apply Forall_app. split.
    + eapply Forall_impl; [exact Hr|]. intros th. by apply request_ok_mono.
    + apply Forall_singleton. split; [|constructor]. destruct o; [|done..].
      unfold logins. rewrite omap_app. cbn. set_solver.
  - pose proof (proj1 (Forall_lookup _ _) Hr i _ Hi) as [Hop Hl].
    pose proof (keeps_next _ _ _ _ _ (keeps_handle _ o Hop) Hl) as Hc.
    cbn [got] in Hc. rewrite Hn in Hc.
    split; cbn; rewrite (logins_insert _ _ _ _ _ Hi); [by apply Hc|].
    apply Forall_insert; [done|]. split; [done|]. apply Forall_app. split; [done|]. by constructor.
  - split; [by eapply owned_quiet|done].
Qed.

(** From a state without tokens, however the calls of any number of logins, checks,
    refreshes and logouts interleave, whatever fails and whatever is drawn, a token that
    a check accepts names a user whom one of the requests logs in. *)
Theorem racing_tokens_name_users s s' ts t l u :
  no_tokens s → rtc racing (s, []) (s', ts) →
  mkThread (Check t) l ∈ ts → answered handle (mkThread (Check t) l) = Some (Ok (got_user u)) →
  ∃ l', mkThread (Login u) l' ∈ ts.
Proof.
  intros (Hi & Hrows & Ha & Hf) Hsteps Hin Hans.
  assert (Hok : pool_ok (s', ts)).
  { eapply (rtc_ind_r pool_ok); [|intros; by eapply pool_ok_step|exact Hsteps].
    split; cbn; [split|constructor]; [done|..].
    - intros t' u'. by rewrite Hrows, lookup_empty.
    - intros τ t' v. by rewrite Ha.
    - intros τ t' v. by rewrite Hf. }
  destruct Hok as [_ Hr]. cbn in Hr.
  destruct (proj1 (Forall_forall _ _) Hr _ Hin) as [Hop Hl].
  pose proof (keeps_next _ _ _ _ _ (keeps_handle _ _ Hop) Hl) as Hnext.
  unfold answered in Hans. cbn [threads.request got] in Hans.
  destruct (next _ _) as [|r]; [done|]. injection Hans as ->.
  specialize (Hnext _ eq_refl u eq_refl). unfold logins in Hnext.
  apply list_elem_of_omap in Hnext as ([o l'] & Hth & Ho).
  destruct o; cbn in Ho; simplify_eq. by exists l'.
Qed.


(** *** A logout in the middle of a refresh *)

Lemma racing_call {A} (m : M S A) (ts : requests) i o l s r s' :
  m s = (r, s') → ts !! i = Some (mkThread o l) → next (handle o) l = inl (λ s, (m s).2) →
  racing (s, ts) (s', <[i := mkThread o (l ++ [s])]> ts).
Proof.
  intros Hm Hi Hn. pose proof (step_call handle quiet i o l _ s ts Hi Hn) as Hstep.
  cbn in Hstep. by rewrite Hm in Hstep.
Qed.

(** What a request does next, given the results of the calls it made. *)
Ltac next_call :=
  unfold answered, next, handle, serve, Refresh, refresh_uidStr, refresh_slow, Revoke, generateToken,
    mbind, M_bind, mret, M_ret, attempt, mwrap; cbn; unfold atomically; cbn;
  repeat match goal with H : ?m ?s = (_, _) |- context [?m ?s] => rewrite H; cbn end; reflexivity.

(** The calls of the race, in order: the refresh reads the cache and the row,
    the logout deletes both, and the refresh goes on. *)
Lemma refresh_logout_calls `{!BackendUp S} s t u :
  inv s → text_ok t → rows s !! t = Some u → (∀ τ, refresh s τ t = None) →
  ∃ e b s2 s4 s7,
    (∃ s1, tokens_GetRefreshToken t s = (Err e, s1) ∧ repo_GetUserIDByRefreshToken t s1 = (Ok u, s2)) ∧
    (∃ s3, repo_DeleteByRefreshToken t s2 = (Ok tt, s3) ∧ tokens_DeleteRefreshToken t s3 = (Ok tt, s4)) ∧
    (∃ s5 s6, tokens_SetRefreshToken t (uuid_String u) RefreshTokenTTL s4 = (Ok tt, s5) ∧
       rand_bytes 32 s5 = (Ok b, s6) ∧
       tokens_SetAccessToken (str (hex_EncodeToString b)) (uuid_String u) AccessTokenTTL s6 = (Ok tt, s7)) ∧
    inv s7 ∧ rows s7 = delete t (rows s) ∧
    ∃ wr, now s ≤ wr ≤ now s7 ∧ entry (λ τ, refresh s7 τ t) (uuid_String u) wr RefreshTokenTTL.
Proof.
  intros Hs Ht Hrow Hcold.
  destruct (tokens_GetRefreshToken t s) as [r1 s1] eqn:Hc1.
  apply law_GetRefresh in Hc1 as Hl1; [|done]. destruct Hl1 as [([Hs1 ?] & Hq1 & _ & Hf1) Hv].
  assert (∃ e, r1 = Err e) as [e ->].
  { destruct r1 as [v|e]; [|by exists e]. specialize (Hv v eq_refl). by rewrite Hcold in Hv. }
  destruct (repo_GetUserIDByRefreshToken t s1) as [r2 s2] eqn:Hc2.
  apply law_GetUserID in Hc2 as Hl2; [|done]. destruct Hl2 as [([Hs2 ?] & Hq2 & _ & Hf2) _].
  apply up_GetUserID in Hc2 as Hu; [|done..]. rewrite Hq1, Hrow in Hu. subst r2.
  destruct (repo_DeleteByRefreshToken t s2) as [r3 s3] eqn:Hc3.
  apply law_DeleteByRefreshToken in Hc3 as Hl3; [|done].
  apply up_DeleteByRefreshToken in Hc3 as Hr3; [|done..|congruence]. subst r3.
  destruct Hl3 as ([Hs3 ?] & _ & Hf3 & [[? _]|Hrows3] & _); [done|].
  destruct (tokens_DeleteRefreshToken t s3) as [r4 s4] eqn:Hc4.
  apply up_DeleteRefresh in Hc4 as Hr4. subst r4.
  apply law_DeleteRefresh in Hc4 as Hl4; [|done]. destruct Hl4 as ([Hs4 ?] & Hq4 & _).
  destruct (tokens_SetRefreshToken t (uuid_String u) RefreshTokenTTL s4) as [r5 s5] eqn:Hc5.
  apply up_SetRefresh in Hc5 as Hr5. subst r5.
  apply law_SetRefresh in Hc5 as Hl5; [|done..].
  destruct Hl5 as ([Hs5 ?] & Hq5 & _ & _ & [[? _]|Hent]); [done|].
  destruct (rand_bytes 32 s5) as [r6 s6] eqn:Hc6. apply up_rand in Hc6 as Hr6.
  apply law_rand in Hc6 as Hl6; [|done]. destruct Hl6 as [([Hs6 ?] & Hq6 & _ & Hf6) _].
  destruct r6 as [b|]; [|done].
  destruct (tokens_SetAccessToken (str (hex_EncodeToString b)) (uuid_String u) AccessTokenTTL s6)
    as [r7 s7] eqn:Hc7.
  apply up_SetAccess in Hc7 as Hr7. subst r7.
  apply law_SetAccess in Hc7 as Hl7; [|done..]. destruct Hl7 as ([Hs7 ?] & Hq7 & Hf7 & _).
  exists e, b, s2, s4, s7. split; [by eauto|]. split; [by eauto|]. split; [by eauto 6|].
  unfold same_rows, same_refresh in *. split; [done|]. split; [congruence|].
  exists (now s5). split; [lia|]. eapply entry_ext; [|exact Hent]. intros τ. cbn. by rewrite Hf7, Hf6.
Qed.

(** C18: With the backend up, for a session whose refresh token has no cache entry, a
    logout and a refresh can interleave, the logout between the lookup and the caching
    of the refresh, so that both succeed, the session of the token is gone from the
    database, and yet a later refresh with the revoked token gets a new access token for
    the next seven days. *)
Theorem logout_undone_by_refresh `{!BackendUp S} s t u :
  inv s → text_ok t → rows s !! t = Some u → (∀ τ, refresh s τ t = None) →
  ∃ s' a l1 l2,
    rtc racing (s, [mkThread (Renew t) []; mkThread (Logout t) []])
               (s', [mkThread (Renew t) l1; mkThread (Logout t) l2]) ∧
    answered handle (mkThread (Renew t) l1) = Some (Ok (got_token a)) ∧
    answered handle (mkThread (Logout t) l2) = Some (Ok got_nothing) ∧
    rows s' !! t = None ∧
    ∀ r s'', Refresh t s' = (r, s'') → now s'' + Millisecond ≤ now s + RefreshTokenTTL →
      ∃ a', r = Ok a' ∧ issued_to s'' u a'.
Proof.
  intros Hs Ht Hrow Hcold.
  destruct (refresh_logout_calls s t u Hs Ht Hrow Hcold)
    as (e & b & s2 & s4 & s7 & (s1 & Hc1 & Hc2) & (s3 & Hc3 & Hc4) & (s5 & s6 & Hc5 & Hc6 & Hc7) &
        Hs7 & Hrows & wr & Hwr & Hent).
  exists s7, (str (hex_EncodeToString b)).
  do 2 eexists. split.
  { eapply rtc_l; [eapply (racing_call _ _ 0 _ _ _ _ _ Hc1); [done|next_call]|].
    eapply rtc_l; [eapply (racing_call _ _ 0 _ _ _ _ _ Hc2); [done|next_call]|].
    eapply rtc_l; [eapply (racing_call _ _ 1 _ _ _ _ _ Hc3); [done|next_call]|].
    eapply rtc_l; [eapply (racing_call _ _ 1 _ _ _ _ _ Hc4); [done|next_call]|].
    eapply rtc_l; [eapply (racing_call _ _ 0 _ _ _ _ _ Hc5); [done|next_call]|].
    eapply rtc_l; [eapply (racing_call _ _ 0 _ _ _ _ _ Hc6); [done|next_call]|].
    eapply rtc_l; [eapply (racing_call _ _ 0 _ _ _ _ _ Hc7); [done|next_call]|].
    apply rtc_refl. }
  split; [next_call|]. split; [next_call|].
  split; [by rewrite Hrows, lookup_delete_eq|].
  intros r s'' Href Hτ. pose proof (Refresh_inv _ _ _ _ Hs7 Href) as ([_ ?] & _).
  destruct Hent as [Hlive _]. eapply Refresh_cached; [done..| |].
  - intros τ [? ?]. apply Hlive; lia.
  - intros u' Hu'. by rewrite Hrows, lookup_delete_eq in Hu'.
Qed.
End pools.

(** ** Two logins at once, and a logout during a refresh *)

Module Demo.
Import Sim Example_.
Import session.Demo.

Abbreviation Pool := (pool W request_op).
Abbreviation play := (run_schedule handle).

(** Two logins take turns; the token of the first is then checked. *)
Definition p1 : Pool :=
  play [0; 1; 0; 1; 0; 1; 0; 1; 0; 1; 0; 1]%nat (w0, [] ++ arriving [Login ada_id; Login ada_id]).

Definition token_of (p : Pool) (i : nat) : string :=
  match p.2 !! i ≫= answered (handle (S := W)) with
  | Some (Ok (got_pair q)) => AccessToken q
  | _ => EmptyString
  end.

Definition p2 : Pool := play [2%nat] (p1.1, p1.2 ++ arriving [Check (token_of p1 0)]).

Definition answer_of (p : Pool) (i : nat) : option (result answer) := p.2 !! i ≫= answered (handle (S := W)).

Lemma request_at (p : Pool) i o :
  threads.request <$> p.2 !! i = Some o →
  ∃ l, mkThread o l ∈ p.2 ∧ answer_of p i = answered handle (mkThread o l).
Proof.
  unfold answer_of. intros ([o' l] & Hi & ->)%fmap_Some. exists l. rewrite Hi. split; [|done].
  by eapply list_elem_of_lookup_2.
Qed.

Lemma p2_checked :
  threads.request <$> p2.2 !! 2%nat = Some (Check (token_of p1 0)) ∧ answer_of p2 2 = Some (Ok (got_user ada_id)).
Proof. split; vm_compute; reflexivity. Qed.

Lemma p1_reached : rtc racing (w0, []) p1.
Proof. exact (arriving_steps handle quiet [0; 1; 0; 1; 0; 1; 0; 1; 0; 1; 0; 1]%nat [Login ada_id; Login ada_id] w0 []). Qed.

Lemma p2_reached : rtc racing (w0, []) p2.
Proof.
  etrans; [apply p1_reached|]. rewrite (surjective_pairing p1) at 1.
  exact (arriving_steps handle quiet [2%nat] [Check (token_of p1 0)] p1.1 p1.2).
Qed.

Lemma racing_tokens_name_users_witness :
  ∃ l', mkThread (Login ada_id) l' ∈ p2.2.
Proof.
  destruct p2_checked as [Hreq Hans]. destruct (request_at _ _ _ Hreq) as (l & Hl & Heq).
  apply (racing_tokens_name_users w0 p2.1 p2.2 (token_of p1 0) l ada_id).
  - apply w0_no_tokens.
  - rewrite <- surjective_pairing. apply p2_reached.
  - exact Hl.
  - rewrite <- Heq. exact Hans.
Defined.

(** The session of a login whose cache entry is lost, for which a refresh and a
    logout meet. *)
Definition cold : W := mkWorld (db w1) ∅ tt (clock w1) (calls w1).

Lemma logout_undone_by_refresh_witness :
  ∃ s' a l, rtc racing (cold, [mkThread (Renew (RefreshToken pair)) []; mkThread (Logout (RefreshToken pair)) []])
              (s', [mkThread (Renew (RefreshToken pair)) l.1; mkThread (Logout (RefreshToken pair)) l.2]) ∧
    answered handle (mkThread (Renew (RefreshToken pair)) l.1) = Some (Ok (got_token a)) ∧
    answered handle (mkThread (Logout (RefreshToken pair)) l.2) = Some (Ok got_nothing) ∧
    rows s' !! RefreshToken pair = None.
Proof.
  destruct (logout_undone_by_refresh cold (RefreshToken pair) ada_id)
    as (s' & a & l1 & l2 & Hsteps & Hr & Hl & Hrow & _).
  - apply w1_inv.
  - vm_compute. reflexivity.
  - vm_compute. reflexivity.
  - reflexivity.
  - by exists s', a, (l1, l2).
Defined.
End Demo.
End races.
