(* ===== verification/UserRaces.v ===== *)
(** Concurrent registrations: [Register] of [internal/modules/user/service.go]
    as [Threads] has it.  It looks the email and the username up, and inserts
    the account three calls later, so that two registrations may both find the
    names free.  Only the UNIQUE constraints of the table keep them apart; the
    one that loses is not told which name was taken. *)

From S2P Require Import Prelude.
From S2P Require Import Platform.
From S2P Require Import Database.
From S2P Require Import Integrity.
From S2P Require Import World.
From S2P Require Import Users.
From S2P Require Import Threads.
From S2P Require Import Calls.

Module registering.
Import user threads.

(** ** The calls of a registration *)

#[export] Instance Alone_Repository {S} `{Repository S} : Repository (Alone S) := {|
  repo_Create u := atomically (repo_Create u);
  repo_GetByID id := atomically (repo_GetByID id);
  repo_GetByEmail email := atomically (repo_GetByEmail email);
  repo_GetByUsername username := atomically (repo_GetByUsername username);
  repo_Verify id := atomically (repo_Verify id);
  repo_SoftDelete id := atomically (repo_SoftDelete id);
  repo_UpdatePassword id password := atomically (repo_UpdatePassword id password);
|}.

(** A registration is the same code whether it runs on the shared state or on
    what it has seen. *)
Lemma simulates_Register {S} `{Repository S} `{Entropy S} `{Hasher S} input :
  simulates (Register (S := S) input) (Register (S := Alone S) input).
Proof. unfold Register, check_free. repeat simulates_step. Qed.

(** ** Pools of registrations *)

Section pools.
Context {S : Type} `{Directory S}.
Implicit Types (s : S) (u v : User).

Abbreviation request := (thread S RegisterInput).
Abbreviation requests := (list request).

(** The account [u] is in the directory, maybe verified, deleted or with a new
    password since. *)
Definition kept s u : Prop :=
  ∃ u', dir s !! ID u = Some u' ∧ Username u' = Username u ∧ Email u' = Email u.

(** Anything else that happens at the same time, of which only this matters:
    accounts stay, under their names. *)
Definition names_stay s s' : Prop := (inv s → inv s') ∧ ∀ u, kept s u → kept s' u.

Definition handle : RegisterInput → M (Alone S) User := Register.
Definition racing : S * requests → S * requests → Prop := step handle names_stay.

Lemma undisturbed_registration input s r s' :
  Register input s = (r, s') →
  ∃ l, rtc racing (s, [mkThread input []]) (s', [mkThread input l]) ∧
       answered handle (mkThread input l) = Some r.
Proof.
  intros Hr. by apply (served_alone handle names_stay input (Register input) s r s'
    [mkThread input []] 0 (simulates_Register input) Hr).
Qed.

(** *** The invariant of the pool *)

Definition apart u v : Prop := ID u ≠ ID v ∧ Username u ≠ Username v ∧ Email u ≠ Email v.

(** Request [i] reported the account [u]. *)
Definition registered (ts : requests) (i : nat) u : Prop :=
  ∃ th, ts !! i = Some th ∧ answered handle th = Some (Ok u).

Record registrations_ok (p : S * requests) : Prop := {
  registrations_inv : inv p.1;
  registrations_seen : Forall (λ th, Forall inv (got th)) p.2;
  registrations_kept i u : registered p.2 i u → kept p.1 u;
  registrations_apart i j u v : registered p.2 i u → registered p.2 j v → i ≠ j → apart u v;
}.

(** Accounts stay. *)
Definition harmless s s' : Prop := inv s' ∧ ∀ u, kept s u → kept s' u.

Lemma harmless_same s s' : inv s' → dir s' = dir s → harmless s s'.
Proof. intros Hi Hd. split; [done|]. intros u. unfold kept. by rewrite Hd. Qed.

Lemma harmless_alter s s' f id :
  inv s' → (∀ u, Username (f u) = Username u ∧ Email (f u) = Email u) →
  dir s' = alter f id (dir s) → harmless s s'.
Proof.
  intros Hi Hf Hd. split; [done|]. intros u (u' & Hu' & Hun & Hem). unfold kept. rewrite Hd.
  destruct (decide (id = ID u)) as [->|Hne].
  - rewrite lookup_alter_eq, Hu'. exists (f u'). destruct (Hf u'). repeat split; congruence.
  - rewrite lookup_alter_ne by done. eauto.
Qed.

Lemma harmless_created s s' t u r :
  inv s' → created stored t (dir s) u r (dir s') → harmless s s'.
Proof.
  intros Hi [(n & un & pw & em & _ & _ & _ & _ & Ht & _ & Hd)|(_ & Hd & _)]; [|by apply harmless_same].
  split; [done|]. intros v (v' & Hv & ? & ?). exists v'. split; [|done]. rewrite Hd, lookup_insert_ne; [done|].
  intros Hid. destruct Ht. left. by rewrite Hid, Hv.
Qed.

Lemma harmless_Create u s r s' : inv s → repo_Create u s = (r, s') → harmless s s'.
Proof.
  intros Hi Hr. apply law_Create in Hr as (Hi' & _ & Hc); [|done].
  destruct Hc as [Hc|(e & _ & _ & [Hd|[r0 Hc]])];
    [by eapply harmless_created|by apply harmless_same|by eapply harmless_created].
Qed.

(** An account that is reported as created is a new one. *)
Lemma created_is_new v s u s' :
  inv s → repo_Create v s = (Ok u, s') → kept s' u ∧ ∀ w, kept s w → apart u w.
Proof.
  intros Hi Hr. apply law_Create in Hr as (Hi' & _ & [Hc|(e & ? & _)]); [|done..].
  destruct Hc as [(n & un & pw & em & _ & _ & _ & _ & Ht & Hu & Hd)|[(e & ? & _) _]]; [|done].
  injection Hu as ->. split; [eexists; rewrite Hd; cbn; by rewrite lookup_insert_eq|].
  intros w (w' & Hw & Hun & Hem). unfold apart, taken in *. cbn.
  split; [|split]; intros Heq; apply Ht.
  - left. by rewrite Heq, Hw.
  - right. exists (ID w), w'. split; [done|]. left. congruence.
  - right. exists (ID w), w'. split; [done|]. right. congruence.
Qed.

(** *** The calls of a registration *)

Definition call_ok (c : S → S) : Prop := ∀ s, inv s → harmless s (c s).
Abbreviation keeping := (keeps inv call_ok).

Lemma keeps_registering_call {A} (m : M S A) :
  (∀ s r s', inv s → m s = (r, s') → harmless s s') → keeping (atomically m) (λ _, True).
Proof.
  intros Hm. apply keeps_atomically; [|done]. intros s Hi. destruct (m s) as [r s'] eqn:Hr. by eapply Hm.
Qed.

Lemma keeps_check_free before taken (m : M S User) :
  (∀ s r s', inv s → m s = (r, s') → harmless s s') →
  keeping (check_free before taken (atomically m)) (λ _, True).
Proof.
  intros Hm. eapply keeps_bind; [by apply keeps_attempt, keeps_registering_call|].
  intros [u|e] _; [apply keeps_fail|]. destruct (errors_Is _ _); [by apply keeps_ret|apply keeps_fail].
Qed.

Lemma keeps_Register input : keeping (handle input) (λ _, True).
Proof.
  eapply keeps_bind; [apply keeps_check_free; intros s r s' Hi Hr;
    apply law_GetByEmail in Hr as (? & _ & ? & _); [by apply harmless_same|done]|]. intros _ _.
  eapply keeps_bind; [apply keeps_check_free; intros s r s' Hi Hr;
    apply law_GetByUsername in Hr as (? & _ & ? & _); [by apply harmless_same|done]|]. intros _ _.
  eapply keeps_bind; [apply keeps_mwrap, keeps_registering_call; intros s r s' Hi Hr;
    apply law_hash in Hr as (? & _ & ? & _); [by apply harmless_same|done]|]. intros h _.
  eapply keeps_bind; [apply keeps_mwrap, keeps_registering_call; intros s r s' Hi Hr;
    apply law_NewV7 in Hr as (? & _ & ? & _); [by apply harmless_same|done]|]. intros id _.
  apply keeps_mwrap, keeps_registering_call. intros s r s'. apply harmless_Create.
Qed.

(** A registration that has made no call has no answer, and the last call of
    one that succeeds creates the account. *)
Lemma not_registered_yet input u : answered handle (mkThread input []) ≠ Some (Ok u).
Proof. done. Qed.

Lemma last_call_creates input l c s u :
  next (handle input) l = inl c → answered handle (mkThread input (l ++ [s])) = Some (Ok u) →
  ∃ v, c = (λ s, (repo_Create v s).2) ∧ (repo_Create v s).1 = Ok u.
Proof.
  unfold answered. cbn [threads.request got].
  unfold next, handle, Register, check_free, mbind, M_bind, mret, M_ret, attempt, mwrap, fail.
  destruct l as [|s1 [|s2 [|s3 [|s4 [|s5 l]]]]]; cbn; unfold atomically; cbn;
    repeat (match goal with
      | |- context [(?m ?s).1] => destruct ((m s).1) eqn:?
      | |- context [errors_Is ?e ?f] => destruct (errors_Is e f)
      end; cbn); intros; simplify_eq; eauto.
Qed.

Lemma registrations_ok_step p p' : racing p p' → registrations_ok p → registrations_ok p'.
Proof.
  intros Hstep [Hi Hs Hk Ha]. destruct Hstep as [o s ts|i o l c s ts Hth Hn|s s' ts Hq]; cbn in *.
  - assert (Hold : ∀ i u, registered (ts ++ [mkThread o []]) i u → registered ts i u).
    { intros i u (th & [Hth|[_ Hth]]%lookup_app_Some & Hu); [by exists th|].
      apply list_lookup_singleton_Some in Hth as [_ <-]. by apply not_registered_yet in Hu. }
    split; cbn; eauto. apply Forall_app. split; [done|]. by apply Forall_singleton, Forall_nil.
  - pose proof (proj1 (Forall_lookup _ _) Hs i _ Hth) as Hl. cbn in Hl.
    pose proof (keeps_next _ _ _ _ l (keeps_Register o) Hl) as Hc. rewrite Hn in Hc.
    destruct (Hc s Hi) as [Hi' Hstay].
    assert (Hreg : ∀ j u, registered (<[i:=mkThread o (l ++ [s])]> ts) j u →
      registered ts j u ∨ (j = i ∧ kept (c s) u ∧ ∀ w, kept s w → apart u w)).
    { intros j u (th & Hj & Hu). destruct (decide (i = j)) as [<-|Hne].
      - rewrite list_lookup_insert_eq in Hj by (by eapply lookup_lt_Some). injection Hj as <-.
        destruct (last_call_creates _ _ _ _ _ Hn Hu) as (v & -> & Hv). right. split; [done|].
        apply (created_is_new v s u); [done|]. by destruct (repo_Create v s); simplify_eq/=.
      - rewrite list_lookup_insert_ne in Hj by done. left. by exists th. }
    split; cbn; [done|..].
    + apply Forall_insert; [done|]. cbn. apply Forall_app. split; [done|]. by apply Forall_singleton.
    + intros j u [Hu|(-> & Hu & _)]%Hreg; [by eapply Hstay, Hk|done].
    + intros j k u v [Hu|(-> & _ & Hu)]%Hreg [Hv|(-> & _ & Hv)]%Hreg Hne; [by eauto|..|done].
      * destruct (Hv u) as (? & ? & ?); [eauto|]. by repeat split; apply not_eq_sym.
      * eauto.
  - destruct Hq as [Hq1 Hq2]. split; cbn; eauto.
Qed.

(** C15: However the calls of any number of registrations interleave, with each other
    and with verifications, deletions and password changes, the accounts that two of
    them report as created differ in identifier, username and email, and both are there. *)
Theorem racing_registrations s s' ts i j thi thj u v :
  inv s → rtc racing (s, []) (s', ts) →
  ts !! i = Some thi → answered handle thi = Some (Ok u) →
  ts !! j = Some thj → answered handle thj = Some (Ok v) →
  kept s' u ∧ (i ≠ j → apart u v).
Proof.
  intros Hi Hsteps Hti Hai Htj Haj.
  assert (Hok : registrations_ok (s', ts)).
  { eapply (rtc_ind_r registrations_ok); [|intros; by eapply registrations_ok_step|exact Hsteps].
    split; cbn; [done|constructor|..]; unfold registered; naive_solver. }
  destruct Hok as [_ _ Hk Ha]. cbn in *.
  assert (Hu : registered ts i u) by (by exists thi).
  assert (Hv : registered ts j v) by (by exists thj).
  split; [by eapply Hk|]. intros Hne. by eapply Ha.
Qed.
End pools.

(** ** Ada and Grace register at once, and Ada twice *)

Module Demo.
Import Sim.
Import user.Demo.

Definition grace_input : RegisterInput := {|
  in_Name := "Grace"; in_Username := "grace"; in_Password := "battery staple";
  in_Email := "grace@example.org" |}.

Abbreviation Pool := (pool W RegisterInput).

(** Two registrations that take turns. *)
Definition both (input1 input2 : RegisterInput) : Pool :=
  run_schedule (handle (S := W)) [0; 1; 0; 1; 0; 1; 0; 1; 0; 1]%nat (w0, [] ++ arriving [input1; input2]).

Lemma both_reached input1 input2 : rtc racing (w0, []) (both input1 input2).
Proof.
  exact (arriving_steps handle names_stay [0; 1; 0; 1; 0; 1; 0; 1; 0; 1]%nat [input1; input2] w0 []).
Qed.

Definition registered_as (p : Pool) (i : nat) : option (result User) := p.2 !! i ≫= answered (handle (S := W)).

Lemma registered_as_Ok p i :
  is_Ok <$> registered_as p i = Some true →
  ∃ th u, registered_as p i = Some (Ok u) ∧ p.2 !! i = Some th ∧ answered handle th = Some (Ok u).
Proof.
  unfold registered_as. destruct (p.2 !! i) as [th|]; [|done]. cbn.
  destruct (answered handle th) as [[u|e]|] eqn:Hth; [|done..]. intros _. eauto.
Qed.

Lemma both_Ok :
  is_Ok <$> registered_as (both ada_input grace_input) 0 = Some true ∧
  is_Ok <$> registered_as (both ada_input grace_input) 1 = Some true.
Proof. split; vm_compute; reflexivity. Qed.

Lemma racing_registrations_witness :
  ∃ u v, registered_as (both ada_input grace_input) 0 = Some (Ok u) ∧
         registered_as (both ada_input grace_input) 1 = Some (Ok v) ∧ ID u ≠ ID v.
Proof.
  destruct (registered_as_Ok _ _ (proj1 both_Ok)) as (th1 & u & Hu & Hth1 & Hans1).
  destruct (registered_as_Ok _ _ (proj2 both_Ok)) as (th2 & v & Hv & Hth2 & Hans2).
  exists u, v. split; [exact Hu|]. split; [exact Hv|].
  pose proof (both_reached ada_input grace_input) as Hsteps.
  rewrite (surjective_pairing (both ada_input grace_input)) in Hsteps.
  apply (racing_registrations w0 _ _ 0 1 th1 th2 u v empty_inv Hsteps Hth1 Hans1 Hth2 Hans2).
  discriminate.
Defined.

(** The loser of a race for one name learns neither that the email is taken nor
    that the username is: its error is the one of a failed insertion. *)
Lemma lost_race :
  is_Ok <$> registered_as (both ada_input ada_input) 0 = Some true ∧
  (λ r, match r with
        | Ok _ => None
        | Err e => Some (errors_Is e ErrEmailTaken, errors_Is e ErrUsernameTaken)
        end) <$> registered_as (both ada_input ada_input) 1 = Some (Some (false, false)).
Proof. split; vm_compute; reflexivity. Qed.
End Demo.
End registering.
