(* ===== verification/OneTime.v ===== *)
(** Secrets that are used once, under concurrent requests: the secret of a TOTP setup
    ([Verify] of [internal/modules/session/totp.go]) and the state of an OAuth
    authorization ([GoogleCallback] of [internal/modules/sso/service.go]).  Both are read
    with one Redis command and deleted with a later one, so that requests which read
    it before it is deleted may all be accepted; what begins after is refused. *)

From S2P Require Import Prelude.
From S2P Require Import Platform.
From S2P Require Import Database.
From S2P Require Import Integrity.
From S2P Require Import World.
From S2P Require Import RedisStore.
From S2P Require Import Totp.
From S2P Require Import Sso.
From S2P Require Import Threads.
From S2P Require Import Calls.

Module onetime.
Import threads totp sso.

(** ** A secret that the [n]-th call of a request deletes *)

Section spending.
Context {S op ans : Type} (body : op → M (Alone S) ans) (other : S → S → Prop).
Context (gone : S → Prop) (accepted : ans → Prop) (refusal : result ans) (n : nat).

(** Nothing brings the secret back; the [n]-th call deletes it; a request is not
    accepted before that, and refused when it only sees states without the secret. *)
Context (Hother : ∀ s s', other s s' → gone s → gone s').
Context (Hcalls : ∀ o l c, next (body o) l = inl c → ∀ s, gone s → gone (c s)).
Context (Hdelete : ∀ o l c s, next (body o) l = inl c → Datatypes.S (length l) = n → gone (c s)).
Context (Haccept : ∀ o l a, next (body o) l = inr (Ok a) → accepted a → (n ≤ length l)%nat).
Context (Hrefuse : ∀ o l r, Forall gone l → next (body o) l = inr r → r = refusal).

Abbreviation racing := (step body other).

(** A request that has made its [n]-th call has deleted the secret. *)
Definition spent (p : pool S op) : Prop := ∀ i th, p.2 !! i = Some th → (n ≤ length (got th))%nat → gone p.1.

(** A request that makes its first call after the secret is gone. *)
Definition late (i : nat) (p : pool S op) : Prop :=
  gone p.1 ∧ ∀ th, p.2 !! i = Some th → Forall gone (got th).

Lemma spent_step p p' : (0 < n)%nat → racing p p' → spent p → spent p'.
Proof using Hother Hcalls Hdelete.
  intros Hn Hstep Hsp. destruct Hstep as [o s ts|i o l c s ts Hi Hnext|s s' ts Ho]; intros j th Hj Hlen; cbn in *.
  - apply lookup_app_Some in Hj as [Hj|[_ Hj]]; [by eapply Hsp|].
    apply list_lookup_singleton_Some in Hj as [_ <-]. cbn in Hlen. lia.
  - destruct (decide (i = j)) as [<-|Hne].
    + rewrite list_lookup_insert_eq in Hj by (by eapply lookup_lt_Some). injection Hj as <-.
      cbn in Hlen. rewrite length_app in Hlen. cbn in Hlen.
      destruct (decide (Datatypes.S (length l) = n)) as [Heq|Heq]; [by eapply Hdelete|].
      eapply Hcalls; [done|]. eapply (Hsp i); [exact Hi|cbn; lia].
    + rewrite list_lookup_insert_ne in Hj by done. eapply Hcalls; [done|]. by eapply Hsp.
  - eapply Hother; [done|]. by eapply Hsp.
Qed.

Lemma late_step i p p' : racing p p' → late i p → late i p'.
Proof using Hother Hcalls.
  intros Hstep [Hg Hl]. destruct Hstep as [o s ts|j o l c s ts Hj Hnext|s s' ts Ho]; split; cbn in *.
  - done.
  - intros th [Hi|[_ Hi]]%lookup_app_Some; [by apply Hl|].
    apply list_lookup_singleton_Some in Hi as [_ <-]. constructor.
  - by eapply Hcalls.
  - intros th Hi. destruct (decide (j = i)) as [->|Hne].
    + rewrite list_lookup_insert_eq in Hi by (by eapply lookup_lt_Some). injection Hi as <-. cbn.
      apply Forall_app. split; [exact (Hl _ Hj)|by apply Forall_singleton].
    + rewrite list_lookup_insert_ne in Hi by done. by apply Hl.
  - by eapply Hother.
  - exact Hl.
Qed.

(** Once a request was accepted, those that have made no call yet are refused. *)
Lemma accepted_once s0 s ts j th a s' ts' i th' r :
  (0 < n)%nat → rtc racing (s0, []) (s, ts) →
  ts !! j = Some th → answered body th = Some (Ok a) → accepted a →
  (∀ th0, ts !! i = Some th0 → got th0 = []) →
  rtc racing (s, ts) (s', ts') →
  ts' !! i = Some th' → answered body th' = Some r → r = refusal.
Proof using Hother Hcalls Hdelete Haccept Hrefuse.
  intros Hn Hsteps Hj Hans Ha Hfresh Hsteps' Hi Hans'.
  assert (Hsp : spent (s, ts)).
  { eapply (rtc_ind_r spent); [|intros; by eapply spent_step|exact Hsteps]. by intros k t Hk. }
  assert (Hlate : late i (s', ts')).
  { eapply (rtc_ind_r (late i)); [|intros; by eapply late_step|exact Hsteps']. split; cbn.
    - apply (Hsp j th Hj). unfold answered in Hans. destruct (next _ _) eqn:Hnx; [done|].
      injection Hans as ->. by eapply Haccept.
    - intros t Ht. by rewrite (Hfresh t Ht). }
  unfold answered in Hans'. destruct (next _ _) eqn:Hnx; [done|]. injection Hans' as ->.
  eapply Hrefuse; [|exact Hnx]. by apply Hlate.
Qed.
End spending.

(** ** The calls of a verification and of a callback *)

Section calls.
Context {S : Type} `{RedisClient S}.
Implicit Types l : list S.

Definition verifying `{!TotpLib S} (u code : string) : M (Alone S) bool := Verify u code.

Lemma next_verifying `{!TotpLib S} u code l :
  next (verifying u code) l =
  match l with
  | [] => inl (λ s, (client_Get (store.totpKey u) s).2)
  | s1 :: l =>
      match (client_Get (store.totpKey u) s1).1 with
      | Err e => inr (wrap_err "get totp secret: " (Err e))
      | Ok secret =>
          match l with
          | [] => inl (λ s, (lib_Validate code secret s).2)
          | s2 :: l =>
              match (lib_Validate code secret s2).1, l with
              | Ok true, [] => inl (λ s, (client_Del (store.totpKey u) s).2)
              | r, _ => inr r
              end
          end
      end
  end.
Proof.
  unfold next, verifying, Verify, mbind, M_bind, mwrap, attempt. cbn. unfold atomically.
  destruct l as [|s1 l]; cbn; [done|]. destruct ((client_Get _ s1).1) as [secret|e]; cbn; [|done].
  destruct l as [|s2 l]; cbn; [done|]. destruct ((lib_Validate _ _ s2).1) as [[]|e]; cbn; [|done..].
  by destruct l.
Qed.

Definition calling_back `{!OAuth} `{!OAuthClient S} cfg (state code : string) : M (Alone S) GoogleUserInfo :=
  GoogleCallback cfg state code.

(** [rest] asks Google. *)
Lemma next_calling_back `{!OAuth} `{!OAuthClient S} cfg state code : ∃ rest, ∀ l,
  next (calling_back cfg state code) l =
  match l with
  | [] => inl (λ s, (client_Get (store.oauthStateKey state) s).2)
  | s1 :: l =>
      match (client_Get (store.oauthStateKey state) s1).1, l with
      | Ok _, [] => inl (λ s, (client_Del (store.oauthStateKey state) s).2)
      | Ok _, s2 :: l => next rest l
      | Err e, _ =>
          inr (Err (if bool_decide (e = redis_Nil) then ErrInvalidState
                    else fmt_Errorf_w "check oauth state: " e EmptyString))
      end
  end.
Proof.
  eexists. intros l. unfold next, calling_back, GoogleCallback. unfold mbind at 1, M_bind at 1, mwrap at 1. cbn.
  unfold store.GetOAuthState. cbn. unfold atomically at 1.
  destruct l as [|s1 l]; cbn; [done|]. destruct ((client_Get _ s1).1) as [v|e]; cbn.
  - unfold mbind at 1, M_bind at 1, attempt at 1. cbn. unfold atomically at 1. by destruct l.
  - by case_bool_decide.
Qed.
End calls.

(** ** Redis *)

Section secrets.
Context {R D : Type} `{RedisLaws R} `{!Oracle} `{!FaultFree}.
Abbreviation W := (World R D).
Implicit Types (w : W) (k : store.key).

Definition gone k w : Prop := ∀ τ, store.holds w τ k = None.

(** What other requests may do: all but setting the secret. *)
Definition others k w w' : Prop := gone k w → gone k w'.

Definition spares k (c : W → W) : Prop := ∀ w, gone k w → gone k (c w).

Lemma spares_same k {A} (m : M W A) : (∀ w, redis (m w).2 = redis w) → spares k (λ w, (m w).2).
Proof. intros Hm w Hg τ. unfold store.holds. rewrite Hm. apply Hg. Qed.

Lemma spares_Get k k' : spares k (λ w, (client_Get (store.key_string k') w).2).
Proof. apply spares_same. intros w. by rewrite store.Get_FaultFree. Qed.

Lemma Del_gone k w : gone k (client_Del (store.key_string k) w).2.
Proof.
  destruct (client_Del _ w) as [r w'] eqn:Hd. pose proof (store.Del_FaultFree k w) as Hr.
  rewrite Hd in Hr. cbn in *. subst r. by apply store.Del_inv in Hd as (_ & _ & _ & _ & [[? _]|Hg]).
Qed.

Lemma spares_Del k : spares k (λ w, (client_Del (store.key_string k) w).2).
Proof. intros w _. apply Del_gone. Qed.

Lemma Get_gone k w : gone k w → (client_Get (store.key_string k) w).1 = Err redis_Nil.
Proof. intros Hg. by rewrite store.Get_FaultFree, Hg. Qed.

(** ** TOTP codes *)

Section codes.
Context `{!Totp} (u : string).
Abbreviation key := (store.Totp u).

Lemma tracks_verifying code : tracks (spares key) (Verify (S := W) u code) (verifying u code).
Proof.
  apply tracks_bind; [by apply tracks_mwrap, tracks_atomically, (spares_Get key key)|]. intros secret.
  apply tracks_bind; [by apply tracks_atomically, (spares_same key)|]. intros valid.
  apply tracks_bind; [|intros _; apply tracks_ret]. destruct valid; [|apply tracks_ret].
  apply tracks_bind; [by apply tracks_attempt, tracks_atomically, (spares_Del key)|]. intros _. apply tracks_ret.
Qed.

(** Verifications of the user's code, and requests that do not set up a new secret. *)
Definition racing_verifications : pool W string → pool W string → Prop := step (verifying u) (others key).

(** C16: With Redis up, however verifications of one user interleave, with each other
    and with anything but a new setup, once one of them has accepted a code every
    verification that has made no call yet is refused, for the secret is gone. *)
Theorem racing_codes_die w0 w ts j th w' ts' i th' r :
  rtc racing_verifications (w0, []) (w, ts) →
  ts !! j = Some th → answered (verifying u) th = Some (Ok true) →
  (∀ th0, ts !! i = Some th0 → got th0 = []) →
  rtc racing_verifications (w, ts) (w', ts') →
  ts' !! i = Some th' → answered (verifying u) th' = Some r →
  r = Err (fmt_Errorf_w "get totp secret: " redis_Nil EmptyString).
Proof.
  intros Hsteps Hj Hans Hfresh Hsteps' Hi Hans'.
  eapply (accepted_once (verifying u) (others key) (gone key) (λ a, a = true) _ 3);
    [..|exact Hsteps|exact Hj|exact Hans|done|exact Hfresh|exact Hsteps'|exact Hi|exact Hans'].
  - by intros s s' Hs Hg; apply Hs.
  - intros o l c Hn. apply (tracks_next _ _ _ _ _ (tracks_verifying o) Hn).
  - intros o [|w1 [|w2 [|]]] c s; [done..| |done]. rewrite next_verifying. intros Hn _.
    destruct ((client_Get _ w1).1); [|done]. destruct ((lib_Validate _ _ w2).1) as [[]|]; [|done..].
    injection Hn as <-. apply (Del_gone key).
  - intros o l a Hn ->. rewrite next_verifying in Hn. destruct l as [|w1 l]; [done|].
    destruct ((client_Get _ w1).1); [|done]. destruct l as [|w2 l]; [done|].
    destruct ((lib_Validate _ _ w2).1) as [[]|]; [|done..]. destruct l; [done|cbn; lia].
  - intros o l r0 Hl Hn. rewrite next_verifying in Hn. destruct l as [|w1 l]; [done|].
    apply Forall_cons_1 in Hl as [Hg _]. change (store.totpKey u) with (store.key_string key) in Hn.
    rewrite (Get_gone key) in Hn by done. by injection Hn as <-.
  - lia.
Qed.
End codes.

(** ** OAuth states *)

Section states.
Context `{!OAuth} (cfg : oauth2_Config) (state : string).
Abbreviation key := (store.OAuth state).

Lemma tracks_calling_back code :
  tracks (spares key) (GoogleCallback (S := W) cfg state code) (calling_back cfg state code).
Proof.
  apply tracks_bind.
  { apply tracks_mwrap. cbn. unfold store.GetOAuthState.
    eapply (tracks_result _ (λ r, match r with
      | Err e => if bool_decide (e = redis_Nil) then Ok false else Err e | Ok _ => Ok true end)).
    by apply tracks_atomically, (spares_Get key key). }
  intros [|]; [|apply tracks_fail]. cbn [negb].
  apply tracks_bind; [by apply tracks_attempt, tracks_atomically, (spares_Del key)|]. intros _.
  apply tracks_bind; [by apply tracks_mwrap, tracks_atomically, (spares_same key)|]. intros token.
  apply tracks_bind; [by apply tracks_mwrap, tracks_atomically, (spares_same key)|]. intros [status body].
  destruct (negb _); [apply tracks_fail|apply tracks_mwrap, tracks_lift].
Qed.

(** Callbacks with the state, and requests that do not put it back. *)
Definition racing_callbacks : pool W string → pool W string → Prop :=
  step (calling_back cfg state) (others key).

(** C17: With Redis up, however callbacks with one OAuth state interleave, with each
    other and with anything that does not put the state back, once one of them has
    succeeded every callback that has made no call yet is refused with ErrInvalidState. *)
Theorem racing_states_die w0 w ts j th info w' ts' i th' r :
  rtc racing_callbacks (w0, []) (w, ts) →
  ts !! j = Some th → answered (calling_back cfg state) th = Some (Ok info) →
  (∀ th0, ts !! i = Some th0 → got th0 = []) →
  rtc racing_callbacks (w, ts) (w', ts') →
  ts' !! i = Some th' → answered (calling_back cfg state) th' = Some r → r = Err ErrInvalidState.
Proof.
  intros Hsteps Hj Hans Hfresh Hsteps' Hi Hans'.
  eapply (accepted_once (calling_back cfg state) (others key) (gone key) (λ _, True) _ 2);
    [..|exact Hsteps|exact Hj|exact Hans|done|exact Hfresh|exact Hsteps'|exact Hi|exact Hans'].
  - by intros s s' Hs Hg; apply Hs.
  - intros o l c Hn. apply (tracks_next _ _ _ _ _ (tracks_calling_back o) Hn).
  - intros o [|w1 [|]] c s; [done| |done]. destruct (next_calling_back (S := W) cfg state o) as [rest ->]. intros Hn _.
    destruct ((client_Get _ w1).1); [|done]. injection Hn as <-. apply (Del_gone key).
  - intros o l a Hn _. destruct (next_calling_back (S := W) cfg state o) as [rest Heq]. rewrite Heq in Hn.
    destruct l as [|w1 l]; [done|]. destruct ((client_Get _ w1).1); [|done]. destruct l; [done|cbn; lia].
  - intros o l r0 Hl Hn. destruct (next_calling_back (S := W) cfg state o) as [rest Heq]. rewrite Heq in Hn.
    destruct l as [|w1 l]; [done|]. apply Forall_cons_1 in Hl as [Hg _].
    change (store.oauthStateKey state) with (store.key_string key) in Hn.
    rewrite (Get_gone key) in Hn by done. by injection Hn as <-.
  - lia.
Qed.
End states.
End secrets.

(** ** The same code, and the same state, twice *)

Module Demo.
Import Sim Example_.
Import totp.Demo sso.Demo.

Section twice.
Context {S A : Type} (body : string → M (Alone S) A) (other : S → S → Prop) (s : S) (o : string).

(** Two requests that take turns. *)
Definition both (turns : list nat) : pool S string := run_schedule body turns (s, [] ++ arriving [o; o]).

Definition answer_of (p : pool S string) (i : nat) : option (result A) := p.2 !! i ≫= answered body.

Lemma both_racing turns : rtc (step body other) (s, []) (both turns).
Proof. exact (arriving_steps body other turns [o; o] s []). Qed.

Lemma both_more turns turns' : rtc (step body other) (both turns) (both (turns ++ turns')).
Proof. unfold both, run_schedule. rewrite fold_left_app. apply run_schedule_steps. Qed.

Lemma answer_of_Some p i r :
  answer_of p i = Some r → ∃ th, p.2 !! i = Some th ∧ answered body th = Some r.
Proof. unfold answer_of. destruct (p.2 !! i) as [th|]; [|done]. by exists th. Qed.

Lemma not_begun (p : pool S string) i : got <$> p.2 !! i = Some [] → ∀ th0, p.2 !! i = Some th0 → got th0 = [].
Proof. intros Hp th0 Hi. rewrite Hi in Hp. by injection Hp. Qed.
End twice.

(** Ada's code, after the setup: the first request is done before the second begins. *)
Definition code : string := "JBSWY3DP".
Definition codes : list nat → pool W string := both (verifying (S := W) "ada") totp.Demo.w1 code.

Lemma codes_in_turn :
  answer_of (verifying (S := W) "ada") (codes [0; 0; 0]%nat) 0 = Some (Ok true) ∧
  got <$> (codes [0; 0; 0]%nat).2 !! 1%nat = Some [].
Proof. split; vm_compute; reflexivity. Qed.

Lemma second_code_answered : is_Some (answer_of (verifying (S := W) "ada") (codes [0; 0; 0; 1]%nat) 1).
Proof. eexists. vm_compute. reflexivity. Qed.

Lemma racing_codes_die_witness :
  answer_of (verifying (S := W) "ada") (codes [0; 0; 0; 1]%nat) 1 =
  Some (Err (fmt_Errorf_w "get totp secret: " redis_Nil EmptyString)).
Proof.
  destruct second_code_answered as [r Hr]. destruct codes_in_turn as [H1 H2].
  destruct (answer_of_Some _ _ _ _ H1) as (th & Hth & Hans).
  destruct (answer_of_Some _ _ _ _ Hr) as (th' & Hth' & Hans').
  rewrite Hr. f_equal.
  pose proof (both_racing (verifying (S := W) "ada") (others (store.Totp "ada")) totp.Demo.w1 code [0; 0; 0]%nat) as Hs1.
  pose proof (both_more (verifying (S := W) "ada") (others (store.Totp "ada")) totp.Demo.w1 code
    [0; 0; 0]%nat [1]%nat) as Hs2.
  exact (racing_codes_die "ada" totp.Demo.w1 (codes [0; 0; 0]%nat).1 (codes [0; 0; 0]%nat).2 0 th
    (codes [0; 0; 0; 1]%nat).1 (codes [0; 0; 0; 1]%nat).2 1 th' r
    Hs1 Hth Hans (not_begun _ _ H2) Hs2 Hth' Hans').
Defined.

(** Requests that look the code up before it is deleted are both accepted. *)
Lemma code_accepted_twice :
  rtc (racing_verifications "ada") (totp.Demo.w1, []) (codes [0; 1; 0; 1; 0; 1]%nat) ∧
  answer_of (verifying (S := W) "ada") (codes [0; 1; 0; 1; 0; 1]%nat) 0 = Some (Ok true) ∧
  answer_of (verifying (S := W) "ada") (codes [0; 1; 0; 1; 0; 1]%nat) 1 = Some (Ok true).
Proof.
  split; [exact (both_racing (verifying (S := W) "ada") (others (store.Totp "ada")) totp.Demo.w1 code _)|].
  split; vm_compute; reflexivity.
Qed.

(** The state of the authorization that begins in [w0], as it comes back from Google. *)
Definition state : string := match (uuid_New sso.Demo.w0).1 with Ok id => uuid_String id | Err _ => EmptyString end.
Definition states : list nat → pool W string :=
  both (calling_back (S := W) cfg state) sso.Demo.w1 "code".

Lemma states_in_turn :
  is_Ok <$> answer_of (calling_back (S := W) cfg state) (states [0; 0; 0; 0]%nat) 0 = Some true ∧
  got <$> (states [0; 0; 0; 0]%nat).2 !! 1%nat = Some [].
Proof. split; vm_compute; reflexivity. Qed.

Lemma second_state_answered :
  is_Some (answer_of (calling_back (S := W) cfg state) (states [0; 0; 0; 0; 1]%nat) 1).
Proof. eexists. vm_compute. reflexivity. Qed.

Lemma racing_states_die_witness :
  answer_of (calling_back (S := W) cfg state) (states [0; 0; 0; 0; 1]%nat) 1 = Some (Err ErrInvalidState).
Proof.
  destruct second_state_answered as [r Hr]. destruct states_in_turn as [H1 H2].
  destruct (answer_of _ _ 0) as [[info|e]|] eqn:H0; [|discriminate H1..].
  destruct (answer_of_Some _ _ _ _ H0) as (th & Hth & Hans).
  destruct (answer_of_Some _ _ _ _ Hr) as (th' & Hth' & Hans').
  rewrite Hr. f_equal.
  pose proof (both_racing (calling_back (S := W) cfg state) (others (store.OAuth state))
    sso.Demo.w1 "code" [0; 0; 0; 0]%nat) as Hs1.
  pose proof (both_more (calling_back (S := W) cfg state) (others (store.OAuth state)) sso.Demo.w1 "code"
    [0; 0; 0; 0]%nat [1]%nat) as Hs2.
  exact (racing_states_die cfg state sso.Demo.w1 (states [0; 0; 0; 0]%nat).1 (states [0; 0; 0; 0]%nat).2 0 th info
    (states [0; 0; 0; 0; 1]%nat).1 (states [0; 0; 0; 0; 1]%nat).2 1 th' r
    Hs1 Hth Hans (not_begun _ _ H2) Hs2 Hth' Hans').
Defined.

Lemma state_accepted_twice :
  rtc (racing_callbacks cfg state) (sso.Demo.w1, []) (states [0; 1; 0; 1; 0; 1; 0; 1]%nat) ∧
  is_Ok <$> answer_of (calling_back (S := W) cfg state) (states [0; 1; 0; 1; 0; 1; 0; 1]%nat) 0 = Some true ∧
  is_Ok <$> answer_of (calling_back (S := W) cfg state) (states [0; 1; 0; 1; 0; 1; 0; 1]%nat) 1 = Some true.
Proof.
  split; [exact (both_racing (calling_back (S := W) cfg state) (others (store.OAuth state)) sso.Demo.w1 "code" _)|].
  split; vm_compute; reflexivity.
Qed.
End Demo.
End onetime.
