(* ===== verification/Concurrent.v ===== *)
(** The server under concurrent requests: [net/http] runs the handler of
    [NewServer] in a goroutine for every request, so that the calls of any number
    of HTTP requests interleave ([Threads], [Calls]).

    A request that nobody disturbs does what the definition of Server.v says.
    Whatever the interleaving, the database keeps its schema, and who changes an
    organization, a membership or a repository had a token accepted before. *)

From S2P Require Import Prelude.
From S2P Require Import Bytes.
From S2P Require Import Platform.
From S2P Require Import Database.
From S2P Require Import Integrity.
From S2P Require Import World.
From S2P Require Import RedisStore.
From S2P Require Import Session.
From S2P Require Import Users.
From S2P Require Import Totp.
From S2P Require Import Sso.
From S2P Require Import Orgs.
From S2P Require Import Filepath.
From S2P Require Import Disk.
From S2P Require Import Repos.
From S2P Require Import Http.
From S2P Require Import HttpAuth.
From S2P Require Import HttpForge.
From S2P Require Import HttpGit.
From S2P Require Import Mux.
From S2P Require Import RateLimit.
From S2P Require Import Config.
From S2P Require Import Logger.
From S2P Require Import Preserves.
From S2P Require Import Server.
From S2P Require Import Dispatch.
From S2P Require Import Threads.
From S2P Require Import Calls.
From S2P Require Import GoStrings.

Module concurrent.
Import http mux gitroutes server dispatch threads.

(** ** The routing tree does not look at the handlers *)

Section match_fmap.
Context {A B : Type} (f : A → B).

Definition on_node (n : list (list segment * option string * A)) : list (list segment * option string * B) :=
  (λ '(segs, rest, a), (segs, rest, f a)) <$> n.

Lemma omap_on_node {C D} (g : list segment * option string * A → option C)
    (g' : list segment * option string * B → option D) (h : C → D) n :
  (∀ segs rest a, g' (segs, rest, f a) = h <$> g (segs, rest, a)) →
  omap g' (on_node n) = h <$> omap g n.
Proof.
  intros Hg. unfold on_node. induction n as [|[[segs rest] a] n IH]; [done|]. cbn. rewrite Hg.
  destruct (g (segs, rest, a)); cbn; congruence.
Qed.

Lemma head_omap_on_node (g : list segment * option string * A → option A)
    (g' : list segment * option string * B → option B) n :
  (∀ segs rest a, g' (segs, rest, f a) = f <$> g (segs, rest, a)) →
  head (omap g' (on_node n)) = f <$> head (omap g n).
Proof. intros Hg. rewrite (omap_on_node g g' f) by done. by destruct (omap g n). Qed.

Lemma leaf_on_node n : leaf (on_node n) = f <$> leaf n.
Proof. apply head_omap_on_node. by intros [|? ?] [?|] a. Qed.

Lemma multi_on_node n : multi (on_node n) = f <$> multi n.
Proof. apply head_omap_on_node. by intros [|? ?] [?|] a. Qed.

Lemma step_lit_on_node seg n : step_lit seg (on_node n) = on_node (step_lit seg n).
Proof.
  unfold step_lit at 1. apply omap_on_node. intros [|[s|s] segs] rest a; try done. by case_bool_decide.
Qed.

Lemma step_wild_on_node n : step_wild (on_node n) = on_node (step_wild n).
Proof. unfold step_wild at 1. apply omap_on_node. by intros [|[s|s] segs] rest a. Qed.

Lemma matchPath_on_node n path ms :
  matchPath (on_node n) path ms = prod_map f id <$> matchPath n path ms.
Proof.
  revert n ms. induction path as [|[seg raw] path IH]; intros n ms; cbn.
  { rewrite leaf_on_node. by destruct (leaf n). }
  rewrite step_lit_on_node, step_wild_on_node, multi_on_node, !IH.
  destruct (matchPath (step_lit seg n) path ms); [done|]. cbn.
  case_bool_decide; [by destruct (multi n)|].
  destruct (matchPath (step_wild n) path _); [done|]. cbn. by destruct (multi n).
Qed.

Lemma match_method_fmap (routes : list (pattern * A)) method path :
  match_method (prod_map id f <$> routes) method path = prod_map f id <$> match_method routes method path.
Proof.
  assert (Htree : ∀ m, tree m (prod_map id f <$> routes) = on_node (tree m routes)).
  { intros m. unfold tree. induction routes as [|[p a] rs IH]; [done|]. cbn.
    case_bool_decide; cbn; by rewrite IH. }
  unfold match_method. rewrite !Htree, !matchPath_on_node.
  destruct (matchPath (tree method routes) _ _); [done|]. cbn. by case_bool_decide.
Qed.
End match_fmap.

(** ** What the calls do to the database *)

Section calls.
Context {R D : Type} `{Oracle}.
Implicit Types (w : World R D).

(** [F]: how the database may go from one state to another. *)
Context (F : relation Database) `{!Reflexive F}.

Definition moves (c : World R D → World R D) : Prop := ∀ w, F (db w) (db (c w)).

(** A computation and its calls on their own, every one of which moves the database so. *)
Abbreviation goes := (tracks moves).

Lemma goes_free {A} (m : M (World R D) A) : db_free m → goes m (atomically m).
Proof. intros Hm. apply tracks_atomically. intros w. cbn. by rewrite Hm. Qed.

Lemma goes_sql {A} (s : statement A) :
  (∀ t n d a d', s t n d = Ok (a, d') → F d d') → goes (run_sql s) (run_sql s).
Proof.
  intros Hs. apply tracks_atomically. intros w. destruct (run_sql s w) as [r w'] eqn:Hr. cbn.
  apply run_sql_inv in Hr as (_ & _ & _ & Hres).
  destruct Hres as [(a & _ & Ha)|[(e & _ & _ & ->)|(e & _ & _ & [->|(a & Ha)])]]; try done; by eapply Hs.
Qed.

Lemma goes_redis `{Redis R} k v ttl :
  goes (client_Set k v ttl) (client_Set k v ttl) ∧ goes (client_Get k) (client_Get k) ∧
  goes (client_Del k) (client_Del k).
Proof. split_and!; apply goes_free; [apply Set_db_free|apply Get_db_free|apply Del_db_free]. Qed.

Lemma goes_Set `{Redis R} k v ttl : goes (client_Set k v ttl) (client_Set k v ttl).
Proof. apply goes_redis. Qed.
Lemma goes_Get `{Redis R} k : goes (client_Get k) (client_Get k).
Proof. by apply (goes_redis k EmptyString 0). Qed.
Lemma goes_Del `{Redis R} k : goes (client_Del k) (client_Del k).
Proof. by apply (goes_redis k EmptyString 0). Qed.

Lemma goes_GetOAuthState `{Redis R} state :
  goes (store.GetOAuthState state) (store.GetOAuthState state).
Proof.
  apply (tracks_result moves (λ r, match r with
    | Err e => if bool_decide (e = redis_Nil) then Ok false else Err e
    | Ok _ => Ok true
    end)), goes_Get.
Qed.

Lemma goes_rand n : goes (rand_bytes n) (rand_bytes n).
Proof. by apply goes_free. Qed.
Lemma goes_NewV7 : goes uuid_NewV7 uuid_NewV7.
Proof. by apply goes_free. Qed.
Lemma goes_New : goes uuid_New uuid_New.
Proof. by apply goes_free. Qed.
Lemma goes_Now : goes time_Now time_Now.
Proof. by apply goes_free. Qed.
Lemma goes_hash `{Bcrypt} p : goes (bcrypt_GenerateFromPassword p) (bcrypt_GenerateFromPassword p).
Proof. by apply goes_free. Qed.

Lemma goes_Getwd `{Disk D} : goes os_Getwd os_Getwd.
Proof. by apply goes_free. Qed.
Lemma goes_Stat `{Disk D} p : goes (os_Stat p) (os_Stat p).
Proof. by apply goes_free. Qed.
Lemma goes_EvalSymlinks `{Disk D} p : goes (filepath_EvalSymlinks p) (filepath_EvalSymlinks p).
Proof. by apply goes_free. Qed.
Lemma goes_osfs_Stat `{Disk D} p q : goes (osfs_Stat p q) (osfs_Stat p q).
Proof. by apply goes_free. Qed.
Lemma goes_PlainInit `{Disk D} p b : goes (git_PlainInit p b) (git_PlainInit p b).
Proof. apply goes_free, PlainInit_db_free. Qed.

Lemma goes_Generate `{Totp.Totp} x y : goes (totp.lib_Generate x y) (totp.lib_Generate x y).
Proof. by apply goes_free. Qed.
Lemma goes_lib_Validate `{Totp.Totp} x y : goes (totp.lib_Validate x y) (totp.lib_Validate x y).
Proof. by apply goes_free. Qed.
Lemma goes_Exchange `{sso.OAuth} c x : goes (sso.client_Exchange c x) (sso.client_Exchange c x).
Proof. by apply goes_free. Qed.
Lemma goes_Userinfo `{sso.OAuth} c x : goes (sso.client_Userinfo c x) (sso.client_Userinfo c x).
Proof. by apply goes_free. Qed.

Lemma goes_backend `{Backend D} wr r : goes (gitHandler_ServeHTTP wr r) (gitHandler_ServeHTTP wr r).
Proof. apply goes_free, backend_db_free. Qed.
End calls.

(** [go leaf] walks through a computation and its calls on their own; the
    statements are left to [leaf]. *)
Ltac goes_call :=
  first
    [ apply goes_Set | apply goes_Get | apply goes_Del | apply goes_GetOAuthState | apply goes_rand
    | apply goes_NewV7 | apply goes_New | apply goes_Now | apply goes_hash | apply goes_Getwd
    | apply goes_Stat | apply goes_EvalSymlinks | apply goes_osfs_Stat | apply goes_PlainInit
    | apply goes_Generate | apply goes_lib_Validate | apply goes_Exchange | apply goes_Userinfo
    | apply goes_backend ]; exact _.

Ltac go_step leaf :=
  lazymatch goal with
  | |- tracks _ (mret _) _ => apply tracks_ret
  | |- tracks _ (fail _) _ => apply tracks_fail
  | |- tracks _ (lift _) _ => apply tracks_lift
  | |- tracks _ (attempt _) _ => apply tracks_attempt
  | |- tracks _ (mwrap _ _) _ => apply tracks_mwrap
  | |- tracks _ (mbind _ _) _ => apply tracks_bind; [|intros ?]
  | |- tracks _ (run_sql _) _ => apply goes_sql; [exact _|leaf]
  | |- tracks _ (match ?x with _ => _ end) _ => destruct x
  | |- tracks _ ?m _ =>
      first [ goes_call
            | progress cbv beta zeta
            | progress cbn
            | let h := keep_head m in unfold h ]
  end.

Ltac go leaf := repeat go_step leaf.

(** ** The server *)

Section server.
Context {R D : Type} `{RedisLaws R} `{PostgresLaws} `{OracleLaws} `{Bcrypt} `{Uuid} `{Totp.Totp} `{sso.OAuth}
  `{Disk D} `{OsErrors} `{Backend D} `{Quoting} `{RedirectURL}.
Context `{JsonDecode accounts.registerRequest} `{JsonDecode accounts.loginRequest}
  `{JsonDecode accounts.totpVerifyRequest} `{JsonDecode forge.createOrganizationRequest}
  `{JsonDecode forge.addOrganizationUserRequest} `{JsonDecode forge.createRepositoryRequest}.
Context `{ratelimit.FloatTime} `{!ratelimit.ScriptRunner (World R D)} `{ratelimit.NetText}.
Context {db_Ping redis_Ping : Z → M (World R D) unit} `{!Outside _ db_Ping redis_Ping}.
Context (cfg : config.Config).
Implicit Types (w : World R D) (r : Request).

Abbreviation srv := (main_Config db_Ping redis_Ping cfg).
Abbreviation srv' := (main_Config (λ d, atomically (db_Ping d)) (λ d, atomically (redis_Ping d)) cfg).

(** A handler and its calls on their own. *)
Definition handler_goes (F : relation Database)
    (h : Handler (World R D)) (h' : Handler (Alone (World R D))) : Prop :=
  ∀ wr r, tracks (moves F) (h wr r) (h' wr r).

Definition routes_go (F : relation Database) (rs : Routes (S := World R D))
    (rs' : Routes (S := Alone (World R D))) : Prop :=
  Forall2 (λ x x', x.1 = x'.1 ∧ handler_goes F x.2 x'.2) rs rs'.

Ltac each_pair leaf :=
  cbn [app user_RegisterRoutes session_RegisterRoutes sso_RegisterRoutes];
  repeat (apply Forall2_cons_2; [split; [reflexivity|]; intros wr r; cbn [snd]; go leaf|]); apply Forall2_nil_2.

Definition schema (d d' : Database) : Prop := Integrity d → Integrity d'.
Definition frame (d d' : Database) : Prop := forge_tables d' = forge_tables d.

#[local] Instance schema_reflexive : Reflexive schema.
Proof. by intros d Hd. Qed.
#[local] Instance frame_reflexive : Reflexive frame.
Proof. by intros d. Qed.

Ltac schema_leaf :=
  let Hd := fresh in let Hst := fresh in
  intros ? ? ? ? ? Hst Hd; refine (sql_statement_keeps _ _ _ _ _ _ _ Hd Hst); constructor.
Ltac frame_leaf :=
  let Hst := fresh in intros ? ? ? ? ? Hst; unfold_statement Hst; statement_inv Hst; reflexivity.

(** Their statements keep the schema, and leave the organizations, members and
    repositories alone. *)
Lemma account_routes_go F `{!Reflexive F} :
  (∀ d d', schema d d' → frame d d' → F d d') →
  routes_go F (user_RegisterRoutes ++ session_RegisterRoutes srv ++ sso_RegisterRoutes srv)
    (user_RegisterRoutes ++ session_RegisterRoutes srv' ++ sso_RegisterRoutes srv').
Proof.
  intros HF.
  assert (Hleaf : ∀ A (s : statement A), (∀ t n d a d', s t n d = Ok (a, d') → schema d d') →
    (∀ t n d a d', s t n d = Ok (a, d') → frame d d') → ∀ t n d a d', s t n d = Ok (a, d') → F d d').
  { intros A s Hsch Hfr t n d a d' Hs. by apply HF; [eapply Hsch|eapply Hfr]. }
  unfold routes_go. each_pair ltac:(apply Hleaf; [schema_leaf|frame_leaf]).
Qed.

Section around.
Context (F : relation Database) `{!Reflexive F}.

Lemma script_goes key rate burst now :
  tracks (moves F) (ratelimit.script_Run (S := World R D) key rate burst now) (ratelimit.script_Run key rate burst now).
Proof. apply goes_free; [exact _|]. intros w. apply (script_outside key rate burst now w). Qed.

Lemma Allow_goes key rate burst :
  tracks (moves F) (ratelimit.Allow (S := World R D) key rate burst) (ratelimit.Allow key rate burst).
Proof.
  unfold ratelimit.Allow. apply tracks_bind; [by apply goes_Now|]. intros t. cbv zeta.
  apply tracks_bind; [apply tracks_mwrap, script_goes|]. intros res. apply tracks_ret.
Qed.

Lemma limited_goes key rate burst next next' :
  handler_goes F next next' →
  handler_goes F (ratelimit.limited ratelimit.Allow key rate burst next)
    (ratelimit.limited ratelimit.Allow key rate burst next').
Proof.
  intros Hn wr r. unfold ratelimit.limited.
  apply tracks_bind; [apply tracks_attempt, Allow_goes|].
  intros [[[[] n] d]|e]; cbn [negb]; [apply Hn|apply tracks_ret|apply Hn].
Qed.

Lemma UserMiddleware_goes n b next next' :
  handler_goes F next next' →
  handler_goes F (ratelimit.UserMiddleware ratelimit.Allow extractUser n b next)
    (ratelimit.UserMiddleware ratelimit.Allow extractUser n b next').
Proof.
  intros Hn wr r. unfold ratelimit.UserMiddleware. destruct (extractUser r) as [uid|]; [|apply Hn].
  destruct (is_empty uid); [apply Hn|by apply limited_goes].
Qed.

Lemma Validate_goes t :
  tracks (moves F) (session.Validate (S := World R D) t) (session.Validate (S := Alone (World R D)) t).
Proof. go idtac. Qed.

Lemma Auth_goes next next' : handler_goes F next next' → handler_goes F (Auth next) (Auth next').
Proof.
  intros Hn wr r. unfold Auth, validator_Validate, SessionService_TokenValidator. cbv zeta.
  destruct (bool_decide _); [apply tracks_ret|].
  apply tracks_bind; [apply tracks_attempt, Validate_goes|intros [u|e]; [apply Hn|apply tracks_ret]].
Qed.

Lemma git_routes_go : routes_go F (registerGitRoutes srv) (registerGitRoutes srv').
Proof.
  assert (Hdb : ∀ d, tracks (moves F) (db_Ping d) (atomically (db_Ping d))).
  { intros d. apply goes_free; [exact _|apply db_Ping_outside]. }
  assert (Hredis : ∀ d, tracks (moves F) (redis_Ping d) (atomically (redis_Ping d))).
  { intros d. apply goes_free; [exact _|apply redis_Ping_outside]. }
  apply Forall2_cons_2; [|apply Forall2_cons_2; [|apply Forall2_cons_2; [|apply Forall2_nil_2]]];
    (split; [reflexivity|]); intros wr r; cbn [snd].
  - unfold handleHealthz, healthy. cbn [main_Config DBHealth RedisHealth].
    apply tracks_bind; [apply tracks_bind; [apply tracks_attempt, Hdb|intros ?; apply tracks_ret]|].
    intros database.
    apply tracks_bind; [apply tracks_bind; [apply tracks_attempt, Hredis|intros ?; apply tracks_ret]|].
    intros redis. go idtac.
  - go idtac.
  - go idtac.
Qed.

(** The routes of both, side by side. *)
Abbreviation pairs := (list (pattern * (Handler (World R D) * Handler (Alone (World R D))))).

Lemma routes_go_zip rs rs' :
  routes_go F rs rs' →
  ∃ zs : pairs,
    rs = prod_map id fst <$> zs ∧ rs' = prod_map id snd <$> zs ∧
    Forall (λ z, handler_goes F z.2.1 z.2.2) zs.
Proof.
  induction 1 as [|[p h] [p' h'] rs rs' [Hp Hh] _ (zs & -> & -> & Hzs)]; [by exists []|].
  cbn in Hp, Hh. subst p'. exists ((p, (h, h')) :: zs). split; [done|]. split; [done|]. by constructor.
Qed.

Abbreviation table2 zs := ((λ '(p, h), (p, (p, h))) <$> zs).

Lemma table_fst (zs : pairs) : mux.table (S := World R D) (prod_map id fst <$> zs) =
  prod_map id (prod_map id fst) <$> table2 zs.
Proof. unfold mux.table. rewrite <- !list_fmap_compose. apply list_fmap_ext. by intros i [p [h h']] _. Qed.

Lemma table_snd (zs : pairs) : mux.table (S := Alone (World R D)) (prod_map id snd <$> zs) =
  prod_map id (prod_map id snd) <$> table2 zs.
Proof. unfold mux.table. rewrite <- !list_fmap_compose. apply list_fmap_ext. by intros i [p [h h']] _. Qed.

Lemma matchingMethods_zip (zs : pairs) path :
  mux.matchingMethods (S := World R D) (prod_map id fst <$> zs) path =
  mux.matchingMethods (S := Alone (World R D)) (prod_map id snd <$> zs) path.
Proof.
  unfold mux.matchingMethods. rewrite table_fst, table_snd. apply list_filter_iff. intros m.
  rewrite !match_method_fmap, !fmap_is_Some. done.
Qed.

Lemma ServeHTTP_goes rs rs' : routes_go F rs rs' → handler_goes F (mux.ServeHTTP rs) (mux.ServeHTTP rs').
Proof.
  intros (zs & -> & -> & Hzs)%routes_go_zip wr r. unfold mux.ServeHTTP. cbv zeta.
  destruct (bool_decide (r_Path r = _)); [apply tracks_ret|].
  destruct (negb _); [apply tracks_ret|].
  rewrite table_fst, table_snd, !match_method_fmap, matchingMethods_zip.
  destruct (match_method _ _ _) as [[[p [h h']] ms]|] eqn:Hm; cbn [fmap option_fmap option_map prod_map id fst snd].
  - apply match_method_elem in Hm as [p' Hin].
    apply list_elem_of_fmap in Hin as ([p0 [h0 h0']] & [= -> -> -> ->] & Hin).
    rewrite Forall_forall in Hzs. exact (Hzs _ Hin wr _).
  - destruct (mux.matchingMethods _ _); apply tracks_ret.
Qed.

Lemma request_id_goes r : tracks (moves F) (logger.request_id (S := World R D) r) (logger.request_id r).
Proof.
  unfold logger.request_id. cbv zeta. destruct (is_empty _); [|apply tracks_ret].
  apply tracks_bind; [by apply goes_New|]. intros ?. apply tracks_ret.
Qed.

Lemma NewServer_goes : routes_go F (routes srv) (routes srv') → handler_goes F (NewServer srv) (NewServer srv').
Proof.
  intros Hr wr r. unfold NewServer, logger_Middleware. cbn [main_Config IPRateLimit]. cbv zeta.
  apply tracks_bind; [apply request_id_goes|]. intros _. unfold ratelimit.IPMiddleware.
  by apply limited_goes, ServeHTTP_goes.
Qed.
End around.

(** The handlers behind [Auth]. *)
Definition behind_Auth (x : pattern * Handler (World R D)) (x' : pattern * Handler (Alone (World R D))) : Prop :=
  x.1 = x'.1 ∧ ∃ h h', x.2 = Auth h ∧ x'.2 = Auth h' ∧ handler_goes schema h h'.

Lemma forge_routes_behind :
  Forall2 behind_Auth
    (totp_RegisterRoutes srv (authChain srv) ++ org_RegisterRoutes Auth ++ repo_RegisterRoutes srv Auth)
    (totp_RegisterRoutes srv' (authChain srv') ++ org_RegisterRoutes Auth ++ repo_RegisterRoutes srv' Auth).
Proof.
  cbn [app totp_RegisterRoutes org_RegisterRoutes repo_RegisterRoutes]. unfold authChain. cbn [main_Config UserRateLimit].
  repeat (apply Forall2_cons_2;
    [split; [reflexivity|]; cbn [snd]; eexists _, _; split; [reflexivity|]; split; [reflexivity|];
     first [apply UserMiddleware_goes; [exact _|]|idtac]; intros wr r; go schema_leaf|]).
  apply Forall2_nil_2.
Qed.

Lemma forge_routes_schema :
  routes_go schema
    (totp_RegisterRoutes srv (authChain srv) ++ org_RegisterRoutes Auth ++ repo_RegisterRoutes srv Auth)
    (totp_RegisterRoutes srv' (authChain srv') ++ org_RegisterRoutes Auth ++ repo_RegisterRoutes srv' Auth).
Proof.
  eapply Forall2_impl; [exact forge_routes_behind|]. intros x x' [Hp (h & h' & -> & -> & Hh)].
  split; [done|]. by apply Auth_goes; [exact _|].
Qed.

Lemma routes_go_schema : routes_go schema (routes srv) (routes srv').
Proof.
  unfold routes, registerAuthRoutes, routes_go. rewrite <- !(assoc_L (++)).
  pose proof (account_routes_go schema (λ d d' Hd _, Hd)) as Ha. pose proof forge_routes_schema as Hf.
  pose proof (git_routes_go schema) as Hg. unfold routes_go in *.
  pose proof (Forall2_app Ha (Forall2_app Hf Hg)) as Hall.
  by rewrite <- !(assoc_L (++)) in Hall.
Qed.

(** ** Requests in a pool *)

(** Anything else that happens at the same time keeps the schema. *)
Definition elsewhere w w' : Prop := schema (db w) (db w').

(** A request, on the shared state and on its own. *)
Definition handle r : M (World R D) ResponseWriter := NewServer srv NewResponseWriter r.
Definition handle' r : M (Alone (World R D)) ResponseWriter := NewServer srv' NewResponseWriter r.

Lemma handle_goes r : tracks (moves schema) (handle r) (handle' r).
Proof. apply (NewServer_goes schema routes_go_schema). Qed.

Definition racing : pool (World R D) Request → pool (World R D) Request → Prop := step handle' elsewhere.

(** An HTTP request that nobody disturbs, run call by call on what it has seen of the
    shared state, ends in the state and with the answer of the sequential definition of
    the server, for every request and every fault of the stores. *)
Theorem undisturbed_http_request r w :
  ∃ l, rtc racing (w, [mkThread r []]) ((handle r w).2, [mkThread r l]) ∧
       answered handle' (mkThread r l) = Some (handle r w).1.
Proof.
  destruct (handle r w) as [res w'] eqn:Hr.
  apply (served_alone handle' elsewhere r (handle r) w res w' [mkThread r []] 0); [|done..].
  apply handle_goes.
Qed.

Lemma call_schema r l c w : next (handle' r) l = inl c → Integrity (db w) → Integrity (db (c w)).
Proof. intros Hn. exact (tracks_next _ _ _ _ _ (handle_goes r) Hn w). Qed.

(** Every state that a call meets satisfies the schema. *)
Lemma pool_schema w p :
  Integrity (db w) → rtc racing (w, []) p →
  Integrity (db p.1) ∧ Forall (λ th, Forall (λ w, Integrity (db w)) (got th)) p.2.
Proof.
  intros Hi Hsteps. eapply (pool_invariant handle' elsewhere (λ w, Integrity (db w))); [| |exact Hsteps|done|constructor].
  - intros w1 w2 He. exact He.
  - intros r l c _ Hn w1. by apply (call_schema r l).
Qed.

(** However the statements and commands of any number of HTTP requests interleave,
    whatever fails and whatever else keeps the schema meanwhile, the database satisfies
    it in every state on the way. *)
Theorem racing_requests_keep_schema w w' ts :
  Integrity (db w) → rtc racing (w, []) (w', ts) → Integrity (db w').
Proof. intros Hi Hsteps. by destruct (pool_schema w _ Hi Hsteps). Qed.

(** *** Who changes organizations, members and repositories *)

(** The next call of a request leaves them alone. *)
Definition frames (h : Handler (Alone (World R D))) : Prop :=
  ∀ wr r l c, next (h wr r) l = inl c → moves frame c.

Definition guarded (h : Handler (Alone (World R D))) : Prop :=
  frames h ∨ ∃ h', h = Auth h' ∧ ∀ wr r, patient (h' wr r).

Lemma routes_go_frames rs rs' : routes_go frame rs rs' → Forall (λ x, guarded x.2) rs'.
Proof.
  intros Hrs. apply Forall_forall. intros x' Hin.
  apply list_elem_of_lookup in Hin as [i Hi]. destruct (Forall2_lookup_r _ _ _ _ _ Hrs Hi) as (x & _ & _ & Hx).
  left. intros wr r l c. by apply (tracks_next _ (x.2 wr r)).
Qed.

Lemma routes_on_their_own_guarded : Forall (λ x, guarded x.2) (routes srv').
Proof.
  assert (Ha := routes_go_frames _ _ (account_routes_go frame (λ d d' _ Hd, Hd))).
  assert (Hg := routes_go_frames _ _ (git_routes_go frame)).
  assert (Hf : Forall (λ x, guarded x.2)
    (totp_RegisterRoutes srv' (authChain srv') ++ org_RegisterRoutes Auth ++ repo_RegisterRoutes srv' Auth)).
  { apply Forall_forall. intros x' [i Hi]%list_elem_of_lookup.
    destruct (Forall2_lookup_r _ _ _ _ _ forge_routes_behind Hi) as (x & _ & _ & h & h' & _ & Hh' & Hh).
    right. exists h'. split; [done|]. intros wr r. by apply (tracks_patient (moves schema) (h wr r)). }
  unfold routes, registerAuthRoutes. rewrite !Forall_app in *. tauto.
Qed.

(** A token that was accepted was there. *)
Lemma Validate_seen t l l2 u :
  Forall (λ w, Integrity (db w)) l →
  session.Validate (S := Alone (World R D)) t (mkAlone l None) = (Ok u, mkAlone l2 None) →
  ∃ w τ v, l = w :: l2 ∧ clock w ≤ τ ∧ session.access w τ t = Some v ∧ uuid_Parse v = Ok u.
Proof.
  intros Hi. unfold session.Validate, session.ValidateAccess.
  change (session.tokens_GetAccessToken (S := Alone (World R D)) t)
    with (atomically (session.tokens_GetAccessToken (S := World R D) t)).
  unfold mbind, M_bind, attempt, atomically. destruct l as [|w l]; [done|].
  apply Forall_cons_1 in Hi as [Hw _]. cbn [pending seen].
  destruct (session.tokens_GetAccessToken t w) as [[v|e] w1] eqn:Hget; cbn [fst snd]; [|done].
  case_bool_decide; [done|]. unfold lift. intros [= Hu ->].
  apply session.law_GetAccess in Hget as [([_ Hc] & _) Hv]; [|exact Hw].
  exists w, (session.now w1), v. split; [done|]. split; [exact Hc|]. split; [by apply Hv|done].
Qed.

(** What a request has left to do, as user [u] and behind [Auth], after [w] showed that its
    token names [u]; [l]: what it has seen when it comes to [Auth]. *)
Definition authenticated (h : Handler (Alone (World R D))) wr r l c : Prop :=
  ∃ w l2 τ v u, l = w :: l2 ∧ clock w ≤ τ ∧ session.access w τ (extractAccessToken r) = Some v ∧
    uuid_Parse v = Ok u ∧ next (h wr (with_userID u r)) l2 = inl c.

Lemma Auth_next h wr r l c :
  (∀ wr r, patient (h wr r)) → Forall (λ w, Integrity (db w)) l →
  next (Auth h wr r) l = inl c → moves frame c ∨ authenticated h wr r l c.
Proof.
  intros Hh Hl. unfold Auth, validator_Validate, SessionService_TokenValidator. cbv zeta.
  destruct (bool_decide _); [done|]. pose proof (Validate_goes frame (extractAccessToken r)) as Hv.
  apply tracks_attempt in Hv as Ha. intros [Hn|(a & l1 & l2 & -> & Hrun & Hn)]%next_bind.
  - left. by eapply tracks_next in Hn.
  - apply M_attempt_inv in Hrun as (res & Hrun & [= ->]). destruct res as [u|e]; [|done].
    apply Validate_seen in Hrun as (w & τ & v & Heq & Hτ & Hacc & Hu); [|done]. right.
    by exists w, l2, τ, v, u.
  - by apply (tracks_patient (moves frame) _ _ Ha).
  - intros [u|e]; [apply Hh|]. apply (tracks_patient (moves frame) _ _ (tracks_ret _ _)).
Qed.

(** The calls of the middleware that every request goes through. *)
Definition of_middleware r (c : World R D → World R D) : Prop :=
  (∃ l, next (logger.request_id (S := Alone (World R D)) r) l = inl c) ∨
  ∃ key rate burst l, next (ratelimit.Allow (S := Alone (World R D)) key rate burst) l = inl c.

Lemma of_middleware_moves F `{!Reflexive F} r c : of_middleware r c → moves F c.
Proof.
  intros [[l Hn]|(key & rate & burst & l & Hn)].
  - exact (tracks_next _ _ _ _ _ (request_id_goes F r) Hn).
  - exact (tracks_next _ _ _ _ _ (Allow_goes F key rate burst) Hn).
Qed.

(** After its calls met [l1], the request is at the handler [h] of a pattern that it is
    for, with [l2] for the calls of the handler. *)
Definition routed r l (p : pattern) (h : Handler (Alone (World R D))) wr ms l1 l2 : Prop :=
  (p, h) ∈ routes srv' ∧ addressed r p ∧ l = l1 ++ l2 ∧ goes_on (handle' r) l1 (h wr (with_PathValue ms r)).

(** The next call of a request is one of the middleware, or one of the handler that it
    was routed to. *)
Lemma handle_next r l c :
  next (handle' r) l = inl c →
  of_middleware r c ∨ ∃ p h wr ms l1 l2, routed r l p h wr ms l1 l2 ∧ next (h wr (with_PathValue ms r)) l2 = inl c.
Proof.
  intros Hn. unfold routed, handle', NewServer, logger_Middleware in *.
  cbn [main_Config IPRateLimit] in *. cbv zeta in *. unfold ratelimit.IPMiddleware, ratelimit.limited in *.
  pose proof (ServeHTTP_goes schema _ _ routes_go_schema) as Hs.
  pose proof (λ key rate burst, Allow_goes schema key rate burst) as Ha.
  apply next_bind_on in Hn as [Hn|(id & l1 & l2 & -> & _ & Hon & Hn)];
    [left; left; by eexists| |apply (tracks_patient _ _ _ (request_id_goes schema r))
    |intros id; apply (tracks_patient _ _ _ (limited_goes schema _ _ _ _ _ Hs _ r))].
  apply next_attempt_on in Hn as [Hn|(res & l3 & l4 & -> & _ & Hon2 & Hn)];
    [left; right; do 3 eexists; by eexists| |apply (tracks_patient _ _ _ (Ha _ _ _))
    |intros [[[[] n] d]|e]; cbn [negb]; [apply (tracks_patient _ _ _ (Hs _ r))
     |apply (tracks_patient _ _ _ (tracks_ret (moves schema) _))|apply (tracks_patient _ _ _ (Hs _ r))]].
  pose proof (goes_on_trans _ _ _ _ _ Hon Hon2) as Hon3.
  assert (Hserve : ∀ wr, goes_on (handle' r) (l1 ++ l3) (mux.ServeHTTP (routes srv') wr r) →
    next (mux.ServeHTTP (routes srv') wr r) l4 = inl c →
    ∃ p h wr ms k1 k2, routed r (l1 ++ l3 ++ l4) p h wr ms k1 k2 ∧ next (h wr (with_PathValue ms r)) k2 = inl c).
  { intros wr Hwr Hc. destruct (ServeHTTP_route (routes srv') wr r (routes_by_order srv'))
      as [[wr' Heq]|(p & h & ms & Hin & Hfor & Heq)]; rewrite Heq in Hc, Hwr; [done|].
    exists p, h, wr, ms, (l1 ++ l3), l4. split; [|done]. split; [done|]. split; [done|].
    split; [by rewrite (assoc_L (++))|done]. }
  right. destruct res as [[[[] n] d]|e]; cbn [negb] in *; [|done|]; (eapply Hserve; [exact Hon3|exact Hn]).
Qed.

(** In whatever interleaving of HTTP requests, when the next call of one changes an
    organization, a membership or a repository, the access token of the request named a
    user in a state that the request met before, and since then all that ran of it is a
    handler registered behind Auth, as that user. *)
Theorem racing_forge_changes_authenticated w0 w ts i r l c :
  Integrity (db w0) → rtc racing (w0, []) (w, ts) →
  ts !! i = Some (mkThread r l) → next (handle' r) l = inl c →
  forge_tables (db (c w)) ≠ forge_tables (db w) →
  ∃ p h ms wr l1 l2, (p, Auth h) ∈ routes srv' ∧ l = l1 ++ l2 ∧
    authenticated h wr (with_PathValue ms r) l2 c.
Proof.
  intros Hi Hsteps Hth Hn Hne. destruct (pool_schema _ _ Hi Hsteps) as [_ Hseen].
  pose proof (proj1 (Forall_lookup _ _) Hseen i _ Hth) as Hl. cbn [got] in Hl.
  assert (Hnot : ¬ moves frame c) by (intros Hf; by apply Hne, Hf).
  apply handle_next in Hn as [Hn|(p & h & wr & ms & l1 & l2 & (Hin & _ & -> & _) & Hn)];
    [by apply (of_middleware_moves frame) in Hn|].
  apply Forall_app in Hl as [_ Hl2].
  pose proof (proj1 (Forall_forall _ _) routes_on_their_own_guarded _ Hin) as [Hf|(h' & Hh & Hp)]; cbn in *.
  - by apply Hf in Hn.
  - subst h. apply Auth_next in Hn as [?|Ha]; [done| |done..]. by exists p, h', ms, wr, l1, l2.
Qed.
End server.

(** ** A login while an organization is made *)

Module Demo.
Import Sim SimDisk server.Demo.
#[export] Existing Instances user.Demo.demo_bcrypt accounts.Demo.demo_login accounts.Demo.demo_register
  forge.Demo.demo_create_org forge.Demo.demo_add_user forge.Demo.demo_create_repo git.Demo.demo_quoting
  ratelimit.Demo.exact_numbers ratelimit.Demo.demo_text totp.Demo.demo_totp sso.Demo.demo_oauth.
#[export] Existing Instances server.Demo.demo_verify server.Demo.demo_redirect server.Demo.demo_backend
  server.Demo.demo_time server.Demo.demo_runner server.Demo.demo_outside server.Demo.demo_env server.Demo.demo_net.

Abbreviation sequential := (handle (db_Ping := ping) (redis_Ping := ping) config.Load).
Abbreviation handle := (handle' (db_Ping := ping) (redis_Ping := ping) config.Load).
Abbreviation racing := (racing (db_Ping := ping) (redis_Ping := ping) config.Load).

(** The requests take turns, from the state after the login. *)
Definition turns (n : nat) : pool W Request :=
  run_schedule handle (concat (replicate n [0; 1]%nat)) (w2, [] ++ arriving [new_org; login]).

Lemma turns_reached n : rtc racing (w2, []) (turns n).
Proof. exact (arriving_steps handle elsewhere (concat (replicate n [0; 1]%nat)) [new_org; login] w2 []). Qed.

Lemma undisturbed_http_request_witness :
  ∃ l, rtc racing (w2, [mkThread new_org []])
         ((sequential new_org w2).2, [mkThread new_org l]).
Proof.
  destruct (undisturbed_http_request (db_Ping := ping) (redis_Ping := ping) config.Load new_org w2) as (l & Hl & _).
  exists l. exact Hl.
Defined.

Lemma racing_requests_keep_schema_witness : Integrity (db (turns 5).1).
Proof.
  apply (racing_requests_keep_schema config.Load w2 (turns 5).1 (turns 5).2 w2_schema).
  rewrite <- surjective_pairing. apply turns_reached.
Defined.

(** The request [r] is about to make the first organization. *)
Definition making (p : pool W Request) (r : Request) (l : list W) (c : W → W) : Prop :=
  p.2 !! 0%nat = Some (mkThread r l) ∧ next (handle r) l = inl c ∧
  forge_tables (db (c p.1)) ≠ forge_tables (db p.1).

Definition about_to_make (p : pool W Request) : bool :=
  match p.2 !! 0%nat with
  | Some th =>
      match next (handle (request th)) (got th) with
      | inl c => (length (organizations (db (c p.1))) =? 1)%nat && (length (organizations (db p.1)) =? 0)%nat
      | inr _ => false
      end
  | None => false
  end.

Lemma about_to_make_making p : about_to_make p = true → ∃ r l c, making p r l c.
Proof.
  unfold about_to_make, making. destruct (p.2 !! 0%nat) as [[r l]|]; [|done]. cbn [request got].
  destruct (next (handle r) l) as [c|] eqn:Hn; [|done].
  intros [H1%Nat.eqb_eq H0%Nat.eqb_eq]%andb_prop. exists r, l, c. split; [done|]. split; [exact Hn|].
  by apply tables_differ.
Qed.

Lemma making_first : about_to_make (turns 5) = true ∧ request <$> (turns 5).2 !! 0%nat = Some new_org.
Proof. split; vm_compute; reflexivity. Qed.

Lemma racing_forge_changes_authenticated_witness :
  ∃ (w : W) τ v u, session.access w τ token = Some v ∧ uuid_Parse v = Ok u.
Proof.
  destruct making_first as [Hm Hr]. destruct (about_to_make_making _ Hm) as (r & l & c & Hth & Hn & Hne).
  rewrite Hth in Hr. injection Hr as ->.
  destruct (racing_forge_changes_authenticated config.Load w2 (turns 5).1 (turns 5).2 0 new_org l c w2_schema)
    as (p & h & ms & wr & l1 & l2 & _ & _ & w & l3 & τ & v & u & _ & _ & Hv & Hu & _).
  - rewrite <- surjective_pairing. apply turns_reached.
  - exact Hth.
  - exact Hn.
  - exact Hne.
  - exists w, τ, v, u. rewrite <- token_sent. split; [exact Hv|exact Hu].
Defined.
End Demo.
End concurrent.
