(* ===== verification/Credentials.v ===== *)
(** Sessions under concurrent requests: a session row is only ever added for the account
    that the request has shown ([shows]).  A login shows the live account that its
    password opens, in the state that its lookup met; a callback shows the account that
    its lookup found by the email that Google named, or that it then made itself. *)

From S2P Require Import Prelude.
From S2P Require Import Bytes.
From S2P Require Import Platform.
From S2P Require Import Database.
From S2P Require Import Integrity.
From S2P Require Import World.
From S2P Require Import RedisStore.
From S2P Require Import Session.
From S2P Require Import Users.
From S2P Require Import Totp.
From S2P Require Import Sso.
From S2P Require Import Orgs.
From S2P Require Import Filepath.
From S2P Require Import Disk.
From S2P Require Import Repos.
From S2P Require Import Http.
From S2P Require Import HttpAuth.
From S2P Require Import HttpForge.
From S2P Require Import HttpGit.
From S2P Require Import Mux.
From S2P Require Import RateLimit.
From S2P Require Import Config.
From S2P Require Import Logger.
From S2P Require Import Preserves.
From S2P Require Import Server.
From S2P Require Import Dispatch.
From S2P Require Import Threads.
From S2P Require Import Calls.
From S2P Require Import Concurrent.
From S2P Require Import GoStrings.

Module credentials.
Import http mux gitroutes server dispatch threads concurrent.

#[local] Existing Instances user.World_View user.World_Directory.

(** ** Computations that wait when they have to *)

Ltac patient_step :=
  lazymatch goal with
  | |- patient (mret _) => by eapply patient_pure
  | |- patient (fail _) => by eapply patient_pure
  | |- patient (lift _) => by eapply patient_pure
  | |- patient (attempt _) => apply (patient_result Ok)
  | |- patient (mwrap ?b _) => apply (patient_result (wrap_err b))
  | |- patient (mbind _ _) => apply patient_bind; [|intros ?]
  | |- patient (atomically _) => apply patient_atomically
  | |- patient (match ?x with _ => _ end) => destruct x
  | |- patient ?m => first [ progress cbv beta zeta | progress cbn | let h := keep_head m in unfold h ]
  end.

Section server.
Context {R D : Type} `{RedisLaws R} `{PostgresLaws} `{OracleLaws} `{BcryptLaws} `{Uuid} `{Totp.Totp} `{sso.OAuth}
  `{Disk D} `{OsErrors} `{Backend D} `{Quoting} `{RedirectURL}.
Context `{JsonDecode accounts.registerRequest} `{JsonDecode accounts.loginRequest}
  `{JsonDecode accounts.totpVerifyRequest} `{JsonDecode forge.createOrganizationRequest}
  `{JsonDecode forge.addOrganizationUserRequest} `{JsonDecode forge.createRepositoryRequest}.
Context `{ratelimit.FloatTime} `{!ratelimit.ScriptRunner (World R D)} `{ratelimit.NetText}.
Context {db_Ping redis_Ping : Z → M (World R D) unit} `{!Outside _ db_Ping redis_Ping}.
Context (cfg : config.Config).
Implicit Types (w : World R D) (r : Request) (u : user.User) (d : Database).

Abbreviation srv := (main_Config db_Ping redis_Ping cfg).
Abbreviation srv' := (main_Config (λ t, atomically (db_Ping t)) (λ t, atomically (redis_Ping t)) cfg).

(** ** Rows of sessions *)

(** No session is added; or only for the user [id]. *)
Definition no_session d d' : Prop := ∀ x, x ∈ sessions d' → x ∈ sessions d.
Definition session_for (id : UUID) d d' : Prop :=
  ∀ x, x ∈ sessions d' → x ∈ sessions d ∨ sqlc.Session_UserID x = toPgUUID id.

#[local] Instance no_session_reflexive : Reflexive no_session.
Proof. by intros d x Hx. Qed.
#[local] Instance session_for_reflexive id : Reflexive (session_for id).
Proof. intros d x Hx. by left. Qed.

Lemma delete_from_subset {A} (p : A → bool) l x : x ∈ delete_from p l → x ∈ l.
Proof. unfold delete_from. rewrite list_elem_of_filter. by intros [_ ?]. Qed.

Ltac session_leaf :=
  let Hst := fresh in let Hx := fresh in
  intros ? ? ? ? ? Hst ? Hx; unfold_statement Hst; statement_inv Hst;
  first [exact Hx | exact (delete_from_subset _ _ _ Hx)].

Lemma Create_goes (id : UUID) :
  tracks (moves (session_for id)) (session.Create (S := World R D) id) (session.Create (S := Alone (World R D)) id).
Proof.
  go ltac:(let Hst := fresh in let Hx := fresh in
    intros ? ? ? ? ? Hst ? Hx; unfold_statement Hst; statement_inv Hst;
    first [by left | cbn in Hx; apply elem_of_app in Hx as [Hx|Hx%list_elem_of_singleton]; [by left|by right; subst]]).
Qed.

(** ** Lookups *)

(** A lookup by email is one call. *)
Lemma GetByEmail_run email l res l' :
  Forall (λ w, Integrity (db w)) l →
  user.GetByEmail (S := Alone (World R D)) email (mkAlone l None) = (res, mkAlone l' None) →
  ∃ w, l = w :: l' ∧
    (user.found (user.accounts (db w)) (λ u, user.Email u = email) res ∨ ∃ e, res = Err e ∧ is_fault e).
Proof.
  intros Hl Hr. destruct l as [|w l]; [done|]. apply Forall_cons_1 in Hl as [Hw _].
  assert (Hon : user.GetByEmail (S := Alone (World R D)) email (mkAlone (w :: l) None) =
    ((user.GetByEmail email w).1, mkAlone l None)).
  { cbn. unfold user.Store.GetByEmail, attempt, lift, mbind, M_bind. cbn.
    unfold Queries.GetUserByEmail. destruct (run_sql _ w) as [[row|e] w']; cbn; [done|]. by case_match. }
  rewrite Hon in Hr. injection Hr as Hres <-. exists w. split; [done|].
  eapply accounts.GetByEmail_found; [exact Hw|]. rewrite <- Hres. apply surjective_pairing.
Qed.

(** The account is new, under the email that its column keeps. *)
Definition makes (email : string) u w w' : Prop :=
  user.accounts (db w) !! user.ID u = None ∧
  user.accounts (db w') = <[user.ID u := u]> (user.accounts (db w)) ∧
  pg_varchar 255 email = Some (user.Email u).

Lemma CreateUser_makes v w row w' :
  Integrity (db w) → Queries.CreateUser (user.Store.CreateUserParams_of v) w = (Ok row, w') →
  makes (user.Email v) (user.fromSqlcUser row) w w'.
Proof.
  intros Hi Hrow.
  assert (Hmade : user.repo_Create v w = (Ok (user.fromSqlcUser row), w')).
  { cbn. unfold user.Store.Create, mbind, M_bind. by rewrite Hrow. }
  apply user.law_Create in Hmade as (_ & _ & [Hc|(e & ? & _)]); [|done|done].
  destruct Hc as [(n & un & pw & em & _ & _ & _ & Hem & Hfree & Hu & Hd)|[(e & ? & _) _]]; [|done].
  apply (f_equal (λ res, match res with Ok u => u | Err _ => v end)) in Hu. cbv beta iota in Hu.
  unfold makes. rewrite Hu. split; [|done].
  destruct (user.accounts (db w) !! user.ID v) eqn:Hno; [|done]. destruct Hfree. left.
  cbn in Hno |- *. by rewrite Hno.
Qed.

Lemma repo_Create_makes v l u l' :
  Forall (λ w, Integrity (db w)) l →
  user.repo_Create (S := Alone (World R D)) v (mkAlone l None) = (Ok u, mkAlone l' None) →
  has_done (user.repo_Create (S := Alone (World R D)) v) l (makes (user.Email v) u).
Proof.
  intros Hl Hr. apply run_bind in Hr as (row & l3 & Hrow & Hr); [|intros ?; repeat patient_step].
  injection Hr as <- ->. rewrite Forall_forall in Hl. apply has_done_bind; [intros ?; repeat patient_step|].
  eapply has_done_atomically; [exact Hrow|]. intros w Hw Hok.
  apply CreateUser_makes; [by apply Hl|]. by apply run_eq.
Qed.

Lemma Register_makes input l u l' :
  Forall (λ w, Integrity (db w)) l →
  user.Register (S := Alone (World R D)) input (mkAlone l None) = (Ok u, mkAlone l' None) →
  has_done (user.Register (S := Alone (World R D)) input) l (makes (user.in_Email input) u).
Proof.
  intros Hl Hr. unfold user.Register in Hr |- *.
  do 4 (eapply has_done_after; [| |exact Hr|]; [repeat patient_step|intros ?; repeat patient_step|];
    clear Hr; intros ? ? ? -> Hr; apply Forall_app in Hl as [_ Hl]).
  apply has_done_mwrap. apply M_mwrap_inv in Hr as (r1 & Hr & Heq). symmetry in Heq. apply wrap_err_Ok in Heq. subst r1.
  by eapply repo_Create_makes in Hr.
Qed.

(** *** The account of the email that Google named

    Alive when the request looked it up in [w], or else made by the computation. *)
Definition account_of {A} (m : M (Alone (World R D)) A) l w (email : string) u : Prop :=
  (user.accounts (db w) !! user.ID u = Some u ∧ user.IsDeleted u = false ∧ user.Email u = email) ∨
  ((∀ id v, user.accounts (db w) !! id = Some v → user.Email v = email → user.IsDeleted v = true) ∧
   has_done m l (makes email u)).

Lemma find_or_register_run info l u l' :
  Forall (λ w, Integrity (db w)) l →
  accounts.find_or_register (S := Alone (World R D)) info (mkAlone l None) = (Ok u, mkAlone l' None) →
  ∃ w l2, l = w :: l2 ∧ account_of (accounts.find_or_register info) l w (sso.Email info) u.
Proof.
  intros Hl Hr. unfold accounts.find_or_register in Hr |- *.
  apply run_bind in Hr as (res & l2 & Hget & Hr); [|intros ?; repeat patient_step].
  pose proof Hget as Hon. eapply bind_on in Hon as (used & Hused & Hon); [|repeat patient_step].
  apply M_attempt_inv in Hget as (res' & Hget & [= ->]). apply GetByEmail_run in Hget as (w & -> & Hfound); [|done].
  exists w, l2. split; [done|]. destruct res' as [v|e].
  - injection Hr as -> ->. left. destruct Hfound as [[(v & [= <-] & Hv & He & Hd)|[? _]]|(e & ? & _)]; done.
  - destruct (errors_Is e user.ErrNotFound) eqn:He; [|done]. right. split.
    + destruct Hfound as [[(v & ? & _)|[_ Hnone]]|(e' & [= <-] & Hf)]; [done|exact Hnone|].
      by rewrite (user.foreign_fault e Hf _ : errors_Is e user.ErrNotFound = false) in He.
    + rewrite Hused. eapply has_done_on; [exact Hon|]. rewrite He. apply Forall_cons_1 in Hl as [_ Hl].
      by apply Register_makes in Hr.
Qed.

Lemma mapped_fst {A B C} (f : A → B) (x : A * C) : (let '(a, c) := x in (f a, c)).1 = f x.1.
Proof. by destruct x. Qed.

Lemma patient_GoogleCallback oauth state code :
  patient (sso.GoogleCallback (S := Alone (World R D)) oauth state code).
Proof.
  apply patient_bind; [|intros valid; repeat patient_step].
  apply (patient_result (wrap_err _)), (patient_result (λ res, match res with
    | Err e => if bool_decide (e = redis_Nil) then Ok false else Err e
    | Ok _ => Ok true
    end)), patient_atomically.
Qed.

(** The calls of a callback to Redis and to Google, in order, when there is a profile. *)
Lemma GoogleCallback_run oauth state code l info l' :
  sso.GoogleCallback (S := Alone (World R D)) oauth state code (mkAlone l None) = (Ok info, mkAlone l' None) →
  ∃ wg wd w1 w2 token body, l = wg :: wd :: w1 :: w2 :: l' ∧
    (store.GetOAuthState state wg).1 = Ok true ∧
    (sso.client_Exchange oauth code w1).1 = Ok token ∧
    (sso.client_Userinfo oauth token w2).1 = Ok (200, body) ∧ sso.json_GoogleUserInfo body = Ok info.
Proof.
  intros Hr. unfold sso.GoogleCallback in Hr.
  apply run_bind in Hr as (valid & l1 & Hg & Hr); [|intros ?; repeat patient_step].
  assert (∃ wg, l = wg :: l1 ∧ (store.GetOAuthState state wg).1 = Ok valid) as (wg & -> & Hvalid).
  { destruct l as [|wg l]; [done|]. exists wg. apply M_mwrap_inv in Hg as (r0 & Hg & Hok).
    symmetry in Hok. apply wrap_err_Ok in Hok. subst r0.
    cbn [sso.states_GetOAuthState sso.RedisStateStore] in Hg.
    unfold store.GetOAuthState, client_Get, Alone_RedisClient, atomically in Hg. cbn beta iota delta [pending seen] in Hg.
    injection Hg as Hg <-. split; [done|]. rewrite <- Hg. exact (mapped_fst _ (client_Get _ wg)). }
  destruct valid; [|done]. cbn [negb] in Hr.
  apply run_bind in Hr as (deleted & l2 & Hd & Hr); [|intros ?; repeat patient_step].
  destruct l1 as [|wd l1]; [done|]. injection Hd as _ <-.
  apply run_bind in Hr as (token & l3 & He & Hr); [|intros ?; repeat patient_step].
  destruct l1 as [|w1 l1]; [done|]. apply M_mwrap_inv in He as (r1 & He & Htoken). injection He as <- <-.
  symmetry in Htoken. apply wrap_err_Ok in Htoken.
  apply run_bind in Hr as ([status body] & l3 & He & Hr); [|intros ?; repeat patient_step].
  destruct l1 as [|w2 l1]; [done|]. apply M_mwrap_inv in He as (r2 & He & Hinfo). injection He as <- <-.
  symmetry in Hinfo. apply wrap_err_Ok in Hinfo.
  destruct (Z.eqb_spec status 200) as [->|]; [|done]. cbn [negb] in Hr.
  apply M_mwrap_inv in Hr as (r3 & Hr & Hjson). injection Hr as <- <-. symmetry in Hjson. apply wrap_err_Ok in Hjson.
  by exists wg, wd, w1, w2, token, body.
Qed.


(** ** The calls of a login and of a callback

    [safe]: what the calls before a session is opened do. *)

Section early.
Context (safe : (World R D → World R D) → Prop).

Lemma Login_next secure wr r l c :
  (∀ email l c, next (user.GetByEmail (S := Alone (World R D)) email) l = inl c → safe c) →
  Forall (λ w, Integrity (db w)) l → next (accounts.Login secure wr r) l = inl c →
  safe c ∨ ∃ req u w l2, l = w :: l2 ∧ Decode_body r = Ok req ∧
    accounts.opens (db w) u (TrimSpace (accounts.login_Email req)) (TrimSpace (accounts.login_Password req)) ∧
    next (session.Create (S := Alone (World R D)) (user.ID u)) l2 = inl c.
Proof.
  intros Hsafe Hl. unfold accounts.Login. destruct (Decode_body r) as [req|e]; [|done]. cbv zeta.
  destruct (_ || _); [done|]. destruct (_ <? _); [done|]. destruct (_ <? _); [done|].
  set (email := TrimSpace (accounts.login_Email req)).
  intros [Hn|(res & l1 & l2 & _ & Hrun & _ & Hn)]%next_attempt_on;
    [left; by eapply Hsafe| |repeat patient_step|intros ?; repeat patient_step].
  apply GetByEmail_run in Hrun as (w & -> & Hfound); [|done]. destruct res as [u|e]; [|done].
  destruct Hfound as [[(u' & [= <-] & Hu & He & Hd)|[? _]]|(e & ? & _)]; [|done..].
  destruct (user.VerifyPassword _ _) eqn:Hv; [done|]. right. exists req, u, w, l2.
  apply next_attempt_on in Hn as [Hn|(tokens & l3 & l4 & _ & _ & _ & Hn)];
    [done|done|repeat patient_step|intros ?; repeat patient_step].
Qed.

(** What a callback learned when it comes to open a session: the state was there, Google
    gave a token for the code and a profile for the token, and the email has an account. *)
Definition google_answered oauth {A} (m : M (Alone (World R D)) A) l (state code : string) u : Prop :=
  ∃ wg wd w1 w2 wf l2 token body info,
    l = wg :: wd :: w1 :: w2 :: wf :: l2 ∧
    (store.GetOAuthState state wg).1 = Ok true ∧
    (sso.client_Exchange oauth code w1).1 = Ok token ∧
    (sso.client_Userinfo oauth token w2).1 = Ok (200, body) ∧ sso.json_GoogleUserInfo body = Ok info ∧
    account_of m l wf (sso.Email info) u.

Lemma GoogleCallback_next oauth secure wr r l c :
  (∀ state code l c, next (sso.GoogleCallback (S := Alone (World R D)) oauth state code) l = inl c → safe c) →
  (∀ info l c, next (accounts.find_or_register (S := Alone (World R D)) info) l = inl c → safe c) →
  (∀ id p n un l c, next (sso.FindOrCreateSSO (S := Alone (World R D)) id p n un) l = inl c → safe c) →
  Forall (λ w, Integrity (db w)) l → next (accounts.GoogleCallback oauth secure wr r) l = inl c →
  safe c ∨ ∃ u l2,
    google_answered oauth (accounts.GoogleCallback oauth secure wr r) l (r_Query r "state") (r_Query r "code") u ∧
    next (session.Create (S := Alone (World R D)) (user.ID u)) l2 = inl c.
Proof.
  intros Hgoogle Hfind Hlink Hl. unfold accounts.GoogleCallback. cbv zeta. destruct (_ || _); [done|].
  set (state := r_Query r "state"). set (code := r_Query r "code").
  intros [Hn|(res & l1 & l2 & Heq & Hrun & Hon & Hn)]%next_attempt_on;
    [left; by eapply Hgoogle| |apply patient_GoogleCallback|intros ?; repeat patient_step].
  destruct res as [info|e]; [|done].
  apply GoogleCallback_run in Hrun as (wg & wd & w1 & w2 & token & body & Hl2 & Hstate & Htoken & Hinfo & Hjson).
  apply next_attempt_on in Hn as [Hn|(res & l3 & l4 & Heq2 & Hrun & Hon2 & Hn)];
    [left; by eapply Hfind| |repeat patient_step|intros ?; repeat patient_step].
  destruct res as [u|e]; [|done].
  assert (Hl3 : Forall (λ w, Integrity (db w)) l2) by (rewrite Heq in Hl; by apply Forall_app in Hl as [_ ?]).
  apply find_or_register_run in Hrun as (wf & l5 & Hl5 & Hacc); [|done].
  apply next_attempt_on in Hn as [Hn|(res & l6 & l7 & _ & _ & _ & Hn)];
    [left; by eapply Hlink| |repeat patient_step|intros ?; repeat patient_step].
  destruct res as [linked|e]; [|done]. right.
  apply next_attempt_on in Hn as [Hn|(tokens & l8 & l9 & _ & _ & _ & Hn)];
    [|done|repeat patient_step|intros ?; repeat patient_step].
  exists u, l7. split; [|done]. exists wg, wd, w1, w2, wf, l5, token, body, info.
  split; [by rewrite Hl2, Hl5|]. do 4 (split; [done|]). destruct Hacc as [?|[Hnone Hmade]]; [by left|right].
  split; [done|]. rewrite Heq. eapply has_done_on; [exact Hon|].
  apply has_done_bind; [intros ?; repeat patient_step|]. by apply has_done_attempt.
Qed.
End early.

(** ** What a request has shown, by the states that its calls met *)

Abbreviation handle' := (concurrent.handle' (db_Ping := db_Ping) (redis_Ping := redis_Ping) cfg).
Abbreviation racing := (concurrent.racing (db_Ping := db_Ping) (redis_Ping := redis_Ping) cfg).
Abbreviation routed := (concurrent.routed (db_Ping := db_Ping) (redis_Ping := redis_Ping) cfg).
Abbreviation Login := (accounts.Login (config.SecureCookies cfg)).
Abbreviation oauth := (sso.NewService (config.Google cfg)).
Abbreviation GoogleCallback := (accounts.GoogleCallback oauth (config.SecureCookies cfg)).

(** The method and the decoded segments of the path, HEAD being served as GET. *)
Definition is_for r (method : string) (path : list string) : Prop :=
  (r_Method r = method ∨ (r_Method r = "HEAD"%string ∧ method = "GET"%string)) ∧
  (segments (unstr (r_Path r))).*1 = unstr <$> path.

(** A login that found the account of its email, alive, and the password opened it; or a
    callback with a state that was there, for whose code Google gave a token, and for that
    token a profile; the account of the email of the profile was alive, or there was none
    and the request made it. *)
Inductive shows r l u : Prop :=
  | shows_password wr ms l1 w l2 req :
      is_for r "POST" ["auth"; "login"] → l = l1 ++ w :: l2 →
      goes_on (handle' r) l1 (Login wr (with_PathValue ms r)) →
      Decode_body r = Ok req →
      accounts.opens (db w) u (TrimSpace (accounts.login_Email req)) (TrimSpace (accounts.login_Password req)) →
      shows r l u
  | shows_google wr ms l1 wg wd w1 w2 wf l2 token body info :
      is_for r "GET" ["auth"; "google"; "callback"] → l = l1 ++ wg :: wd :: w1 :: w2 :: wf :: l2 →
      goes_on (handle' r) l1 (GoogleCallback wr (with_PathValue ms r)) →
      (store.GetOAuthState (r_Query r "state") wg).1 = Ok true →
      (sso.client_Exchange oauth (r_Query r "code") w1).1 = Ok token →
      (sso.client_Userinfo oauth token w2).1 = Ok (200, body) → sso.json_GoogleUserInfo body = Ok info →
      account_of (handle' r) l wf (sso.Email info) u →
      shows r l u.

Lemma shows_more r l l' u : shows r l u → shows r (l ++ l') u.
Proof.
  intros [wr ms l1 w l2 req Hfor -> Hon Hreq Ho|wr ms l1 wg wd w1 w2 wf l2 token body info Hfor Hl Hon Hs Ht Hi Hj Ha].
  - eapply (shows_password _ _ _ _ _ _ _ (l2 ++ l')); [done|by rewrite <- (assoc_L (++))|done..].
  - eapply (shows_google _ _ _ _ _ _ _ _ _ _ _ (l2 ++ l')); [done|by rewrite Hl, <- (assoc_L (++))|done..|].
    destruct Ha as [?|[? Hmade]]; [by left|right]. split; [done|]. by apply has_done_more.
Qed.

(** The routes: only those two open sessions for a user that a request names otherwise
    than by a token. *)
Definition opens_session (x : pattern * Handler (Alone (World R D))) : Prop :=
  x = (route "POST" "/auth/login", Login) ∨ x = (route "GET" "/auth/google/callback", GoogleCallback).

Lemma addressed_literal r method (p : string) (path : list string) :
  p_method (route method p) = method → p_rest (route method p) = None →
  p_segs (route method p) = Lit <$> (unstr <$> path) → addressed r (route method p) → is_for r method path.
Proof. intros Hm Hr Hs [Hmethod Hc]. rewrite Hm in Hmethod. rewrite Hr, Hs in Hc. split; [done|]. by apply captures_literal. Qed.

(** The next call of a request that was routed there is harmless, or it opens a session
    for the user that the request has shown. *)
Lemma opening_next safe r l p h wr ms l1 l2 c :
  (∀ email l c, next (user.GetByEmail (S := Alone (World R D)) email) l = inl c → safe c) →
  (∀ state code l c, next (sso.GoogleCallback (S := Alone (World R D)) oauth state code) l = inl c → safe c) →
  (∀ info l c, next (accounts.find_or_register (S := Alone (World R D)) info) l = inl c → safe c) →
  (∀ id p n un l c, next (sso.FindOrCreateSSO (S := Alone (World R D)) id p n un) l = inl c → safe c) →
  Forall (λ w, Integrity (db w)) l → opens_session (p, h) → routed r l p h wr ms l1 l2 →
  next (h wr (with_PathValue ms r)) l2 = inl c →
  safe c ∨ ∃ u l3, shows r l u ∧ next (session.Create (S := Alone (World R D)) (user.ID u)) l3 = inl c.
Proof.
  intros Hemail Hgoogle Hfind Hlink Hl Hopens (_ & Hfor & -> & Hon) Hn. apply Forall_app in Hl as [_ Hl].
  destruct Hopens as [[= -> ->]|[= -> ->]].
  - apply (Login_next safe) in Hn as [?|(req & u & w & l3 & -> & Hreq & Ho & Hn)]; [by left|right|done..].
    exists u, l3. split; [|done]. eapply shows_password; [|reflexivity|exact Hon|exact Hreq|exact Ho].
    by eapply addressed_literal in Hfor.
  - apply (GoogleCallback_next safe) in Hn as [?|(u & l3 & Hg & Hn)]; [by left|right|done..].
    exists u, l3. split; [|done].
    destruct Hg as (wg & wd & w1 & w2 & wf & l4 & token & body & info & -> & Hs & Ht & Hi & Hj & Ha).
    eapply shows_google; [|reflexivity|exact Hon|exact Hs|exact Ht|exact Hi|exact Hj|].
    + by eapply addressed_literal in Hfor.
    + destruct Ha as [?|[? Hmade]]; [by left|right]. split; [done|]. by eapply has_done_on.
Qed.

(** Of the routes, only the login and the callback of Google add sessions. *)
Definition adds_none (h' : Handler (Alone (World R D))) : Prop :=
  ∀ wr r l c, next (h' wr r) l = inl c → moves no_session c.

Definition route_opens (x : pattern * Handler (World R D)) (x' : pattern * Handler (Alone (World R D))) : Prop :=
  handler_goes no_session x.2 x'.2 ∨ opens_session x'.

Ltac earn :=
  first [ right; left; reflexivity | right; right; reflexivity
        | left; cbn [snd];
          first [apply Auth_goes; [exact _|]; first [apply UserMiddleware_goes; [exact _|]|idtac]|idtac];
          intros wr r; go session_leaf ].

Lemma presenter_routes_open :
  Forall2 route_opens (registerAuthRoutes srv) (registerAuthRoutes srv').
Proof.
  unfold registerAuthRoutes, authChain.
  cbn [app user_RegisterRoutes session_RegisterRoutes sso_RegisterRoutes totp_RegisterRoutes org_RegisterRoutes
    repo_RegisterRoutes main_Config UserRateLimit Secure SSOService].
  repeat (apply Forall2_cons_2; [solve [earn]|]). apply Forall2_nil_2.
Qed.

Lemma routes_open : Forall (λ x, adds_none x.2 ∨ opens_session x) (routes srv').
Proof.
  assert (Hall : Forall2 route_opens (routes srv) (routes srv')).
  { apply Forall2_app; [apply presenter_routes_open|].
    eapply Forall2_impl; [apply (git_routes_go cfg no_session)|]. intros x x' [_ Hx]. by left. }
  apply Forall_forall. intros x' [i Hi]%list_elem_of_lookup.
  destruct (Forall2_lookup_r _ _ _ _ _ Hall Hi) as (x & _ & [Hx|Hx]); [left|by right].
  intros wr r l c. by apply (tracks_next _ (x.2 wr r)).
Qed.

Lemma no_session_calls :
  (∀ email l c, next (user.GetByEmail (S := Alone (World R D)) email) l = inl c → moves no_session c) ∧
  (∀ state code l c, next (sso.GoogleCallback (S := Alone (World R D)) oauth state code) l = inl c → moves no_session c) ∧
  (∀ info l c, next (accounts.find_or_register (S := Alone (World R D)) info) l = inl c → moves no_session c) ∧
  (∀ id p n un l c, next (sso.FindOrCreateSSO (S := Alone (World R D)) id p n un) l = inl c → moves no_session c).
Proof.
  split_and!; intros *; eapply tracks_next.
  - instantiate (1 := user.GetByEmail email). go session_leaf.
  - instantiate (1 := sso.GoogleCallback oauth state code). go session_leaf.
  - instantiate (1 := accounts.find_or_register info). go session_leaf.
  - instantiate (1 := sso.FindOrCreateSSO id p n un). go session_leaf.
Qed.

(** C7: In whatever interleaving of HTTP requests, when the next call of one adds a
    session row, the row is for the account that the request has shown: it came to the
    login (POST /auth/login), whose lookup met that account, alive and under the email
    of the body, and the password opens it; or to the callback of Google (GET
    /auth/google/callback) with a state that was there, for whose code Google gave a
    token and for that token a profile, and that account is the live one its next lookup
    met under the email of the profile or, when there was none, one that the request
    itself added under that email. *)
Theorem racing_sessions_are_earned w0 w ts i r l c x :
  Integrity (db w0) → rtc racing (w0, []) (w, ts) →
  ts !! i = Some (mkThread r l) → next (handle' r) l = inl c →
  x ∈ sessions (db (c w)) → x ∉ sessions (db w) →
  ∃ u, sqlc.Session_UserID x = toPgUUID (user.ID u) ∧ shows r l u.
Proof.
  intros Hi Hsteps Hth Hn Hx Hnew. destruct (pool_schema _ _ _ Hi Hsteps) as [_ Hseen].
  pose proof (proj1 (Forall_lookup _ _) Hseen i _ Hth) as Hl. cbn [got] in Hl.
  assert (Hnot : ¬ moves no_session c) by (intros Hc; by apply Hnew, Hc).
  apply handle_next in Hn as [Hm|(p & h & wr & ms & l1 & l2 & Hrouted & Hn)];
    [by apply (of_middleware_moves no_session) in Hm|].
  pose proof (proj1 (Forall_forall _ _) routes_open _ (proj1 Hrouted)) as [Hnone|Hopens]; [by apply Hnone in Hn|].
  destruct no_session_calls as (He & Hg & Hf & Hk).
  destruct (opening_next (moves no_session) r l p h wr ms l1 l2 c He Hg Hf Hk Hl Hopens Hrouted Hn)
    as [?|(u & l3 & Hshows & Hc)]; [done|].
  exists u. split; [|done]. apply (tracks_next _ _ _ _ _ (Create_goes _)) in Hc. by destruct (Hc w x Hx).
Qed.
End server.

(** ** Two logins at once *)

Module Demo.
Import Sim SimDisk server.Demo concurrent.Demo.
#[export] Existing Instances user.Demo.demo_bcrypt user.Demo.demo_bcrypt_laws accounts.Demo.demo_login accounts.Demo.demo_register
  forge.Demo.demo_create_org forge.Demo.demo_add_user forge.Demo.demo_create_repo git.Demo.demo_quoting
  ratelimit.Demo.exact_numbers ratelimit.Demo.demo_text totp.Demo.demo_totp sso.Demo.demo_oauth.
#[export] Existing Instances server.Demo.demo_verify server.Demo.demo_redirect server.Demo.demo_backend
  server.Demo.demo_time server.Demo.demo_runner server.Demo.demo_outside server.Demo.demo_env server.Demo.demo_net.

(** Two logins of the account that [w1] has take turns. *)
Definition logins (n : nat) : pool W Request :=
  run_schedule concurrent.Demo.handle (concat (replicate n [0; 1]%nat)) (w1, [] ++ arriving [login; login]).

Lemma logins_reached n : rtc concurrent.Demo.racing (w1, []) (logins n).
Proof. exact (arriving_steps concurrent.Demo.handle elsewhere (concat (replicate n [0; 1]%nat)) [login; login] w1 []). Qed.

(** The first is about to open the first session. *)
Definition about_to_open (p : pool W Request) : bool :=
  match p.2 !! 0%nat with
  | Some th =>
      match next (concurrent.Demo.handle (request th)) (got th) with
      | inl c => (length (sessions (db (c p.1))) =? 1)%nat && (length (sessions (db p.1)) =? 0)%nat
      | inr _ => false
      end
  | None => false
  end.

Lemma about_to_open_call p :
  about_to_open p = true →
  ∃ r l c x, p.2 !! 0%nat = Some (mkThread r l) ∧ next (concurrent.Demo.handle r) l = inl c ∧
    x ∈ sessions (db (c p.1)) ∧ x ∉ sessions (db p.1).
Proof.
  unfold about_to_open. destruct (p.2 !! 0%nat) as [[r l]|]; [|done]. cbn [request got].
  destruct (next (concurrent.Demo.handle r) l) as [c|] eqn:Hn; [|done].
  intros [H1%Nat.eqb_eq H0%Nat.eqb_eq]%andb_prop. apply nil_length_inv in H0.
  destruct (sessions (db (c p.1))) as [|x rows] eqn:Hs; [done|].
  exists r, l, c, x. split; [done|]. split; [exact Hn|]. rewrite Hs, H0. split; [by left|apply not_elem_of_nil].
Qed.

Lemma opening_first :
  about_to_open (logins 7) = true ∧ request <$> (logins 7).2 !! 0%nat = Some login.
Proof. split; vm_compute; reflexivity. Qed.

Lemma w1_schema : Integrity (db w1).
Proof.
  pose proof (request_schema config.Load NewResponseWriter server.Demo.register w0 Integrity_empty) as Hi.
  rewrite w1_eq in Hi. exact Hi.
Qed.

(** [racing_sessions_are_earned] at the first login: its password opened the account. *)
Lemma racing_sessions_are_earned_witness :
  ∃ r l u, (logins 7).2 !! 0%nat = Some (mkThread r l) ∧ shows (db_Ping := ping) (redis_Ping := ping) config.Load r l u.
Proof.
  destruct (about_to_open_call _ (proj1 opening_first)) as (r & l & c & x & Hth & Hn & Hx & Hnew).
  destruct (racing_sessions_are_earned (db_Ping := ping) (redis_Ping := ping) config.Load w1
    (logins 7).1 (logins 7).2 0 r l c x w1_schema) as (u & _ & Hu).
  - rewrite <- surjective_pairing. apply logins_reached.
  - exact Hth.
  - exact Hn.
  - exact Hx.
  - exact Hnew.
  - exists r, l, u. split; [exact Hth|exact Hu].
Defined.
End Demo.
End credentials.
