(* ===== verification/Tokens.v ===== *)
(** Whom tokens name: on the whole server, under concurrent requests, every session and
    every token that the cache holds is of a user whose account some request has shown,
    with a password or through Google ([shows] of Credentials.v).  So whoever changes an organization, a
    membership or a repository ([Concurrent]) is such a user. *)

From S2P Require Import Prelude.
From S2P Require Import Bytes.
From S2P Require Import Platform.
From S2P Require Import Database.
From S2P Require Import Integrity.
From S2P Require Import World.
From S2P Require Import RedisStore.
From S2P Require Import Session.
From S2P Require Import Users.
From S2P Require Import Totp.
From S2P Require Import Sso.
From S2P Require Import Orgs.
From S2P Require Import Filepath.
From S2P Require Import Disk.
From S2P Require Import Repos.
From S2P Require Import Http.
From S2P Require Import HttpAuth.
From S2P Require Import HttpForge.
From S2P Require Import HttpGit.
From S2P Require Import Mux.
From S2P Require Import RateLimit.
From S2P Require Import Config.
From S2P Require Import Logger.
From S2P Require Import Preserves.
From S2P Require Import Server.
From S2P Require Import Dispatch.
From S2P Require Import Threads.
From S2P Require Import Calls.
From S2P Require Import Concurrent.
From S2P Require Import Credentials.
From S2P Require Import GoStrings.

Module tokens.
Import http mux gitroutes server threads concurrent credentials.

(** ** Computations without a postcondition *)

Section keeps.
Context {S : Type}.
Implicit Types (good : S → Prop) (safe : (S → S) → Prop).

Lemma keeps_seq {A B} good safe (m : M (Alone S) A) (f : A → M (Alone S) B) :
  keeps good safe m (λ _, True) → (∀ a, keeps good safe (f a) (λ _, True)) →
  keeps good safe (m ≫= f) (λ _, True).
Proof. intros Hm Hf. eapply keeps_bind; [exact Hm|]. by intros a _. Qed.

Lemma keeps_try {A} good safe (m : M (Alone S) A) :
  keeps good safe m (λ _, True) → keeps good safe (attempt m) (λ _, True).
Proof. intros Hm. eapply keeps_weaken; [by apply keeps_attempt|done]. Qed.
End keeps.

#[export] Instance key_eq_dec : EqDecision store.key.
Proof. solve_decision. Defined.

(** ** The users of sessions and tokens *)

Section world.
Context {R D : Type} `{RedisLaws R} `{PostgresLaws} `{OracleLaws} `{UuidLaws}.
Implicit Types (w : World R D) (L : UUID → Prop).

Definition names L (v : string) : Prop := ∃ u, L u ∧ v = uuid_String u.

(** Every session and every token, at any time, is of a user in [L]. *)
Record minted L w : Prop := {
  minted_sessions x : x ∈ sessions (db w) → L (Bytes (sqlc.Session_UserID x));
  minted_access τ t v : session.access w τ t = Some v → names L v;
  minted_refresh τ t v : session.refresh w τ t = Some v → names L v;
}.

Lemma minted_mono L L' w : (∀ u, L u → L' u) → minted L w → minted L' w.
Proof.
  intros HL [Hs Ha Hf].
  assert (Hn : ∀ v, names L v → names L' v) by (intros v (u & Hu & ->); exists u; auto).
  split; eauto.
Qed.

(** Nothing that was not there. *)
Definition brings_none w w' : Prop :=
  (∀ x, x ∈ sessions (db w') → x ∈ sessions (db w)) ∧
  (∀ τ t v, session.access w' τ t = Some v → session.access w τ t = Some v) ∧
  (∀ τ t v, session.refresh w' τ t = Some v → session.refresh w τ t = Some v).

Lemma minted_brings_none L w w' : brings_none w w' → minted L w → minted L w'.
Proof. intros (Hs' & Ha' & Hf') [Hs Ha Hf]. split; eauto. Qed.

Lemma brings_none_redis w w' :
  no_session (db w) (db w') → redis w' = redis w → brings_none w w'.
Proof.
  intros Hs Hr. pose proof (session.same_redis w w' Hr) as [Ha Hf]. split; [exact Hs|].
  unfold session.same_access, session.same_refresh in *. split; intros τ t v; [by rewrite Ha|by rewrite Hf].
Qed.

(** *** Calls *)

Section calls.
Context (good : World R D → Prop) (L : UUID → Prop).

Definition spares (c : World R D → World R D) : Prop := ∀ w, minted L w → minted L (c w).
Abbreviation keeping m := (keeps good spares m (λ _, True)) (only parsing).

Lemma keeping_none {A} (m : M (World R D) A) :
  (∀ w, brings_none w (m w).2) → keeping (atomically m).
Proof. intros Hm. apply keeps_atomically; [|done]. intros w. by apply minted_brings_none. Qed.

Lemma keeping_free {A} (m : M (World R D) A) :
  (∀ w, db (m w).2 = db w ∧ redis (m w).2 = redis w) → keeping (atomically m).
Proof.
  intros Hm. apply keeping_none. intros w. destruct (Hm w) as [Hd Hr].
  apply brings_none_redis; [|done]. intros x. by rewrite Hd.
Qed.

Lemma keeping_sql {A} (s : statement A) :
  (∀ t n d a d', s t n d = Ok (a, d') → no_session d d') → keeping (run_sql s).
Proof.
  intros Hs. apply keeping_none. intros w. destruct (run_sql s w) as [r w'] eqn:Hr. cbn.
  apply run_sql_inv in Hr as (Hred & _ & _ & Hres). apply brings_none_redis; [|done].
  destruct Hres as [(a & _ & Ha)|[(e & _ & _ & ->)|(e & _ & _ & [->|(a & Ha)])]]; try (by intros x Hx); by eapply Hs.
Qed.

Lemma keeping_Get k : keeping (client_Get k).
Proof.
  apply keeping_free. intros w. destruct (client_Get k w) as [r w'] eqn:Hg. cbn.
  apply call_inv in Hg as [Hg|(e & _ & _ & [->|(r' & Hg)])]; [|done|]; by injection Hg as _ <-.
Qed.

Lemma keeping_Del k : keeping (client_Del (store.key_string k)).
Proof.
  apply keeping_none. intros w. destruct (client_Del _ w) as [r w'] eqn:Hd. cbn.
  apply store.Del_inv in Hd as (Hdb & _ & _ & Hne & Hk).
  assert (Hold : ∀ τ k' v, store.holds w' τ k' = Some v → store.holds w τ k' = Some v).
  { intros τ k' v. destruct (decide (k' = k)) as [->|]; [|by rewrite Hne].
    destruct Hk as [[_ Hsame]|Hgone]; [|by rewrite Hgone]. unfold store.holds. by rewrite Hsame. }
  split; [intros x; by rewrite Hdb|]. split; intros τ t v; apply Hold.
Qed.

Lemma keeping_GetOAuthState state : keeping (store.GetOAuthState state).
Proof.
  intros p r p' Hp Hr. unfold store.GetOAuthState in Hr.
  destruct (client_Get _ p) as [r0 p0] eqn:Hg. injection Hr as _ <-.
  by destruct (keeping_Get _ _ _ _ Hp Hg).
Qed.

(** An entry: one that is not a token, or is of a user in [L]. *)
Definition entry_ok (k : store.key) (v : string) : Prop :=
  match k with store.Access _ | store.Refresh _ => names L v | _ => True end.

Lemma keeping_Set k v ttl : 0 < ttl → entry_ok k v → keeping (client_Set (store.key_string k) v ttl).
Proof.
  intros Httl Hv. apply keeps_atomically; [|done]. intros w [Hs Ha Hf].
  destruct (client_Set _ v ttl w) as [r w'] eqn:Hset. cbn.
  apply store.Set_inv in Hset as (Hdb & _ & _ & Hne & Hk); [|done].
  assert (Hnew : ∀ τ k' v', store.holds w' τ k' = Some v' → store.holds w τ k' = Some v' ∨ (k' = k ∧ v' = v)).
  { intros τ k' v'. destruct (decide (k' = k)) as [->|]; [|rewrite Hne by done; by left].
    destruct Hk as [[_ Hsame]|(_ & _ & Honly)]; [unfold store.holds; rewrite Hsame; by left|].
    intros Hh. right. split; [done|]. by eapply Honly. }
  split; [intros x; rewrite Hdb; apply Hs|..]; intros τ t v' [Hh|[<- ->]]%Hnew;
    try exact Hv; [exact (Ha _ _ _ Hh)|exact (Hf _ _ _ Hh)].
Qed.

Lemma keeping_PlainInit `{Disk D} path branch : keeping (git_PlainInit path branch).
Proof.
  apply keeping_free. intros w. destruct (git_PlainInit path branch w) as [r w'] eqn:Hr. cbn.
  unfold git_PlainInit, World_Filesystem in Hr. by repeat (case_match; simplify_eq/=).
Qed.

Lemma keeping_backend `{Backend D} wr r : keeping (gitHandler_ServeHTTP wr r).
Proof.
  apply keeping_free. intros w. unfold gitHandler_ServeHTTP, World_GitBackend.
  by destruct (backend_ServeHTTP _ _ _ _).
Qed.

(** *** Minting *)

Lemma sql_CreateSession_adds arg t n d a d' x :
  Queries.sql_CreateSession arg t n d = Ok (a, d') → x ∈ sessions d' →
  x ∈ sessions d ∨ sqlc.Session_UserID x = Queries.CreateSession_UserID arg.
Proof.
  intros Hst Hx. unfold_statement Hst. statement_inv Hst. cbn in Hx.
  apply elem_of_app in Hx as [Hx|Hx%list_elem_of_singleton]; [by left|]. right. by subst.
Qed.

Lemma keeping_repo_Create id u t : L u → keeping (session.repo_Create id u t).
Proof.
  intros Hu. apply keeps_seq; [|intros ?; by apply keeps_ret].
  apply keeps_atomically; [|done]. intros w [Hs Ha Hf]. destruct (run_sql _ w) as [r w'] eqn:Hr. cbn.
  apply run_sql_inv in Hr as (Hred & _ & _ & Hres).
  pose proof (session.same_redis w w' Hred) as [Ha' Hf'].
  unfold session.same_access, session.same_refresh in *.
  split; [|intros τ t' v; rewrite Ha'; apply Ha|intros τ t' v; rewrite Hf'; apply Hf].
  intros x Hx.
  assert (Hcase : db w' = db w ∨ ∃ arg t0 n a, Queries.CreateSession_UserID arg = toPgUUID u ∧
    Queries.sql_CreateSession arg t0 n (db w) = Ok (a, db w')).
  { destruct Hres as [(a & _ & Hst)|[(e & _ & _ & Hd)|(e & _ & _ & [Hd|(a & Hst)])]];
      [right|by left|by left|right]; by do 4 eexists; split; [|exact Hst]. }
  destruct Hcase as [Hd|(arg & t0 & n & a & Hu' & Hst)]; [apply Hs; by rewrite <- Hd|].
  destruct (sql_CreateSession_adds _ _ _ _ _ _ _ Hst Hx) as [Hold|Huser]; [by apply Hs|].
  by rewrite Huser, Hu'.
Qed.

Lemma keeping_generateToken n : keeping (session.generateToken n).
Proof.
  apply keeps_seq; [by apply keeping_free|]. intros b. by apply keeps_ret.
Qed.

Lemma keeping_SetAccessToken t v : names L v → keeping (session.tokens_SetAccessToken t v session.AccessTokenTTL).
Proof. intros Hv. by apply (keeping_Set (store.Access t)). Qed.

Lemma keeping_SetRefreshToken t v : names L v → keeping (session.tokens_SetRefreshToken t v session.RefreshTokenTTL).
Proof. intros Hv. by apply (keeping_Set (store.Refresh t)). Qed.

(** A session is opened for a user in [L]. *)
Lemma keeping_Create u : L u → keeping (session.Create u).
Proof.
  intros Hu. assert (Hn : names L (uuid_String u)) by by exists u.
  do 2 (apply keeps_seq; [apply keeps_mwrap, keeping_generateToken|intros ?]).
  apply keeps_seq; [by apply keeps_mwrap, keeping_free|]. intros id.
  apply keeps_seq; [by apply keeps_mwrap, keeping_repo_Create|]. intros _.
  apply keeps_seq; [by apply keeps_mwrap, keeping_SetAccessToken|]. intros _.
  apply keeps_seq; [by apply keeps_mwrap, keeping_SetRefreshToken|]. intros _.
  by apply keeps_ret.
Qed.

(** *** What the store and the cache say *)

Context (Hgood : ∀ w, good w → Integrity (db w) ∧ minted L w).

Lemma keeping_GetRefreshToken t : keeps good spares (session.tokens_GetRefreshToken t) (names L).
Proof.
  apply keeps_atomically.
  - intros w. apply minted_brings_none. destruct (client_Get (store.key_string (store.Refresh t)) w) as [r w'] eqn:Hg.
    change (brings_none w (client_Get (store.key_string (store.Refresh t)) w).2). rewrite Hg.
    by apply store.Get_inv in Hg as [-> _].
  - intros w v [Hi [_ _ Hf]]%Hgood Hv.
    apply run_eq, (store.Get_inv (store.Refresh t)) in Hv as [_ [Hv|(e & _ & ?)]]; [|done].
    destruct (store.holds w _ _) as [v'|] eqn:Hh; [|done]. injection Hv as ->. exact (Hf _ _ _ Hh).
Qed.

Lemma keeping_GetUserID t : keeps good spares (session.repo_GetUserIDByRefreshToken t) L.
Proof.
  eapply (keeps_bind _ _ _ _ (λ r, ∀ row, r = Ok row → L (fromPgUUID (sqlc.Session_UserID row)))).
  - apply keeps_attempt, keeps_atomically.
    + intros w. apply minted_brings_none. destruct (run_sql _ w) as [r w'] eqn:Hg. cbn.
      apply read_inv in Hg as [-> _]; [done|apply reads_GetSessionByRefreshToken].
    + intros w row [Hi [Hs _ _]]%Hgood Hrow. apply run_eq in Hrow.
      apply session.GetSession_law in Hrow as (_ & _ & Hin & _); [|exact Hi].
      unfold fromPgUUID. rewrite (session.user_id_Valid _ _ Hi Hin). by apply Hs.
  - intros r Hr. apply (keeps_bind _ _ _ _ (λ row, L (fromPgUUID (sqlc.Session_UserID row)))).
    + apply keeps_lift. intros row Hrow%no_rows_Ok. by apply Hr.
    + intros row Hrow. by apply keeps_ret.
Qed.

Lemma keeping_refresh_slow t : keeps good spares (session.refresh_slow t) (names L).
Proof.
  eapply keeps_bind; [apply keeps_attempt, keeping_GetUserID|]. intros [u|e] Hu.
  - assert (Hn : names L (uuid_String u)) by (exists u; split; [by apply Hu|done]).
    cbv zeta. eapply keeps_bind; [by apply keeps_try, keeping_SetRefreshToken|]. intros _ _. by apply keeps_ret.
  - destruct (errors_Is _ _); apply keeps_fail.
Qed.

(** A refreshed token is of the user of the session or of the cached token. *)
Lemma keeping_Refresh t : keeping (session.Refresh t).
Proof.
  apply (keeps_bind _ _ _ _ (names L)).
  - eapply keeps_bind; [apply keeps_attempt, keeping_GetRefreshToken|].
    intros [v|e] Hv; [case_bool_decide|]; try apply keeping_refresh_slow. by apply keeps_ret, Hv.
  - intros v Hv. apply keeps_seq; [apply keeps_mwrap, keeping_generateToken|]. intros a.
    apply keeps_seq; [by apply keeps_mwrap, keeping_SetAccessToken|]. intros _. by apply keeps_ret.
Qed.
End calls.
End world.

(** *** Handlers *)

(** Statements that add no session. *)
Ltac no_session_leaf :=
  let Hst := fresh in let Hx := fresh in
  intros ? ? ? ? ? Hst ? Hx; unfold_statement Hst; statement_inv Hst;
  first [exact Hx | exact (delete_from_subset _ _ _ Hx)].

Ltac minting_call :=
  lazymatch goal with
  | |- keeps _ _ (run_sql _) _ => apply keeping_sql; no_session_leaf
  | |- keeps _ _ (client_Get _) _ => apply keeping_Get
  | |- keeps _ _ (session.tokens_GetAccessToken _) _ => apply keeping_Get
  | |- keeps _ _ (session.tokens_GetRefreshToken _) _ => apply keeping_Get
  | |- keeps _ _ (totp.store_GetTOTPSecret _) _ => apply keeping_Get
  | |- keeps _ _ (totp.store_SetTOTPSecret ?u _ _) _ => by apply (keeping_Set _ _ (store.Totp u))
  | |- keeps _ _ (totp.store_DeleteTOTPSecret ?u) _ => apply (keeping_Del _ _ (store.Totp u))
  | |- keeps _ _ (sso.states_SetOAuthState ?s _) _ => by apply (keeping_Set _ _ (store.OAuth s))
  | |- keeps _ _ (sso.states_GetOAuthState _) _ => apply keeping_GetOAuthState
  | |- keeps _ _ (sso.states_DeleteOAuthState ?s) _ => apply (keeping_Del _ _ (store.OAuth s))
  | |- keeps _ _ (session.tokens_DeleteRefreshToken ?t) _ => apply (keeping_Del _ _ (store.Refresh t))
  | |- keeps _ _ (git_PlainInit _ _) _ => apply keeping_PlainInit
  | |- keeps _ _ (gitHandler_ServeHTTP _ _) _ => apply keeping_backend
  | |- keeps _ _ (atomically _) _ => by apply keeping_free
  | |- keeps _ _ (rand_bytes _) _ => by apply keeping_free
  | |- keeps _ _ uuid_NewV7 _ => by apply keeping_free
  | |- keeps _ _ uuid_New _ => by apply keeping_free
  | |- keeps _ _ time_Now _ => by apply keeping_free
  | |- keeps _ _ (bcrypt_GenerateFromPassword _) _ => by apply keeping_free
  | |- keeps _ _ os_Getwd _ => by apply keeping_free
  | |- keeps _ _ (os_Stat _) _ => by apply keeping_free
  | |- keeps _ _ (filepath_EvalSymlinks _) _ => by apply keeping_free
  | |- keeps _ _ (osfs_Stat _ _) _ => by apply keeping_free
  | |- keeps _ _ (totp.lib_Generate _ _) _ => by apply keeping_free
  | |- keeps _ _ (totp.lib_Validate _ _) _ => by apply keeping_free
  | |- keeps _ _ (sso.client_Exchange _ _) _ => by apply keeping_free
  | |- keeps _ _ (sso.client_Userinfo _ _) _ => by apply keeping_free
  end.

Ltac minting_step :=
  lazymatch goal with
  | |- keeps _ _ (mret _) _ => by apply keeps_ret
  | |- keeps _ _ (fail _) _ => apply keeps_fail
  | |- keeps _ _ (lift _) _ => by apply keeps_lift
  | |- keeps _ _ (attempt _) _ => apply keeps_try
  | |- keeps _ _ (mwrap _ _) _ => apply keeps_mwrap
  | |- keeps _ _ (mbind _ _) _ => apply keeps_seq; [|intros ?]
  | |- keeps _ _ (match ?x with _ => _ end) _ => destruct x
  | |- keeps _ _ ?m _ =>
      first [ minting_call
            | progress cbv beta zeta
            | progress cbn
            | let h := keep_head m in unfold h ]
  end.

#[local] Arguments atomically : simpl never.
#[local] Arguments session.Revoke : simpl never.
#[local] Arguments totp.Setup : simpl never.
#[local] Arguments totp.Verify : simpl never.
#[local] Arguments sso.GoogleAuthURL : simpl never.
#[local] Arguments sso.GoogleCallback : simpl never.

(** [mint] walks through a request on its own. *)
Ltac mint := repeat minting_step.

(** ** The server *)

Section server.
Context {R D : Type} `{RedisLaws R} `{PostgresLaws} `{OracleLaws} `{BcryptLaws} `{UuidLaws} `{Totp.Totp} `{sso.OAuth}
  `{Disk D} `{OsErrors} `{Backend D} `{Quoting} `{RedirectURL}.
Context `{JsonDecode accounts.registerRequest} `{JsonDecode accounts.loginRequest}
  `{JsonDecode accounts.totpVerifyRequest} `{JsonDecode forge.createOrganizationRequest}
  `{JsonDecode forge.addOrganizationUserRequest} `{JsonDecode forge.createRepositoryRequest}.
Context `{ratelimit.FloatTime} `{!ratelimit.ScriptRunner (World R D)} `{ratelimit.NetText}.
Context {db_Ping redis_Ping : Z → M (World R D) unit} `{!Outside _ db_Ping redis_Ping}.
Context (cfg : config.Config).
Implicit Types (w : World R D) (r : Request) (u : user.User).

Abbreviation srv' := (main_Config (λ t, atomically (db_Ping t)) (λ t, atomically (redis_Ping t)) cfg).
Abbreviation handle' := (concurrent.handle' (db_Ping := db_Ping) (redis_Ping := redis_Ping) cfg).

(** The Redis script, whose keys begin with [rl:], and the pings make no tokens. *)
Class Apart (runner : ratelimit.ScriptRunner (World R D)) (db_Ping redis_Ping : Z → M (World R D) unit) : Prop := {
  script_apart key rate burst now w : brings_none w (ratelimit.script_Run key rate burst now w).2;
  db_Ping_apart d w : brings_none w (db_Ping d w).2;
  redis_Ping_apart d w : brings_none w (redis_Ping d w).2;
}.
Context `{!Apart _ db_Ping redis_Ping}.

(** The request has shown, by the states [l], an account of the user [id]. *)
Definition earned r (l : list (World R D)) (id : UUID) : Prop :=
  ∃ u, user.ID u = id ∧ shows (db_Ping := db_Ping) (redis_Ping := redis_Ping) cfg r l u.

Section one_request.
Context (r : Request) (l : list (World R D)) (L : UUID → Prop).
Context (Hl : Forall (λ w, Integrity (db w)) l) (HL : ∀ id, earned r l id → L id).

Definition known w : Prop := Integrity (db w) ∧ minted L w.

Abbreviation mints m := (keeps known (spares L) m (λ _, True)) (only parsing).

Lemma Refresh_mints wr r0 : mints (accounts.Refresh (config.SecureCookies cfg) wr r0).
Proof.
  unfold accounts.Refresh. cbv zeta. destruct (is_empty _); [by apply keeps_ret|].
  apply keeps_seq; [|intros ?; by apply keeps_ret]. by apply keeps_try, keeping_Refresh.
Qed.

(** *** The middleware *)

Lemma keeping_Allow good key rate burst :
  keeps good (spares L) (ratelimit.Allow (S := Alone (World R D)) key rate burst) (λ _, True).
Proof.
  apply keeps_seq; [by apply keeping_free|]. intros t. cbv zeta.
  apply keeps_seq; [|intros res; by apply keeps_ret]. apply keeps_mwrap, keeping_none. intros w. apply script_apart.
Qed.

Lemma limited_mints key rate burst (next : Handler (Alone (World R D))) wr r0 :
  (∀ wr, mints (next wr r0)) → mints (ratelimit.limited ratelimit.Allow key rate burst next wr r0).
Proof.
  intros Hn. apply keeps_seq; [apply keeps_try, keeping_Allow|].
  intros [[[[] n] d]|e]; cbn [negb]; [apply Hn|by apply keeps_ret|apply Hn].
Qed.

Lemma UserMiddleware_mints n b (next : Handler (Alone (World R D))) wr r0 :
  (∀ wr, mints (next wr r0)) →
  mints (ratelimit.UserMiddleware ratelimit.Allow extractUser n b next wr r0).
Proof.
  intros Hn. unfold ratelimit.UserMiddleware. destruct (extractUser r0) as [uid|]; [|apply Hn].
  destruct (is_empty uid); [apply Hn|by apply limited_mints].
Qed.

Lemma Auth_mints (next : Handler (Alone (World R D))) wr r0 :
  (∀ wr (id : UUID), mints (next wr (with_userID id r0))) → mints (Auth next wr r0).
Proof.
  intros Hn. unfold Auth, validator_Validate, SessionService_TokenValidator. cbv zeta.
  destruct (bool_decide _); [by apply keeps_ret|].
  apply keeps_seq; [apply keeps_try; mint|]. intros [u|e]; [apply Hn|by apply keeps_ret].
Qed.

Lemma healthz_mints wr r0 : mints (handleHealthz srv' wr r0).
Proof.
  unfold handleHealthz, healthy. cbn [main_Config DBHealth RedisHealth].
  apply keeps_seq; [apply keeps_seq; [|intros ?; by apply keeps_ret]|].
  { apply keeps_try, keeping_none. intros w. apply db_Ping_apart. }
  intros database. apply keeps_seq; [apply keeps_seq; [|intros ?; by apply keeps_ret]|].
  { apply keeps_try, keeping_none. intros w. apply redis_Ping_apart. }
  intros redis. mint.
Qed.

(** *** The routes *)

Definition route_mints (x : pattern * Handler (Alone (World R D))) : Prop := ∀ wr r0, mints (x.2 wr r0).

Lemma routes_mint : Forall (λ x, route_mints x ∨ opens_session cfg x) (routes srv').
Proof.
  unfold routes, registerAuthRoutes, authChain.
  cbn [app user_RegisterRoutes session_RegisterRoutes sso_RegisterRoutes totp_RegisterRoutes org_RegisterRoutes
    repo_RegisterRoutes registerGitRoutes main_Config UserRateLimit Secure SSOService].
  repeat (apply Forall_cons_2;
    [first [right; left; reflexivity | right; right; reflexivity | left; intros wr r0; cbn [snd];
     first [ apply Refresh_mints | apply healthz_mints
           | apply Auth_mints; intros wr' id;
             first [apply UserMiddleware_mints; intros wr''; solve [mint] | solve [mint]]
           | solve [mint] ]]|]).
  apply Forall_nil_2.
Qed.

(** What a request does next, having met states that it may have met. *)
Lemma mints_next {A} (m : M (Alone (World R D)) A) l0 c :
  Forall known l0 → mints m → next m l0 = inl c → spares L c.
Proof. intros Hk Hm Hn. pose proof (keeps_next _ _ _ _ l0 Hm Hk) as Hc. by rewrite Hn in Hc. Qed.

Lemma any_next {A} (m : M (Alone (World R D)) A) l0 c :
  keeps (λ _, True) (spares L) m (λ _, True) → next m l0 = inl c → spares L c.
Proof. intros Hm Hn. pose proof (keeps_next _ _ _ _ l0 Hm) as Hc. rewrite Hn in Hc. apply Hc. by apply Forall_forall. Qed.

Lemma handle_spares c : Forall known l → next (handle' r) l = inl c → spares L c.
Proof.
  intros Hk Hn. apply handle_next in Hn as [[[l0 Hn]|(key & rate & burst & l0 & Hn)]|(p & h & wr & ms & l1 & l2 & Hrouted & Hn)].
  - eapply any_next, Hn. mint.
  - eapply any_next, Hn. apply keeping_Allow.
  - pose proof (proj1 (Forall_forall _ _) routes_mint _ (proj1 Hrouted)) as [Hm|Hopens].
    + eapply mints_next; [|apply Hm|exact Hn]. destruct Hrouted as (_ & _ & -> & _).
      by apply Forall_app in Hk as [_ ?].
    + eapply (opening_next cfg (spares L)) in Hn as [?|(u & l3 & Hshows & Hn)]; [done| |..|done|done|done].
      * eapply any_next, Hn. apply keeping_Create, HL. by exists u.
      * intros *. apply any_next. mint.
      * intros *. apply any_next. mint.
      * intros *. apply any_next. mint.
      * intros *. apply any_next. mint.
Qed.
End one_request.

(** ** Requests at the same time *)

(** Anything else that happens keeps the schema, and makes no sessions and no tokens. *)
Definition elsewhere w w' : Prop := concurrent.elsewhere w w' ∧ brings_none w w'.

Definition racing : pool (World R D) Request → pool (World R D) Request → Prop := step handle' elsewhere.

(** The users that the requests have earned so far. *)
Definition earners (ts : list (thread (World R D) Request)) (id : UUID) : Prop :=
  ∃ i th, ts !! i = Some th ∧ earned (request th) (got th) id.

Lemma earned_more r l l' id : earned r l id → earned r (l ++ l') id.
Proof. intros (u & Hu & Hs). exists u. split; [done|]. by apply shows_more. Qed.

Lemma earners_arrive ts th id : earners ts id → earners (ts ++ [th]) id.
Proof. intros (i & th' & Hi & He). exists i, th'. split; [by apply lookup_app_l_Some|done]. Qed.

Lemma earners_seen ts i r l w id :
  ts !! i = Some (mkThread r l) → earners ts id → earners (<[i := mkThread r (l ++ [w])]> ts) id.
Proof.
  intros Hi (j & th & Hj & He). destruct (decide (i = j)) as [<-|Hne].
  - rewrite Hi in Hj. injection Hj as <-. exists i, (mkThread r (l ++ [w])).
    rewrite list_lookup_insert_eq by (by eapply lookup_lt_Some). split; [done|].
    by apply earned_more.
  - exists j, th. by rewrite list_lookup_insert_ne.
Qed.

(** Every state, now or met by a call, satisfies the schema and has no tokens but of
    users that were earned by now. *)
Definition good ts w : Prop := Integrity (db w) ∧ minted (earners ts) w.

Record tokens_ok (p : pool (World R D) Request) : Prop := {
  ok_now : good p.2 p.1;
  ok_met : Forall (λ th, Forall (good p.2) (got th)) p.2;
}.

Lemma good_mono ts ts' w : (∀ id, earners ts id → earners ts' id) → good ts w → good ts' w.
Proof. intros Hsub [Hi Hm]. split; [done|]. by eapply minted_mono. Qed.

Lemma met_mono ts ts' (l : list (thread (World R D) Request)) :
  (∀ id, earners ts id → earners ts' id) →
  Forall (λ th, Forall (good ts) (got th)) l → Forall (λ th, Forall (good ts') (got th)) l.
Proof.
  intros Hsub Hl. eapply Forall_impl; [exact Hl|]. intros th Hth. eapply Forall_impl; [exact Hth|].
  intros w. by apply good_mono.
Qed.

Lemma call_good ts i r l c w :
  ts !! i = Some (mkThread r l) → Forall (good ts) l → next (handle' r) l = inl c →
  good ts w → good ts (c w).
Proof.
  intros Hi Hl Hn [Hw Hm]. split; [by eapply call_schema|].
  assert (Hschema : Forall (λ w, Integrity (db w)) l) by (eapply Forall_impl; [exact Hl|by intros w' []]).
  assert (Hearned : ∀ id, earned r l id → earners ts id) by (intros id He; by exists i, (mkThread r l)).
  by apply (handle_spares r l (earners ts) Hschema Hearned c).
Qed.

Lemma tokens_ok_step p p' : racing p p' → tokens_ok p → tokens_ok p'.
Proof.
  intros Hstep [Hnow Hmet]. destruct Hstep as [r s ts|i r l c s ts Hi Hn|s s' ts [Hs Hb]]; cbn in *.
  - assert (Hsub := λ id, earners_arrive ts (mkThread r []) id). split; cbn; [by eapply good_mono|].
    apply Forall_app. split; [by eapply met_mono|]. apply Forall_singleton. constructor.
  - assert (Hsub := λ id, earners_seen ts i r l s id Hi).
    pose proof (proj1 (Forall_lookup _ _) Hmet i _ Hi) as Hl. cbn in Hl.
    split; cbn; [by eapply good_mono, call_good|].
    apply Forall_insert; [by eapply met_mono|]. cbn. apply Forall_app. split.
    + eapply Forall_impl; [exact Hl|]. intros w. by apply good_mono.
    + apply Forall_singleton. by eapply good_mono.
  - split; cbn; [|done]. destruct Hnow as [Hi Hm]. split; [by apply Hs|by eapply minted_brings_none].
Qed.

(** A server that nobody logged in to yet. *)
Definition no_tokens w : Prop :=
  Integrity (db w) ∧ sessions (db w) = [] ∧
  (∀ τ t, session.access w τ t = None) ∧ (∀ τ t, session.refresh w τ t = None).

Lemma pool_tokens w0 p : no_tokens w0 → rtc racing (w0, []) p → tokens_ok p.
Proof.
  intros (Hi & Hs & Ha & Hf) Hsteps.
  eapply (rtc_ind_r tokens_ok); [|intros; by eapply tokens_ok_step|exact Hsteps].
  split; cbn; [|constructor]. split; [done|]. split.
  - intros x. rewrite Hs. by intros ?%not_elem_of_nil.
  - intros τ t v. by rewrite Ha.
  - intros τ t v. by rewrite Hf.
Qed.

(** C2: From a server without sessions and tokens, however the statements and commands
    of any number of HTTP requests interleave, whatever fails and whatever is drawn,
    every session in the database and every access and refresh token that the cache
    holds is of a user whom one of the requests has earned: by a login whose lookup met
    the account of that user, opened by the password, or by a callback of Google that
    found or made the account of that user under the email Google named for its code. *)
Theorem racing_tokens_are_earned w0 w ts :
  no_tokens w0 → rtc racing (w0, []) (w, ts) → minted (earners ts) w.
Proof. intros Hw0 Hsteps. by destruct (pool_tokens w0 _ Hw0 Hsteps) as [[_ Hm] _]. Qed.

Lemma racing_concurrent p p' :
  racing p p' → concurrent.racing (db_Ping := db_Ping) (redis_Ping := redis_Ping) cfg p p'.
Proof. intros [r s ts|i r l c s ts Hi Hn|s s' ts [Hs _]]; by econstructor. Qed.

(** C1: From a server without sessions and tokens, in whatever interleaving of HTTP
    requests: when the next call of one changes an organization, a membership or a
    repository, its access token named a user in a state that the request met before,
    all that ran of it since is a handler registered behind Auth, as that user, and some
    request that arrived earned exactly that user: it came to the login, whose lookup
    met the live account of that user under the email of the body, opened by its
    password; or to the callback of Google with a state that was there, for whose code
    Google gave a token and for that token a profile, and the account of that user is
    the live one its lookup met under the email of the profile or, when there was none,
    the one that the request itself added. *)
Theorem racing_changes_are_earned w0 w ts i r l c :
  no_tokens w0 → rtc racing (w0, []) (w, ts) →
  ts !! i = Some (mkThread r l) → next (handle' r) l = inl c →
  forge_tables (db (c w)) ≠ forge_tables (db w) →
  ∃ p h ms wr l1 w1 l2 τ id, (p, Auth h) ∈ routes srv' ∧ l = l1 ++ w1 :: l2 ∧
    session.access w1 τ (extractAccessToken r) = Some (uuid_String id) ∧
    next (h wr (with_userID id (with_PathValue ms r))) l2 = inl c ∧
    ∃ j r' l', ts !! j = Some (mkThread r' l') ∧ earned r' l' id.
Proof.
  intros Hw0 Hsteps Hth Hn Hne. pose proof (pool_tokens w0 _ Hw0 Hsteps) as [_ Hmet]. cbn in Hmet.
  pose proof (proj1 (Forall_lookup _ _) Hmet i _ Hth) as Hl. cbn in Hl.
  destruct (racing_forge_changes_authenticated cfg w0 w ts i r l c)
    as (p & h & ms & wr & l1 & l2 & Hin & -> & w1 & l3 & τ & v & id & -> & _ & Hacc & Hid & Hnext);
    [apply Hw0|by eapply rtc_subrel, Hsteps; apply racing_concurrent|done..|].
  rewrite !Forall_app, Forall_cons in Hl. destruct Hl as [_ [[_ Hm] _]].
  destruct (minted_access _ _ Hm τ _ v Hacc) as (id' & (j & [r' l'] & Hj & He) & ->).
  rewrite uuid_Parse_String in Hid. injection Hid as ->.
  exists p, h, ms, wr, l1, w1, l3, τ, id. split_and!; [done..|]. by exists j, r', l'.
Qed.
End server.

(** ** A login, and an organization made with its token *)

Module Demo.
Import Sim SimDisk server.Demo concurrent.Demo credentials.Demo.
#[export] Existing Instances user.Demo.demo_bcrypt user.Demo.demo_bcrypt_laws accounts.Demo.demo_login accounts.Demo.demo_register
  forge.Demo.demo_create_org forge.Demo.demo_add_user forge.Demo.demo_create_repo git.Demo.demo_quoting
  ratelimit.Demo.exact_numbers ratelimit.Demo.demo_text totp.Demo.demo_totp sso.Demo.demo_oauth.
#[export] Existing Instances server.Demo.demo_verify server.Demo.demo_redirect server.Demo.demo_backend
  server.Demo.demo_time server.Demo.demo_runner server.Demo.demo_outside server.Demo.demo_env server.Demo.demo_net.

#[export] Instance demo_apart : Apart demo_runner ping ping.
Proof. by split. Defined.

Abbreviation handle := concurrent.Demo.handle.
Abbreviation racing := (tokens.racing (db_Ping := ping) (redis_Ping := ping) config.Load).

(** The login has all the turns it needs, then the organization is nearly made. *)
Definition earning : pool W Request :=
  run_schedule handle (replicate 20 1 ++ replicate 5 0)%nat (w1, [] ++ arriving [new_org; login]).

Lemma earning_reached : rtc racing (w1, []) earning.
Proof. exact (arriving_steps handle tokens.elsewhere (replicate 20 1 ++ replicate 5 0)%nat [new_org; login] w1 []). Qed.

Lemma earning_making : about_to_make earning = true.
Proof. vm_compute. reflexivity. Qed.

Lemma w1_no_sessions : sessions (db w1) = [] ∧ redis w1 = ∅.
Proof. split; vm_compute; reflexivity. Qed.

Lemma w1_no_tokens : no_tokens w1.
Proof.
  destruct w1_no_sessions as [Hs Hr]. split; [exact w1_schema|]. split; [exact Hs|].
  split; intros τ t; cbn; unfold store.holds; rewrite Hr; reflexivity.
Qed.

Lemma racing_tokens_are_earned_witness : minted (earners (db_Ping := ping) (redis_Ping := ping) config.Load earning.2) earning.1.
Proof.
  apply (racing_tokens_are_earned (db_Ping := ping) (redis_Ping := ping) config.Load w1 _ _ w1_no_tokens).
  rewrite <- surjective_pairing. exact earning_reached.
Defined.

Lemma racing_changes_are_earned_witness :
  ∃ r l c, making earning r l c ∧
  ∃ id j r' l', earning.2 !! j = Some (mkThread r' l') ∧ earned (db_Ping := ping) (redis_Ping := ping) config.Load r' l' id.
Proof.
  destruct (about_to_make_making _ earning_making) as (r & l & c & Hm). exists r, l, c. split; [exact Hm|].
  destruct Hm as (Hth & Hn & Hne).
  destruct (racing_changes_are_earned (db_Ping := ping) (redis_Ping := ping) config.Load w1 earning.1 earning.2 0 r l c w1_no_tokens)
    as (p & h & ms & wr & l1 & w & l2 & τ & id & _ & _ & _ & _ & j & r' & l' & Hj & He).
  - rewrite <- surjective_pairing. exact earning_reached.
  - exact Hth.
  - exact Hn.
  - exact Hne.
  - exists id, j, r', l'. split; [exact Hj|exact He].
Defined.
End Demo.
End tokens.
