(* ===== verification/Authority.v ===== *)
(** Authority under concurrent requests: memberships change by request of a member, or of
    the user who makes the organization; rows of repositories change by request of the
    owner.  The check and the change are calls of their own, with the calls of other
    requests between them, so that "member" is what a call of the request met before,
    while "owner" still holds at the change, since nothing gives a repository away. *)

From S2P Require Import Prelude.
From S2P Require Import Bytes.
From S2P Require Import Platform.
From S2P Require Import Database.
From S2P Require Import Integrity.
From S2P Require Import World.
From S2P Require Import RedisStore.
From S2P Require Import Session.
From S2P Require Import Users.
From S2P Require Import Totp.
From S2P Require Import Sso.
From S2P Require Import Orgs.
From S2P Require Import Filepath.
From S2P Require Import Disk.
From S2P Require Import Repos.
From S2P Require Import Http.
From S2P Require Import HttpAuth.
From S2P Require Import HttpForge.
From S2P Require Import HttpGit.
From S2P Require Import Mux.
From S2P Require Import RateLimit.
From S2P Require Import Config.
From S2P Require Import Logger.
From S2P Require Import Preserves.
From S2P Require Import Server.
From S2P Require Import Threads.
From S2P Require Import Calls.
From S2P Require Import Concurrent.
From S2P Require Import Credentials.
From S2P Require Import GoStrings.

Module authority.
Import http mux gitroutes server threads concurrent credentials.

(** ** What a statement changes *)

(** The rows that one table has and not the other. *)
Definition gains {A} (P : A → Prop) (t t' : list A) : Prop := ∀ x, x ∈ t' → x ∉ t → P x.

Lemma gains_same {A} (P : A → Prop) t : gains P t t.
Proof. by intros x. Qed.

Lemma gains_snoc {A} (P : A → Prop) t x : P x → gains P t (t ++ [x]).
Proof. intros Hx y [?|Hy%list_elem_of_singleton]%elem_of_app Hn; [by destruct Hn|by subst y]. Qed.

Lemma loses_snoc {A} (P : A → Prop) t x : gains P (t ++ [x]) t.
Proof. intros y Hy Hn. destruct Hn. apply elem_of_app. by left. Qed.

Lemma gains_delete_from {A} (P : A → Prop) p (t : list A) : gains P t (delete_from p t).
Proof. intros x [_ Hx]%elem_of_delete_from Hn. by destruct Hn. Qed.

Lemma loses_delete_from {A} (P : A → Prop) p (t : list A) :
  (∀ x, p x = true → P x) → gains P (delete_from p t) t.
Proof.
  intros HP x Hx Hn. apply HP. destruct (p x) eqn:Hp; [done|]. destruct Hn. by apply elem_of_delete_from.
Qed.

Lemma gains_update {A} (P : A → Prop) p f (t : list A) :
  (∀ x, p x = true → P (f x)) → gains P t (update p f t).
Proof.
  intros HP x (y & -> & Hy)%elem_of_update Hn. destruct (p y) eqn:Hp; [by apply HP|by destruct Hn].
Qed.

Lemma loses_update {A} (P : A → Prop) p f (t : list A) :
  (∀ x, p x = true → P x) → gains P (update p f t) t.
Proof.
  intros HP x Hx Hn. apply HP. destruct (p x) eqn:Hp; [done|]. destruct Hn. apply elem_of_update.
  exists x. by rewrite Hp.
Qed.

Definition none {A} : A → Prop := λ _, False.

(** Memberships that may be gained and lost, and rows of repositories that may be either. *)
Record changes (joins leaves : sqlc.OrganizationUser → Prop) (rows : sqlc.GitRepository → Prop) (d d' : Database) : Prop := {
  members_gained : gains joins (organization_users d) (organization_users d');
  members_lost : gains leaves (organization_users d') (organization_users d);
  rows_gained : gains rows (git_repository d) (git_repository d');
  rows_lost : gains rows (git_repository d') (git_repository d);
}.

#[export] Instance changes_reflexive J L W : Reflexive (changes J L W).
Proof. intros d. split; apply gains_same. Qed.

Lemma changes_same J L W d d' :
  organization_users d' = organization_users d → git_repository d' = git_repository d → changes J L W d d'.
Proof. intros Ho Hg. split; rewrite ?Ho, ?Hg; apply gains_same. Qed.

(** Neither memberships nor repositories. *)
Definition calm : relation Database := changes none none none.

Lemma calm_changes J L W d d' : calm d d' → changes J L W d d'.
Proof. intros [HJ HL Hg Hl]. split; intros x Hx Hno; exfalso; [by eapply HJ|by eapply HL|by eapply Hg|by eapply Hl]. Qed.

(** No repository disappears, and none gets another owner. *)
Definition owners_kept (d d' : Database) : Prop :=
  ∀ g, git.repo_row d g → ∃ g', git.repo_row d' g' ∧ git.ID g' = git.ID g ∧ git.OwnerID g' = git.OwnerID g.

#[export] Instance owners_kept_preorder : PreOrder owners_kept.
Proof.
  split.
  - intros d g Hg. by exists g.
  - intros d1 d2 d3 H12 H23 g (g' & Hg' & Hid & Ho)%H12.
    destruct (H23 g' Hg') as (g'' & Hg'' & Hid' & Ho'). exists g''. split; [done|]. by rewrite Hid', Ho'.
Qed.

Lemma owners_kept_same d d' : git_repository d' = git_repository d → owners_kept d d'.
Proof. intros Hd g Hg. exists g. split; [|done]. unfold git.repo_row in *. by rewrite Hd. Qed.

Lemma owners_kept_snoc d x : owners_kept d (set_git_repository (λ t, t ++ [x]) d).
Proof.
  intros g (row & Hin & <-). exists (git.fromSqlcRepo row). split; [|done]. exists row.
  split; [|done]. apply elem_of_app. by left.
Qed.

Lemma owners_kept_update d p f :
  (∀ x, sqlc.Repo_ID (f x) = sqlc.Repo_ID x ∧ sqlc.Repo_OwnerID (f x) = sqlc.Repo_OwnerID x) →
  owners_kept d (set_git_repository (update p f) d).
Proof.
  intros Hf g (row & Hin & <-). exists (git.fromSqlcRepo (if p row then f row else row)). split.
  - eexists. split; [|done]. apply elem_of_update. by exists row.
  - destruct (p row); [|done]. destruct (Hf row) as [Hid Ho]. cbn. by rewrite Hid, Ho.
Qed.

(** Statements, by the table that they change. *)
Ltac calm_leaf :=
  let Hst := fresh in intros ? ? ? ? ? Hst; unfold_statement Hst; statement_inv Hst; by apply changes_same.
Ltac kept_leaf :=
  let Hst := fresh in intros ? ? ? ? ? Hst; unfold_statement Hst; statement_inv Hst;
  first [by apply owners_kept_same | apply owners_kept_snoc | by apply owners_kept_update].

(** ** The server *)

Section server.
Context {R D : Type} `{RedisLaws R} `{PostgresLaws} `{OracleLaws} `{BcryptLaws} `{Uuid} `{Totp.Totp} `{sso.OAuth}
  `{Disk D} `{OsErrors} `{Backend D} `{Quoting} `{RedirectURL}.
Context `{JsonDecode accounts.registerRequest} `{JsonDecode accounts.loginRequest}
  `{JsonDecode accounts.totpVerifyRequest} `{JsonDecode forge.createOrganizationRequest}
  `{JsonDecode forge.addOrganizationUserRequest} `{JsonDecode forge.createRepositoryRequest}.
Context `{ratelimit.FloatTime} `{!ratelimit.ScriptRunner (World R D)} `{ratelimit.NetText}.
Context {db_Ping redis_Ping : Z → M (World R D) unit} `{!Outside _ db_Ping redis_Ping}.
Context (cfg : config.Config).
Implicit Types (w : World R D) (r : Request) (u : UUID) (l : list (World R D)).

Abbreviation srv := (main_Config db_Ping redis_Ping cfg).
Abbreviation srv' := (main_Config (λ t, atomically (db_Ping t)) (λ t, atomically (redis_Ping t)) cfg).
Abbreviation handle := (concurrent.handle (db_Ping := db_Ping) (redis_Ping := redis_Ping) cfg).
Abbreviation handle' := (concurrent.handle' (db_Ping := db_Ping) (redis_Ping := redis_Ping) cfg).
Abbreviation Alone_ := (Alone (World R D)).

Definition OU (orgID u : UUID) : sqlc.OrganizationUser :=
  {| sqlc.OU_OrganizationID := toPgUUID orgID; sqlc.OU_UserID := toPgUUID u |}.

(** *** Calls *)

Section statements.
Context (J L : sqlc.OrganizationUser → Prop) (W : sqlc.GitRepository → Prop).
Abbreviation changing := (tracks (moves (changes J L W))).

Lemma AddUser_changes orgID u :
  J (OU orgID u) →
  changing (organization.AddUser (S := World R D) orgID u) (organization.AddUser (S := Alone_) orgID u).
Proof.
  intros HJ. go ltac:(intros t n d a d' Hst; unfold_statement Hst; statement_inv Hst;
    split; cbn; [by apply gains_snoc|apply loses_snoc|apply gains_same..]).
Qed.

Lemma DeleteByID_changes orgID :
  (∀ x, sqlc.OU_OrganizationID x = toPgUUID orgID → L x) →
  changing (organization.DeleteByID (S := World R D) orgID) (organization.DeleteByID (S := Alone_) orgID).
Proof.
  intros HL. go ltac:(intros t n d a d' Hst; unfold_statement Hst; statement_inv Hst;
    split; cbn; [apply gains_delete_from| |apply gains_same..];
    apply loses_delete_from; intros y [_ Hy]%uuid_eq_true; by apply HL).
Qed.

Lemma repo_Create_changes (input : git.CreateInput) :
  (∀ x, sqlc.Repo_OwnerID x = toPgUUID (git.create_OwnerID input) → W x) →
  changing (git.repo_Create (S := World R D) input) (git.repo_Create (S := Alone_) input).
Proof.
  intros HW. go ltac:(intros t n d a d' Hst; unfold_statement Hst; statement_inv Hst;
    split; cbn; [apply gains_same..|by apply gains_snoc, HW|apply loses_snoc]).
Qed.

Lemma repo_SoftDelete_changes id :
  (∀ x, sqlc.Repo_ID x = toPgUUID id → W x) →
  changing (git.repo_SoftDelete (S := World R D) id) (git.repo_SoftDelete (S := Alone_) id).
Proof.
  intros HW. go ltac:(intros t n d a d' Hst; unfold_statement Hst; statement_inv Hst;
    split; cbn; [apply gains_same..|apply gains_update|apply loses_update];
    intros y [_ Hy]%uuid_eq_true; by apply HW).
Qed.
End statements.

(** *** What a request learns and does *)

Definition founds (orgID : UUID) w w' : Prop :=
  (∀ x, organization.is_org (db w) x → organization.ID x ≠ orgID) ∧
  ∃ x, organization.is_org (db w') x ∧ organization.ID x = orgID.

Lemma CreateOrganization_founds org w row w' :
  Integrity (db w) →
  Queries.CreateOrganization {|
    Queries.CreateOrganization_OrganizationID := toPgUUID (organization.ID org);
    Queries.CreateOrganization_OrganizationName := organization.Name org;
    Queries.CreateOrganization_OrganizationDescription := optional_Text (organization.Description org) |} w = (Ok row, w') →
  founds (organization.ID (organization.fromSqlcOrg row)) w w'.
Proof.
  intros Hi (_ & _ & _ & Hres)%run_sql_inv. destruct Hres as [(a & [= <-] & Hst)|[(e & ? & _)|(e & ? & _)]]; [|done..].
  unfold_statement Hst. cbn in Hst. statement_inv Hst. injection Hst as <- Hd. split.
  - intros o (row' & Hin & Hid & <-) Heq. match goal with Hu : toPgUUID _ ∉ _ |- _ => apply Hu end.
    apply list_elem_of_fmap. exists row'. split; [|done]. rewrite Hid. f_equal. exact (eq_sym Heq).
  - eexists. split; [|done]. rewrite <- Hd. eexists. split; [|split; [|done]]; [apply elem_of_app; right; by apply list_elem_of_singleton|done].
Qed.

(** The organization that a request has, it has made. *)
Lemma org_Create_done input l o l2 :
  Forall (λ w, Integrity (db w)) l →
  organization.Create (S := Alone_) input (mkAlone l None) = (Ok o, mkAlone l2 None) →
  has_done (organization.Create (S := Alone_) input) l (founds (organization.ID o)).
Proof.
  intros Hl Hr. unfold organization.Create in Hr |- *.
  apply run_bind in Hr as (id & l1 & Hid & Hr); [|intros ?; repeat patient_step].
  eapply bind_on in Hid as (used & -> & Hon); [|repeat patient_step].
  apply (has_done_on _ _ _ _ _ Hon), has_done_mwrap. apply Forall_app in Hl as [_ Hl].
  apply M_mwrap_inv in Hr as (r1 & Hr & Heq). symmetry in Heq. apply wrap_err_Ok in Heq. subst r1.
  apply run_bind in Hr as (row & l3 & Hrow & Hr); [|intros ?; repeat patient_step].
  injection Hr as <- ->. apply has_done_bind; [intros ?; repeat patient_step|].
  eapply has_done_atomically; [exact Hrow|]. intros w Hw Hok. rewrite Forall_forall in Hl.
  eapply CreateOrganization_founds; [by apply Hl|]. by apply run_eq.
Qed.

(** The states that the calls of a request met. *)
Definition met l w : Prop := w ∈ l.

Lemma learns_atomically l {A} (m : M (World R D) A) :
  keeps (met l) (λ _, True) (atomically m) (λ a, ∃ w, w ∈ l ∧ (m w).1 = Ok a).
Proof. apply keeps_atomically; [done|]. intros w a Hw Ha. by exists w. Qed.

Lemma seen_result {A} (m : M Alone_ A) (l0 l l' : list (World R D)) res Q :
  Forall (λ w, w ∈ l0) l → keeps (met l0) (λ _, True) m Q → m (mkAlone l None) = (res, mkAlone l' None) →
  Forall (λ w, w ∈ l0) l' ∧ ∀ a, res = Ok a → Q a.
Proof.
  intros Hl Hm Hr. destruct (Hm (mkAlone l None) res (mkAlone l' None)) as [[Hl' _] HQ]; [by split|done|].
  by split.
Qed.

Lemma learns_GetByUserID l u :
  Forall (λ w, Integrity (db w)) l →
  keeps (met l) (λ _, True) (organization.GetByUserID (S := Alone_) u)
    (λ orgs, ∃ w, w ∈ l ∧ ∀ o, o ∈ orgs → organization.member (db w) (organization.ID o) u).
Proof.
  intros Hl. eapply keeps_bind; [apply learns_atomically|]. intros rows (w & Hw & Hrows). apply keeps_ret.
  exists w. split; [done|]. rewrite Forall_forall in Hl.
  destruct (organization.GetByUserID_inv u w (Ok (organization.fromSqlcOrg <$> rows)) (tick w) (Hl w Hw)) as [_ [Hres|(e & _ & ?)]]; [| |done].
  - cbn. unfold organization.Store.GetByUserID. change (run_sql (Queries.sql_GetOrganizationsByUserID (toPgUUID u)) w)
      with (Queries.GetOrganizationsByUserID (toPgUUID u) w) in Hrows. apply run_eq in Hrows.
    pose proof Hrows as Hread. apply read_inv in Hread as [Ht _]; [|apply reads_GetOrganizationsByUserID].
    unfold mbind, M_bind. rewrite Hrows, Ht. done.
  - destruct Hres as (orgs & [= ->] & _ & Ho). intros o Hin. by apply Ho.
Qed.

Lemma learns_repo_GetByID l id :
  Forall (λ w, Integrity (db w)) l →
  keeps (met l) (λ _, True) (git.repo_GetByID (S := Alone_) id)
    (λ g, ∃ w, w ∈ l ∧ git.repo_row (db w) g ∧ git.ID g = id).
Proof.
  intros Hl. eapply keeps_bind; [apply keeps_attempt, learns_atomically|]. intros res Hres.
  eapply (keeps_bind _ _ _ _ (λ row, res = Ok row)); [apply keeps_lift; by intros row ?%no_rows_Ok|].
  intros row ->. apply keeps_ret. destruct (Hres row eq_refl) as (w & Hw & Hrow). exists w. split; [done|].
  rewrite Forall_forall in Hl.
  assert (Hget : ∃ w', git.repo_GetByID id w = (Ok (git.fromSqlcRepo row), w')).
  { cbn. unfold git.Store.GetByID, attempt, mbind, M_bind, lift, mret, M_ret.
    change (run_sql (Queries.sql_GetRepositoryByID (toPgUUID id)) w) with (Queries.GetRepositoryByID (toPgUUID id) w) in Hrow.
    destruct (Queries.GetRepositoryByID _ w) as [res w']. cbn in Hrow. subst res. by exists w'. }
  destruct Hget as [w' Hget]. apply git.GetByID_inv in Hget as [_ [(g & [= <-] & Hg)|[[? _]|(e & _ & ?)]]]; [done..|by apply Hl].
Qed.

Abbreviation row_of input := (Queries.CreateRepository {|
    Queries.CreateRepository_ID := toPgUUID (git.create_Id input);
    Queries.CreateRepository_Name := git.create_Name input;
    Queries.CreateRepository_Description := optional_Text (git.create_Description input);
    Queries.CreateRepository_IsPrivate := git.create_IsPrivate input;
    Queries.CreateRepository_OwnerID := toPgUUID (git.create_OwnerID input);
    Queries.CreateRepository_DefaultRef := git.create_DefaultRef input |}) (only parsing).

Lemma CreateRepository_makes input w row :
  Integrity (db w) → (row_of input w).1 = Ok row →
  git.OwnerID (git.fromSqlcRepo row) = git.create_OwnerID input ∧
  git.repo_row (db (row_of input w).2) (git.fromSqlcRepo row).
Proof.
  intros Hi Hrow. apply run_eq in Hrow.
  assert (Hc : git.repo_Create input w = (Ok (git.fromSqlcRepo row), (row_of input w).2)).
  { cbn. unfold git.Store.Create, mbind, M_bind. by rewrite Hrow. }
  apply git.Create_inv in Hc as (_ & _ & [(e & ? & _)|(g & Hg & [[= <-]|(e & ? & _)] & _ & Hrows)]); [done| |done|done].
  split; [by destruct Hg as (_ & _ & _ & _ & _ & _ & _ & Ho & _)|]. apply Hrows. by right.
Qed.

Lemma repo_Create_done input l g l2 :
  Forall (λ w, Integrity (db w)) l →
  git.repo_Create (S := Alone_) input (mkAlone l None) = (Ok g, mkAlone l2 None) →
  git.OwnerID g = git.create_OwnerID input ∧
  has_done (git.repo_Create (S := Alone_) input) l (λ _ w', git.repo_row (db w') g).
Proof.
  intros Hl Hr. apply run_bind in Hr as (row & l3 & Hrow & Hr); [|intros ?; repeat patient_step].
  injection Hr as <- ->. rewrite Forall_forall in Hl. split.
  - destruct l as [|w l]; [done|]. injection Hrow as Hok ->.
    by apply (CreateRepository_makes input w row); [apply Hl; left|].
  - apply has_done_bind; [intros ?; repeat patient_step|]. eapply has_done_atomically; [exact Hrow|].
    intros w Hw Hok. by apply (CreateRepository_makes input w row); [apply Hl|].
Qed.

(** *** Handlers *)

Lemma orgs_Create_next wr r u l c :
  r_userID r = Some u → Forall (λ w, Integrity (db w)) l → next (forge.orgs.Create wr r) l = inl c →
  moves calm c ∨ ∃ o, has_done (forge.orgs.Create wr r) l (founds o) ∧
    moves (changes (λ x, x = OU o u) (λ x, sqlc.OU_OrganizationID x = toPgUUID o) none) c.
Proof.
  intros Hu Hl. unfold forge.orgs.Create, UserIDFromContext. rewrite Hu.
  destruct (Decode_body r) as [req|e]; [|done]. cbv zeta. destruct (is_empty _); [done|]. set (input := {| organization.in_Name := _ |}).
  assert (Hmake : tracks (moves calm) (organization.Create (S := World R D) input)
    (organization.Create (S := Alone_) input)) by go calm_leaf.
  intros [Hn|(made & l1 & l2 & Heq & Hrun & Hon & Hn)]%next_attempt_on;
    [left; by eapply tracks_next|clear Heq|by eapply tracks_patient|intros made; repeat patient_step].
  destruct made as [o|e]; [|done]. right. exists (organization.ID o). split.
  - apply has_done_bind; [intros made; repeat patient_step|]. by eapply has_done_attempt, org_Create_done.
  - set (J := λ x, x = _). set (L := λ x, sqlc.OU_OrganizationID x = _).
    assert (Hjoin : tracks (moves (changes J L none))
      (forge.orgs.ensureCreatorMembership (S := World R D) (organization.ID o) u)
      (forge.orgs.ensureCreatorMembership (S := Alone_) (organization.ID o) u)).
    { apply tracks_bind; [by apply tracks_attempt, AddUser_changes|]. intros [[]|e]; [apply tracks_ret|].
      apply tracks_bind; [by apply tracks_attempt, DeleteByID_changes|]. intros ?. apply tracks_fail. }
    apply next_attempt_on in Hn as [Hn|(res & l3 & l4 & _ & _ & _ & Hn)];
      [by eapply tracks_next|done|by eapply tracks_patient|intros joined; repeat patient_step].
Qed.

(** The user that the body names. *)
Definition asks_for r (v : UUID) : Prop :=
  ∃ req, Decode_body r = Ok req ∧ uuid_Parse (TrimSpace (forge.add_UserID req)) = Ok v.

Lemma orgs_AddUser_next wr r u l c :
  r_userID r = Some u → Forall (λ w, Integrity (db w)) l → next (forge.orgs.AddUser wr r) l = inl c →
  moves calm c ∨ ∃ o v w, asks_for r v ∧ w ∈ l ∧ organization.member (db w) o u ∧
    moves (changes (λ x, x = OU o v) none none) c.
Proof.
  intros Hu Hl. unfold forge.orgs.AddUser, UserIDFromContext. rewrite Hu.
  destruct (uuid_Parse _) as [o|e]; [|done]. destruct (Decode_body r) as [req|e] eqn:Hreq; [|done].
  destruct (uuid_Parse (TrimSpace _)) as [v|e] eqn:Hv; [|done].
  assert (Hlist : tracks (moves calm) (organization.GetByUserID (S := World R D) u)
    (organization.GetByUserID (S := Alone_) u)) by go calm_leaf.
  intros [Hn|(orgs & l1 & l2 & -> & Hrun & Hon & Hn)]%next_attempt_on;
    [left; by eapply tracks_next| |by eapply tracks_patient|intros orgs; repeat patient_step].
  destruct (seen_result _ (l1 ++ l2) _ _ _ _ (proj2 (Forall_forall _ _) (λ _ H, H))
    (learns_GetByUserID _ u Hl) Hrun) as [_ Hm].
  destruct orgs as [orgs|e]; [|done]. destruct (Hm orgs eq_refl) as (w & Hw & Hin).
  destruct (negb _) eqn:Hbelongs; [done|]. apply negb_false_iff, forge.userBelongsToOrg_spec in Hbelongs as (x & Hx & <-).
  right. exists (organization.ID x), v, w. split; [by exists req|]. split; [exact Hw|]. split; [by apply Hin|].
  set (J := λ x, x = _).
  assert (Hadd : tracks (moves (changes J none none)) (organization.AddUser (S := World R D) (organization.ID x) v)
    (organization.AddUser (S := Alone_) (organization.ID x) v)) by by apply AddUser_changes.
  apply next_attempt_on in Hn as [Hn|(res & l3 & l4 & _ & _ & _ & Hn)];
    [by eapply tracks_next|done|by eapply tracks_patient|intros added; repeat patient_step].
Qed.

Lemma repos_Create_next dir wr r u l c :
  r_userID r = Some u → Forall (λ w, Integrity (db w)) l → next (forge.repos.Create dir wr r) l = inl c →
  moves (changes none none (λ x, sqlc.Repo_OwnerID x = toPgUUID u)) c ∨
  ∃ g, git.OwnerID g = u ∧ has_done (forge.repos.Create dir wr r) l (λ _ w', git.repo_row (db w') g) ∧
    moves (changes none none (λ x, sqlc.Repo_ID x = toPgUUID (git.ID g))) c.
Proof.
  intros Hu Hl. unfold forge.repos.Create, UserIDFromContext. rewrite Hu.
  destruct (Decode_body r) as [req|e]; [|done]. cbv zeta. destruct (is_empty _); [done|].
  destruct (negb _); [done|]. set (Mine := λ x, sqlc.Repo_OwnerID x = _).
  intros [Hn|(id & l1 & l2 & -> & _ & Hon & Hn)]%next_bind_on;
    [left; exact (tracks_next _ _ _ _ _ (goes_New (changes none none Mine)) Hn)| |repeat patient_step|intros id; repeat patient_step].
  apply Forall_app in Hl as [_ Hl].
  assert (Hmake : ∀ input, git.create_OwnerID input = u →
    tracks (moves (changes none none Mine)) (git.repo_Create (S := World R D) input) (git.repo_Create (S := Alone_) input)).
  { intros input <-. by apply repo_Create_changes. }
  apply next_attempt_on in Hn as [Hn|(made & l3 & l4 & Heq & Hrun & Hon2 & Hn)];
    [left; eapply tracks_next; [|exact Hn]; by apply Hmake| |repeat patient_step|intros made; repeat patient_step].
  destruct made as [g|e]; [|done].
  destruct (repo_Create_done _ _ _ _ Hl Hrun) as [Ho Hdone]. cbn in Ho.
  apply next_attempt_on in Hn as [Hn|(made & l5 & l6 & _ & _ & _ & Hn)];
    [left|right|repeat patient_step|intros made; repeat patient_step].
  { assert (Hinit : ∀ input, tracks (moves (changes none none Mine)) (git.Service.Create (S := World R D) dir input)
      (git.Service.Create (S := Alone_) dir input)) by (intros input; go calm_leaf).
    eapply tracks_next; [apply Hinit|exact Hn]. }
  exists g. split; [exact Ho|]. split.
  - apply (has_done_on _ _ _ _ _ Hon). apply has_done_bind; [intros made'; repeat patient_step|].
    by apply has_done_attempt.
  - destruct made as [|e]; [done|]. set (W := λ x, sqlc.Repo_ID x = _).
    assert (Hsoft := repo_SoftDelete_changes none none W (git.ID g) (λ _ H, H)).
    assert (Hhard : tracks (moves (changes none none W)) (git.repo_Delete (S := World R D) (git.ID g)) (git.repo_Delete (S := Alone_) (git.ID g)))
      by exact Hsoft.
    apply next_attempt_on in Hn as [Hn|(res & l7 & l8 & _ & _ & _ & Hn)];
      [by eapply tracks_next| |by eapply tracks_patient|intros res; repeat patient_step].
    destruct res as [|e']; [done|].
    apply next_attempt_on in Hn as [Hn|(res & l9 & l10 & _ & _ & _ & Hn)];
      [by eapply tracks_next|done|by eapply tracks_patient|intros res; repeat patient_step].
Qed.

Lemma repos_Delete_next wr r u l c :
  r_userID r = Some u → Forall (λ w, Integrity (db w)) l → next (forge.repos.Delete wr r) l = inl c →
  moves calm c ∨ ∃ g w, w ∈ l ∧ git.repo_row (db w) g ∧ git.OwnerID g = u ∧
    moves (changes none none (λ x, sqlc.Repo_ID x = toPgUUID (git.ID g))) c.
Proof.
  intros Hu Hl. unfold forge.repos.Delete, UserIDFromContext. rewrite Hu. destruct (uuid_Parse _) as [id|e]; [|done].
  assert (Hget : tracks (moves calm) (git.repo_GetByID (S := World R D) id) (git.repo_GetByID (S := Alone_) id))
    by go calm_leaf.
  intros [Hn|(found & l1 & l2 & -> & Hrun & Hon & Hn)]%next_attempt_on;
    [left; by eapply tracks_next| |by eapply tracks_patient|intros found; repeat patient_step].
  destruct (seen_result _ (l1 ++ l2) _ _ _ _ (proj2 (Forall_forall _ _) (λ _ H, H))
    (learns_repo_GetByID _ id Hl) Hrun) as [_ Hg].
  destruct found as [g|e]; [|done]. destruct (Hg g eq_refl) as (w & Hw & Hrow & <-).
  case_bool_decide as Ho; [|done]. right. exists g, w. do 3 (split; [done|]).
  assert (Hsoft := repo_SoftDelete_changes none none (λ x, sqlc.Repo_ID x = toPgUUID (git.ID g)) (git.ID g) (λ _ H, H)).
  apply next_attempt_on in Hn as [Hn|(res & l3 & l4 & _ & _ & _ & Hn)];
    [by eapply tracks_next|done|by eapply tracks_patient|intros deleted; repeat patient_step].
Qed.

(** *** From the arrival of a request to its handler *)

(** A call of the request met a state in which its token named [u]. *)
Definition acts_as r l u : Prop :=
  ∃ w τ v, w ∈ l ∧ clock w ≤ τ ∧ session.access w τ (extractAccessToken r) = Some v ∧ uuid_Parse v = Ok u.

Lemma acts_as_app r l1 l2 u : acts_as r l2 u → acts_as r (l1 ++ l2) u.
Proof. intros (w & τ & v & Hw & Hrest). exists w, τ, v. split; [apply elem_of_app; by right|done]. Qed.

Lemma Auth_on h wr r l c :
  (∀ wr r, patient (h wr r)) → Forall (λ w, Integrity (db w)) l → next (Auth h wr r) l = inl c →
  moves calm c ∨ ∃ u l1 l2, l = l1 ++ l2 ∧ acts_as r l u ∧
    goes_on (Auth h wr r) l1 (h wr (with_userID u r)) ∧ next (h wr (with_userID u r)) l2 = inl c.
Proof.
  intros Hh Hl. unfold Auth, validator_Validate, SessionService_TokenValidator. cbv zeta.
  destruct (bool_decide _); [done|]. pose proof (Validate_goes (R := R) (D := D) calm (extractAccessToken r)) as Hv.
  intros [Hn|(res & l1 & l2 & Heq & Hrun & Hon & Hn)]%next_attempt_on;
    [left; by eapply tracks_next| |by eapply tracks_patient|intros [u|e]; [apply Hh|repeat patient_step]].
  destruct res as [u|e]; [|done]. right. exists u, l1, l2. split; [done|]. split; [|done].
  apply Validate_seen in Hrun as (w & τ & v & -> & Hτ & Hacc & Hu); [|done].
  exists w, τ, v. split; [by left|done].
Qed.

(** The handlers that change memberships or repositories. *)
Inductive authorized : Handler Alone_ → Prop :=
  | authorized_orgs_Create : authorized forge.orgs.Create
  | authorized_orgs_AddUser : authorized forge.orgs.AddUser
  | authorized_repos_Create : authorized (forge.repos.Create (ReposDir srv'))
  | authorized_repos_Delete : authorized forge.repos.Delete.

Lemma authorized_patient h : authorized h → ∀ wr r, patient (h wr r).
Proof. intros [] wr r; repeat patient_step. Qed.

Definition route_calm (x : pattern * Handler (World R D)) (x' : pattern * Handler Alone_) : Prop :=
  handler_goes calm x.2 x'.2 ∨ ∃ h, x'.2 = Auth h ∧ authorized h.

Lemma routes_authorized :
  Forall (λ x, (∀ wr r l c, next (x.2 wr r) l = inl c → moves calm c) ∨ ∃ h, x.2 = Auth h ∧ authorized h) (routes srv').
Proof.
  assert (Hall : Forall2 route_calm (routes srv) (routes srv')).
  { unfold routes, registerAuthRoutes. rewrite <- !(assoc_L (++)).
    assert (Hweak : ∀ rs rs', routes_go calm rs rs' → Forall2 route_calm rs rs').
    { intros rs rs' Hrs. eapply Forall2_impl; [exact Hrs|]. intros x x' [_ Hx]. by left. }
    pose proof (Hweak _ _ (account_routes_go (db_Ping := db_Ping) (redis_Ping := redis_Ping) cfg calm (λ d d' _ Hd,
      changes_same none none none d d' (f_equal (λ x, x.1.2) Hd) (f_equal snd Hd)))) as Ha.
    enough (Hf : Forall2 route_calm (totp_RegisterRoutes srv (authChain srv) ++ org_RegisterRoutes Auth ++ repo_RegisterRoutes srv Auth)
        (totp_RegisterRoutes srv' (authChain srv') ++ org_RegisterRoutes Auth ++ repo_RegisterRoutes srv' Auth)).
    { pose proof (Forall2_app Ha (Forall2_app Hf (Hweak _ _ (git_routes_go (db_Ping := db_Ping) (redis_Ping := redis_Ping) cfg calm)))) as Hall.
      by rewrite <- !(assoc_L (++)) in Hall. }
    cbn [app totp_RegisterRoutes org_RegisterRoutes repo_RegisterRoutes]. unfold authChain. cbn [main_Config UserRateLimit].
    repeat (apply Forall2_cons_2;
      [first [ right; eexists; split; [reflexivity|]; constructor
             | left; cbn [snd]; apply Auth_goes; [exact _|];
               first [apply UserMiddleware_goes; [exact _|]|idtac]; intros wr r; go calm_leaf]|]).
    apply Forall2_nil_2. }
  apply Forall_forall. intros x' [i Hi]%list_elem_of_lookup.
  destruct (Forall2_lookup_r _ _ _ _ _ Hall Hi) as (x & _ & [Hx|Hx]); [left|by right].
  intros wr r l c. by apply (tracks_next _ (x.2 wr r)).
Qed.

(** A request has come to the handler [h], which it runs as [r'], for the user [u]. *)
Definition runs_as {A} (m : M Alone_ A) r l c h u wr r' : Prop :=
  authorized h ∧ acts_as r l u ∧ r_userID r' = Some u ∧ r_Body r' = r_Body r ∧
  ∃ l1 l2, l = l1 ++ l2 ∧ goes_on m l1 (h wr r') ∧ next (h wr r') l2 = inl c.

Lemma runs_as_on {A B} (m : M Alone_ A) l1 (m2 : M Alone_ B) r l2 c h u wr r' :
  goes_on m l1 m2 → runs_as m2 r l2 c h u wr r' → runs_as m r (l1 ++ l2) c h u wr r'.
Proof.
  intros Hon (Hh & Hu & Hid & Hbody & k1 & k2 & -> & Hon2 & Hn). split; [done|]. split; [by apply acts_as_app|].
  do 2 (split; [done|]). exists (l1 ++ k1), k2. split; [by rewrite (assoc_L (++))|]. split; [by eapply goes_on_trans|done].
Qed.

Lemma routes_kept : routes_go owners_kept (routes srv) (routes srv').
Proof.
  unfold routes, registerAuthRoutes, routes_go. rewrite <- !(assoc_L (++)).
  pose proof (account_routes_go (db_Ping := db_Ping) (redis_Ping := redis_Ping) cfg owners_kept
    (λ d d' _ Hd, owners_kept_same d d' (f_equal snd Hd))) as Ha.
  enough (Hf : routes_go owners_kept (totp_RegisterRoutes srv (authChain srv) ++ org_RegisterRoutes Auth ++ repo_RegisterRoutes srv Auth)
      (totp_RegisterRoutes srv' (authChain srv') ++ org_RegisterRoutes Auth ++ repo_RegisterRoutes srv' Auth)).
  { pose proof (Forall2_app Ha (Forall2_app Hf (git_routes_go (db_Ping := db_Ping) (redis_Ping := redis_Ping) cfg owners_kept))) as Hall.
    by rewrite <- !(assoc_L (++)) in Hall. }
  cbn [app totp_RegisterRoutes org_RegisterRoutes repo_RegisterRoutes]. unfold authChain. cbn [main_Config UserRateLimit].
  repeat (apply Forall2_cons_2;
    [split; [reflexivity|]; cbn [snd]; apply Auth_goes; [exact _|];
     first [apply UserMiddleware_goes; [exact _|]|idtac]; intros wr r; go kept_leaf|]).
  apply Forall2_nil_2.
Qed.

Lemma handle_kept r : tracks (moves owners_kept) (handle r) (handle' r).
Proof. apply (NewServer_goes cfg owners_kept routes_kept). Qed.

(** The next call of a request changes neither memberships nor repositories, or it has
    come to one of those handlers, as a user that its token named. *)
Lemma handle_on r l c :
  Forall (λ w, Integrity (db w)) l → next (handle' r) l = inl c →
  moves calm c ∨ ∃ h u wr r', runs_as (handle' r) r l c h u wr r'.
Proof.
  intros Hl [Hn|(p & h & wr & ms & l1 & l2 & (Hin & _ & -> & Hon) & Hn)]%handle_next;
    [left; exact (of_middleware_moves calm _ _ Hn)|].
  apply Forall_app in Hl as [_ Hl].
  pose proof (proj1 (Forall_forall _ _) routes_authorized _ Hin) as [Hcalm|(h' & Hh & Ha)]; cbn in *.
  - left. by eapply Hcalm.
  - subst h. apply Auth_on in Hn as [?|(u & l3 & l4 & -> & Hu & Hon2 & Hn)]; [by left| |by apply authorized_patient|done].
    right. exists h', u, wr, (with_userID u (with_PathValue ms r)). apply (runs_as_on _ _ _ _ _ _ _ _ _ _ Hon).
    do 4 (split; [done|]). by exists l3, l4.
Qed.

Lemma asks_for_body r r' v : r_Body r' = r_Body r → asks_for r' v → asks_for r v.
Proof. intros Hb (req & Hreq & Hv). exists req. split; [|done]. unfold Decode_body in *. by rewrite <- Hb. Qed.

(** What a request may do next for the user [u], by what it has seen and done: let a
    member bring somebody in; settle an organization that it founded; add a repository
    of the user's; mark one of the user's, or one that it added, deleted. *)
Inductive grants r l u : (World R D → World R D) → Prop :=
  | grants_member o v w c :
      asks_for r v → w ∈ l → organization.member (db w) o u →
      moves (changes (λ x, x = OU o v) none none) c → grants r l u c
  | grants_founder o c :
      has_done (handle' r) l (founds o) →
      moves (changes (λ x, x = OU o u) (λ x, sqlc.OU_OrganizationID x = toPgUUID o) none) c → grants r l u c
  | grants_new_repository c :
      moves (changes none none (λ x, sqlc.Repo_OwnerID x = toPgUUID u)) c → grants r l u c
  | grants_owner g c :
      git.OwnerID g = u →
      (∃ w, w ∈ l ∧ git.repo_row (db w) g) ∨ has_done (handle' r) l (λ _ w, git.repo_row (db w) g) →
      moves (changes none none (λ x, sqlc.Repo_ID x = toPgUUID (git.ID g))) c → grants r l u c.

Lemma calm_grants r l u c : moves calm c → grants r l u c.
Proof. intros Hc. apply grants_new_repository. intros w. by apply calm_changes. Qed.

Lemma handle_grants r l c :
  Forall (λ w, Integrity (db w)) l → next (handle' r) l = inl c →
  moves calm c ∨ ∃ u, acts_as r l u ∧ grants r l u c.
Proof.
  intros Hl Hn. apply handle_on in Hn as [Hc|(h & u & wr & r' & Hh & Hu & Hid & Hbody & l1 & l2 & -> & Hon & Hn)];
    [by left| |done].
  apply Forall_app in Hl as [_ Hl]. right. exists u. split; [done|].
  assert (Hin : ∀ w, w ∈ l2 → w ∈ l1 ++ l2) by (intros w Hw; apply elem_of_app; by right).
  destruct Hh.
  - apply (orgs_Create_next _ _ u) in Hn as [Hc|(o & Hdone & Hc)]; [by apply calm_grants| |done..].
    eapply grants_founder; [by eapply has_done_on|exact Hc].
  - apply (orgs_AddUser_next _ _ u) in Hn as [Hc|(o & v & w & Hask & Hw & Hm & Hc)]; [by apply calm_grants| |done..].
    eapply grants_member; [by eapply asks_for_body|by apply Hin|exact Hm|exact Hc].
  - apply (repos_Create_next _ _ _ u) in Hn as [Hc|(g & Ho & Hdone & Hc)]; [by apply grants_new_repository| |done..].
    eapply grants_owner; [exact Ho|right; by eapply has_done_on|exact Hc].
  - apply (repos_Delete_next _ _ u) in Hn as [Hc|(g & w & Hw & Hg & Ho & Hc)]; [by apply calm_grants| |done..].
    eapply grants_owner; [exact Ho|left; exists w; auto|exact Hc].
Qed.

(** ** Requests at the same time *)

(** Anything else that happens keeps the schema, and the owners of repositories. *)
Definition elsewhere w w' : Prop := concurrent.elsewhere w w' ∧ owners_kept (db w) (db w').

Definition racing : pool (World R D) Request → pool (World R D) Request → Prop := step handle' elsewhere.

Definition follows w w' : Prop := owners_kept (db w) (db w').

#[local] Instance follows_preorder : PreOrder follows.
Proof. unfold follows. split; [by intros w|]. intros w1 w2 w3 H1_2 H2_3. by etrans. Qed.

(** Repositories that a state of the past had are there, with their owners. *)
Lemma pool_past w0 w ts :
  Integrity (db w0) → rtc racing (w0, []) (w, ts) →
  Integrity (db w) ∧ ∀ i r l, ts !! i = Some (mkThread r l) → ∀ l1 s l2, l = l1 ++ s :: l2 →
    Integrity (db s) ∧ follows s w ∧ ∃ c, next (handle' r) l1 = inl c ∧ follows (c s) w.
Proof.
  intros Hi Hsteps.
  apply (pool_history handle' elsewhere (λ w, Integrity (db w)) follows) with (p := (w, ts)) in Hi; [done|..|exact Hsteps].
  - intros w1 w2 [Hs Hf] Hw1. split; [by apply Hs|done].
  - intros r l c Hn w1 Hw1. split; [by eapply call_schema|]. exact (tracks_next _ _ _ _ _ (handle_kept r) Hn w1).
Qed.

Section request.
Context (w0 w : World R D) (ts : list (thread (World R D) Request)).
Context (Hw0 : Integrity (db w0)) (Hsteps : rtc racing (w0, []) (w, ts)).
Context (i : nat) (r : Request) (l : list (World R D)) (Hth : ts !! i = Some (mkThread r l)).

Lemma seen_schema : Forall (λ w, Integrity (db w)) l.
Proof.
  destruct (pool_past _ _ _ Hw0 Hsteps) as [_ Hpast]. apply Forall_forall. intros s Hs.
  apply list_elem_of_split in Hs as (l1 & l2 & Hl). by destruct (Hpast i r l Hth l1 s l2 Hl).
Qed.

(** A repository that a state met had, or that a call made, has its owner still. *)
Lemma met_owner s g :
  s ∈ l → git.repo_row (db s) g → ∃ g', git.repo_row (db w) g' ∧ git.ID g' = git.ID g ∧ git.OwnerID g' = git.OwnerID g.
Proof.
  intros Hs Hg. destruct (pool_past _ _ _ Hw0 Hsteps) as [_ Hpast].
  apply list_elem_of_split in Hs as (l1 & l2 & Hl). destruct (Hpast i r l Hth l1 s l2 Hl) as (_ & Hf & _). by apply Hf.
Qed.

Lemma made_owner g :
  has_done (handle' r) l (λ _ w', git.repo_row (db w') g) →
  ∃ g', git.repo_row (db w) g' ∧ git.ID g' = git.ID g ∧ git.OwnerID g' = git.OwnerID g.
Proof.
  intros (l1 & s & l2 & c & Hl & Hn & Hg). destruct (pool_past _ _ _ Hw0 Hsteps) as [_ Hpast].
  destruct (Hpast i r l Hth l1 s l2 Hl) as (_ & _ & c' & Hn' & Hf). rewrite Hn in Hn'. injection Hn' as <-. by apply Hf.
Qed.
End request.

(** C3: In whatever interleaving of HTTP requests whose surroundings keep the schema and
    the owners of repositories: when the next call of a request adds a membership, its
    access token named, in a state that it met, a user who either was a member of the
    organization in a state that it met, the body naming the one who joins, or joins the
    organization that the request itself has made before; and when it removes one, the
    request itself has made the organization. *)
Theorem racing_members_are_admitted w0 w ts i r l c o v :
  Integrity (db w0) → rtc racing (w0, []) (w, ts) →
  ts !! i = Some (mkThread r l) → next (handle' r) l = inl c →
  (organization.member (db (c w)) o v → ¬ organization.member (db w) o v →
   ∃ u, acts_as r l u ∧
     ((asks_for r v ∧ ∃ w', w' ∈ l ∧ organization.member (db w') o u) ∨
      (v = u ∧ has_done (handle' r) l (founds o)))) ∧
  (organization.member (db w) o v → ¬ organization.member (db (c w)) o v →
   ∃ u, acts_as r l u ∧ has_done (handle' r) l (founds o)).
Proof.
  intros Hw0 Hsteps Hth Hn. pose proof (seen_schema _ _ _ Hw0 Hsteps i r l Hth) as Hl.
  assert (Hinj : ∀ a b a' b', OU a b = OU a' b' → a = a' ∧ b = b') by (by intros a b a' b' [= -> ->]).
  apply handle_grants in Hn as [Hc|(u & Hu & Hc)]; [|destruct Hc as [o' v' w' c Ha Hw' Hm' Hc|o' c Hdone Hc|c Hc|g c _ _ Hc]|done];
    destruct (Hc w) as [Hgain Hlose _ _]; split; intros Hm Hno; try (by destruct (Hgain _ Hm Hno));
    try (by destruct (Hlose _ Hm Hno)); exists u; (split; [exact Hu|]).
  - apply (Hgain _ Hm), Hinj in Hno as [-> ->]. left. split; [exact Ha|]. by exists w'.
  - apply (Hgain _ Hm), Hinj in Hno as [-> ->]. by right.
  - apply (Hlose _ Hm), (inj toPgUUID) in Hno as ->. exact Hdone.
Qed.

(** A row that there is before or after a call that may change such rows only. *)
Lemma changed_row J L W d d' g :
  changes J L W d d' →
  (git.repo_row d g ∧ ¬ git.repo_row d' g) ∨ (git.repo_row d' g ∧ ¬ git.repo_row d g) →
  ∃ row, W row ∧ git.fromSqlcRepo row = g ∧ (row ∈ git_repository d ∨ row ∈ git_repository d').
Proof.
  intros [_ _ Hgain Hlose] [[(row & Hin & Hg) Hno]|[(row & Hin & Hg) Hno]]; exists row;
    (split; [|auto]); [apply Hlose|apply Hgain]; try done; intros Hin'; apply Hno; by exists row.
Qed.

Lemma row_owner d g row :
  Integrity d → git.repo_row d g → row ∈ git_repository d → sqlc.Repo_ID row = toPgUUID (git.ID g) →
  git.OwnerID (git.fromSqlcRepo row) = git.OwnerID g.
Proof.
  intros Hi Hg Hin Hid. destruct (git.repo_row_ids _ _ Hi Hin) as [Hrow _]. rewrite Hrow in Hid.
  apply (inj toPgUUID) in Hid. f_equal. apply (git.repo_row_unique d); [done|by exists row|done..].
Qed.

(** C4: In whatever interleaving of HTTP requests whose surroundings keep the schema and
    the owners of repositories: when the next call of a request adds, changes or removes
    the row of a repository, the access token of the request named the owner of that
    repository in a state that it met before; also when the call undoes a creation, and
    whatever happened between the check and the change. *)
Theorem racing_repositories_are_the_owners w0 w ts i r l c g :
  Integrity (db w0) → rtc racing (w0, []) (w, ts) →
  ts !! i = Some (mkThread r l) → next (handle' r) l = inl c →
  (git.repo_row (db w) g ∧ ¬ git.repo_row (db (c w)) g) ∨ (git.repo_row (db (c w)) g ∧ ¬ git.repo_row (db w) g) →
  acts_as r l (git.OwnerID g).
Proof.
  intros Hw0 Hsteps Hth Hn Hg. pose proof (seen_schema _ _ _ Hw0 Hsteps i r l Hth) as Hl.
  destruct (pool_past _ _ _ Hw0 Hsteps) as [Hi _]. pose proof (call_schema cfg r l c w Hn Hi) as Hi'.
  pose proof (tracks_next _ _ _ _ _ (handle_kept r) Hn w) as Hkept.
  apply handle_grants in Hn as [Hc|(u & Hu & Hc)]; [|destruct Hc as [o v w' c _ _ _ Hc|o c _ Hc|c Hc|g0 c Ho Hg0 Hc]|done].
  - destruct (changed_row _ _ _ _ _ _ (Hc w) Hg) as (row & [] & _).
  - destruct (changed_row _ _ _ _ _ _ (Hc w) Hg) as (row & [] & _).
  - destruct (changed_row _ _ _ _ _ _ (Hc w) Hg) as (row & [] & _).
  - destruct (changed_row _ _ _ _ _ _ (Hc w) Hg) as (row & Ho & <- & Hin).
    assert (sqlc.Repo_OwnerID row = toPgUUID (git.OwnerID (git.fromSqlcRepo row))) as Hrow.
    { destruct Hin as [Hin|Hin]; [exact (proj2 (git.repo_row_ids _ _ Hi Hin))|exact (proj2 (git.repo_row_ids _ _ Hi' Hin))]. }
    rewrite Hrow in Ho. by apply (inj toPgUUID) in Ho as ->.
  - destruct (changed_row _ _ _ _ _ _ (Hc w) Hg) as (row & Hid & <- & Hin).
    assert (∃ g', git.repo_row (db w) g' ∧ git.ID g' = git.ID g0 ∧ git.OwnerID g' = git.OwnerID g0) as (g1 & Hg1 & Hid1 & Ho1).
    { destruct Hg0 as [(w' & Hw' & Hg')|Hdone]; [exact (met_owner w0 w ts Hw0 Hsteps i r l Hth w' g0 Hw' Hg')
      |exact (made_owner w0 w ts Hw0 Hsteps i r l Hth g0 Hdone)]. }
    assert (git.OwnerID (git.fromSqlcRepo row) = u) as ->; [|done]. rewrite <- Ho, <- Ho1.
    destruct Hin as [Hin|Hin]; [by apply (row_owner (db w)); rewrite ?Hid1|].
    destruct (Hkept g1 Hg1) as (g2 & Hg2 & Hid2 & <-). by apply (row_owner (db (c w))); rewrite ?Hid2, ?Hid1.
Qed.

End server.
(** ** An organization and a repository, made while somebody logs in *)

Module Demo.
Import Sim SimDisk server.Demo concurrent.Demo.
#[export] Existing Instances user.Demo.demo_bcrypt user.Demo.demo_bcrypt_laws accounts.Demo.demo_login accounts.Demo.demo_register
  forge.Demo.demo_create_org forge.Demo.demo_add_user forge.Demo.demo_create_repo git.Demo.demo_quoting
  ratelimit.Demo.exact_numbers ratelimit.Demo.demo_text totp.Demo.demo_totp sso.Demo.demo_oauth.
#[export] Existing Instances server.Demo.demo_verify server.Demo.demo_redirect server.Demo.demo_backend
  server.Demo.demo_time server.Demo.demo_runner server.Demo.demo_outside server.Demo.demo_env server.Demo.demo_net.

Abbreviation racing := (authority.racing (db_Ping := ping) (redis_Ping := ping) config.Load).

(** The first of two requests takes turns with a login, from the state after one. *)
Definition taking_turns (r : Request) (n : nat) : pool W Request :=
  run_schedule handle (concat (replicate n [0; 1]%nat)) (w2, [] ++ arriving [r; login]).

Lemma taking_turns_reached r n : rtc racing (w2, []) (taking_turns r n).
Proof. exact (arriving_steps handle authority.elsewhere (concat (replicate n [0; 1]%nat)) [r; login] w2 []). Qed.

(** The next call of the first request adds the one row of a table. *)
Definition about_to_add {A} (table : Database → list A) (p : pool W Request) : option A :=
  match p.2 !! 0%nat with
  | Some th =>
      match next (handle (request th)) (got th) with
      | inl c =>
          match table (db (c p.1)), table (db p.1) with
          | [x], [] => Some x
          | _, _ => None
          end
      | inr _ => None
      end
  | None => None
  end.

Lemma about_to_add_call {A} (table : Database → list A) p x :
  about_to_add table p = Some x →
  ∃ r l c, p.2 !! 0%nat = Some (mkThread r l) ∧ next (handle r) l = inl c ∧
    table (db (c p.1)) = [x] ∧ table (db p.1) = [].
Proof.
  unfold about_to_add. destruct (p.2 !! 0%nat) as [[r l]|]; [|done]. cbn [request got].
  destruct (next (handle r) l) as [c|] eqn:Hn; [|done].
  destruct (table (db (c p.1))) as [|y [|]] eqn:Hc; [done| |done]. destruct (table (db p.1)) eqn:Hp; [|done].
  intros [= ->]. by exists r, l, c.
Qed.

(** The membership of the user who makes the organization. *)
Definition joining : pool W Request := taking_turns new_org 6.
Definition joined : sqlc.OrganizationUser :=
  default (OU uuid_Nil uuid_Nil) (about_to_add organization_users joining).

Lemma joining_call :
  about_to_add organization_users joining = Some joined ∧
  joined = OU (Bytes (sqlc.OU_OrganizationID joined)) (Bytes (sqlc.OU_UserID joined)).
Proof. split; vm_compute; reflexivity. Qed.

Lemma racing_members_are_admitted_witness :
  ∃ r l u, joining.2 !! 0%nat = Some (mkThread r l) ∧ acts_as r l u.
Proof.
  destruct joining_call as [Hcall Hrow]. destruct (about_to_add_call _ _ _ Hcall) as (r & l & c & Hth & Hn & Hnew & Hold).
  destruct (racing_members_are_admitted (db_Ping := ping) (redis_Ping := ping) config.Load w2 joining.1 joining.2 0 r l c
    (Bytes (sqlc.OU_OrganizationID joined)) (Bytes (sqlc.OU_UserID joined)) w2_schema) as [Hjoin _].
  - rewrite <- surjective_pairing. apply taking_turns_reached.
  - exact Hth.
  - exact Hn.
  - destruct Hjoin as (u & Hu & _).
    + unfold organization.member. rewrite Hnew. fold (OU (Bytes (sqlc.OU_OrganizationID joined)) (Bytes (sqlc.OU_UserID joined))).
      rewrite <- Hrow. apply list_elem_of_here.
    + unfold organization.member. rewrite Hold. apply not_elem_of_nil.
    + exists r, l, u. split; [exact Hth|exact Hu].
Defined.

Definition new_repo : Request := post "/repos" "hello" token.
Definition adding : pool W Request := taking_turns new_repo 5.

Lemma adding_call : is_Some (about_to_add git_repository adding).
Proof. vm_compute. by eexists. Qed.

Lemma racing_repositories_are_the_owners_witness :
  ∃ r l x, adding.2 !! 0%nat = Some (mkThread r l) ∧ acts_as r l (git.OwnerID (git.fromSqlcRepo x)).
Proof.
  destruct adding_call as [x Hcall]. destruct (about_to_add_call _ _ _ Hcall) as (r & l & c & Hth & Hn & Hnew & Hold).
  exists r, l, x. split; [exact Hth|].
  apply (racing_repositories_are_the_owners (db_Ping := ping) (redis_Ping := ping) config.Load w2 adding.1 adding.2 0 r l c
    (git.fromSqlcRepo x) w2_schema).
  - rewrite <- surjective_pairing. apply taking_turns_reached.
  - exact Hth.
  - exact Hn.
  - right. unfold git.repo_row. rewrite Hnew, Hold. split.
    + exists x. split; [apply list_elem_of_here|reflexivity].
    + intros (row & Hin & _). by apply not_elem_of_nil in Hin.
Defined.
End Demo.
End authority.
