(* ===== verification/Liveness.v ===== *)
(** Requests are answered: on its own ([Threads], [Calls]) an HTTP request makes a
    bounded number of calls, so that one which gets its turns is answered, in the
    form of [Answers], whatever the other requests do meanwhile. *)

From S2P Require Import Prelude.
From S2P Require Import Bytes.
From S2P Require Import Platform.
From S2P Require Import Database.
From S2P Require Import World.
From S2P Require Import RedisStore.
From S2P Require Import Session.
From S2P Require Import Users.
From S2P Require Import Totp.
From S2P Require Import Sso.
From S2P Require Import Orgs.
From S2P Require Import Filepath.
From S2P Require Import Disk.
From S2P Require Import Repos.
From S2P Require Import Http.
From S2P Require Import HttpAuth.
From S2P Require Import HttpForge.
From S2P Require Import HttpGit.
From S2P Require Import Mux.
From S2P Require Import RateLimit.
From S2P Require Import Config.
From S2P Require Import Logger.
From S2P Require Import Server.
From S2P Require Import Answers.
From S2P Require Import Threads.
From S2P Require Import Calls.
From S2P Require Import Integrity.
From S2P Require Import Concurrent.
From S2P Require Import GoStrings.

Module liveness.
Import http mux gitroutes server threads answers.

(** ** What a computation spends

    A request on its own can make as many calls as it has seen states. *)

#[export] Instance Alone_Budget {S} : Budget (Alone S).
Proof.
  refine {| budget p n := pending p = None ∧ (n ≤ length (seen p))%nat |}.
  intros p m n Hle [Hp Hn]. split; [done|lia].
Defined.

Section spends.
Context {S : Type}.
Implicit Types (n : nat).

(** With a budget of [n], [m] leaves one for which [Φ] holds, with the result. *)
Definition spends {A} n (m : M (Alone S) A) (Φ : result A → nat → Prop) : Prop :=
  ∀ p, budget p n → ∃ n', budget (m p).2 n' ∧ Φ (m p).1 n'.

Lemma spends_ret {A} n (a : A) Φ : Φ (Ok a) n → spends n (mret a) Φ.
Proof. intros HΦ p Hp. by exists n. Qed.

Lemma spends_fail {A} n e (Φ : result A → nat → Prop) : Φ (Err e) n → spends n (fail e) Φ.
Proof. intros HΦ p Hp. by exists n. Qed.

Lemma spends_lift {A} n (r : result A) Φ : Φ r n → spends n (lift r) Φ.
Proof. intros HΦ p Hp. by exists n. Qed.

Lemma spends_bind {A B} n (m : M (Alone S) A) (f : A → M (Alone S) B) Φ :
  spends n m (λ r n', match r with Ok a => spends n' (f a) Φ | Err e => Φ (Err e) n' end) →
  spends n (m ≫= f) Φ.
Proof.
  intros Hm p Hp. destruct (Hm p Hp) as (n' & Hn & Hr). unfold mbind, M_bind.
  destruct (m p) as [[a|e] p']; [by apply Hr|by exists n'].
Qed.

Lemma spends_result {A B} (g : result A → result B) n (m : M (Alone S) A) Φ :
  spends n m (λ r n', Φ (g r) n') → spends n (λ p, let '(r, p') := m p in (g r, p')) Φ.
Proof.
  intros Hm p Hp. destruct (Hm p Hp) as (n' & Hn & Hr). exists n'. by destruct (m p).
Qed.

Lemma spends_attempt {A} n (m : M (Alone S) A) Φ : spends n m (λ r n', Φ (Ok r) n') → spends n (attempt m) Φ.
Proof. apply (spends_result Ok). Qed.

Lemma spends_mwrap {A} before n (m : M (Alone S) A) Φ :
  spends n m (λ r n', Φ (wrap_err before r) n') → spends n (mwrap before m) Φ.
Proof. apply (spends_result (wrap_err before)). Qed.

Lemma spends_atomically {A} n (m : M S A) Φ : (∀ r, Φ r n) → spends (Datatypes.S n) (atomically m) Φ.
Proof.
  intros HΦ [[|s l] [c|]] [Hp Hn]; cbn in *; try done; [lia|]. exists n. split; [|apply HΦ].
  split; [done|]. cbn. lia.
Qed.

Lemma spends_GetOAuthState `{RedisClient S} state n (Φ : result bool → nat → Prop) :
  (∀ r, Φ r n) → spends (Datatypes.S n) (store.GetOAuthState (S := Alone S) state) Φ.
Proof.
  intros HΦ. apply (spends_result (λ r, match r with
    | Err e => if bool_decide (e = redis_Nil) then Ok false else Err e
    | Ok _ => Ok true
    end)), spends_atomically. intros r. apply HΦ.
Qed.

(** What every computation is shown to do here. *)
Lemma spends_within {A} c (m : M (Alone S) A) :
  (∀ n, spends (c + n) m (λ _ n', n ≤ n')%nat) → within c m.
Proof.
  intros Hm p n Hp. destruct (Hm n p Hp) as (n' & Hn & Hle). by eapply budget_le.
Qed.

Lemma atomically_within {A} (m : M S A) : within 1 (atomically m).
Proof. apply spends_within. intros n. by apply spends_atomically. Qed.

Lemma atomically_yields {A} (m : M S A) : total m → yields 1 (atomically m).
Proof.
  intros Hm [[|s l] [c|]] n [Hp Hn]; cbn in *; try done; [lia|].
  destruct (Hm s) as (a & s' & Hr). exists a, (mkAlone l None). rewrite Hr. split; [done|].
  split; [done|]. cbn. lia.
Qed.
End spends.

(** [spend] walks through a computation and counts its calls. *)
Ltac spend_head m := match m with ?f _ => spend_head f | _ => m end.

Ltac settle := cbn [wrap_err]; cbn beta iota.

Ltac spend_step :=
  lazymatch goal with
  | |- (_ ≤ _)%nat => lia
  | |- spends _ (mret _) _ => apply spends_ret; settle
  | |- spends _ (fail _) _ => apply spends_fail; settle
  | |- spends _ (lift ?r) _ => apply spends_lift; destruct r; settle
  | |- spends _ (attempt _) _ => apply spends_attempt; settle
  | |- spends _ (mwrap _ _) _ => apply spends_mwrap; settle
  | |- spends _ (mbind _ _) _ => apply spends_bind
  | |- spends _ (store.GetOAuthState _) _ => apply spends_GetOAuthState; intros [?|?]; settle
  | |- spends _ (atomically _) _ => apply spends_atomically; intros [?|?]; settle
  | |- spends _ (match ?x with _ => _ end) _ => destruct x
  | |- spends _ ?m _ =>
      first [ progress cbv beta zeta
            | progress cbn
            | let h := spend_head m in unfold h ]
  end.

Ltac spend := apply spends_within; intros ?n; cbn [Nat.add]; repeat spend_step.

Section server.
Context {S : Type} `{Postgres} `{DBTX S} `{RedisClient S} `{Entropy S} `{Clock S} `{Hasher S} `{Filesystem S}
  `{totp.TotpLib S} `{sso.OAuthClient S} `{GitBackend S} `{ratelimit.FloatTime} `{!ratelimit.ScriptRunner S}
  `{ratelimit.NetText} `{sso.OAuth} `{OsErrors} `{Bcrypt} `{Uuid} `{Quoting} `{RedirectURL}.
Context `{JsonDecode accounts.registerRequest} `{JsonDecode accounts.loginRequest}
  `{JsonDecode accounts.totpVerifyRequest} `{JsonDecode forge.createOrganizationRequest}
  `{JsonDecode forge.addOrganizationUserRequest} `{JsonDecode forge.createRepositoryRequest}.
Context `{!Total (S := S)}.

Lemma prompt_alone : Prompt (S := Alone S).
Proof.
  split; [apply atomically_yields, uuid_New_total|intros w r; apply atomically_yields, backend_total|..];
    intros; spend.
Qed.

Lemma Allow_within key rate burst : within 2 (ratelimit.Allow (S := Alone S) key rate burst).
Proof. spend. Qed.

(** ** Requests that have had their turns *)

Context (db_Ping redis_Ping : Z → M S unit) (cfg : config.Config).

Abbreviation srv := (main_Config (λ d, atomically (db_Ping d)) (λ d, atomically (redis_Ping d)) cfg).

Definition handle (r : Request) : M (Alone S) ResponseWriter := NewServer srv NewResponseWriter r.

(** The server answers with what its handlers write, or what the backend of go-git does. *)
Definition answered_well (resp : ResponseWriter) : Prop :=
  well_formed resp ∨ ∃ wr r s s', gitHandler_ServeHTTP (S := S) wr r s = (Ok resp, s').

Lemma backend_alone resp : answer (S := Alone S) resp → answered_well resp.
Proof.
  intros [Hw|(wr & r & [[|s l] [c|]] & p' & Hr)]; [by left|done..| |]; [done|].
  right. injection Hr as Hr _. exists wr, r, s, (gitHandler_ServeHTTP wr r s).2.
  by destruct (gitHandler_ServeHTTP wr r s); simplify_eq/=.
Qed.

Lemma handle_answers r l :
  (26 ≤ length l)%nat → ∃ resp, answered handle (mkThread r l) = Some (Ok resp) ∧ answered_well resp.
Proof.
  intros Hl. pose proof prompt_alone.
  assert (PromptConfig srv).
  { apply main_prompt; [apply Allow_within|intros d; apply atomically_within..]. }
  assert (Hfresh : fresh NewResponseWriter) by done.
  destruct (NewServer_answers srv NewResponseWriter r Hfresh (mkAlone l None)) as (resp & p & Hr & [Hp _] & Ha); [done|].
  exists resp. split; [|by apply backend_alone].
  unfold answered, next. cbn [threads.request got]. unfold handle. by rewrite Hr, Hp.
Qed.
End server.

(** ** Requests in a pool *)

Section pool.
Context {R D : Type} `{RedisLaws R} `{PostgresLaws} `{OracleLaws} `{Bcrypt} `{Uuid} `{Totp.Totp} `{sso.OAuth}
  `{Disk D} `{OsErrors} `{Backend D} `{Quoting} `{RedirectURL}.
Context `{JsonDecode accounts.registerRequest} `{JsonDecode accounts.loginRequest}
  `{JsonDecode accounts.totpVerifyRequest} `{JsonDecode forge.createOrganizationRequest}
  `{JsonDecode forge.addOrganizationUserRequest} `{JsonDecode forge.createRepositoryRequest}.
Context `{ratelimit.FloatTime} `{!ratelimit.ScriptRunner (World R D)} `{ratelimit.NetText}.
Context {db_Ping redis_Ping : Z → M (World R D) unit} `{!Outside _ db_Ping redis_Ping}.
Context (cfg : config.Config).
Implicit Types (w : World R D) (r : Request).

Abbreviation handle' := (concurrent.handle' (db_Ping := db_Ping) (redis_Ping := redis_Ping) cfg).
Abbreviation racing := (concurrent.racing (db_Ping := db_Ping) (redis_Ping := redis_Ping) cfg).

(** What a request does next when it has seen [l]. *)
Lemma next_or_answer r w (l : list (World R D)) :
  match next (handle' r) l with
  | inl _ => (length l < 26)%nat
  | inr res => ∃ resp, res = Ok resp ∧ answered_well (S := World R D) resp
  end.
Proof.
  assert (Hdone : ∀ l' : list (World R D), (26 ≤ length l')%nat →
    ∃ resp, next (handle' r) l' = inr (Ok resp) ∧ answered_well (S := World R D) resp).
  { intros l' Hl'. destruct (handle_answers db_Ping redis_Ping cfg r l' Hl') as (resp & Hr & Hw).
    exists resp. split; [|done]. unfold answered in Hr. cbn [threads.request got] in Hr.
    change (handle db_Ping redis_Ping cfg) with handle' in Hr. destruct (next (handle' r) l'); [done|].
    by injection Hr as ->. }
  destruct (next (handle' r) l) as [c|res] eqn:Hn.
  - destruct (Nat.le_gt_cases 26 (length l)) as [Hle|]; [|done].
    destruct (Hdone l Hle) as (resp & Hr & _). by rewrite Hn in Hr.
  - pose proof (tracks_patient _ _ _ (concurrent.handle_goes cfg r)) as Hg.
    unfold next in Hn. destruct (handle' r (mkAlone l None)) as [res' [l' [c|]]] eqn:Hrun; [done|].
    cbn in Hn. injection Hn as ->. apply (patient_more _ Hg _ _ _ (replicate 26 w)) in Hrun.
    destruct (Hdone (l ++ replicate 26 w)) as (resp & Hr & Hw); [rewrite length_app, length_replicate; lia|].
    unfold next in Hr. rewrite Hrun in Hr. cbn in Hr. injection Hr as ->. by exists resp.
Qed.

(** C8: In whatever interleaving, and whatever fails, an HTTP request makes at most 26
    calls to the stores, the disk, the clock and the limiter, and when it has no call to
    wait for it has its answer: one of the backend of go-git, or JSON, a line of text, a
    redirect to the URL in its Location with a link or no body, or no body, in the form
    that its status asks for. *)
Theorem racing_requests_are_answered w0 w ts i r l :
  rtc racing (w0, []) (w, ts) → ts !! i = Some (mkThread r l) →
  (length l ≤ 26)%nat ∧
  match answered handle' (mkThread r l) with
  | None => (length l < 26)%nat
  | Some res => ∃ resp, res = Ok resp ∧
      (well_formed resp ∨ ∃ wr r' w1 w2, gitHandler_ServeHTTP (S := World R D) wr r' w1 = (Ok resp, w2))
  end.
Proof.
  intros Hsteps Hth. assert (Hlen : (length l ≤ 26)%nat).
  { assert (Hall : Forall (λ th, length (got th) ≤ 26)%nat (w, ts).2).
    { eapply (rtc_ind_r (λ p, Forall (λ th, length (got th) ≤ 26)%nat p.2)); [| |exact Hsteps]; [constructor|].
      intros p1 p2 _ Hstep Hp. destruct Hstep as [o s ts1|j o l1 c s ts1 Hj Hn|s s' ts1 _]; cbn in *; [|..|done].
      - apply Forall_app. split; [done|]. apply Forall_singleton. cbn. lia.
      - apply Forall_insert; [done|]. pose proof (next_or_answer o s l1) as Hlt.
        cbn in *. rewrite Hn in Hlt. rewrite length_app. cbn. lia. }
    exact (proj1 (Forall_lookup _ _) Hall i _ Hth). }
  split; [done|]. pose proof (next_or_answer r w l) as Hr. unfold answered. cbn [threads.request got].
  by destruct (next (handle' r) l).
Qed.
End pool.

Module Demo.
Import Sim SimDisk server.Demo concurrent.Demo.
#[export] Existing Instances user.Demo.demo_bcrypt accounts.Demo.demo_login accounts.Demo.demo_register
  forge.Demo.demo_create_org forge.Demo.demo_add_user forge.Demo.demo_create_repo git.Demo.demo_quoting
  ratelimit.Demo.exact_numbers ratelimit.Demo.demo_text totp.Demo.demo_totp sso.Demo.demo_oauth.
#[export] Existing Instances server.Demo.demo_verify server.Demo.demo_redirect server.Demo.demo_backend
  server.Demo.demo_time server.Demo.demo_runner server.Demo.demo_outside server.Demo.demo_env server.Demo.demo_net.

(** After eight turns of each, the organization is made and that request answered. *)
Definition answered_with (p : pool W Request) (i : nat) : option (result ResponseWriter) :=
  p.2 !! i ≫= answered concurrent.Demo.handle.

Lemma answered_at p i :
  is_Ok <$> answered_with p i = Some true →
  ∃ r l res, p.2 !! i = Some (mkThread r l) ∧ answered concurrent.Demo.handle (mkThread r l) = Some res.
Proof.
  unfold answered_with. destruct (p.2 !! i) as [[r l]|]; [|done]. cbn.
  destruct (answered _ _) as [res|] eqn:Hr; [|done]. intros _. by exists r, l, res.
Qed.

Lemma turns_answered : is_Ok <$> answered_with (turns 8) 0 = Some true.
Proof. vm_compute. reflexivity. Qed.

Lemma racing_requests_are_answered_witness :
  ∃ r l resp, (turns 8).2 !! 0%nat = Some (mkThread r l) ∧ (length l ≤ 26)%nat ∧
    (well_formed resp ∨ ∃ wr r' w1 (w2 : W), gitHandler_ServeHTTP wr r' w1 = (Ok resp, w2)).
Proof.
  destruct (answered_at _ _ turns_answered) as (r & l & res & Hth & Hr).
  destruct (racing_requests_are_answered (db_Ping := ping) (redis_Ping := ping) config.Load w2
    (turns 8).1 (turns 8).2 0 r l) as [Hl Ha].
  - rewrite <- surjective_pairing. apply turns_reached.
  - exact Hth.
  - rewrite Hr in Ha. destruct Ha as (resp & _ & Hw). exists r, l, resp. split; [exact Hth|]. split; [exact Hl|exact Hw].
Defined.
End Demo.
End liveness.
