(* ===== verification/Main.v ===== *)
(** The two programs: [cmd/http-api/main.go] and [cmd/admin/main.go], with
    [database.Connect] and [store.NewRedisStore].  A program is a computation
    that ends in its exit status; what it prints or logs is left out.  The
    connections, the listener and the signals are calls to the outside. *)

From S2P Require Import Prelude.
From S2P Require Import Bytes.
From S2P Require Import Platform.
From S2P Require Import Database.
From S2P Require Import Integrity.
From S2P Require Import World.
From S2P Require Import RedisStore.
From S2P Require Import Session.
From S2P Require Import Users.
From S2P Require Import Totp.
From S2P Require Import Sso.
From S2P Require Import Orgs.
From S2P Require Import Filepath.
From S2P Require Import Disk.
From S2P Require Import Repos.
From S2P Require Import Http.
From S2P Require Import HttpAuth.
From S2P Require Import HttpForge.
From S2P Require Import HttpGit.
From S2P Require Import Mux.
From S2P Require Import RateLimit.
From S2P Require Import Config.
From S2P Require Import Seed.
From S2P Require Import Preserves.
From S2P Require Import Server.

(** [pgxpool.New], [pool.Ping] and [pool.Close]; [redis.NewClient],
    [client.Ping] and [client.Close]. *)
Class Connections (S : Type) := {
  pgxpool_New : string → M S unit;
  pgxpool_Ping : M S unit;
  pgxpool_Close : S → S;
  redis_NewClient : string → string → Z → S → S;
  redis_Ping : M S unit;
  redis_Close : M S unit;
}.

(** [http.Server] in its goroutine: the start of [ListenAndServe]; what comes
    first, the end of it or a signal; [Shutdown] with its deadline; and the end
    of [ListenAndServe] once more. *)
Class Listener (S : Type) := {
  go_ListenAndServe : string → Http.Handler S → S → S;
  first_event : M S (option error + unit);
  http_Shutdown : Z → M S unit;
  ListenAndServe_end : M S (option error);
}.

Definition http_ErrServerClosed : error := errors_New "net/http" "http: Server closed".

Module main.
Import http mux gitroutes.

(** A call that cannot fail. *)
Definition quietly {S} (f : S → S) : M S unit := λ s, (Ok tt, f s).

(** ** internal/database/database.go, internal/store/redis.go *)

Section connections.
Context {S : Type} `{Connections S}.

Definition Connect (cfg : database.Config) : M S unit :=
  mwrap "database connect: " (pgxpool_New (database.DSN cfg));;
  r ← attempt pgxpool_Ping;
  match r with
  | Err err => quietly pgxpool_Close;; fail (fmt_Errorf_w "database ping: " err EmptyString)
  | Ok _ => mret tt
  end.

Definition NewRedisStore (cfg : RedisConfig) : M S unit :=
  quietly (redis_NewClient (Addr cfg) (redis_Password cfg) (redis_DB cfg));;
  mwrap "redis ping: " redis_Ping.

Definition Close : M S unit := redis_Close.
End connections.

(** ** cmd/admin/main.go *)

Section admin.
Context {S : Type} `{Connections S} `{Environment} `{NetTime} `{user.Repository S}
  `{organization.Repository S} `{git.Repository S} `{Entropy S} `{Hasher S}.

Definition seed_input (cfg : config.Config) : seed.Input := {|
  seed.AdminName := config.SeedAdminName cfg; seed.AdminUsername := config.SeedAdminUsername cfg;
  seed.AdminEmail := config.SeedAdminEmail cfg; seed.AdminPassword := config.SeedAdminPassword cfg |}.

(** [os.Exit] does not run the deferred [db.Close()]. *)
Definition admin_main (Args : list string) : M S Z :=
  match Args with
  | [] | [_] => mret 2
  | _ :: command :: _ =>
      let cfg := config.Load in
      if config.Validate cfg is Some _ then mret 1
      else
        r ← attempt (Connect (config.Database cfg));
        match r with
        | Err _ => mret 1
        | Ok _ =>
            if bool_decide (command = "seed"%string) then
              if config.ValidateSeed cfg is Some _ then mret 1
              else
                r ← attempt (seed.Run (seed_input cfg));
                match r with
                | Err _ => mret 1
                | Ok _ => quietly pgxpool_Close;; mret 0
                end
            else mret 2
        end
  end.
End admin.

(** ** cmd/http-api/main.go *)

Section http_api.
Context {S : Type} `{Connections S} `{Listener S} `{Environment} `{NetTime}.
Context `{user.Repository S} `{session.Repository S} `{session.TokenStore S}
  `{totp.TOTPStore S} `{totp.TotpLib S} `{sso.Repository S} `{sso.StateStore S} `{sso.OAuth}
  `{sso.OAuthClient S} `{organization.Repository S} `{git.Repository S} `{Filesystem S} `{OsErrors}
  `{GitBackend S} `{Entropy S} `{Hasher S} `{Bcrypt} `{Uuid} `{Quoting} `{RedirectURL}.
Context `{JsonDecode accounts.registerRequest} `{JsonDecode accounts.loginRequest}
  `{JsonDecode accounts.totpVerifyRequest} `{JsonDecode forge.createOrganizationRequest}
  `{JsonDecode forge.addOrganizationUserRequest} `{JsonDecode forge.createRepositoryRequest}.
Context `{ratelimit.FloatTime} `{Clock S} `{ratelimit.ScriptRunner S} `{ratelimit.NetText}.

(** [err != nil && !errors.Is(err, http.ErrServerClosed)] *)
Definition server_failed (err : option error) : bool :=
  match err with Some e => negb (errors_Is e http_ErrServerClosed) | None => false end.

(** The health checks ping with the deadline of the request. *)
Definition http_main (db_Ping redis_Ping : Z → M S unit) : M S Z :=
  let cfg := config.Load in
  if config.Validate cfg is Some _ then mret 1
  else
    r ← attempt (Connect (config.Database cfg));
    match r with
    | Err _ => mret 1
    | Ok _ =>
        r ← attempt (NewRedisStore (config.Redis cfg));
        match r with
        | Err _ => mret 1
        | Ok _ =>
            let srv := server.NewServer (server.main_Config db_Ping redis_Ping cfg) in
            quietly (go_ListenAndServe (config.HTTPAddr cfg) srv);;
            event ← first_event;
            match event with
            | inl err => if server_failed err then mret 1 else mret 0
            | inr _ =>
                attempt (http_Shutdown (config.ShutdownTimeout cfg));;
                attempt Close;;
                quietly pgxpool_Close;;
                attempt ListenAndServe_end;;
                mret 0
            end
        end
    end.
End http_api.

(** ** What the admin program does to the database *)

#[export] Existing Instances user.Store_Repository organization.Store_Repository git.Store_Repository.

(** Opening and closing connections leaves the tables alone. *)
Class Bystander {R D} (conn : Connections (World R D)) : Prop := {
  New_db dsn : db_free (pgxpool_New dsn);
  Ping_db : db_free pgxpool_Ping;
  Close_db w : db (pgxpool_Close w) = db w;
}.

Section admin_theorems.
Context {R D : Type} `{PostgresLaws} `{OracleLaws} `{BcryptLaws} `{Environment} `{NetTime}.
Context `{!Connections (World R D)} `{!Bystander _}.
Implicit Types (w : World R D).

Lemma Connect_db cfg : db_free (Connect (S := World R D) cfg).
Proof.
  intros w. destruct (Connect cfg w) as [r w'] eqn:Hr. unfold Connect in Hr. cbn [snd].
  pose proof (New_db (database.DSN cfg) w) as Hnew. unfold mbind at 1, M_bind at 1, mwrap in Hr.
  destruct (pgxpool_New (database.DSN cfg) w) as [[[]|e] w1]; cbn in Hr, Hnew; [|congruence].
  apply M_bind_attempt_inv in Hr as (r2 & w2 & Hping & Hr).
  pose proof (Ping_db w1) as Hp. rewrite Hping in Hp. cbn in Hp.
  destruct r2; m_inv Hr; [congruence|].
  unfold quietly in *. simplify_eq. rewrite Close_db. congruence.
Qed.

Definition seeded d (i : seed.Input) : Prop :=
  ∃ u, seed.is_admin d i u ∧ seed.has_team d u ∧ seed.has_repo d u.

(** A run seeds, or else it leaves the tables alone and fails. *)
Lemma admin_main_inv Args w r w' :
  admin_main Args w = (r, w') →
  (db w' = db w ∧ (r = Ok 1 ∨ r = Ok 2)) ∨
  (Args !! 1%nat = Some "seed"%string ∧ config.Validate config.Load = None ∧
   config.ValidateSeed config.Load = None ∧
   ∃ w1 w2 r0, db w1 = db w ∧ seed.Run (seed_input config.Load) w1 = (r0, w2) ∧ db w' = db w2 ∧
     r = Ok (if is_Ok r0 then 0 else 1)).
Proof.
  intros Hr. unfold admin_main in Hr. destruct Args as [|prog [|command rest]]; [m_inv Hr; auto..|].
  cbv zeta in Hr. destruct (config.Validate config.Load) eqn:Hvalid; [m_inv Hr; auto|].
  apply M_bind_attempt_inv in Hr as (rc & w1 & Hconn & Hr).
  pose proof (Connect_db (config.Database config.Load) w) as Hdb. rewrite Hconn in Hdb. cbn in Hdb.
  destruct rc as [[]|e]; [|m_inv Hr; auto].
  case_bool_decide as Hcmd; [subst command|m_inv Hr; auto].
  destruct (config.ValidateSeed config.Load) eqn:Hseed; [m_inv Hr; auto|].
  apply M_bind_attempt_inv in Hr as (r0 & w2 & Hrun & Hr). right. do 3 (split; [done|]).
  exists w1, w2, r0. split; [done|]. split; [done|].
  destruct r0; [|by m_inv Hr]. unfold quietly, mbind, M_bind, mret, M_ret in Hr.
  injection Hr as <- <-. by rewrite Close_db.
Qed.

Lemma admin_main_seeds Args w :
  config.Validate config.Load = None → config.ValidateSeed config.Load = None →
  Args !! 1%nat = Some "seed"%string → is_Ok (Connect (config.Database config.Load) w).1 = true →
  (∀ w1, db w1 = db w → is_Ok (seed.Run (seed_input config.Load) w1).1 = true) →
  (admin_main Args w).1 = Ok 0.
Proof.
  intros Hvalid Hseed Hcmd Hconn Hrun. destruct Args as [|prog [|command rest]]; [done..|].
  injection Hcmd as ->. unfold admin_main. cbv zeta. rewrite Hvalid, Hseed, bool_decide_true by done.
  pose proof (Connect_db (config.Database config.Load) w) as Hdb.
  destruct (Connect (config.Database config.Load) w) as [[[]|e] w1] eqn:Hc; [|done].
  rewrite (M_bind_attempt_run _ _ _ _ _ Hc). specialize (Hrun w1 Hdb).
  destruct (seed.Run (seed_input config.Load) w1) as [[[]|e] w2] eqn:Hr; [|done].
  by rewrite (M_bind_attempt_run _ _ _ _ _ Hr).
Qed.

(** C32: For an admin username that its column stores unchanged, cmd/admin ends with
    status 0, 1 or 2; with 0 only as admin seed with a valid configuration and all seed
    variables, after which the database is seeded, and with connections up running it
    again gives 0 and changes nothing. With another command or an invalid configuration
    it leaves the database alone. *)
Theorem admin_exit_status Args w :
  Integrity (db w) →
  let cfg := config.Load in
  let i := seed_input cfg in
  pg_varchar 255 (seed.AdminUsername i) = Some (seed.AdminUsername i) →
  ∃ status, (admin_main Args w).1 = Ok status ∧
  (status = 0 ∨ status = 1 ∨ status = 2) ∧
  let w' := (admin_main Args w).2 in
  (status = 0 → Args !! 1%nat = Some "seed"%string ∧ config.Validate cfg = None ∧
     config.ValidateSeed cfg = None ∧ seeded (db w') i ∧
     (FaultFree → (∀ w1, is_Ok (Connect (config.Database cfg) w1).1 = true) →
        (admin_main Args w').1 = Ok 0 ∧ db (admin_main Args w').2 = db w')) ∧
  (Args !! 1%nat ≠ Some "seed"%string ∨ config.Validate cfg ≠ None ∨ config.ValidateSeed cfg ≠ None →
     db w' = db w).
Proof.
  intros Hi cfg i Hname. destruct (admin_main Args w) as [r w'] eqn:Hr. cbn [fst snd].
  apply admin_main_inv in Hr as [[Hdb Hst]|(Hcmd & Hvalid & Hseed & w1 & w2 & r0 & Hdb1 & Hrun & Hdb & ->)].
  { destruct Hst as [-> | ->]; eexists; (split; [done|]); (split; [auto|]); by split. }
  eexists. split; [done|]. split; [destruct r0; auto|]. split; [|naive_solver].
  destruct r0 as [[]|e]; [intros _|done].
  pose proof (seed.Run_Ok_fields _ _ _ Hrun) as Hfields.
  apply seed.Run_seeds_once in Hrun as (Hi2 & (u & Hu & Ht & Hg) & _); [|by rewrite Hdb1|done].
  do 3 (split; [done|]). rewrite Hdb. split; [by exists u|]. intros Hup Hconn.
  assert (Hagain : ∀ w3, db w3 = db w2 → ∃ w4, seed.Run i w3 = (Ok tt, w4) ∧ db w4 = db w2).
  { intros w3 Hd3. rewrite <- Hd3. apply (seed.Run_again i u); [done|by rewrite Hd3|done|by rewrite Hd3..]. }
  split.
  - apply admin_main_seeds; [done..|]. intros w3 Hd3. rewrite Hdb in Hd3.
    destruct (Hagain w3 Hd3) as (w4 & Hrun4 & _). unfold i, cfg in Hrun4. by rewrite Hrun4.
  - destruct (admin_main Args w') as [r w''] eqn:Hr. cbn [snd].
    apply admin_main_inv in Hr as [[-> _]|(_ & _ & _ & w3 & w4 & r0 & Hd3 & Hrun & -> & _)]; [done|].
    rewrite Hdb in Hd3. destruct (Hagain w3 Hd3) as (w5 & Hrun5 & Hd5).
    unfold i, cfg in Hrun5. rewrite Hrun in Hrun5. by injection Hrun5 as _ ->.
Qed.
End admin_theorems.

(** ** [admin seed] on an empty database *)

Module Demo.
Import Sim.
#[export] Existing Instances user.Demo.demo_bcrypt user.Demo.demo_bcrypt_laws.

Abbreviation W := (World (gmap string (string * Z)) unit).

Definition environ : list (string * string) := [
  ("REPOS_DIR", "/srv/repos"); ("SEED_ADMIN_NAME", "Ada"); ("SEED_ADMIN_USERNAME", "ada");
  ("SEED_ADMIN_EMAIL", "ada@example.org"); ("SEED_ADMIN_PASSWORD", "correct horse")]%string.

#[export] Instance demo_environment : Environment := λ key,
  match find (λ p, bool_decide (p.1 = key)) environ with Some p => p.2 | None => EmptyString end.

#[export] Instance demo_net_time : NetTime := {|
  time_ParseDuration _ := None; net_ResolveTCPAddr _ := None |}.

(** A database that accepts every connection. *)
#[export] Instance demo_connections : Connections W := {|
  pgxpool_New _ := mret tt; pgxpool_Ping := mret tt; pgxpool_Close w := w;
  redis_NewClient _ _ _ w := w; redis_Ping := mret tt; redis_Close := mret tt |}.

#[export] Instance demo_bystander : Bystander demo_connections.
Proof. by split. Qed.

Definition w0 : W := mkWorld empty_Database ∅ tt 0 0.
Definition args : list string := ["admin"; "seed"]%string.

Lemma demo_status : (admin_main args w0).1 = Ok 0.
Proof. vm_compute. reflexivity. Qed.

Lemma admin_exit_status_witness :
  seeded (db (admin_main args w0).2) (seed_input config.Load) ∧
  (admin_main args (admin_main args w0).2).1 = Ok 0.
Proof.
  destruct (admin_exit_status args w0 Integrity_empty) as (status & Hst & _ & Hseed & _).
  - vm_compute. reflexivity.
  - rewrite demo_status in Hst. injection Hst as <-.
    destruct (Hseed eq_refl) as (_ & _ & _ & Hs & Hagain). split; [exact Hs|].
    destruct (Hagain sim_fault_free) as [Ha _]; [reflexivity|exact Ha].
Defined.
End Demo.
End main.
